(** * rdpq: the RDP command queue of libdragon

    A shallow embedding of [src/rdpq/rdpq.c] (command writer, auto-sync
    engine, block recorder, submission glue, interrupt bridge, triangle
    coefficient computer) and of the tile bookkeeping of the validator in
    [src/rdpq/rdpq_debug.c], followed by the properties of the
    specification that are stated about them.

    Conventions.
    - C integers are [Z]; [uint32_t] and [int32_t] below are the wrap-around
      conversions to the 32-bit unsigned and signed ranges.
    - [float] is IEEE-754 binary32, taken from the standard library's
      [SpecFloat] (precision 24, exponent bound 128, round to nearest even).
    - Pointers are byte addresses in [Z]; [NULL] is 0.
    - A function that can hit a failed [assert] or undefined behaviour
      (out-of-bounds access, out-of-range float-to-int conversion) returns
      [option]; [None] is that outcome. *)

From stdpp Require Import base option list gmap.
From Stdlib Require Import ZArith QArith Qround Lia Bool.
From Stdlib Require Import Floats.SpecFloat.
Open Scope Z_scope.

(* ================================================================= *)
(** * Part I: definitions *)
(* ================================================================= *)

(** ** Machine integers *)

Definition uint32_t (z : Z) : Z := z mod 2 ^ 32.
Definition int32_t (z : Z) : Z := (z + 2 ^ 31) mod 2 ^ 32 - 2 ^ 31.

Definition NULL : Z := 0.

(** C's [a && b] on integers. *)
Definition c_and (a b : Z) : Z := if (a =? 0) || (b =? 0) then 0 else 1.

(** ** binary32 *)

Definition float := spec_float.

Declare Scope float_scope.
Delimit Scope float_scope with F.
Bind Scope float_scope with float.

Definition fadd : float -> float -> float := SFadd 24 128.
Definition fsub : float -> float -> float := SFsub 24 128.
Definition fmul : float -> float -> float := SFmul 24 128.
Definition fdiv : float -> float -> float := SFdiv 24 128.
Definition fneg : float -> float := SFopp.
Definition fabs : float -> float := SFabs.
Definition flt (a b : float) : bool := SFltb a b.
Definition fgt (a b : float) : bool := SFltb b a.
Definition fge (a b : float) : bool := SFleb b a.
Definition fle (a b : float) : bool := SFleb a b.

Infix "+" := fadd : float_scope.
Infix "-" := fsub : float_scope.
Infix "*" := fmul : float_scope.
Infix "/" := fdiv : float_scope.
Notation "- x" := (fneg x) : float_scope.

(** Conversion of an integer to binary32 (an int operand of a float
    operator, or an integer literal such as [4] in [v1[1]*4]). *)
Definition float_of_int (z : Z) : float := binary_normalize 24 128 z 0 false.

(** The binary32 numbers, among the values of [spec_float]. *)
Definition valid (x : float) : bool := valid_binary 24 128 x.

Definition is_finite (x : float) : bool :=
  match x with S754_zero _ | S754_finite _ _ _ => true | _ => false end.

Definition is_nan (x : float) : bool :=
  match x with S754_nan => true | _ => false end.

(** The value of a finite binary32 number, in units of [2^-149] (the
    smallest subnormal): every finite binary32 number is an integer number
    of such units. *)
Definition Zval (x : float) : Z :=
  match x with
  | S754_finite s m e => cond_Zopp s (Zpos m) * 2 ^ (e + 149)
  | _ => 0
  end.

(** The value of a finite binary32 number as a rational. *)
Definition F2Q (x : float) : Q := Zval x # (2 ^ 149)%positive.

(** [floorf]: the largest integral value not above [x].  Zeros, infinities
    and NaN are returned unchanged.  ([floor] on a [float] argument
    promotes it to double, which is exact, and yields the same value.) *)
Definition floorf (x : float) : float :=
  match x with
  | S754_finite s m e =>
      if 0 <=? e then x
      else binary_normalize 24 128 (cond_Zopp s (Zpos m) / 2 ^ (- e)) 0 s
  | _ => x
  end.

(** The integral part of [x], rounded toward zero; undefined on
    infinities and NaN. *)
Definition Ztrunc (x : float) : option Z :=
  match x with
  | S754_zero _ => Some 0
  | S754_finite s m e =>
      Some (cond_Zopp s (if 0 <=? e then Zpos m * 2 ^ e else Zpos m / 2 ^ (- e)))
  | _ => None
  end.

(** Conversion of a floating-point value to [int32_t] (a cast, or the
    conversion of a returned or assigned value): truncation; the behaviour
    is undefined when the integral part is not representable. *)
Definition int32_of_float (x : float) : option Z :=
  z ← Ztrunc x;
  if (- 2 ^ 31 <=? z) && (z <? 2 ^ 31) then Some z else None.

(** The value extended to the infinities, which lie beyond every finite
    binary32 number (all of magnitude below [2^277] in these units). *)
Definition Xval (x : float) : Z :=
  match x with
  | S754_infinity s => cond_Zopp s (2 ^ 300)
  | _ => Zval x
  end.

(** [m] followed by [k] zero bits, and the binary32 number [2^k]. *)
Definition pshl (m : positive) (k : nat) : positive := Nat.iter k xO m.
Definition pow2f (k : Z) : float := S754_finite false 8388608 (k - 23).

(** Float literals of the source. *)
Definition f32768 : float := Eval vm_compute in float_of_int 32768.
Definition f65536 : float := Eval vm_compute in float_of_int 65536.
Definition f4 : float := Eval vm_compute in float_of_int 4.
Definition f2048 : float := Eval vm_compute in float_of_int 2048.
Definition f1 : float := Eval vm_compute in float_of_int 1.
Definition f0 : float := S754_zero false.
(** [FLT_MIN], the smallest positive normal number, [2^-126]. *)
Definition FLT_MIN : float := S754_finite false 8388608 (-149).

(** ** Fixed point *)

(** [float_to_s16_16] (rdpq.c:390). *)
Definition float_to_s16_16 (f : float) : option Z :=
  if fge f f32768 then Some (int32_t 0x7FFFFFFF)
  else if flt f (- f32768)%F then Some (int32_t 0x80000000)
  else int32_of_float (floorf (f * f65536)%F).

(** [TRUNCATE_S11_2] (rdpq.c:387), on an [int32_t]: [>>] is the arithmetic
    shift. *)
Definition TRUNCATE_S11_2 (x : Z) : Z :=
  Z.lor (Z.land x 0x1fff) (Z.land (Z.shiftr x 18) (Z.lnot 0x1fff)).

(** Modelled from the spec: the codec's "encode field" operation, which
    masks a value and shifts it into place ([_carg] is declared in a header
    that is not part of the sources). *)
Definition _carg (value mask shift : Z) : Z :=
  uint32_t (Z.shiftl (Z.land value mask) shift).

(** ** Triangle coefficient computer *)

(** A vertex is an array of floats; [v + off] is kept as the pair of the
    array and the offset, and reading outside the array is undefined. *)
Definition vertex := list float.

Definition vget (v : vertex) (i : Z) : option float :=
  if i <? 0 then None else v !! Z.to_nat i.

Record rdpq_tri_edge_data_t := {
  hx : float; hy : float;
  mx : float; my : float;
  fy : float;
  ish : float;
  attr_factor : float;
}.

(** One line [if (a[k] > b[k]) SWAP(a, b)] of rdpq_triangle. *)
Definition swap_if_gt (k : Z) (a b : vertex) : option (vertex * vertex) :=
  ya ← vget a k; yb ← vget b k;
  Some (if fgt ya yb then (b, a) else (a, b)).

(** The vertex sort of [rdpq_triangle] (rdpq.c:667-669). *)
Definition rdpq_triangle_sort (pos_offset : Z) (v1 v2 v3 : vertex)
  : option (vertex * vertex * vertex) :=
  '(v1, v2) ← swap_if_gt (pos_offset + 1) v1 v2;
  '(v2, v3) ← swap_if_gt (pos_offset + 1) v2 v3;
  '(v1, v2) ← swap_if_gt (pos_offset + 1) v1 v2;
  Some (v1, v2, v3).

(** The Y coordinate in fixed point, as [__rdpq_write_edge_coeffs]
    computes [y1f], [y2f] and [y3f] (rdpq.c:426-428). *)
Definition edge_yf (y : float) : option Z :=
  TRUNCATE_S11_2 <$> int32_of_float (floorf (y * f4)%F).

(** [__rdpq_write_edge_coeffs] (rdpq.c:416): the edge data and the eight
    argument words written. [o] is the position offset already added to the
    three vertex pointers. *)
Definition __rdpq_write_edge_coeffs (tile level : Z) (o : Z) (v1 v2 v3 : vertex)
  : option (rdpq_tri_edge_data_t * list Z) :=
  x1 ← vget v1 o; x2 ← vget v2 o; x3 ← vget v3 o;
  v1y ← vget v1 (o + 1); v2y ← vget v2 (o + 1); v3y ← vget v3 (o + 1);
  let y1 := (floorf (v1y * f4) / f4)%F in
  let y2 := (floorf (v2y * f4) / f4)%F in
  let y3 := (floorf (v3y * f4) / f4)%F in
  y1f ← edge_yf v1y; y2f ← edge_yf v2y; y3f ← edge_yf v3y;
  let hx := (x3 - x1)%F in
  let hy := (y3 - y1)%F in
  let mx := (x2 - x1)%F in
  let my := (y2 - y1)%F in
  let lx := (x3 - x2)%F in
  let ly := (y3 - y2)%F in
  let nz := (hx * my - hy * mx)%F in
  let attr_factor := if fgt (fabs nz) FLT_MIN then (- f1 / nz)%F else f0 in
  let lft := if flt nz f0 then 1 else 0 in
  let ish := if fgt (fabs hy) FLT_MIN then (hx / hy)%F else f0 in
  let ism := if fgt (fabs my) FLT_MIN then (mx / my)%F else f0 in
  let isl := if fgt (fabs ly) FLT_MIN then (lx / ly)%F else f0 in
  let fy := (floorf y1 - y1)%F in
  let xh := (x1 + fy * ish)%F in
  let xm := (x1 + fy * ism)%F in
  let xl := x2 in
  xl_f ← float_to_s16_16 xl; isl_f ← float_to_s16_16 isl;
  xh_f ← float_to_s16_16 xh; ish_f ← float_to_s16_16 ish;
  xm_f ← float_to_s16_16 xm; ism_f ← float_to_s16_16 ism;
  Some ({| hx := hx; hy := hy; mx := mx; my := my; fy := fy; ish := ish;
           attr_factor := attr_factor |},
        [ Z.lor (Z.lor (Z.lor (_carg lft 0x1 23) (_carg level 0x7 19))
                       (_carg tile 0x7 16)) (_carg y3f 0x3FFF 0);
          Z.lor (_carg y2f 0x3FFF 16) (_carg y1f 0x3FFF 0);
          uint32_t xl_f; uint32_t isl_f;
          uint32_t xh_f; uint32_t ish_f;
          uint32_t xm_f; uint32_t ism_f ]).

(** The sixteen fixed-point shade coefficients, before packing. *)
Record shade_fixed := {
  final_r : Z; final_g : Z; final_b : Z; final_a : Z;
  DrDx_fixed : Z; DgDx_fixed : Z; DbDx_fixed : Z; DaDx_fixed : Z;
  DrDe_fixed : Z; DgDe_fixed : Z; DbDe_fixed : Z; DaDe_fixed : Z;
  DrDy_fixed : Z; DgDy_fixed : Z; DbDy_fixed : Z; DaDy_fixed : Z;
}.

(** The integer half ([x & 0xffff0000 | 0xffff & (y >> 16)]) and the
    fractional half ([x << 16 | y & 0xffff]) of a pair of coefficients. *)
Definition pack_hi (x y : Z) : Z :=
  uint32_t (Z.lor (Z.land x 0xffff0000) (Z.land 0xffff (Z.shiftr y 16))).
Definition pack_lo (x y : Z) : Z :=
  uint32_t (Z.lor (Z.shiftl x 16) (Z.land y 0xffff)).

(** The sixteen [rspq_write_arg] calls that close
    [__rdpq_write_shade_coeffs] (rdpq.c:515-530), in order. The last two
    are written with [&&] in the source. *)
Definition shade_pack (c : shade_fixed) : list Z :=
  [ pack_hi (final_r c) (final_g c);
    pack_hi (final_b c) (final_a c);
    pack_hi (DrDx_fixed c) (DgDx_fixed c);
    pack_hi (DbDx_fixed c) (DaDx_fixed c);
    pack_lo (final_r c) (final_g c);
    pack_lo (final_b c) (final_a c);
    pack_lo (DrDx_fixed c) (DgDx_fixed c);
    pack_lo (DbDx_fixed c) (DaDx_fixed c);
    pack_hi (DrDe_fixed c) (DgDe_fixed c);
    pack_hi (DbDe_fixed c) (DaDe_fixed c);
    pack_hi (DrDy_fixed c) (DgDy_fixed c);
    pack_hi (DbDy_fixed c) (DaDy_fixed c);
    pack_lo (DrDe_fixed c) (DgDe_fixed c);
    pack_lo (DbDe_fixed c) (DaDe_fixed c);
    uint32_t (Z.lor (Z.shiftl (DrDy_fixed c) 16) (c_and (DgDy_fixed c) 0xffff));
    uint32_t (Z.lor (Z.shiftl (DbDy_fixed c) 16) (c_and (DaDy_fixed c) 0xffff)) ].

(** The float part of [__rdpq_write_shade_coeffs] (rdpq.c:463-513). *)
Definition shade_coeffs (data : rdpq_tri_edge_data_t) (o : Z) (v1 v2 v3 : vertex)
  : option shade_fixed :=
  r1 ← vget v1 o; g1 ← vget v1 (o + 1); b1 ← vget v1 (o + 2); a1 ← vget v1 (o + 3);
  r2 ← vget v2 o; g2 ← vget v2 (o + 1); b2 ← vget v2 (o + 2); a2 ← vget v2 (o + 3);
  r3 ← vget v3 o; g3 ← vget v3 (o + 1); b3 ← vget v3 (o + 2); a3 ← vget v3 (o + 3);
  let mr := (r2 - r1)%F in let mg := (g2 - g1)%F in
  let mb := (b2 - b1)%F in let ma := (a2 - a1)%F in
  let hr := (r3 - r1)%F in let hg := (g3 - g1)%F in
  let hb := (b3 - b1)%F in let ha := (a3 - a1)%F in
  let nxR := (hy data * mr - my data * hr)%F in
  let nxG := (hy data * mg - my data * hg)%F in
  let nxB := (hy data * mb - my data * hb)%F in
  let nxA := (hy data * ma - my data * ha)%F in
  let nyR := (mx data * hr - hx data * mr)%F in
  let nyG := (mx data * hg - hx data * mg)%F in
  let nyB := (mx data * hb - hx data * mb)%F in
  let nyA := (mx data * ha - hx data * ma)%F in
  let DrDx := (nxR * attr_factor data)%F in
  let DgDx := (nxG * attr_factor data)%F in
  let DbDx := (nxB * attr_factor data)%F in
  let DaDx := (nxA * attr_factor data)%F in
  let DrDy := (nyR * attr_factor data)%F in
  let DgDy := (nyG * attr_factor data)%F in
  let DbDy := (nyB * attr_factor data)%F in
  let DaDy := (nyA * attr_factor data)%F in
  let DrDe := (DrDy + DrDx * ish data)%F in
  let DgDe := (DgDy + DgDx * ish data)%F in
  let DbDe := (DbDy + DbDx * ish data)%F in
  let DaDe := (DaDy + DaDx * ish data)%F in
  fr ← float_to_s16_16 (r1 + fy data * DrDe)%F;
  fg ← float_to_s16_16 (g1 + fy data * DgDe)%F;
  fb ← float_to_s16_16 (b1 + fy data * DbDe)%F;
  fa ← float_to_s16_16 (a1 + fy data * DaDe)%F;
  rx ← float_to_s16_16 DrDx; gx ← float_to_s16_16 DgDx;
  bx ← float_to_s16_16 DbDx; ax ← float_to_s16_16 DaDx;
  re ← float_to_s16_16 DrDe; ge ← float_to_s16_16 DgDe;
  be ← float_to_s16_16 DbDe; ae ← float_to_s16_16 DaDe;
  ry ← float_to_s16_16 DrDy; gy ← float_to_s16_16 DgDy;
  by_ ← float_to_s16_16 DbDy; ay ← float_to_s16_16 DaDy;
  Some {| final_r := fr; final_g := fg; final_b := fb; final_a := fa;
          DrDx_fixed := rx; DgDx_fixed := gx; DbDx_fixed := bx; DaDx_fixed := ax;
          DrDe_fixed := re; DgDe_fixed := ge; DbDe_fixed := be; DaDe_fixed := ae;
          DrDy_fixed := ry; DgDy_fixed := gy; DbDy_fixed := by_; DaDy_fixed := ay |}.

(** [__rdpq_write_shade_coeffs] (rdpq.c:461): the sixteen words written. *)
Definition __rdpq_write_shade_coeffs (data : rdpq_tri_edge_data_t) (o : Z)
    (v1 v2 v3 : vertex) : option (list Z) :=
  shade_pack <$> shade_coeffs data o v1 v2 v3.

(** [__rdpq_write_zbuf_coeffs] (rdpq.c:617). *)
Definition __rdpq_write_zbuf_coeffs (data : rdpq_tri_edge_data_t) (o : Z)
    (v1 v2 v3 : vertex) : option (list Z) :=
  z1 ← vget v1 o; z2 ← vget v2 o; z3 ← vget v3 o;
  let mz := (z2 - z1)%F in
  let hz := (z3 - z1)%F in
  let nxz := (hy data * mz - my data * hz)%F in
  let nyz := (mx data * hz - hx data * mz)%F in
  let DzDx := (nxz * attr_factor data)%F in
  let DzDy := (nyz * attr_factor data)%F in
  let DzDe := (DzDy + DzDx * ish data)%F in
  final_z ← float_to_s16_16 (z1 + fy data * DzDe)%F;
  DzDx_fixed ← float_to_s16_16 DzDx;
  DzDe_fixed ← float_to_s16_16 DzDe;
  DzDy_fixed ← float_to_s16_16 DzDy;
  Some [uint32_t final_z; uint32_t DzDx_fixed; uint32_t DzDe_fixed; uint32_t DzDy_fixed].

(** [MAX] on floats: [a > b ? a : b]. *)
Definition fmax (a b : float) : float := if fgt a b then a else b.

(** [__rdpq_write_tex_coeffs] (rdpq.c:534): the sixteen words written. *)
Definition __rdpq_write_tex_coeffs (data : rdpq_tri_edge_data_t) (o : Z)
    (v1 v2 v3 : vertex) : option (list Z) :=
  s1 ← vget v1 o; t1 ← vget v1 (o + 1); w1 ← vget v1 (o + 2);
  s2 ← vget v2 o; t2 ← vget v2 (o + 1); w2 ← vget v2 (o + 2);
  s3 ← vget v3 o; t3 ← vget v3 (o + 1); w3 ← vget v3 (o + 2);
  let w_factor := (f1 / fmax (fmax w1 w2) w3)%F in
  let w1 := (w1 * w_factor)%F in
  let w2 := (w2 * w_factor)%F in
  let w3 := (w3 * w_factor)%F in
  let s1 := (s1 * w1)%F in let t1 := (t1 * w1)%F in
  let s2 := (s2 * w2)%F in let t2 := (t2 * w2)%F in
  let s3 := (s3 * w3)%F in let t3 := (t3 * w3)%F in
  let w1 := (w1 * float_of_int 0x7FFF)%F in
  let w2 := (w2 * float_of_int 0x7FFF)%F in
  let w3 := (w3 * float_of_int 0x7FFF)%F in
  let ms := (s2 - s1)%F in let mt := (t2 - t1)%F in let mw := (w2 - w1)%F in
  let hs := (s3 - s1)%F in let ht := (t3 - t1)%F in let hw := (w3 - w1)%F in
  let nxS := (hy data * ms - my data * hs)%F in
  let nxT := (hy data * mt - my data * ht)%F in
  let nxW := (hy data * mw - my data * hw)%F in
  let nyS := (mx data * hs - hx data * ms)%F in
  let nyT := (mx data * ht - hx data * mt)%F in
  let nyW := (mx data * hw - hx data * mw)%F in
  let DsDx := (nxS * attr_factor data)%F in
  let DtDx := (nxT * attr_factor data)%F in
  let DwDx := (nxW * attr_factor data)%F in
  let DsDy := (nyS * attr_factor data)%F in
  let DtDy := (nyT * attr_factor data)%F in
  let DwDy := (nyW * attr_factor data)%F in
  let DsDe := (DsDy + DsDx * ish data)%F in
  let DtDe := (DtDy + DtDx * ish data)%F in
  let DwDe := (DwDy + DwDx * ish data)%F in
  final_s ← float_to_s16_16 (s1 + fy data * DsDe)%F;
  final_t ← float_to_s16_16 (t1 + fy data * DtDe)%F;
  final_w ← float_to_s16_16 (w1 + fy data * DwDe)%F;
  DsDx_fixed ← float_to_s16_16 DsDx;
  DtDx_fixed ← float_to_s16_16 DtDx;
  DwDx_fixed ← float_to_s16_16 DwDx;
  DsDe_fixed ← float_to_s16_16 DsDe;
  DtDe_fixed ← float_to_s16_16 DtDe;
  DwDe_fixed ← float_to_s16_16 DwDe;
  DsDy_fixed ← float_to_s16_16 DsDy;
  DtDy_fixed ← float_to_s16_16 DtDy;
  DwDy_fixed ← float_to_s16_16 DwDy;
  Some [ pack_hi final_s final_t;
         uint32_t (Z.land final_w 0xffff0000);
         pack_hi DsDx_fixed DtDx_fixed;
         uint32_t (Z.land DwDx_fixed 0xffff0000);
         pack_lo final_s final_t;
         uint32_t (Z.shiftl final_w 16);
         pack_lo DsDx_fixed DtDx_fixed;
         uint32_t (Z.shiftl DwDx_fixed 16);
         pack_hi DsDe_fixed DtDe_fixed;
         uint32_t (Z.land DwDe_fixed 0xffff0000);
         pack_hi DsDy_fixed DtDy_fixed;
         uint32_t (Z.land DwDy_fixed 0xffff0000);
         pack_lo DsDe_fixed DtDe_fixed;
         uint32_t (Z.shiftl DwDe_fixed 16);
         uint32_t (Z.lor (Z.shiftl DsDy_fixed 16) (c_and DtDy_fixed 0xffff));
         uint32_t (Z.shiftl DwDy_fixed 16) ].

(** The 64-bit RDP words made of consecutive pairs of 32-bit arguments,
    high word first. *)
Fixpoint words64 (args : list Z) : list Z :=
  match args with
  | hi :: lo :: rest => Z.lor (Z.shiftl hi 32) lo :: words64 rest
  | _ => []
  end.

(** Bits [lo .. lo+15] of a 64-bit word. *)
Definition field16 (w lo : Z) : Z := Z.land (Z.shiftr w lo) 0xffff.

(** ** Constants and macros of headers that are not part of the sources

    [rdpq.h], [rdpq_block.h], [rspq.h], [rspq_commands.h] and [n64sys.h]
    declare the names below; the development is parametric in them. *)
Class Headers := {
  PhysicalAddr : Z -> Z;
  CachedAddr : Z -> Z;
  RSPQ_CMD_RDP : Z;
  RSPQ_CMD_RDP_WAIT_IDLE : Z;
  RDPQ_CMD_TRI : Z;
  RDPQ_CMD_SYNC_FULL : Z;
  RDPQ_CMD_SYNC_FULL_FIX : Z;
  RDPQ_CMD_SYNC_PIPE : Z;
  RDPQ_CMD_SYNC_TILE : Z;
  RDPQ_CMD_SYNC_LOAD : Z;
  RDPQ_CMD_SET_OTHER_MODES : Z;
  RDPQ_CMD_SET_OTHER_MODES_FIX : Z;
  RDPQ_CMD_SET_FILL_COLOR_32 : Z;
  RDPQ_CMD_SET_FILL_COLOR_32_FIX : Z;
  AUTOSYNC_TILE : Z -> Z;
  AUTOSYNC_TILES : Z;
  AUTOSYNC_TMEMS : Z;
  AUTOSYNC_PIPE : Z;
  RDPQ_CFG_AUTOSYNCPIPE : Z;
  RDPQ_CFG_AUTOSYNCLOAD : Z;
  RDPQ_CFG_AUTOSYNCTILE : Z;
  (** [sizeof(rdpq_block_t)]: the header ([next], [autosync_state]) that
      precedes the flexible array member [cmds]. *)
  sizeof_rdpq_block_t : Z;
}.

(** ** Command writer, auto-sync engine, block recorder *)

Definition RDPQ_MAX_COMMAND_SIZE : Z := 44.
Definition RDPQ_BLOCK_MIN_SIZE : Z := 64.
Definition RDPQ_BLOCK_MAX_SIZE : Z := 4192.
Definition RDPQ_OVL_ID : Z := uint32_t (Z.shiftl 0xC 28).

(** The header of an [rdpq_block_t]; its payload [cmds] lives in [mem]. *)
Record rdpq_block_t := {
  next : Z;
  autosync_state : Z;
}.

(** A command handed to the writer: its id and its argument words. *)
Definition rdp_cmd : Type := Z * list Z.

(** The file-scope variables of rdpq.c, followed by the part of the
    environment they act on: the RSP queue cursor, RDRAM, the block headers
    and the uncached heap.  [emitted] is a ghost log of the commands passed
    to [rdpq_dynamic_write] and [rdpq_static_write], oldest first. *)
Record rdpq := {
  rdpq_block_ptr : Z;
  rdpq_block_end : Z;
  rdpq_block_active : bool;
  rdpq_config : Z;
  rdpq_autosync_state0 : Z;
  rdpq_autosync_state1 : Z;
  rdpq_block : Z;
  rdpq_block_first : Z;
  rdpq_block_size : Z;
  last_rdp_cmd : Z;
  rspq_cur_pointer : Z;
  mem : gmap Z Z;
  blocks : gmap Z rdpq_block_t;
  heap : gmap Z Z;
  heap_top : Z;
  emitted : list rdp_cmd;
}.

Definition set_rdpq_block_ptr (v : Z) (s : rdpq) : rdpq :=
  {| rdpq_block_ptr := v; rdpq_block_end := rdpq_block_end s;
     rdpq_block_active := rdpq_block_active s; rdpq_config := rdpq_config s;
     rdpq_autosync_state0 := rdpq_autosync_state0 s;
     rdpq_autosync_state1 := rdpq_autosync_state1 s;
     rdpq_block := rdpq_block s; rdpq_block_first := rdpq_block_first s;
     rdpq_block_size := rdpq_block_size s; last_rdp_cmd := last_rdp_cmd s;
     rspq_cur_pointer := rspq_cur_pointer s; mem := mem s; blocks := blocks s;
     heap := heap s; heap_top := heap_top s; emitted := emitted s |}.
Definition set_rdpq_block_end (v : Z) (s : rdpq) : rdpq :=
  {| rdpq_block_ptr := rdpq_block_ptr s; rdpq_block_end := v;
     rdpq_block_active := rdpq_block_active s; rdpq_config := rdpq_config s;
     rdpq_autosync_state0 := rdpq_autosync_state0 s;
     rdpq_autosync_state1 := rdpq_autosync_state1 s;
     rdpq_block := rdpq_block s; rdpq_block_first := rdpq_block_first s;
     rdpq_block_size := rdpq_block_size s; last_rdp_cmd := last_rdp_cmd s;
     rspq_cur_pointer := rspq_cur_pointer s; mem := mem s; blocks := blocks s;
     heap := heap s; heap_top := heap_top s; emitted := emitted s |}.
Definition set_rdpq_block_active (v : bool) (s : rdpq) : rdpq :=
  {| rdpq_block_ptr := rdpq_block_ptr s; rdpq_block_end := rdpq_block_end s;
     rdpq_block_active := v; rdpq_config := rdpq_config s;
     rdpq_autosync_state0 := rdpq_autosync_state0 s;
     rdpq_autosync_state1 := rdpq_autosync_state1 s;
     rdpq_block := rdpq_block s; rdpq_block_first := rdpq_block_first s;
     rdpq_block_size := rdpq_block_size s; last_rdp_cmd := last_rdp_cmd s;
     rspq_cur_pointer := rspq_cur_pointer s; mem := mem s; blocks := blocks s;
     heap := heap s; heap_top := heap_top s; emitted := emitted s |}.
Definition set_rdpq_config (v : Z) (s : rdpq) : rdpq :=
  {| rdpq_block_ptr := rdpq_block_ptr s; rdpq_block_end := rdpq_block_end s;
     rdpq_block_active := rdpq_block_active s; rdpq_config := v;
     rdpq_autosync_state0 := rdpq_autosync_state0 s;
     rdpq_autosync_state1 := rdpq_autosync_state1 s;
     rdpq_block := rdpq_block s; rdpq_block_first := rdpq_block_first s;
     rdpq_block_size := rdpq_block_size s; last_rdp_cmd := last_rdp_cmd s;
     rspq_cur_pointer := rspq_cur_pointer s; mem := mem s; blocks := blocks s;
     heap := heap s; heap_top := heap_top s; emitted := emitted s |}.
Definition set_rdpq_autosync_state0 (v : Z) (s : rdpq) : rdpq :=
  {| rdpq_block_ptr := rdpq_block_ptr s; rdpq_block_end := rdpq_block_end s;
     rdpq_block_active := rdpq_block_active s; rdpq_config := rdpq_config s;
     rdpq_autosync_state0 := v;
     rdpq_autosync_state1 := rdpq_autosync_state1 s;
     rdpq_block := rdpq_block s; rdpq_block_first := rdpq_block_first s;
     rdpq_block_size := rdpq_block_size s; last_rdp_cmd := last_rdp_cmd s;
     rspq_cur_pointer := rspq_cur_pointer s; mem := mem s; blocks := blocks s;
     heap := heap s; heap_top := heap_top s; emitted := emitted s |}.
Definition set_rdpq_autosync_state1 (v : Z) (s : rdpq) : rdpq :=
  {| rdpq_block_ptr := rdpq_block_ptr s; rdpq_block_end := rdpq_block_end s;
     rdpq_block_active := rdpq_block_active s; rdpq_config := rdpq_config s;
     rdpq_autosync_state0 := rdpq_autosync_state0 s;
     rdpq_autosync_state1 := v;
     rdpq_block := rdpq_block s; rdpq_block_first := rdpq_block_first s;
     rdpq_block_size := rdpq_block_size s; last_rdp_cmd := last_rdp_cmd s;
     rspq_cur_pointer := rspq_cur_pointer s; mem := mem s; blocks := blocks s;
     heap := heap s; heap_top := heap_top s; emitted := emitted s |}.
Definition set_rdpq_block (v : Z) (s : rdpq) : rdpq :=
  {| rdpq_block_ptr := rdpq_block_ptr s; rdpq_block_end := rdpq_block_end s;
     rdpq_block_active := rdpq_block_active s; rdpq_config := rdpq_config s;
     rdpq_autosync_state0 := rdpq_autosync_state0 s;
     rdpq_autosync_state1 := rdpq_autosync_state1 s;
     rdpq_block := v; rdpq_block_first := rdpq_block_first s;
     rdpq_block_size := rdpq_block_size s; last_rdp_cmd := last_rdp_cmd s;
     rspq_cur_pointer := rspq_cur_pointer s; mem := mem s; blocks := blocks s;
     heap := heap s; heap_top := heap_top s; emitted := emitted s |}.
Definition set_rdpq_block_first (v : Z) (s : rdpq) : rdpq :=
  {| rdpq_block_ptr := rdpq_block_ptr s; rdpq_block_end := rdpq_block_end s;
     rdpq_block_active := rdpq_block_active s; rdpq_config := rdpq_config s;
     rdpq_autosync_state0 := rdpq_autosync_state0 s;
     rdpq_autosync_state1 := rdpq_autosync_state1 s;
     rdpq_block := rdpq_block s; rdpq_block_first := v;
     rdpq_block_size := rdpq_block_size s; last_rdp_cmd := last_rdp_cmd s;
     rspq_cur_pointer := rspq_cur_pointer s; mem := mem s; blocks := blocks s;
     heap := heap s; heap_top := heap_top s; emitted := emitted s |}.
Definition set_rdpq_block_size (v : Z) (s : rdpq) : rdpq :=
  {| rdpq_block_ptr := rdpq_block_ptr s; rdpq_block_end := rdpq_block_end s;
     rdpq_block_active := rdpq_block_active s; rdpq_config := rdpq_config s;
     rdpq_autosync_state0 := rdpq_autosync_state0 s;
     rdpq_autosync_state1 := rdpq_autosync_state1 s;
     rdpq_block := rdpq_block s; rdpq_block_first := rdpq_block_first s;
     rdpq_block_size := v; last_rdp_cmd := last_rdp_cmd s;
     rspq_cur_pointer := rspq_cur_pointer s; mem := mem s; blocks := blocks s;
     heap := heap s; heap_top := heap_top s; emitted := emitted s |}.
Definition set_last_rdp_cmd (v : Z) (s : rdpq) : rdpq :=
  {| rdpq_block_ptr := rdpq_block_ptr s; rdpq_block_end := rdpq_block_end s;
     rdpq_block_active := rdpq_block_active s; rdpq_config := rdpq_config s;
     rdpq_autosync_state0 := rdpq_autosync_state0 s;
     rdpq_autosync_state1 := rdpq_autosync_state1 s;
     rdpq_block := rdpq_block s; rdpq_block_first := rdpq_block_first s;
     rdpq_block_size := rdpq_block_size s; last_rdp_cmd := v;
     rspq_cur_pointer := rspq_cur_pointer s; mem := mem s; blocks := blocks s;
     heap := heap s; heap_top := heap_top s; emitted := emitted s |}.
Definition set_rspq_cur_pointer (v : Z) (s : rdpq) : rdpq :=
  {| rdpq_block_ptr := rdpq_block_ptr s; rdpq_block_end := rdpq_block_end s;
     rdpq_block_active := rdpq_block_active s; rdpq_config := rdpq_config s;
     rdpq_autosync_state0 := rdpq_autosync_state0 s;
     rdpq_autosync_state1 := rdpq_autosync_state1 s;
     rdpq_block := rdpq_block s; rdpq_block_first := rdpq_block_first s;
     rdpq_block_size := rdpq_block_size s; last_rdp_cmd := last_rdp_cmd s;
     rspq_cur_pointer := v; mem := mem s; blocks := blocks s;
     heap := heap s; heap_top := heap_top s; emitted := emitted s |}.
Definition set_mem (v : gmap Z Z) (s : rdpq) : rdpq :=
  {| rdpq_block_ptr := rdpq_block_ptr s; rdpq_block_end := rdpq_block_end s;
     rdpq_block_active := rdpq_block_active s; rdpq_config := rdpq_config s;
     rdpq_autosync_state0 := rdpq_autosync_state0 s;
     rdpq_autosync_state1 := rdpq_autosync_state1 s;
     rdpq_block := rdpq_block s; rdpq_block_first := rdpq_block_first s;
     rdpq_block_size := rdpq_block_size s; last_rdp_cmd := last_rdp_cmd s;
     rspq_cur_pointer := rspq_cur_pointer s; mem := v; blocks := blocks s;
     heap := heap s; heap_top := heap_top s; emitted := emitted s |}.
Definition set_blocks (v : gmap Z rdpq_block_t) (s : rdpq) : rdpq :=
  {| rdpq_block_ptr := rdpq_block_ptr s; rdpq_block_end := rdpq_block_end s;
     rdpq_block_active := rdpq_block_active s; rdpq_config := rdpq_config s;
     rdpq_autosync_state0 := rdpq_autosync_state0 s;
     rdpq_autosync_state1 := rdpq_autosync_state1 s;
     rdpq_block := rdpq_block s; rdpq_block_first := rdpq_block_first s;
     rdpq_block_size := rdpq_block_size s; last_rdp_cmd := last_rdp_cmd s;
     rspq_cur_pointer := rspq_cur_pointer s; mem := mem s; blocks := v;
     heap := heap s; heap_top := heap_top s; emitted := emitted s |}.
Definition set_heap (v : gmap Z Z) (top : Z) (s : rdpq) : rdpq :=
  {| rdpq_block_ptr := rdpq_block_ptr s; rdpq_block_end := rdpq_block_end s;
     rdpq_block_active := rdpq_block_active s; rdpq_config := rdpq_config s;
     rdpq_autosync_state0 := rdpq_autosync_state0 s;
     rdpq_autosync_state1 := rdpq_autosync_state1 s;
     rdpq_block := rdpq_block s; rdpq_block_first := rdpq_block_first s;
     rdpq_block_size := rdpq_block_size s; last_rdp_cmd := last_rdp_cmd s;
     rspq_cur_pointer := rspq_cur_pointer s; mem := mem s; blocks := blocks s;
     heap := v; heap_top := top; emitted := emitted s |}.
Definition set_emitted (v : list rdp_cmd) (s : rdpq) : rdpq :=
  {| rdpq_block_ptr := rdpq_block_ptr s; rdpq_block_end := rdpq_block_end s;
     rdpq_block_active := rdpq_block_active s; rdpq_config := rdpq_config s;
     rdpq_autosync_state0 := rdpq_autosync_state0 s;
     rdpq_autosync_state1 := rdpq_autosync_state1 s;
     rdpq_block := rdpq_block s; rdpq_block_first := rdpq_block_first s;
     rdpq_block_size := rdpq_block_size s; last_rdp_cmd := last_rdp_cmd s;
     rspq_cur_pointer := rspq_cur_pointer s; mem := mem s; blocks := blocks s;
     heap := heap s; heap_top := heap_top s; emitted := v |}.

(** Word access to RDRAM. A word never written reads as 0. *)
Definition load (a : Z) (s : rdpq) : Z := default 0 (mem s !! a).
Definition store (a v : Z) (s : rdpq) : rdpq := set_mem (<[a := v]> (mem s)) s.

Fixpoint store_words (a : Z) (ws : list Z) (s : rdpq) : rdpq :=
  match ws with
  | [] => s
  | w :: ws' => store_words (a + 4) ws' (store a w s)
  end.

Definition set_next (b : Z) (h : rdpq_block_t) : rdpq_block_t :=
  {| next := b; autosync_state := autosync_state h |}.
Definition set_autosync_state (v : Z) (h : rdpq_block_t) : rdpq_block_t :=
  {| next := next h; autosync_state := v |}.

(** Modelled from the spec: "the memory allocator providing uncached
    DMA-safe buffers" ([malloc_uncached] and [free_uncached] are outside
    the sources). Buffers are carved from the top of a heap at 16-byte
    boundaries; [heap] maps each live buffer to its size in bytes. *)
Definition malloc_uncached (size : Z) (s : rdpq) : Z * rdpq :=
  let b := (heap_top s + 15) / 16 * 16 in
  (b, set_heap (<[b := size]> (heap s)) (b + size) s).

Definition free_uncached (b : Z) (s : rdpq) : rdpq :=
  set_blocks (delete b (blocks s)) (set_heap (delete b (heap s)) (heap_top s) s).

Section Rdpq.
Context `{Hdr : Headers}.

(** Modelled from the spec: the CP's queue primitive ("hand the command to
    the CP's ring buffer, an external primitive [queue_push]").  [rspq_write]
    puts the overlay and command id in the top byte of the first word, ORs
    the first argument into it, appends the other arguments and advances
    [rspq_cur_pointer]; the queue is taken as one unbounded buffer. *)
Definition rspq_write (ovl_id cmd_id arg0 : Z) (args : list Z) (s : rdpq) : rdpq :=
  let w0 := uint32_t (Z.lor (ovl_id + Z.shiftl cmd_id 24) arg0) in
  let s := store_words (rspq_cur_pointer s) (w0 :: map uint32_t args) s in
  set_rspq_cur_pointer (rspq_cur_pointer s + 4 * (1 + Z.of_nat (length args))) s.

(** Modelled from the spec: a "CP-level instruction", that is [rspq_write]
    for the queue's own overlay 0. *)
Definition rspq_int_write (cmd_id arg0 : Z) (args : list Z) (s : rdpq) : rdpq :=
  rspq_write 0 cmd_id arg0 args s.

Definition log_cmd (cmd_id : Z) (args : list Z) (s : rdpq) : rdpq :=
  set_emitted (emitted s ++ [(cmd_id, args)]) s.

(** [autosync_use] (rdpq.c:154). *)
Definition autosync_use (res : Z) (s : rdpq) : rdpq :=
  set_rdpq_autosync_state0 (Z.lor (rdpq_autosync_state0 s) res) s.

(** [__rdpq_block_flush] (rdpq.c:170). *)
Definition __rdpq_block_flush (start end_ : Z) (s : rdpq) : option rdpq :=
  if negb (Z.land (uint32_t start) 0x7 =? 0) then None
  else if negb (Z.land (uint32_t end_) 0x7 =? 0) then None
  else
    let phys_start := PhysicalAddr start in
    let phys_end := PhysicalAddr end_ in
    let diff := uint32_t ((rspq_cur_pointer s - last_rdp_cmd s) / 4) in
    if (diff =? 2) && (Z.land (load (last_rdp_cmd s) s) 0xFFFFFF =? phys_start)
    then
      Some (store (last_rdp_cmd s)
                  (uint32_t (Z.lor (Z.shiftl RSPQ_CMD_RDP 24) phys_end)) s)
    else
      let s := set_last_rdp_cmd (rspq_cur_pointer s) s in
      Some (rspq_int_write RSPQ_CMD_RDP phys_end [phys_start] s).

(** [__rdpq_block_switch_buffer] (rdpq.c:191); [new] is a [uint32_t*]. *)
Definition __rdpq_block_switch_buffer (new size : Z) (s : rdpq) : option rdpq :=
  if negb (RDPQ_MAX_COMMAND_SIZE <=? size) then None
  else
    let s := set_rdpq_block_ptr new s in
    let s := set_rdpq_block_end (new + 4 * (size - RDPQ_MAX_COMMAND_SIZE)) s in
    __rdpq_block_flush (rdpq_block_ptr s) (rdpq_block_ptr s) s.

(** [__rdpq_block_next_buffer] (rdpq.c:203). The fields of the fresh
    header that the code does not write are taken as 0. *)
Definition __rdpq_block_next_buffer (s : rdpq) : option rdpq :=
  let '(b, s) := malloc_uncached (sizeof_rdpq_block_t + rdpq_block_size s * 4) s in
  let s := set_blocks (<[b := {| next := NULL; autosync_state := 0 |}]> (blocks s)) s in
  let s := if rdpq_block s =? NULL then s
           else set_blocks (alter (set_next b) (rdpq_block s) (blocks s)) s in
  let s := set_rdpq_block b s in
  let s := if rdpq_block_first s =? NULL then set_rdpq_block_first b s else s in
  s ← __rdpq_block_switch_buffer (rdpq_block s + sizeof_rdpq_block_t)
         (rdpq_block_size s) s;
  Some (if rdpq_block_size s <? RDPQ_BLOCK_MAX_SIZE
        then set_rdpq_block_size (rdpq_block_size s * 2) s else s).

(** [__rdpq_block_begin] (rdpq.c:221). *)
Definition __rdpq_block_begin (s : rdpq) : rdpq :=
  let s := set_rdpq_block_active true s in
  let s := set_rdpq_block NULL s in
  let s := set_rdpq_block_first NULL s in
  let s := set_last_rdp_cmd NULL s in
  let s := set_rdpq_block_size RDPQ_BLOCK_MIN_SIZE s in
  let s := set_rdpq_autosync_state1 (rdpq_autosync_state0 s) s in
  set_rdpq_autosync_state0 0xFFFFFFFF s.

(** [__rdpq_block_end] (rdpq.c:237): the returned block and the state. *)
Definition __rdpq_block_end (s : rdpq) : Z * rdpq :=
  let ret := rdpq_block_first s in
  let s := set_rdpq_block_active false s in
  let s := if rdpq_block_first s =? NULL then s
           else set_blocks (alter (set_autosync_state (rdpq_autosync_state0 s))
                                  (rdpq_block_first s) (blocks s)) s in
  let s := set_rdpq_autosync_state0 (rdpq_autosync_state1 s) s in
  let s := set_rdpq_block_first NULL s in
  let s := set_rdpq_block NULL s in
  let s := set_last_rdp_cmd NULL s in
  (ret, s).

(** [__rdpq_block_run] (rdpq.c:254); reading the header of a block that is
    not live is undefined. *)
Definition __rdpq_block_run (block : Z) (s : rdpq) : option rdpq :=
  if block =? NULL then Some s
  else h ← blocks s !! block;
       Some (set_rdpq_autosync_state0 (autosync_state h) s).

(** The loop of [__rdpq_block_free]; each iteration releases one live
    buffer, so [fuel] above the number of live headers is never used up. *)
Fixpoint block_free_loop (fuel : nat) (block : Z) (s : rdpq) : option rdpq :=
  if block =? NULL then Some s
  else match fuel with
       | O => None
       | S fuel' =>
           h ← blocks s !! block;
           block_free_loop fuel' (next h) (free_uncached block s)
       end.

(** [__rdpq_block_free] (rdpq.c:262). *)
Definition __rdpq_block_free (block : Z) (s : rdpq) : option rdpq :=
  block_free_loop (S (size (blocks s))) block s.

(** [__rdpq_block_check] (rdpq.c:271). *)
Definition __rdpq_block_check (s : rdpq) : option rdpq :=
  if rdpq_block_active s && (rdpq_block s =? NULL)
  then __rdpq_block_next_buffer s else Some s.

(** [rdpq_dynamic_write] (rdpq.c:284). *)
Definition rdpq_dynamic_write (cmd_id arg0 : Z) (args : list Z) (s : rdpq) : rdpq :=
  rspq_write RDPQ_OVL_ID cmd_id arg0 args (log_cmd cmd_id (arg0 :: args) s).

(** [rdpq_static_write] (rdpq.c:288). *)
Definition rdpq_static_write (cmd_id arg0 : Z) (args : list Z) (s : rdpq)
  : option rdpq :=
  let s := log_cmd cmd_id (arg0 :: args) s in
  let w0 := uint32_t (Z.lor (RDPQ_OVL_ID + Z.shiftl cmd_id 24) arg0) in
  let ptr := rdpq_block_ptr s + 4 * (1 + Z.of_nat (length args)) in
  let s := store_words (rdpq_block_ptr s) (w0 :: map uint32_t args) s in
  s ← __rdpq_block_flush (rdpq_block_ptr s) ptr s;
  let s := set_rdpq_block_ptr ptr s in
  if rdpq_block_end s <? rdpq_block_ptr s then __rdpq_block_next_buffer s
  else Some s.

(** [rdpq_static_skip] (rdpq.c:298); [size] counts words. *)
Definition rdpq_static_skip (size : Z) (s : rdpq) : option rdpq :=
  let s := set_rdpq_block_ptr (rdpq_block_ptr s + 4 * size) s in
  if rdpq_block_end s <? rdpq_block_ptr s then __rdpq_block_next_buffer s
  else Some s.

Definition in_block (s : rdpq) : bool := rdpq_block_active s.

(** [rdpq_write] (rdpq.c:308). *)
Definition rdpq_write (cmd_id arg0 : Z) (args : list Z) (s : rdpq) : option rdpq :=
  if in_block s then
    s ← __rdpq_block_check s;
    rdpq_static_write cmd_id arg0 args s
  else Some (rdpq_dynamic_write cmd_id arg0 args s).

(** [rdpq_fixup_write] (rdpq.c:317). *)
Definition rdpq_fixup_write (cmd_id_dyn cmd_id_fix skip_size arg0 : Z)
    (args : list Z) (s : rdpq) : option rdpq :=
  if in_block s then
    s ← __rdpq_block_check s;
    rdpq_static_skip skip_size (rdpq_dynamic_write cmd_id_fix arg0 args s)
  else Some (rdpq_dynamic_write cmd_id_dyn arg0 args s).

Definition rdpq_fixup_write8 (cmd_id_dyn cmd_id_fix skip_size arg0 arg1 : Z) :=
  rdpq_fixup_write cmd_id_dyn cmd_id_fix skip_size arg0 [arg1].

Definition __rdpq_write8 (cmd_id arg0 arg1 : Z) (s : rdpq) : option rdpq :=
  rdpq_write cmd_id arg0 [arg1] s.

Definition __rdpq_write16 (cmd_id arg0 arg1 arg2 arg3 : Z) (s : rdpq) : option rdpq :=
  rdpq_write cmd_id arg0 [arg1; arg2; arg3] s.

(** [rdpq_sync_pipe], [rdpq_sync_tile], [rdpq_sync_load] (rdpq.c:770-786). *)
Definition rdpq_sync_pipe (s : rdpq) : option rdpq :=
  s ← __rdpq_write8 RDPQ_CMD_SYNC_PIPE 0 0 s;
  Some (set_rdpq_autosync_state0
          (Z.land (rdpq_autosync_state0 s) (uint32_t (Z.lnot AUTOSYNC_PIPE))) s).

Definition rdpq_sync_tile (s : rdpq) : option rdpq :=
  s ← __rdpq_write8 RDPQ_CMD_SYNC_TILE 0 0 s;
  Some (set_rdpq_autosync_state0
          (Z.land (rdpq_autosync_state0 s) (uint32_t (Z.lnot AUTOSYNC_TILES))) s).

Definition rdpq_sync_load (s : rdpq) : option rdpq :=
  s ← __rdpq_write8 RDPQ_CMD_SYNC_LOAD 0 0 s;
  Some (set_rdpq_autosync_state0
          (Z.land (rdpq_autosync_state0 s) (uint32_t (Z.lnot AUTOSYNC_TMEMS))) s).

(** [autosync_change] (rdpq.c:158). *)
Definition autosync_change (res : Z) (s : rdpq) : option rdpq :=
  let res := Z.land res (rdpq_autosync_state0 s) in
  if res =? 0 then Some s
  else
    s ← (if negb (Z.land res AUTOSYNC_TILES =? 0)
            && negb (Z.land (rdpq_config s) RDPQ_CFG_AUTOSYNCTILE =? 0)
         then rdpq_sync_tile s else Some s);
    s ← (if negb (Z.land res AUTOSYNC_TMEMS =? 0)
            && negb (Z.land (rdpq_config s) RDPQ_CFG_AUTOSYNCLOAD =? 0)
         then rdpq_sync_load s else Some s);
    if negb (Z.land res AUTOSYNC_PIPE =? 0)
       && negb (Z.land (rdpq_config s) RDPQ_CFG_AUTOSYNCPIPE =? 0)
    then rdpq_sync_pipe s else Some s.

Definition __rdpq_write8_syncchange (cmd_id arg0 arg1 autosync : Z) (s : rdpq) :=
  s ← autosync_change autosync s; __rdpq_write8 cmd_id arg0 arg1 s.

Definition __rdpq_write8_syncuse (cmd_id arg0 arg1 autosync : Z) (s : rdpq) :=
  __rdpq_write8 cmd_id arg0 arg1 (autosync_use autosync s).

Definition __rdpq_write8_syncchangeuse (cmd_id arg0 arg1 autosync_c autosync_u : Z)
    (s : rdpq) :=
  s ← autosync_change autosync_c s;
  __rdpq_write8 cmd_id arg0 arg1 (autosync_use autosync_u s).

(** [__rdpq_set_fill_color] (rdpq.c:705). *)
Definition __rdpq_set_fill_color (w1 : Z) (s : rdpq) : option rdpq :=
  s ← autosync_change AUTOSYNC_PIPE s;
  rdpq_fixup_write8 RDPQ_CMD_SET_FILL_COLOR_32 RDPQ_CMD_SET_FILL_COLOR_32_FIX 2 0 w1 s.

(** [__rdpq_set_other_modes] (rdpq.c:726). *)
Definition __rdpq_set_other_modes (w0 w1 : Z) (s : rdpq) : option rdpq :=
  s ← autosync_change AUTOSYNC_PIPE s;
  if in_block s then
    s ← __rdpq_block_check s;
    s ← rdpq_static_write RDPQ_CMD_SET_OTHER_MODES w0 [w1] s;
    rdpq_static_skip 2 (rdpq_dynamic_write RDPQ_CMD_SET_OTHER_MODES_FIX w0 [w1] s)
  else Some (rdpq_dynamic_write RDPQ_CMD_SET_OTHER_MODES w0 [w1] s).

(** [rdpq_sync_full] (rdpq.c:750); [callback] and [arg] are addresses. *)
Definition rdpq_sync_full (callback arg : Z) (s : rdpq) : option rdpq :=
  let w0 := PhysicalAddr callback in
  let w1 := uint32_t arg in
  s ← (if in_block s then
         s ← __rdpq_block_check s;
         rdpq_static_write RDPQ_CMD_SYNC_FULL w0 [w1]
           (rdpq_dynamic_write RDPQ_CMD_SYNC_FULL_FIX w0 [w1] s)
       else Some (rdpq_dynamic_write RDPQ_CMD_SYNC_FULL w0 [w1] s));
  Some (set_rdpq_autosync_state0 0 s).

(** [rdpq_fence] (rdpq.c:130). *)
Definition rdpq_fence (s : rdpq) : option rdpq :=
  s ← rdpq_sync_full NULL NULL s;
  Some (rspq_int_write RSPQ_CMD_RDP_WAIT_IDLE 0 [] s).

(** The command built by [rdpq_triangle] (rdpq.c:649-684): the command
    id, the size in words and the argument words, in the order of the
    [rspq_write_arg] calls. *)
Definition rdpq_triangle_args
    (tile level pos_offset shade_offset tex_offset z_offset : Z)
    (v1 v2 v3 : vertex) : option (Z * Z * list Z) :=
  let cmd_id := RDPQ_CMD_TRI in
  let size := 8 in
  let '(size, cmd_id) :=
    if 0 <=? shade_offset then (size + 16, Z.lor cmd_id 0x4) else (size, cmd_id) in
  let '(size, cmd_id) :=
    if 0 <=? tex_offset then (size + 16, Z.lor cmd_id 0x2) else (size, cmd_id) in
  let '(size, cmd_id) :=
    if 0 <=? z_offset then (size + 4, Z.lor cmd_id 0x1) else (size, cmd_id) in
  '(v1, v2, v3) ← rdpq_triangle_sort pos_offset v1 v2 v3;
  '(data, edge) ← __rdpq_write_edge_coeffs tile level pos_offset v1 v2 v3;
  shade ← (if 0 <=? shade_offset
           then __rdpq_write_shade_coeffs data shade_offset v1 v2 v3 else Some []);
  texw ← (if 0 <=? tex_offset
          then __rdpq_write_tex_coeffs data tex_offset v1 v2 v3 else Some []);
  zbuf ← (if 0 <=? z_offset
          then __rdpq_write_zbuf_coeffs data z_offset v1 v2 v3 else Some []);
  Some (cmd_id, size, edge ++ shade ++ texw ++ zbuf).

(** [rdpq_triangle] (rdpq.c:641). Modelled from the spec for the queue
    side: [rspq_write_begin], [rspq_write_arg] and [rspq_write_end] put the
    command in the CP's queue like [rspq_write]. *)
Definition rdpq_triangle
    (tile level pos_offset shade_offset tex_offset z_offset : Z)
    (v1 v2 v3 : vertex) (s : rdpq) : option rdpq :=
  let res := AUTOSYNC_PIPE in
  let res := if 0 <=? tex_offset then Z.lor res (AUTOSYNC_TILE tile) else res in
  let s := autosync_use res s in
  '(cmd_id, _, args) ← rdpq_triangle_args tile level pos_offset shade_offset
                         tex_offset z_offset v1 v2 v3;
  match args with
  | arg0 :: args => Some (rspq_write RDPQ_OVL_ID cmd_id arg0 args s)
  | [] => None
  end.

End Rdpq.

(** ** Interrupt bridge *)

(** What the SYNC_FULL handler does to the outside, in order. *)
Inductive irq_event :=
  | ClearSyncFull            (* *SP_STATUS = SP_WSTATUS_CLEAR_SIG_RDPSYNCFULL *)
  | Callback (fn arg : Z).   (* callback(arg) *)

(** The RSP side seen by the handler: the RDPSYNCFULL signal of
    [SP_STATUS], the [sync_full] field of the overlay state, and the trace
    of the handler's actions, oldest first. *)
Record rsp := {
  sig_rdpsyncfull : bool;
  sync_full : Z;
  irq_trace : list irq_event;
}.

(** Modelled from the spec: "a shadow copy of the last-executed SYNC_FULL
    is read from the RDP's reserved state area"; the RSP microcode that
    stores it is outside the sources. The copy of a command whose two words
    are [w0] and [w1]: *)
Definition sync_full_shadow (w0 w1 : Z) : Z := Z.lor (Z.shiftl w0 32) w1.

Section Interrupt.
Context `{Hdr : Headers}.

(** [__rdpq_interrupt] (rdpq.c:50). *)
Definition __rdpq_interrupt (r : rsp) : option rsp :=
  if negb (sig_rdpsyncfull r) then None
  else
    let w0 := Z.land (Z.shiftr (sync_full r) 32) 0x00FFFFFF in
    let w1 := Z.land (Z.shiftr (sync_full r) 0) 0xFFFFFFFF in
    let r := {| sig_rdpsyncfull := false; sync_full := sync_full r;
                irq_trace := irq_trace r ++ [ClearSyncFull] |} in
    if w0 =? 0 then Some r
    else
      let callback := CachedAddr (Z.lor w0 0x80000000) in
      let arg := w1 in
      Some {| sig_rdpsyncfull := sig_rdpsyncfull r; sync_full := sync_full r;
              irq_trace := irq_trace r ++ [Callback callback arg] |}.

End Interrupt.

(** ** Validator: tile bookkeeping *)

(** [BITS] (rdpq_debug.c:60) on a 64-bit word, and [BIT]. *)
Definition BITS (v b e : Z) : Z :=
  uint32_t (Z.shiftr (Z.shiftl v (63 - e) mod 2 ^ 64) (63 - e + b)).
Definition BIT (v b : Z) : Z := BITS v b b.

Record cc_slots := { suba : Z; subb : Z; mul : Z; add : Z }.
Record cc_cycle_s := { rgb : cc_slots; alpha : cc_slots }.
Record colorcombiner_t := { cyc0 : cc_cycle_s; cyc1 : cc_cycle_s }.

(** [decode_cc] (rdpq_debug.c:309). *)
Definition decode_cc (cc : Z) : colorcombiner_t :=
  {| cyc0 := {| rgb := {| suba := BITS cc 52 55; subb := BITS cc 28 31;
                          mul := BITS cc 47 51; add := BITS cc 15 17 |};
                alpha := {| suba := BITS cc 44 46; subb := BITS cc 12 14;
                            mul := BITS cc 41 43; add := BITS cc 9 11 |} |};
     cyc1 := {| rgb := {| suba := BITS cc 37 40; subb := BITS cc 24 27;
                          mul := BITS cc 32 36; add := BITS cc 6 8 |};
                alpha := {| suba := BITS cc 21 23; subb := BITS cc 3 5;
                            mul := BITS cc 18 20; add := BITS cc 0 2 |} |} |}.

(** The fields of [setothermodes_t] that the tile bookkeeping reads. *)
Record setothermodes_t := {
  cycle_type : Z;
  tlut_enable : bool;
  sample_type : Z;
  tf_mode : Z;
}.

(** [decode_som] (rdpq_debug.c:322), restricted to those fields. *)
Definition decode_som (som : Z) : setothermodes_t :=
  {| cycle_type := BITS som 52 53;
     tlut_enable := negb (BIT som 47 =? 0);
     sample_type := BITS som 44 45;
     tf_mode := BITS som 41 43 |}.

Record tile_s := {
  fmt : Z; tsize : Z;
  pal : Z;
  has_extents : bool;
  s0 : float; t0 : float; s1 : float; t1 : float;
  tmem_addr : Z;
  tmem_pitch : Z;
}.

(** The part of the validator's [rdp] mirror (rdpq_debug.c:110) and of
    [vctx] used by [use_tile]. [busy_tile] and [tile] are the 8-entry
    arrays [rdp.busy.tile] and [rdp.tile]; [busy_tmem] is the 64-byte bit
    array [rdp.busy.tmem]. *)
Record rdp_t := {
  busy_tile : list bool;
  busy_tmem : list Z;
  som : setothermodes_t;
  cc : colorcombiner_t;
  tile : list tile_s;
  warns : Z;
  errs : Z;
}.

Definition set_busy_tile (v : list bool) (r : rdp_t) : rdp_t :=
  {| busy_tile := v; busy_tmem := busy_tmem r; som := som r; cc := cc r;
     tile := tile r; warns := warns r; errs := errs r |}.
Definition set_busy_tmem (v : list Z) (r : rdp_t) : rdp_t :=
  {| busy_tile := busy_tile r; busy_tmem := v; som := som r; cc := cc r;
     tile := tile r; warns := warns r; errs := errs r |}.

(** [validate_emit_error] (rdpq_debug.c:623): the counters; the text sent
    to stderr is left out. *)
Definition validate_emit_error (flags : Z) (r : rdp_t) : rdp_t :=
  if negb (Z.land flags 1 =? 0)
  then {| busy_tile := busy_tile r; busy_tmem := busy_tmem r; som := som r;
          cc := cc r; tile := tile r; warns := warns r + 1; errs := errs r |}
  else {| busy_tile := busy_tile r; busy_tmem := busy_tmem r; som := som r;
          cc := cc r; tile := tile r; warns := warns r; errs := errs r + 1 |}.

Definition __VALIDATE (flags : Z) (cond : bool) (r : rdp_t) : rdp_t :=
  if cond then r else validate_emit_error flags r.
Definition VALIDATE_ERR := __VALIDATE 0.
Definition VALIDATE_ERR_SOM := __VALIDATE 2.

(** Array access: an index outside the array is undefined behaviour. *)
Definition index {A} (l : list A) (i : Z) : option A :=
  if (0 <=? i) && (i <? Z.of_nat (length l)) then l !! Z.to_nat i else None.
Definition assign {A} (l : list A) (i : Z) (x : A) : option (list A) :=
  if (0 <=? i) && (i <? Z.of_nat (length l)) then Some (<[Z.to_nat i := x]> l)
  else None.

(** [cc_use_tex1] (rdpq_debug.c:681). *)
Definition cc_use_tex1 (r : rdp_t) : bool :=
  let c0 := rgb (cyc0 (cc r)) in
  let c1 := rgb (cyc1 (cc r)) in
  if negb (cycle_type (som r) =? 1) then false
  else if Z.land (tf_mode (som r)) 3 =? 1 then false
  else
    ((suba c0 =? 2) || (subb c0 =? 2) || (mul c0 =? 2) || (mul c0 =? 9) || (add c0 =? 2))
    || ((suba c1 =? 1) || (subb c1 =? 1) || (mul c1 =? 1) || (mul c0 =? 8) || (add c1 =? 1)).

(** [rdp.busy.tmem[x/8] |= 1 << (x&7)] and [rdp.busy.tmem[x/8] = 0xFF]. *)
Definition tmem_set_bit (x : Z) (r : rdp_t) : option rdp_t :=
  b ← index (busy_tmem r) (Z.quot x 8);
  l ← assign (busy_tmem r) (Z.quot x 8)
        (Z.land (Z.lor b (Z.shiftl 1 (Z.land x 7))) 0xFF);
  Some (set_busy_tmem l r).
Definition tmem_set_byte (x : Z) (r : rdp_t) : option rdp_t :=
  l ← assign (busy_tmem r) (Z.quot x 8) 0xFF;
  Some (set_busy_tmem l r).

(** The three loops of [mark_busy_tmem]. Each iteration advances [x]
    towards [x1], so [fuel = x1 - x] iterations are never exceeded. *)
Fixpoint mark_head (fuel : nat) (x x1 : Z) (r : rdp_t) : option (Z * rdp_t) :=
  match fuel with
  | S fuel' =>
      if negb (Z.land x 7 =? 0) && (x <? x1)
      then r ← tmem_set_bit x r; mark_head fuel' (x + 1) x1 r
      else Some (x, r)
  | O => Some (x, r)
  end.
Fixpoint mark_bytes (fuel : nat) (x x1 : Z) (r : rdp_t) : option (Z * rdp_t) :=
  match fuel with
  | S fuel' =>
      if x + 8 <? x1
      then r ← tmem_set_byte x r; mark_bytes fuel' (x + 8) x1 r
      else Some (x, r)
  | O => Some (x, r)
  end.
Fixpoint mark_tail (fuel : nat) (x x1 : Z) (r : rdp_t) : option rdp_t :=
  match fuel with
  | S fuel' =>
      if x <? x1
      then r ← tmem_set_bit x r; mark_tail fuel' (x + 1) x1 r
      else Some r
  | O => Some r
  end.

(** [mark_busy_tmem] (rdpq_debug.c:836); [/] on [int] truncates. *)
Definition mark_busy_tmem (addr size : Z) (r : rdp_t) : option rdp_t :=
  let x0 := Z.quot (Z.min addr 0x1000) 8 in
  let x1 := Z.quot (Z.min (addr + size) 0x1000) 8 in
  let fuel := Z.to_nat (x1 - x0) in
  '(x, r) ← mark_head fuel x0 x1 r;
  '(x, r) ← mark_bytes fuel x x1 r;
  mark_tail fuel x x1 r.

(** The byte counts [(t->t1-t->t0+1)*t->tmem_pitch] and the same [/ 2],
    computed in [float] and converted to the [int] parameter. *)
Definition tile_bytes (t : tile_s) : option Z :=
  int32_of_float ((t1 t - t0 t + float_of_int 1) * float_of_int (tmem_pitch t))%F.
Definition tile_bytes_half (t : tile_s) : option Z :=
  int32_of_float ((t1 t - t0 t + float_of_int 1) * float_of_int (tmem_pitch t)
                  / float_of_int 2)%F.

(** The render-mode checks of [use_tile] (rdpq_debug.c:867-889) for the
    tile descriptor [t]. *)
Definition use_tile_checks (t : tile_s) (cycle : Z) (r : rdp_t) : rdp_t :=
  let r :=
    if cycle_type (som r) <? 2 then
      if fmt t =? 1 then
        let r := VALIDATE_ERR_SOM
                   (Z.land (tf_mode (som r)) (Z.shiftr 4 cycle) =? 0) r in
        if 1 <? sample_type (som r) then
          let r := VALIDATE_ERR_SOM
                     ((tf_mode (som r) =? 6) && (cycle_type (som r) =? 1)) r in
          VALIDATE_ERR_SOM (cycle_type (som r) =? 1) r
        else r
      else
        VALIDATE_ERR_SOM
          (negb (Z.land (tf_mode (som r)) (Z.shiftr 4 cycle) =? 0)) r
    else r in
  if fmt t =? 2 then VALIDATE_ERR_SOM (tlut_enable (som r)) r
  else VALIDATE_ERR_SOM (negb (tlut_enable (som r))) r.

(** The [switch (t->fmt)] of [use_tile] (rdpq_debug.c:892-910), which
    marks the TMEM areas the tile uses. *)
Definition use_tile_mark (t : tile_s) (r : rdp_t) : option rdp_t :=
  if (fmt t =? 0) || (fmt t =? 3) || (fmt t =? 4) then
    if tsize t =? 3 then
      n ← tile_bytes_half t;
      r ← mark_busy_tmem (tmem_addr t) n r;
      mark_busy_tmem (tmem_addr t + 0x800) n r
    else
      n ← tile_bytes t;
      mark_busy_tmem (tmem_addr t) n r
  else if fmt t =? 1 then
    n ← tile_bytes_half t;
    r ← mark_busy_tmem (tmem_addr t) n r;
    mark_busy_tmem (tmem_addr t + 0x800) n r
  else if fmt t =? 2 then
    n ← tile_bytes t;
    r ← mark_busy_tmem (tmem_addr t) n r;
    r ← (if tsize t =? 0 then mark_busy_tmem (0x800 + pal t * 64) 64 r else Some r);
    if tsize t =? 1 then mark_busy_tmem 0x800 0x800 r else Some r
  else Some r.

(** The body of [use_tile] (rdpq_debug.c:862-910), up to the recursive
    call. *)
Definition use_tile_body (tidx cycle : Z) (r : rdp_t) : option rdp_t :=
  t ← index (tile r) tidx;
  let r := VALIDATE_ERR (has_extents t) r in
  bt ← assign (busy_tile r) tidx true;
  let r := set_busy_tile bt r in
  use_tile_mark t (use_tile_checks t cycle r).

(** [use_tile] (rdpq_debug.c:862). The recursive call is made with
    [cycle = 1] and so does not recurse again. *)
Definition use_tile (tidx cycle : Z) (r : rdp_t) : option rdp_t :=
  r ← use_tile_body tidx cycle r;
  if (cycle =? 0) && cc_use_tex1 r then use_tile_body (tidx + 1) 1 r
  else Some r.

(** The tile operand of a texture rectangle, as [rdpq_validate] passes it
    to [use_tile] (rdpq_debug.c:1008). *)
Definition tex_rect_tile (w : Z) : Z := BITS w 24 26.

(* ================================================================= *)
(** * Auxiliary definitions used by the statements *)
(* ================================================================= *)

(** ** Triangle coefficient computer *)

(** [float_to_s16_16] as a function of the (extended) value of its
    argument. *)
Definition s16_16_of_Xval (v : Z) : Z :=
  if 2 ^ 164 <=? v then 2 ^ 31 - 1
  else if v <? - 2 ^ 164 then - 2 ^ 31
  else v * 2 ^ 16 / 2 ^ 149.

(** The Y coordinates that the signed 11.2 field can hold:
    [-2048 <= y < 2048]. *)
Definition y_in_range (y : float) : bool := fle (- f2048)%F y && flt y f2048.

(** The six orders of three things. *)
Definition orderings {A} (x y z : A) : list (A * A * A) :=
  [(x, y, z); (x, z, y); (y, x, z); (y, z, x); (z, x, y); (z, y, x)].

(** The vertex sort as the specification words it: the comparisons are
    made on the quantized Y, [edge_yf], not on the float. *)
Definition swap_if_gt_quantized (k : Z) (a b : vertex) : option (vertex * vertex) :=
  ya ← vget a k; yb ← vget b k;
  qa ← edge_yf ya; qb ← edge_yf yb;
  Some (if qb <? qa then (b, a) else (a, b)).

Definition sort_on_quantized_Y (pos_offset : Z) (v1 v2 v3 : vertex)
  : option (vertex * vertex * vertex) :=
  '(v1, v2) ← swap_if_gt_quantized (pos_offset + 1) v1 v2;
  '(v2, v3) ← swap_if_gt_quantized (pos_offset + 1) v2 v3;
  '(v1, v2) ← swap_if_gt_quantized (pos_offset + 1) v1 v2;
  Some (v1, v2, v3).

(** The integer and the fractional half of a 16.16 value. *)
Definition hi16 (x : Z) : Z := Z.land (Z.shiftr x 16) 0xffff.
Definition lo16 (x : Z) : Z := Z.land x 0xffff.

(** The four 16-bit fields of a 64-bit word, most significant first. *)
Definition fields (w : Z) : list Z :=
  [field16 w 48; field16 w 32; field16 w 16; field16 w 0].

(** Sample inputs. *)
Definition f_0_125 : float := pow2f (-3).
Definition f_0_1 : float := Eval vm_compute in (f1 / float_of_int 10)%F.
Definition f40000 : float := Eval vm_compute in float_of_int 40000.
Definition f10 : float := Eval vm_compute in float_of_int 10.
Definition f5 : float := Eval vm_compute in float_of_int 5.

(** Three vertices [x; y] whose first two Y, 0.125 and 0, differ by less
    than a quarter. *)
Definition tri_a : vertex := [f0; f_0_125].
Definition tri_b : vertex := [f1; f0].
Definition tri_c : vertex := [f0; f1].

(** Y coordinates at and past the ends of the signed 11.2 range: 2048,
    40000, -2048.25 and -2048. *)
Definition f_m2048_25 : float := S754_finite true 8389632 (-12).
Definition tri_d : vertex := [f0; f2048].
Definition tri_e : vertex := [f0; f40000].
Definition tri_f : vertex := [f0; f_m2048_25].
Definition tri_g : vertex := [f0; (- f2048)%F].

(** The first half of C1 as the specification words it: after the sort
    the quantized Y coordinates, as [__rdpq_write_edge_coeffs] computes
    them, are in non-decreasing order. *)
Definition quantized_in_order (pos_offset : Z) (v1 v2 v3 : vertex) : Prop :=
  exists a b c ya yb yc qa qb qc,
    rdpq_triangle_sort pos_offset v1 v2 v3 = Some (a, b, c) /\
    vget a (pos_offset + 1) = Some ya /\ vget b (pos_offset + 1) = Some yb /\
    vget c (pos_offset + 1) = Some yc /\
    edge_yf ya = Some qa /\ edge_yf yb = Some qb /\ edge_yf yc = Some qc /\
    qa <= qb <= qc.

(** A shaded triangle, vertices [x; y; r; g; b; a]: (0,0), (10,0), (5,10),
    red and opaque, with green rising from 0 to 1 along Y. *)
Definition shaded_a : vertex := [f0; f0; f1; f0; f0; f1].
Definition shaded_b : vertex := [f10; f0; f1; f0; f0; f1].
Definition shaded_c : vertex := [f5; f10; f1; f1; f0; f1].

(** ** Command writer, auto-sync engine, block recorder *)

Section RdpqAux.
Context `{Hdr : Headers}.

(** The state invariant under which the block-mode writer meets no failed
    assertion: while recording, buffers are large enough for one command
    and the write pointer is 8-byte aligned. *)
Definition wf (s : rdpq) : Prop :=
  rdpq_block_active s = true ->
  RDPQ_MAX_COMMAND_SIZE <= rdpq_block_size s /\
  (rdpq_block s <> NULL -> rdpq_block_ptr s mod 8 = 0).

(** A call that emits [cmds] and leaves the auto-sync engine alone. *)
Definition emits (cmds : list rdp_cmd) (s s' : rdpq) : Prop :=
  rdpq_config s' = rdpq_config s /\
  rdpq_autosync_state0 s' = rdpq_autosync_state0 s /\
  rdpq_autosync_state1 s' = rdpq_autosync_state1 s /\
  rdpq_block_active s' = rdpq_block_active s /\
  emitted s' = emitted s ++ cmds.

(** The three resource classes are sets of bits of a 32-bit mask, pairwise
    disjoint. *)
Definition autosync_classes_ok : Prop :=
  (0 <= AUTOSYNC_TILES < 2 ^ 32) /\ (0 <= AUTOSYNC_TMEMS < 2 ^ 32) /\
  (0 <= AUTOSYNC_PIPE < 2 ^ 32) /\
  Z.land AUTOSYNC_TILES AUTOSYNC_TMEMS = 0 /\
  Z.land AUTOSYNC_TILES AUTOSYNC_PIPE = 0 /\
  Z.land AUTOSYNC_TMEMS AUTOSYNC_PIPE = 0.

(** A call that emits [cmds] and maps the dirty mask by [f]. *)
Definition syncs (cmds : list rdp_cmd) (f : Z -> Z) (s s' : rdpq) : Prop :=
  rdpq_config s' = rdpq_config s /\
  rdpq_autosync_state0 s' = f (rdpq_autosync_state0 s) /\
  emitted s' = emitted s ++ cmds.

(** The first word of the CP-level submit instruction for the range ending
    at physical address [e]. *)
Definition submit_word (e : Z) : Z := uint32_t (Z.lor (Z.shiftl RSPQ_CMD_RDP 24) e).

(** The state left by [rdpq_init] (rdpq.c:75): the file-scope variables,
    zero where the code does not set them, with the RSP queue cursor at
    [cur], an empty RDRAM and an empty heap starting at [top]. *)
Definition rdpq_init (cur top : Z) : rdpq :=
  {| rdpq_block_ptr := NULL; rdpq_block_end := NULL;
     rdpq_block_active := false;
     rdpq_config := Z.lor (Z.lor RDPQ_CFG_AUTOSYNCPIPE RDPQ_CFG_AUTOSYNCLOAD)
                          RDPQ_CFG_AUTOSYNCTILE;
     rdpq_autosync_state0 := 0; rdpq_autosync_state1 := 0;
     rdpq_block := NULL; rdpq_block_first := NULL; rdpq_block_size := 0;
     last_rdp_cmd := NULL; rspq_cur_pointer := cur;
     mem := ∅; blocks := ∅; heap := ∅; heap_top := top; emitted := [] |}.

(** [n] consecutive calls of [__rdpq_write8]. *)
Fixpoint write8_n (n : nat) (cmd_id : Z) (s : rdpq) : option rdpq :=
  match n with
  | O => Some s
  | S n' => s ← __rdpq_write8 cmd_id 0 0 s; write8_n n' cmd_id s
  end.

(** The buffers of a block, following [next] from its head. *)
Fixpoint block_chain (fuel : nat) (b : Z) (s : rdpq) : list Z :=
  match fuel with
  | O => []
  | S fuel' =>
      if b =? NULL then []
      else b :: match blocks s !! b with
                | Some h => block_chain fuel' (next h) s
                | None => []
                end
  end.

(** The number of command words a buffer was allocated for. *)
Definition payload_words (s : rdpq) (b : Z) : Z :=
  (default 0 (heap s !! b) - sizeof_rdpq_block_t) / 4.

(** The payload sizes of the buffers of the block being recorded, in the
    order of allocation. *)
Definition block_sizes (s : rdpq) : list Z :=
  map (payload_words s) (block_chain 64 (rdpq_block_first s) s).

End RdpqAux.

(** [state &= ~mask], and the same under a condition. *)
Definition clear_class (mask st : Z) : Z := Z.land st (uint32_t (Z.lnot mask)).
Definition clear_if (c : bool) (mask st : Z) : Z :=
  if c then clear_class mask st else st.

(** The end pointer recorded in the first word of a submit instruction. *)
Definition recorded_end (w : Z) : Z := Z.land w 0xFFFFFF.

(** The size update that closes [__rdpq_block_next_buffer]. *)
Definition grow (n : Z) : Z := if n <? RDPQ_BLOCK_MAX_SIZE then n * 2 else n.

(** The callback-address field that [__rdpq_interrupt] extracts. *)
Definition callback_field (sync_full : Z) : Z :=
  Z.land (Z.shiftr sync_full 32) 0x00FFFFFF.

Definition is_callback (e : irq_event) : bool :=
  match e with Callback _ _ => true | ClearSyncFull => false end.

(** A concrete choice of the header constants, to run the model: the RDP
    opcodes are those the validator decodes (rdpq_debug.c:1025-1034), the
    dirty mask has one bit per tile, one per TMEM region and one for the
    pipe, and a block header is two words. *)
Definition sample_headers : Headers :=
  {| PhysicalAddr x := Z.land x 0x1FFFFFFF;
     CachedAddr x := Z.lor (Z.land x 0x1FFFFFFF) 0x80000000;
     RSPQ_CMD_RDP := 0x09;
     RSPQ_CMD_RDP_WAIT_IDLE := 0x0A;
     RDPQ_CMD_TRI := 0x08;
     RDPQ_CMD_SYNC_FULL := 0x29;
     RDPQ_CMD_SYNC_FULL_FIX := 0x2A;
     RDPQ_CMD_SYNC_PIPE := 0x27;
     RDPQ_CMD_SYNC_TILE := 0x28;
     RDPQ_CMD_SYNC_LOAD := 0x26;
     RDPQ_CMD_SET_OTHER_MODES := 0x2F;
     RDPQ_CMD_SET_OTHER_MODES_FIX := 0x01;
     RDPQ_CMD_SET_FILL_COLOR_32 := 0x16;
     RDPQ_CMD_SET_FILL_COLOR_32_FIX := 0x17;
     AUTOSYNC_TILE n := Z.shiftl 1 n;
     AUTOSYNC_TILES := 0xFF;
     AUTOSYNC_TMEMS := 0xFF00;
     AUTOSYNC_PIPE := 0x10000;
     RDPQ_CFG_AUTOSYNCPIPE := 1;
     RDPQ_CFG_AUTOSYNCLOAD := 2;
     RDPQ_CFG_AUTOSYNCTILE := 4;
     sizeof_rdpq_block_t := 8 |}.

Definition sample_init : rdpq := @rdpq_init sample_headers 0x1000 0x100000.

(** A recording in progress: [rdpq_init], [__rdpq_block_begin], then
    [rdpq_sync_pipe]. *)
Definition sample_recording : rdpq :=
  default sample_init
    (rdpq_sync_pipe (Hdr := sample_headers) (__rdpq_block_begin sample_init)).

(** A state with the pipe and tile 0 dirty. *)
Definition sample_dirty : rdpq :=
  autosync_use 0x10001 sample_init.

(** An RSP state at SYNC_FULL interrupt time, whose shadow copy carries the
    callback address [0x123456] and the argument [0xABC]. *)
Definition sample_rsp : rsp :=
  {| sig_rdpsyncfull := true;
     sync_full := sync_full_shadow 0x29123456 0xABC;
     irq_trace := [] |}.

(** ** Validator *)

(** What [use_tile] leaves alone apart from the counters and the TMEM
    bits: the tile descriptors, the render mode and, after its own mark,
    the busy tiles. *)
Definition same_modes (r r' : rdp_t) : Prop :=
  tile r' = tile r /\ som r' = som r /\ cc r' = cc r /\
  busy_tile r' = busy_tile r.

(** A 32x32 RGBA16 tile at the start of TMEM. *)
Definition sample_tile : tile_s :=
  {| fmt := 0; tsize := 2; pal := 0; has_extents := true;
     s0 := f0; t0 := f0; s1 := float_of_int 31; t1 := float_of_int 31;
     tmem_addr := 0; tmem_pitch := 64 |}.

(** SET_OTHER_MODES selecting 2-cycle mode, and SET_COMBINE with TEX1 as
    the first operand of cycle 0. *)
Definition som_2cycle : Z := Z.lor (Z.shiftl 0x2F 56) (Z.shiftl 1 52).
Definition cc_tex1 : Z := Z.lor (Z.shiftl 0x3C 56) (Z.shiftl 2 52).

(** TEXTURE_RECTANGLE on tile 7 and on tile 6. *)
Definition tex_rect_7 : Z := Z.lor (Z.shiftl 0x24 56) (Z.shiftl 7 24).
Definition tex_rect_6 : Z := Z.lor (Z.shiftl 0x24 56) (Z.shiftl 6 24).

(** The validator's mirror after those two mode commands, eight such
    tiles, nothing busy. *)
Definition sample_rdp : rdp_t :=
  {| busy_tile := replicate 8 false; busy_tmem := replicate 64 0;
     som := decode_som som_2cycle; cc := decode_cc cc_tex1;
     tile := replicate 8 sample_tile; warns := 0; errs := 0 |}.

(** ** Validator and disassembler: bit fields and command sizes *)

Definition int64_t (z : Z) : Z := (z + 2 ^ 63) mod 2 ^ 64 - 2 ^ 63.

(** [SBITS] (rdpq_debug.c:64): the word is converted to [int64_t] first,
    so that the right shift of [BITS] is arithmetic. *)
Definition SBITS (v b e : Z) : Z :=
  int32_t (uint32_t (Z.shiftr (int64_t (Z.shiftl (int64_t v) (63 - e)))
                              (63 - e + b))).

(** [rdpq_debug_disasm_size] (rdpq_debug.c:344): the number of 64-bit
    words of the command that starts with the word [w]. *)
Definition rdpq_debug_disasm_size (w : Z) : Z :=
  let op := BITS w 56 61 in
  if op =? 0x24 then 2
  else if op =? 0x25 then 2
  else if op =? 0x08 then 4
  else if op =? 0x09 then 6
  else if op =? 0x0A then 12
  else if op =? 0x0B then 14
  else if op =? 0x0C then 12
  else if op =? 0x0D then 14
  else if op =? 0x0E then 20
  else if op =? 0x0F then 22
  else 1.

(** The field of [w] that spans bits [b .. e], and the same read as a
    two's complement number. *)
Definition bitfield (w b e : Z) : Z := (w / 2 ^ b) mod 2 ^ (e - b + 1).
Definition sbitfield (w b e : Z) : Z :=
  (w / 2 ^ b + 2 ^ (e - b)) mod 2 ^ (e - b + 1) - 2 ^ (e - b).

(** The state after [rdpq_triangle] of the shaded triangle [shaded_a],
    [shaded_b], [shaded_c] on tile 3, outside a block. *)
Definition sample_triangle : option rdpq :=
  rdpq_triangle (Hdr := sample_headers) 3 0 0 2 (-1) (-1)
    shaded_a shaded_b shaded_c sample_init.
Definition sample_after_triangle : rdpq := default sample_init sample_triangle.

(** ** Validator: TMEM bookkeeping *)

(** [rdp.busy.tmem[x/8] & 1 << (x&7)] and [rdp.busy.tmem[x/8] != 0], as
    conditions. *)
Definition tmem_test_bit (x : Z) (r : rdp_t) : option bool :=
  b ← index (busy_tmem r) (Z.quot x 8);
  Some (negb (Z.land b (Z.shiftl 1 (Z.land x 7)) =? 0)).
Definition tmem_test_byte (x : Z) (r : rdp_t) : option bool :=
  b ← index (busy_tmem r) (Z.quot x 8);
  Some (negb (b =? 0)).

(** The three loops of [is_busy_tmem]: whether the loop returned [true],
    and the value of [x] when it was left. *)
Fixpoint busy_head (fuel : nat) (x x1 : Z) (r : rdp_t) : option (bool * Z) :=
  match fuel with
  | S fuel' =>
      if negb (Z.land x 7 =? 0) && (x <? x1)
      then match tmem_test_bit x r with
           | None => None
           | Some true => Some (true, x)
           | Some false => busy_head fuel' (x + 1) x1 r
           end
      else Some (false, x)
  | O => Some (false, x)
  end.
Fixpoint busy_bytes (fuel : nat) (x x1 : Z) (r : rdp_t) : option (bool * Z) :=
  match fuel with
  | S fuel' =>
      if x + 8 <? x1
      then match tmem_test_byte x r with
           | None => None
           | Some true => Some (true, x)
           | Some false => busy_bytes fuel' (x + 8) x1 r
           end
      else Some (false, x)
  | O => Some (false, x)
  end.
Fixpoint busy_tail (fuel : nat) (x x1 : Z) (r : rdp_t) : option bool :=
  match fuel with
  | S fuel' =>
      if x <? x1
      then match tmem_test_bit x r with
           | None => None
           | Some true => Some true
           | Some false => busy_tail fuel' (x + 1) x1 r
           end
      else Some false
  | O => Some false
  end.

(** [is_busy_tmem] (rdpq_debug.c:844). *)
Definition is_busy_tmem (addr size : Z) (r : rdp_t) : option bool :=
  let x0 := Z.quot (Z.min addr 0x1000) 8 in
  let x1 := Z.quot (Z.min (addr + size) 0x1000) 8 in
  let fuel := Z.to_nat (x1 - x0) in
  match busy_head fuel x0 x1 r with
  | None => None
  | Some (true, _) => Some true
  | Some (false, x) =>
      match busy_bytes fuel x x1 r with
      | None => None
      | Some (true, _) => Some true
      | Some (false, x) => busy_tail fuel x x1 r
      end
  end.

(** [validate_busy_tmem] (rdpq_debug.c:852), a warning. *)
Definition validate_busy_tmem (addr size : Z) (r : rdp_t) : option rdp_t :=
  b ← is_busy_tmem addr size r;
  Some (__VALIDATE 1 (negb b) r).

(** The busy bit of the 8-byte TMEM word [x], and the words
    [x0 <= x < x1] that [mark_busy_tmem] and [is_busy_tmem] go through. *)
Definition tmem_busy (r : rdp_t) (x : Z) : bool :=
  match index (busy_tmem r) (x / 8) with
  | Some b => Z.testbit b (x mod 8)
  | None => false
  end.
Definition tmem_first (addr : Z) : Z := Z.quot (Z.min addr 0x1000) 8.
Definition tmem_limit (addr size : Z) : Z := Z.quot (Z.min (addr + size) 0x1000) 8.

(** The state of the bit array: 64 bytes. *)
Definition tmem_ok (r : rdp_t) : Prop :=
  length (busy_tmem r) = 64%nat /\ Forall (fun b => 0 <= b < 256) (busy_tmem r).

(** Some word in [lo, hi) is busy. *)
Definition busy_in (r : rdp_t) (lo hi : Z) : Prop :=
  exists y, lo <= y < hi /\ tmem_busy r y = true.

(** [r'] has exactly the busy words of [r] and the words in [lo, hi). *)
Definition marked (r r' : rdp_t) (lo hi : Z) : Prop :=
  forall x, 0 <= x -> tmem_busy r' x = tmem_busy r x || ((lo <=? x) && (x <? hi)).

(** What the loops of [mark_busy_tmem] leave: the busy state, and only
    it, changes. *)
Definition tmem_step (r r' : rdp_t) (lo hi : Z) : Prop :=
  (exists l, r' = set_busy_tmem l r) /\ tmem_ok r' /\ marked r r' lo hi.

(** ** Validator: commands *)

Record blender_s := { bl_p : Z; bl_a : Z; bl_q : Z; bl_b : Z }.

(** The fields of [setothermodes_t] that the render-mode and draw checks
    read, besides those of [setothermodes_t] above. *)
Record som_checks_t := {
  tex_persp : bool; tex_detail : bool; tex_sharpen : bool; tex_lod : bool;
  blender0 : blender_s; blender1 : blender_s;
  som_blend : bool; som_aa : bool;
  z_upd : bool; z_cmp : bool; z_prim : bool;
}.

Definition bit_set (v b : Z) : bool := negb (BIT v b =? 0).

(** [decode_som] (rdpq_debug.c:322), those fields. *)
Definition decode_som_checks (w : Z) : som_checks_t :=
  {| tex_persp := bit_set w 51; tex_detail := bit_set w 50;
     tex_sharpen := bit_set w 49; tex_lod := bit_set w 48;
     blender0 := {| bl_p := BITS w 30 31; bl_a := BITS w 26 27;
                    bl_q := BITS w 22 23; bl_b := BITS w 18 19 |};
     blender1 := {| bl_p := BITS w 28 29; bl_a := BITS w 24 25;
                    bl_q := BITS w 20 21; bl_b := BITS w 16 17 |};
     som_blend := bit_set w 14; som_aa := bit_set w 3;
     z_upd := bit_set w 5; z_cmp := bit_set w 4; z_prim := bit_set w 2 |}.

(** The validator's mirror [rdp] (rdpq_debug.c:110) in full: the part
    above together with the pipe flag, the four status bits, the pointers
    to the last mode commands and the current texture image.  The raw
    copies [last_som_data], [last_cc_data], [last_tex_data] and [vctx.buf]
    only feed the messages and are left out. *)
Record validator_t := {
  rdp : rdp_t;
  busy_pipe : bool;
  sent_scissor : bool;
  sent_color_image : bool;
  sent_zprim : bool;
  mode_changed : bool;
  last_som : Z;
  last_cc : Z;
  last_tex : Z;
  som_checks : som_checks_t;
  tex_fmt : Z;
  tex_size : Z;
}.

Definition set_rdp (r : rdp_t) (v : validator_t) : validator_t :=
  {| rdp := r; busy_pipe := busy_pipe v; sent_scissor := sent_scissor v;
     sent_color_image := sent_color_image v; sent_zprim := sent_zprim v;
     mode_changed := mode_changed v; last_som := last_som v; last_cc := last_cc v;
     last_tex := last_tex v; som_checks := som_checks v; tex_fmt := tex_fmt v;
     tex_size := tex_size v |}.
Definition set_busy_pipe (b : bool) (v : validator_t) : validator_t :=
  {| rdp := rdp v; busy_pipe := b; sent_scissor := sent_scissor v;
     sent_color_image := sent_color_image v; sent_zprim := sent_zprim v;
     mode_changed := mode_changed v; last_som := last_som v; last_cc := last_cc v;
     last_tex := last_tex v; som_checks := som_checks v; tex_fmt := tex_fmt v;
     tex_size := tex_size v |}.
Definition set_sent_scissor (b : bool) (v : validator_t) : validator_t :=
  {| rdp := rdp v; busy_pipe := busy_pipe v; sent_scissor := b;
     sent_color_image := sent_color_image v; sent_zprim := sent_zprim v;
     mode_changed := mode_changed v; last_som := last_som v; last_cc := last_cc v;
     last_tex := last_tex v; som_checks := som_checks v; tex_fmt := tex_fmt v;
     tex_size := tex_size v |}.
Definition set_sent_color_image (b : bool) (v : validator_t) : validator_t :=
  {| rdp := rdp v; busy_pipe := busy_pipe v; sent_scissor := sent_scissor v;
     sent_color_image := b; sent_zprim := sent_zprim v;
     mode_changed := mode_changed v; last_som := last_som v; last_cc := last_cc v;
     last_tex := last_tex v; som_checks := som_checks v; tex_fmt := tex_fmt v;
     tex_size := tex_size v |}.
Definition set_sent_zprim (b : bool) (v : validator_t) : validator_t :=
  {| rdp := rdp v; busy_pipe := busy_pipe v; sent_scissor := sent_scissor v;
     sent_color_image := sent_color_image v; sent_zprim := b;
     mode_changed := mode_changed v; last_som := last_som v; last_cc := last_cc v;
     last_tex := last_tex v; som_checks := som_checks v; tex_fmt := tex_fmt v;
     tex_size := tex_size v |}.
Definition set_mode_changed (b : bool) (v : validator_t) : validator_t :=
  {| rdp := rdp v; busy_pipe := busy_pipe v; sent_scissor := sent_scissor v;
     sent_color_image := sent_color_image v; sent_zprim := sent_zprim v;
     mode_changed := b; last_som := last_som v; last_cc := last_cc v;
     last_tex := last_tex v; som_checks := som_checks v; tex_fmt := tex_fmt v;
     tex_size := tex_size v |}.
(** [rdp.som = decode_som (buf[0]); rdp.last_som = &buf[0]]. *)
Definition set_som (buf w : Z) (v : validator_t) : validator_t :=
  {| rdp := {| busy_tile := busy_tile (rdp v); busy_tmem := busy_tmem (rdp v);
               som := decode_som w; cc := cc (rdp v); tile := tile (rdp v);
               warns := warns (rdp v); errs := errs (rdp v) |};
     busy_pipe := busy_pipe v; sent_scissor := sent_scissor v;
     sent_color_image := sent_color_image v; sent_zprim := sent_zprim v;
     mode_changed := mode_changed v; last_som := buf; last_cc := last_cc v;
     last_tex := last_tex v; som_checks := decode_som_checks w;
     tex_fmt := tex_fmt v; tex_size := tex_size v |}.
(** [rdp.cc = decode_cc (buf[0]); rdp.last_cc = &buf[0]]. *)
Definition set_cc (buf w : Z) (v : validator_t) : validator_t :=
  {| rdp := {| busy_tile := busy_tile (rdp v); busy_tmem := busy_tmem (rdp v);
               som := som (rdp v); cc := decode_cc w; tile := tile (rdp v);
               warns := warns (rdp v); errs := errs (rdp v) |};
     busy_pipe := busy_pipe v; sent_scissor := sent_scissor v;
     sent_color_image := sent_color_image v; sent_zprim := sent_zprim v;
     mode_changed := mode_changed v; last_som := last_som v; last_cc := buf;
     last_tex := last_tex v; som_checks := som_checks v;
     tex_fmt := tex_fmt v; tex_size := tex_size v |}.
(** [rdp.tex.fmt], [rdp.tex.size] and [rdp.last_tex]. *)
Definition set_tex (buf f sz : Z) (v : validator_t) : validator_t :=
  {| rdp := rdp v; busy_pipe := busy_pipe v; sent_scissor := sent_scissor v;
     sent_color_image := sent_color_image v; sent_zprim := sent_zprim v;
     mode_changed := mode_changed v; last_som := last_som v; last_cc := last_cc v;
     last_tex := buf; som_checks := som_checks v; tex_fmt := f; tex_size := sz |}.
Definition set_tile (l : list tile_s) (r : rdp_t) : rdp_t :=
  {| busy_tile := busy_tile r; busy_tmem := busy_tmem r; som := som r; cc := cc r;
     tile := l; warns := warns r; errs := errs r |}.

(** A step on the part of the mirror that the checks count in. *)
Definition lift (f : rdp_t -> rdp_t) (v : validator_t) : validator_t :=
  set_rdp (f (rdp v)) v.

Definition VALIDATE_ERR_CC := __VALIDATE 4.
Definition VALIDATE_ERR_TEX := __VALIDATE 8.
Definition VALIDATE_WARN := __VALIDATE 1.
Definition VALIDATE_WARN_SOM := __VALIDATE 3.
Definition VALIDATE_WARN_CC := __VALIDATE 5.
Definition VALIDATE_WARN_TEX := __VALIDATE 9.

Definition blender_used (b : blender_s) : bool :=
  negb (bl_p b =? 0) || negb (bl_a b =? 0) || negb (bl_q b =? 0) || negb (bl_b b =? 0).

(** [memcmp (&ccs[0], &ccs[1], sizeof (struct cc_cycle_s)) == 0]. *)
Definition cc_slots_eqb (a b : cc_slots) : bool :=
  (suba a =? suba b) && (subb a =? subb b) && (mul a =? mul b) && (add a =? add b).
Definition cc_cycle_eqb (a b : cc_cycle_s) : bool :=
  cc_slots_eqb (rgb a) (rgb b) && cc_slots_eqb (alpha a) (alpha b).

(** No slot of the cycle but the alpha multiplier is [k], and no slot at
    all is [k]. *)
Definition cc_no_combined (c : cc_cycle_s) : bool :=
  negb (suba (rgb c) =? 0) && negb (subb (rgb c) =? 0) && negb (mul (rgb c) =? 0)
  && negb (add (rgb c) =? 0) && negb (suba (alpha c) =? 0)
  && negb (subb (alpha c) =? 0) && negb (add (alpha c) =? 0).
Definition cc_no_tex1 (c : cc_cycle_s) : bool :=
  negb (suba (rgb c) =? 2) && negb (subb (rgb c) =? 2) && negb (mul (rgb c) =? 2)
  && negb (add (rgb c) =? 2) && negb (suba (alpha c) =? 2)
  && negb (subb (alpha c) =? 2) && negb (mul (alpha c) =? 2)
  && negb (add (alpha c) =? 2).

(** [lazy_validate_rendermode] (rdpq_debug.c:703). *)
Definition lazy_validate_rendermode (v : validator_t) : validator_t :=
  if negb (mode_changed v) then v
  else
    let v := set_mode_changed false v in
    if 2 <=? cycle_type (som (rdp v)) then v
    else
      let b0 := blender0 (som_checks v) in
      let b1 := blender1 (som_checks v) in
      let has_bl0 := blender_used b0 in
      let has_bl1 := blender_used b1 in
      let v := lift (VALIDATE_WARN_SOM
                       (som_blend (som_checks v) || som_aa (som_checks v)
                        || negb (has_bl0 || has_bl1))) v in
      let v :=
        if tex_lod (som_checks v)
        then lift (VALIDATE_ERR_SOM (cycle_type (som (rdp v)) =? 1)) v
        else lift (VALIDATE_ERR_SOM (negb (tex_sharpen (som_checks v))
                                     && negb (tex_detail (som_checks v)))) v in
      if last_cc v =? NULL then lift (VALIDATE_ERR false) v
      else
        let ccs0 := cyc0 (cc (rdp v)) in
        let ccs1 := cyc1 (cc (rdp v)) in
        if cycle_type (som (rdp v)) =? 0 then
          let v := lift (VALIDATE_WARN_CC (cc_cycle_eqb ccs0 ccs1)) v in
          let v := lift (VALIDATE_ERR_CC (cc_no_combined ccs1)) v in
          let v := lift (VALIDATE_ERR_CC (cc_no_tex1 ccs1)) v in
          let v := lift (VALIDATE_ERR_CC (negb (mul (rgb ccs1) =? 7))) v in
          lift (VALIDATE_ERR_CC (negb (mul (rgb ccs1) =? 9))) v
        else
          let v := lift (VALIDATE_ERR_CC (cc_no_combined ccs0)) v in
          let v := lift (VALIDATE_ERR_CC (cc_no_tex1 ccs1)) v in
          let v := lift (VALIDATE_ERR_CC (negb (mul (rgb ccs0) =? 7))) v in
          let v := lift (VALIDATE_ERR_CC (negb (mul (rgb ccs1) =? 9))) v in
          lift (VALIDATE_ERR_SOM ((bl_b b0 =? 0) || ((bl_b b0 =? 2) && (bl_a b0 =? 3)))) v.

(** The eight slots of a combiner cycle, and [memchr (slots, k, 8)]. *)
Definition cc_slot_list (c : cc_cycle_s) : list Z :=
  [suba (rgb c); subb (rgb c); mul (rgb c); add (rgb c);
   suba (alpha c); subb (alpha c); mul (alpha c); add (alpha c)].
Definition memchr (slots : list Z) (k : Z) : bool := existsb (Z.eqb k) slots.

(** One iteration of the loop of [validate_draw_cmd]
    (rdpq_debug.c:786-809), for the blender pass [bls] and the combiner
    cycle [ccs]. *)
Definition validate_draw_cycle (use_colors use_tex : bool) (bls : blender_s)
    (ccs : cc_cycle_s) (v : validator_t) : validator_t :=
  let slots := cc_slot_list ccs in
  let v :=
    if negb use_tex then
      let v := lift (VALIDATE_ERR_CC (negb (memchr slots 1))) v in
      let v := lift (VALIDATE_ERR_CC (negb (memchr slots 2))) v in
      lift (VALIDATE_ERR_CC (negb (mul (rgb ccs) =? 8) && negb (mul (rgb ccs) =? 9))) v
    else v in
  if negb use_colors then
    let v := lift (VALIDATE_ERR_CC (negb (memchr slots 4))) v in
    let v := lift (VALIDATE_ERR_CC (negb (mul (rgb ccs) =? 11))) v in
    lift (VALIDATE_ERR_SOM (negb (bl_a bls =? 2))) v
  else v.

(** The [switch (rdp.som.cycle_type)] of [validate_draw_cmd]
    (rdpq_debug.c:784-821). *)
Definition validate_draw_modes (use_colors use_tex use_z use_w : bool)
    (v : validator_t) : validator_t :=
  if (0 <=? cycle_type (som (rdp v))) && (cycle_type (som (rdp v)) <=? 1) then
    (* i = 0: blender[0], cc.cyc[1] *)
    let v := validate_draw_cycle use_colors use_tex (blender0 (som_checks v))
               (cyc1 (cc (rdp v))) v in
    (* i = 1, in 2-cycle mode: blender[1], cc.cyc[0] *)
    let v := if 1 <=? cycle_type (som (rdp v))
             then validate_draw_cycle use_colors use_tex (blender1 (som_checks v))
                    (cyc0 (cc (rdp v))) v
             else v in
    let v := if use_tex && negb use_w
             then lift (VALIDATE_ERR_SOM (negb (tex_persp (som_checks v)))) v else v in
    if negb use_z
    then lift (VALIDATE_ERR_SOM (negb (z_cmp (som_checks v))
                                 && negb (z_upd (som_checks v)))) v
    else v
  else v.

(** [validate_draw_cmd] (rdpq_debug.c:771). *)
Definition validate_draw_cmd (use_colors use_tex use_z use_w : bool)
    (v : validator_t) : validator_t :=
  let v := lift (VALIDATE_ERR (sent_scissor v)) v in
  let v := lift (VALIDATE_ERR (sent_color_image v)) v in
  if z_prim (som_checks v) then
    let v := lift (VALIDATE_WARN_SOM (negb use_z)) v in
    let v := lift (VALIDATE_ERR_SOM (sent_zprim v)) v in
    validate_draw_modes use_colors use_tex true use_w v
  else validate_draw_modes use_colors use_tex use_z use_w v.

(** [validate_busy_pipe] (rdpq_debug.c:824). *)
Definition validate_busy_pipe (v : validator_t) : validator_t :=
  set_busy_pipe false (lift (VALIDATE_WARN (negb (busy_pipe v))) v).

(** [validate_busy_tile] (rdpq_debug.c:829). *)
Definition validate_busy_tile (tidx : Z) (v : validator_t) : option validator_t :=
  b ← index (busy_tile (rdp v)) tidx;
  let v := lift (VALIDATE_WARN (negb b)) v in
  l ← assign (busy_tile (rdp v)) tidx false;
  Some (lift (set_busy_tile l) v).

(** [FX (2)], that is [1.0f / (1 << 2)]. *)
Definition FX2 : float := (f1 / float_of_int (Z.shiftl 1 2))%F.

(** The cases of the [switch] of [rdpq_validate] that take more than a
    line. *)
Definition validate_set_color_image (w : Z) (v : validator_t) : validator_t :=
  let v := validate_busy_pipe v in
  let v := set_sent_color_image true v in
  let fmt := BITS w 53 55 in
  let size := Z.shiftl 4 (BITS w 51 52) in
  let v := lift (VALIDATE_ERR (BITS w 0 5 =? 0)) v in
  lift (VALIDATE_ERR (((fmt =? 0) && ((size =? 32) || (size =? 16)))
                      || ((fmt =? 2) && (size =? 8)))) v.

Definition validate_set_tile (w : Z) (v : validator_t) : option validator_t :=
  let tidx := BITS w 24 26 in
  v ← validate_busy_tile tidx v;
  let t := {| fmt := BITS w 53 55; tsize := BITS w 51 52; pal := BITS w 20 23;
              has_extents := false; s0 := f0; t0 := f0; s1 := f0; t1 := f0;
              tmem_addr := BITS w 32 40 * 8; tmem_pitch := BITS w 41 49 * 8 |} in
  l ← assign (tile (rdp v)) tidx t;
  let v := lift (set_tile l) v in
  let v := if (fmt t =? 2) && (tsize t =? 1)
           then lift (VALIDATE_WARN (pal t =? 0)) v else v in
  Some (if (fmt t =? 1) || ((fmt t =? 0) && (tsize t =? 3))
        then lift (VALIDATE_ERR (tmem_addr t <? 0x800)) v else v).

Definition validate_tile_size (load : bool) (w : Z) (v : validator_t)
  : option validator_t :=
  let tidx := BITS w 24 26 in
  v ← validate_busy_tile tidx v;
  let v := if load then lift (VALIDATE_ERR_TEX (negb (tex_size v =? 0))) v else v in
  t ← index (tile (rdp v)) tidx;
  let t := {| fmt := fmt t; tsize := tsize t; pal := pal t; has_extents := true;
              s0 := (float_of_int (BITS w 44 55) * FX2)%F;
              t0 := (float_of_int (BITS w 32 43) * FX2)%F;
              s1 := (float_of_int (BITS w 12 23) * FX2)%F;
              t1 := (float_of_int (BITS w 0 11) * FX2)%F;
              tmem_addr := tmem_addr t; tmem_pitch := tmem_pitch t |} in
  l ← assign (tile (rdp v)) tidx t;
  let v := lift (set_tile l) v in
  if load then
    n ← tile_bytes t;
    r ← validate_busy_tmem (tmem_addr t) n (rdp v);
    Some (set_rdp r v)
  else Some v.

Definition validate_load_tlut (w : Z) (v : validator_t) : option validator_t :=
  let tidx := BITS w 24 26 in
  t ← index (tile (rdp v)) tidx;
  let low := BITS w 44 55 in
  let high := BITS w 12 23 in
  let v := lift (VALIDATE_ERR_TEX ((tex_fmt v =? 0) && (tex_size v =? 2))) v in
  let v := lift (VALIDATE_ERR (0x800 <=? tmem_addr t)) v in
  let v := lift (VALIDATE_WARN ((Z.land low 3 =? 0) && (Z.land high 3 =? 0))) v in
  let v := lift (VALIDATE_ERR (Z.shiftr low 2 <? 256)) v in
  Some (lift (VALIDATE_ERR (Z.shiftr high 2 <? 256)) v).

Definition validate_tex_rect (flip : bool) (w : Z) (v : validator_t)
  : option validator_t :=
  let v := if flip then lift (VALIDATE_ERR (cycle_type (som (rdp v)) <? 2)) v else v in
  let v := set_busy_pipe true v in
  let v := lazy_validate_rendermode v in
  let v := validate_draw_cmd false true false false v in
  r ← use_tile (BITS w 24 26) 0 (rdp v);
  Some (set_rdp r v).

Definition validate_triangle (cmd w : Z) (v : validator_t) : option validator_t :=
  let v := set_busy_pipe true v in
  let v := lift (VALIDATE_ERR_SOM (cycle_type (som (rdp v)) <? 2)) v in
  let v := lazy_validate_rendermode v in
  let v := validate_draw_cmd (negb (Z.land cmd 4 =? 0)) (negb (Z.land cmd 2 =? 0))
             (negb (Z.land cmd 1 =? 0)) (negb (Z.land cmd 2 =? 0)) v in
  v ← (if negb (Z.land cmd 2 =? 0)
       then r ← use_tile (BITS w 48 50) 0 (rdp v); Some (set_rdp r v)
       else Some v);
  Some (if negb (BITS w 51 53 =? 0)
        then lift (VALIDATE_WARN_SOM (tex_lod (som_checks v))) v else v).

(** The [switch] of [rdpq_validate]. *)
Definition validate_cmd (buf w : Z) (v : validator_t) : option validator_t :=
  let cmd := BITS w 56 61 in
  if cmd =? 0x3F then Some (validate_set_color_image w v)
  else if cmd =? 0x3E then
    Some (lift (VALIDATE_ERR (BITS w 0 5 =? 0)) (validate_busy_pipe v))
  else if cmd =? 0x3D then
    let v := validate_busy_pipe v in
    let v := lift (VALIDATE_ERR (BITS w 0 2 =? 0)) v in
    Some (set_tex buf (BITS w 53 55) (BITS w 51 52) v)
  else if cmd =? 0x35 then validate_set_tile w v
  else if (cmd =? 0x32) || (cmd =? 0x34) then validate_tile_size (cmd =? 0x34) w v
  else if cmd =? 0x30 then validate_load_tlut w v
  else if cmd =? 0x2F then
    Some (set_mode_changed true (set_som buf w (validate_busy_pipe v)))
  else if cmd =? 0x3C then
    Some (set_mode_changed true (set_cc buf w (validate_busy_pipe v)))
  else if cmd =? 0x2D then Some (set_sent_scissor true v)
  else if cmd =? 0x25 then validate_tex_rect true w v
  else if cmd =? 0x24 then validate_tex_rect false w v
  else if cmd =? 0x36 then
    Some (validate_draw_cmd false false false false
            (lazy_validate_rendermode (set_busy_pipe true v)))
  else if (0x8 <=? cmd) && (cmd <=? 0xF) then validate_triangle cmd w v
  else if cmd =? 0x27 then Some (set_busy_pipe false v)
  else if cmd =? 0x29 then
    Some (set_busy_pipe false
            (lift (fun r => set_busy_tmem (replicate 64 0)
                              (set_busy_tile (replicate 8 false) r)) v))
  else if cmd =? 0x28 then Some (lift (set_busy_tile (replicate 8 false)) v)
  else if cmd =? 0x26 then Some (lift (set_busy_tmem (replicate 64 0)) v)
  else if cmd =? 0x2E then Some (set_sent_zprim true v)
  else if cmd =? 0x3A then Some v
  else if (cmd =? 0x37) || (cmd =? 0x38) || (cmd =? 0x39) || (cmd =? 0x3B)
  then Some (validate_busy_pipe v)
  else Some v.

(** [rdpq_validate] (rdpq_debug.c:918) on the command word [w = buf[0]]:
    the new mirror, and the numbers of errors and warnings it stores in
    [*r_errs] and [*r_warns]. *)
Definition rdpq_validate (buf w : Z) (v : validator_t)
  : option (validator_t * Z * Z) :=
  v' ← validate_cmd buf w v;
  Some (v', errs (rdp v') - errs (rdp v), warns (rdp v') - warns (rdp v)).

(** The mirror as [rdpq_debug_start] leaves it (rdpq_debug.c:280): all
    zero. *)
Definition validator_init : validator_t :=
  {| rdp := {| busy_tile := replicate 8 false; busy_tmem := replicate 64 0;
               som := decode_som 0; cc := decode_cc 0;
               tile := replicate 8 {| fmt := 0; tsize := 0; pal := 0;
                                      has_extents := false; s0 := f0; t0 := f0;
                                      s1 := f0; t1 := f0; tmem_addr := 0;
                                      tmem_pitch := 0 |};
               warns := 0; errs := 0 |};
     busy_pipe := false; sent_scissor := false; sent_color_image := false;
     sent_zprim := false; mode_changed := false;
     last_som := NULL; last_cc := NULL; last_tex := NULL;
     som_checks := decode_som_checks 0; tex_fmt := 0; tex_size := 0 |}.

(** Command words for the examples: opcode [op] in bits 56-61. *)
Definition rdp_word (op : Z) : Z := Z.shiftl op 56.

(** The opcodes of the drawing commands: texture rectangles, the fill
    rectangle and the triangles. *)
Definition is_draw (cmd : Z) : bool :=
  (cmd =? 0x24) || (cmd =? 0x25) || (cmd =? 0x36) || ((0x8 <=? cmd) && (cmd <=? 0xF)).

(** The opcodes of the colour registers, whose change needs the pipe
    idle. *)
Definition is_color_reg (cmd : Z) : bool :=
  (cmd =? 0x37) || (cmd =? 0x38) || (cmd =? 0x39) || (cmd =? 0x3B).

(** [v'] differs from [v] at most in [mode_changed] and in the counters,
    which have not decreased. *)
Definition counts_le (v v' : validator_t) : Prop :=
  busy_pipe v' = busy_pipe v /\ sent_scissor v' = sent_scissor v /\
  sent_color_image v' = sent_color_image v /\ sent_zprim v' = sent_zprim v /\
  last_som v' = last_som v /\ last_cc v' = last_cc v /\ last_tex v' = last_tex v /\
  som_checks v' = som_checks v /\ tex_fmt v' = tex_fmt v /\ tex_size v' = tex_size v /\
  busy_tile (rdp v') = busy_tile (rdp v) /\ busy_tmem (rdp v') = busy_tmem (rdp v) /\
  som (rdp v') = som (rdp v) /\ cc (rdp v') = cc (rdp v) /\
  tile (rdp v') = tile (rdp v) /\
  errs (rdp v) <= errs (rdp v') /\ warns (rdp v) <= warns (rdp v').

(** [use_tile] never lowers a counter. *)
Definition errs_le (r r' : rdp_t) : Prop :=
  errs r <= errs r' /\ warns r <= warns r'.

(** What a drawing command does to the pipe flag and to the counters. *)
Definition drawn (v u : validator_t) : Prop :=
  busy_pipe u = true /\
  errs (rdp v) + (if sent_scissor v then 0 else 1)
               + (if sent_color_image v then 0 else 1) <= errs (rdp u) /\
  warns (rdp v) <= warns (rdp u).

(** ** Configuration *)

Definition uint8_t (z : Z) : Z := z mod 2 ^ 8.

(** [rdpq_get_config], [rdpq_set_config] and [rdpq_change_config]
    (rdpq.c:111-127); [rdpq_config] is a [uint8_t], the arguments and the
    results are [uint32_t]. *)
Definition rdpq_get_config (s : rdpq) : Z := rdpq_config s.

Definition rdpq_set_config (cfg : Z) (s : rdpq) : rdpq :=
  set_rdpq_config (uint8_t cfg) s.

Definition rdpq_change_config (on off : Z) (s : rdpq) : Z * rdpq :=
  let old := rdpq_config s in
  let s := set_rdpq_config (uint8_t (Z.lor (rdpq_config s) on)) s in
  let s := set_rdpq_config
             (uint8_t (Z.land (rdpq_config s) (uint32_t (Z.lnot off)))) s in
  (old, s).

(** ** Commands with a fixup

    More names of [rdpq.h] that the sources use without declaring them. *)
Class DrawHeaders := {
  RDPQ_CMD_TEXTURE_RECTANGLE_EX : Z;
  RDPQ_CMD_TEXTURE_RECTANGLE_EX_FIX : Z;
  RDPQ_CMD_SET_SCISSOR_EX : Z;
  RDPQ_CMD_SET_SCISSOR_EX_FIX : Z;
  RDPQ_CMD_SET_COLOR_IMAGE : Z;
  RDPQ_CMD_SET_COLOR_IMAGE_FIX : Z;
  RDPQ_CMD_MODIFY_OTHER_MODES : Z;
  RDPQ_CMD_MODIFY_OTHER_MODES_FIX : Z;
  AUTOSYNC_TMEM : Z -> Z;
}.

Section RdpqDraw.
Context `{Hdr : Headers} `{DHdr : DrawHeaders}.

(** [__rdpq_write16_syncchange] and [__rdpq_write16_syncuse]
    (rdpq.c:373-385). *)
Definition __rdpq_write16_syncchange (cmd_id arg0 arg1 arg2 arg3 autosync : Z)
    (s : rdpq) : option rdpq :=
  s ← autosync_change autosync s; __rdpq_write16 cmd_id arg0 arg1 arg2 arg3 s.

Definition __rdpq_write16_syncuse (cmd_id arg0 arg1 arg2 arg3 autosync : Z)
    (s : rdpq) : option rdpq :=
  __rdpq_write16 cmd_id arg0 arg1 arg2 arg3 (autosync_use autosync s).

(** [__rdpq_texture_rectangle] (rdpq.c:690). *)
Definition __rdpq_texture_rectangle (w0 w1 w2 w3 : Z) (s : rdpq) : option rdpq :=
  let tile := Z.land (Z.shiftr w1 24) 7 in
  let s := autosync_use
             (Z.lor (Z.lor AUTOSYNC_PIPE (AUTOSYNC_TILE tile)) (AUTOSYNC_TMEM 0)) s in
  rdpq_fixup_write RDPQ_CMD_TEXTURE_RECTANGLE_EX RDPQ_CMD_TEXTURE_RECTANGLE_EX_FIX
    4 w0 [w1; w2; w3] s.

(** [__rdpq_set_scissor] (rdpq.c:698). *)
Definition __rdpq_set_scissor (w0 w1 : Z) (s : rdpq) : option rdpq :=
  rdpq_fixup_write8 RDPQ_CMD_SET_SCISSOR_EX RDPQ_CMD_SET_SCISSOR_EX_FIX 2 w0 w1 s.

(** [__rdpq_set_fixup_image] (rdpq.c:712). *)
Definition __rdpq_set_fixup_image (cmd_id_dyn cmd_id_fix w0 w1 : Z) (s : rdpq)
  : option rdpq :=
  s ← autosync_change AUTOSYNC_PIPE s;
  rdpq_fixup_write8 cmd_id_dyn cmd_id_fix 2 w0 w1 s.

(** [__rdpq_set_color_image] (rdpq.c:719). *)
Definition __rdpq_set_color_image (w0 w1 : Z) (s : rdpq) : option rdpq :=
  s ← autosync_change AUTOSYNC_PIPE s;
  rdpq_fixup_write8 RDPQ_CMD_SET_COLOR_IMAGE RDPQ_CMD_SET_COLOR_IMAGE_FIX 4 w0 w1 s.

(** [__rdpq_modify_other_modes] (rdpq.c:744). *)
Definition __rdpq_modify_other_modes (w0 w1 w2 : Z) (s : rdpq) : option rdpq :=
  s ← autosync_change AUTOSYNC_PIPE s;
  rdpq_fixup_write RDPQ_CMD_MODIFY_OTHER_MODES RDPQ_CMD_MODIFY_OTHER_MODES_FIX
    4 w0 [w1; w2] s.

(** The calls of rdpq.c that change a pipe register and so start with
    [autosync_change(AUTOSYNC_PIPE)]. *)
Inductive pipe_change :=
  | SetFillColor (w1 : Z)
  | SetFixupImage (cmd_id_dyn cmd_id_fix w0 w1 : Z)
  | SetColorImage (w0 w1 : Z)
  | SetOtherModes (w0 w1 : Z)
  | ModifyOtherModes (w0 w1 w2 : Z).

Definition run_pipe_change (c : pipe_change) (s : rdpq) : option rdpq :=
  match c with
  | SetFillColor w1 => __rdpq_set_fill_color w1 s
  | SetFixupImage d f w0 w1 => __rdpq_set_fixup_image d f w0 w1 s
  | SetColorImage w0 w1 => __rdpq_set_color_image w0 w1 s
  | SetOtherModes w0 w1 => __rdpq_set_other_modes w0 w1 s
  | ModifyOtherModes w0 w1 w2 => __rdpq_modify_other_modes w0 w1 w2 s
  end.

(** The commands such a call hands to the writer: the fixup variant while a
    block is recorded, the plain one otherwise; [__rdpq_set_other_modes]
    hands both to a block. *)
Definition pipe_change_cmds (c : pipe_change) (recording : bool) : list rdp_cmd :=
  match c with
  | SetFillColor w1 =>
      [(if recording then RDPQ_CMD_SET_FILL_COLOR_32_FIX
        else RDPQ_CMD_SET_FILL_COLOR_32, [0; w1])]
  | SetFixupImage d f w0 w1 => [(if recording then f else d, [w0; w1])]
  | SetColorImage w0 w1 =>
      [(if recording then RDPQ_CMD_SET_COLOR_IMAGE_FIX
        else RDPQ_CMD_SET_COLOR_IMAGE, [w0; w1])]
  | SetOtherModes w0 w1 =>
      if recording
      then [(RDPQ_CMD_SET_OTHER_MODES, [w0; w1]);
            (RDPQ_CMD_SET_OTHER_MODES_FIX, [w0; w1])]
      else [(RDPQ_CMD_SET_OTHER_MODES, [w0; w1])]
  | ModifyOtherModes w0 w1 w2 =>
      [(if recording then RDPQ_CMD_MODIFY_OTHER_MODES_FIX
        else RDPQ_CMD_MODIFY_OTHER_MODES, [w0; w1; w2])]
  end.

End RdpqDraw.

Section AutosyncPlan.
Context `{Hdr : Headers}.

(** The sync commands that [autosync_change res] emits in state [s], by
    class, and what it does to the dirty mask. *)
Definition syncs_tile (res : Z) (s : rdpq) : bool :=
  negb (Z.land (Z.land res (rdpq_autosync_state0 s)) AUTOSYNC_TILES =? 0)
  && negb (Z.land (rdpq_config s) RDPQ_CFG_AUTOSYNCTILE =? 0).
Definition syncs_load (res : Z) (s : rdpq) : bool :=
  negb (Z.land (Z.land res (rdpq_autosync_state0 s)) AUTOSYNC_TMEMS =? 0)
  && negb (Z.land (rdpq_config s) RDPQ_CFG_AUTOSYNCLOAD =? 0).
Definition syncs_pipe (res : Z) (s : rdpq) : bool :=
  negb (Z.land (Z.land res (rdpq_autosync_state0 s)) AUTOSYNC_PIPE =? 0)
  && negb (Z.land (rdpq_config s) RDPQ_CFG_AUTOSYNCPIPE =? 0).
Definition sync_cmds (res : Z) (s : rdpq) : list rdp_cmd :=
  (if syncs_tile res s then [(RDPQ_CMD_SYNC_TILE, [0; 0])] else [])
  ++ (if syncs_load res s then [(RDPQ_CMD_SYNC_LOAD, [0; 0])] else [])
  ++ (if syncs_pipe res s then [(RDPQ_CMD_SYNC_PIPE, [0; 0])] else []).
Definition sync_mask (res : Z) (s : rdpq) (st : Z) : Z :=
  clear_if (syncs_pipe res s) AUTOSYNC_PIPE
    (clear_if (syncs_load res s) AUTOSYNC_TMEMS
       (clear_if (syncs_tile res s) AUTOSYNC_TILES st)).

End AutosyncPlan.

(** Constants for the names of [DrawHeaders], to run the model. *)
Definition sample_draw_headers : DrawHeaders :=
  {| RDPQ_CMD_TEXTURE_RECTANGLE_EX := 0x10;
     RDPQ_CMD_TEXTURE_RECTANGLE_EX_FIX := 0x11;
     RDPQ_CMD_SET_SCISSOR_EX := 0x12;
     RDPQ_CMD_SET_SCISSOR_EX_FIX := 0x13;
     RDPQ_CMD_SET_COLOR_IMAGE := 0x3F;
     RDPQ_CMD_SET_COLOR_IMAGE_FIX := 0x1D;
     RDPQ_CMD_MODIFY_OTHER_MODES := 0x14;
     RDPQ_CMD_MODIFY_OTHER_MODES_FIX := 0x15;
     AUTOSYNC_TMEM n := Z.shiftl 1 (8 + n) |}.

(** ** Block recorder: buffers and chains *)

Section RecorderAux.
Context `{Hdr : Headers}.

(** The write window of the buffer being recorded: [rdpq_block_ptr] is in
    the payload of the buffer [rdpq_block], not past [rdpq_block_end], and
    [RDPQ_MAX_COMMAND_SIZE] words after [rdpq_block_end] the allocation
    ends. *)
Definition buffer_ok (s : rdpq) : Prop :=
  exists sz, heap s !! rdpq_block s = Some sz /\
    rdpq_block s + sizeof_rdpq_block_t <= rdpq_block_ptr s /\
    rdpq_block_ptr s <= rdpq_block_end s /\
    rdpq_block_end s + 4 * RDPQ_MAX_COMMAND_SIZE = rdpq_block s + sz.

(** Address [a] is in the payload of the buffer [rdpq_block]. *)
Definition in_buffer (s : rdpq) (a : Z) : Prop :=
  exists sz, heap s !! rdpq_block s = Some sz /\
    rdpq_block s + sizeof_rdpq_block_t <= a < rdpq_block s + sz.

(** Address [a] is where the CP queue was written between [s] and [s']:
    the last submit instruction of [s], or between the two cursors. *)
Definition in_queue (s s' : rdpq) (a : Z) : Prop :=
  a = last_rdp_cmd s \/ rspq_cur_pointer s <= a < rspq_cur_pointer s'.

(** The headers [bl] link the buffers [l], in this order, from [b] to
    NULL. *)
Fixpoint chain (bl : gmap Z rdpq_block_t) (b : Z) (l : list Z) : Prop :=
  match l with
  | [] => b = NULL
  | x :: l' => b = x /\ x <> NULL /\
               exists h, bl !! x = Some h /\ chain bl (next h) l'
  end.

(** The allocator's invariant: live buffers and headers are below the top
    of the heap, which is not at address 0. *)
Definition heap_ok (s : rdpq) : Prop :=
  0 < heap_top s /\
  forall b, is_Some (heap s !! b) \/ is_Some (blocks s !! b) -> b < heap_top s.

(** A command as [rdpq_write] takes it: id, first argument, the others. *)
Definition write_cmd : Type := Z * Z * list Z.

(** The command fits a buffer's reserve and keeps the 8-byte alignment. *)
Definition cmd_fits (c : write_cmd) : Prop :=
  1 + Z.of_nat (length c.2) <= RDPQ_MAX_COMMAND_SIZE /\
  (4 * (1 + Z.of_nat (length c.2))) mod 8 = 0.

(** Consecutive calls of [rdpq_write]. *)
Fixpoint rdpq_write_all (cs : list write_cmd) (s : rdpq) : option rdpq :=
  match cs with
  | [] => Some s
  | (cmd_id, arg0, args) :: cs' =>
      s ← rdpq_write cmd_id arg0 args s; rdpq_write_all cs' s
  end.

(** Recording a block with the commands [cs], then freeing it. *)
Definition record_and_free (cs : list write_cmd) (s : rdpq) : option rdpq :=
  s ← rdpq_write_all cs (__rdpq_block_begin s);
  let '(block, s) := __rdpq_block_end s in
  __rdpq_block_free block s.

End RecorderAux.

(** Removing the buffers [l] from a heap or from the headers. *)
Definition free_all {A} (l : list Z) (m : gmap Z A) : gmap Z A := foldr delete m l.

Section RecorderInv.
Context `{Hdr : Headers}.

(** The header of a buffer that [__rdpq_block_next_buffer] has just
    allocated. *)
Definition hdr0 : rdpq_block_t := {| next := NULL; autosync_state := 0 |}.

(** The part of the state that the block recorder owns. *)
Definition recorder_view (s : rdpq) :=
  (rdpq_block_active s, rdpq_block s, rdpq_block_first s, rdpq_block_size s,
   blocks s, heap s, heap_top s).

(** From [s] to [s'] the queue cursor only advances, and RDRAM changes
    only where the queue was written or where [P] holds. *)
Definition touches (P : Z -> Prop) (s s' : rdpq) : Prop :=
  rspq_cur_pointer s <= rspq_cur_pointer s' /\
  (last_rdp_cmd s' = last_rdp_cmd s \/
   rspq_cur_pointer s <= last_rdp_cmd s' < rspq_cur_pointer s') /\
  forall x, ~ in_queue s s' x -> ~ P x -> load x s' = load x s.

(** Address [a] is in the payload of one of the live buffers [l]. *)
Definition in_buffers (l : list Z) (s : rdpq) (a : Z) : Prop :=
  exists b sz, b ∈ l /\ heap s !! b = Some sz /\
               b + sizeof_rdpq_block_t <= a < b + sz.

(** The invariant of a recording that started with the heap [h0] and the
    headers [b0] and has allocated the buffers [l] so far: the buffers are
    linked from [rdpq_block_first] to [rdpq_block], and they are what the
    heap and the headers have gained. *)
Definition recording_core (h0 : gmap Z Z) (b0 : gmap Z rdpq_block_t) (l : list Z)
    (s : rdpq) : Prop :=
  rdpq_block_active s = true /\
  RDPQ_MAX_COMMAND_SIZE <= rdpq_block_size s /\
  heap_ok s /\
  chain (blocks s) (rdpq_block_first s) l /\
  last l = (if rdpq_block s =? NULL then None else Some (rdpq_block s)) /\
  (forall b, b ∈ l -> is_Some (heap s !! b)) /\
  free_all l (heap s) = h0 /\ free_all l (blocks s) = b0.

(** Between two commands the write window is, in addition, aligned and
    inside the last buffer. *)
Definition recording (h0 : gmap Z Z) (b0 : gmap Z rdpq_block_t) (l : list Z)
    (s : rdpq) : Prop :=
  recording_core h0 b0 l s /\
  (rdpq_block s <> NULL -> rdpq_block_ptr s mod 8 = 0 /\ buffer_ok s).

End RecorderInv.

Section CoalesceAux.
Context `{Hdr : Headers}.

(** The last submit instruction is the last thing in the queue and ends
    at the write pointer of the block: the next static write extends
    it. *)
Definition coalescible (s : rdpq) : Prop :=
  rspq_cur_pointer s = last_rdp_cmd s + 8 /\
  recorded_end (load (last_rdp_cmd s) s) = PhysicalAddr (rdpq_block_ptr s).

End CoalesceAux.

(** ** Trace engine: the ring of pending RDP buffers *)

Definition MAX_BUFFERS : Z := 12.

(** [rdp_buffer_t] (rdpq_debug.c:67); the fields are addresses. *)
Record rdp_buffer_t := {
  buf_start : Z;
  buf_end : Z;
  buf_traced : Z;
}.

Definition set_buf_end (e : Z) (b : rdp_buffer_t) : rdp_buffer_t :=
  {| buf_start := buf_start b; buf_end := e; buf_traced := buf_traced b |}.
Definition set_buf_traced (e : Z) (b : rdp_buffer_t) : rdp_buffer_t :=
  {| buf_start := buf_start b; buf_end := buf_end b; buf_traced := e |}.

(** The lines that the trace engine prints with [debugf], and the
    commands it disassembles to [stderr]. *)
Inductive trace_msg :=
  | InvalidBuffer (start end_ : Z)
  | BufferShrinking (old_start old_end start end_ : Z)
  | BufferFull (dropped : Z)
  | Disasm (addr : Z).

(** The file-scope variables of the trace engine (rdpq_debug.c:154-157),
    and the lines printed so far. *)
Record trace_t := {
  buffers : list rdp_buffer_t;
  buf_ridx : Z;
  buf_widx : Z;
  show_log : Z;
  trace_out : list trace_msg;
}.

Definition set_buffers (v : list rdp_buffer_t) (t : trace_t) : trace_t :=
  {| buffers := v; buf_ridx := buf_ridx t; buf_widx := buf_widx t;
     show_log := show_log t; trace_out := trace_out t |}.
Definition set_buf_ridx (v : Z) (t : trace_t) : trace_t :=
  {| buffers := buffers t; buf_ridx := v; buf_widx := buf_widx t;
     show_log := show_log t; trace_out := trace_out t |}.
Definition set_buf_widx (v : Z) (t : trace_t) : trace_t :=
  {| buffers := buffers t; buf_ridx := buf_ridx t; buf_widx := v;
     show_log := show_log t; trace_out := trace_out t |}.
Definition set_show_log (v : Z) (t : trace_t) : trace_t :=
  {| buffers := buffers t; buf_ridx := buf_ridx t; buf_widx := buf_widx t;
     show_log := v; trace_out := trace_out t |}.
Definition debugf (m : trace_msg) (t : trace_t) : trace_t :=
  {| buffers := buffers t; buf_ridx := buf_ridx t; buf_widx := buf_widx t;
     show_log := show_log t; trace_out := trace_out t ++ [m] |}.

(** The pointers that [__rdpq_trace_fetch] reads from the RDP registers,
    in the uncached segment. *)
Definition uncached (reg : Z) : Z := Z.lor reg 0xA0000000.

(** The slot written last: [buf_widx ? buf_widx - 1 : MAX_BUFFERS-1]. *)
Definition prev_slot (t : trace_t) : Z :=
  if negb (buf_widx t =? 0) then buf_widx t - 1 else MAX_BUFFERS - 1.

(** [__rdpq_trace_fetch] (rdpq_debug.c:164), given the values of the
    registers [DP_START] and [DP_END].  The body runs with interrupts
    disabled, so it is one step. *)
Definition __rdpq_trace_fetch (dp_start dp_end : Z) (t : trace_t)
  : option trace_t :=
  let start := uncached dp_start in
  let end_ := uncached dp_end in
  if start =? end_ then Some t
  else if end_ <? start then Some (debugf (InvalidBuffer start end_) t)
  else
    let prev := prev_slot t in
    bp ← index (buffers t) prev;
    if buf_start bp =? start then
      if buf_end bp =? end_ then Some t
      else
        let t := if end_ <? buf_end bp
                 then debugf (BufferShrinking (buf_start bp) (buf_end bp) start end_) t
                 else t in
        bs ← assign (buffers t) prev (set_buf_end end_ bp);
        let t := set_buffers bs t in
        Some (if buf_ridx t =? buf_widx t then set_buf_ridx prev t else t)
    else
      t ← (if Z.rem (buf_widx t + 1) MAX_BUFFERS =? buf_ridx t then
             br ← index (buffers t) (buf_ridx t);
             let t := debugf (BufferFull (Z.quot (buf_end br - buf_start br) 8)) t in
             Some (set_buf_ridx (Z.rem (buf_ridx t + 1) MAX_BUFFERS) t)
           else Some t);
      bs ← assign (buffers t) (buf_widx t)
             {| buf_start := start; buf_end := end_; buf_traced := start |};
      let t := set_buffers bs t in
      Some (set_buf_widx (Z.rem (buf_widx t + 1) MAX_BUFFERS) t).

(** [__rdpq_debug_cmd] (rdpq_debug.c:228). *)
Definition __rdpq_debug_cmd (cmd : Z) (t : trace_t) : trace_t :=
  if BITS cmd 48 55 =? 0x01
  then set_show_log (show_log t + (if negb (BIT cmd 0 =? 0) then 1 else -1)) t
  else t.

(** The state that [rdpq_debug_start] sets up (rdpq_debug.c:276). *)
Definition trace_init : trace_t :=
  {| buffers := replicate 12 {| buf_start := 0; buf_end := 0; buf_traced := 0 |};
     buf_ridx := 0; buf_widx := 0; show_log := 0; trace_out := [] |}.

(** The indices are inside the array of [MAX_BUFFERS] buffers. *)
Definition ring_ok (t : trace_t) : Prop :=
  Z.of_nat (length (buffers t)) = MAX_BUFFERS /\
  0 <= buf_ridx t < MAX_BUFFERS /\ 0 <= buf_widx t < MAX_BUFFERS.

(** The number of buffers waiting to be traced. *)
Definition pending (t : trace_t) : Z := (buf_widx t - buf_ridx t) mod MAX_BUFFERS.

(** How a loop of the trace engine ends: it returns, it runs into
    undefined behaviour in the validator, or the model ran out of fuel. *)
Inductive outcome (A : Type) :=
  | Done (a : A)
  | Undefined
  | OutOfFuel.
Arguments Done {A} a.
Arguments Undefined {A}.
Arguments OutOfFuel {A}.

(** The inner loop of [__rdpq_trace] (rdpq_debug.c:262-271): the commands
    from [cur] to [end_], read from [rdram] as 64-bit words. *)
Fixpoint trace_commands (fuel : nat) (rdram : Z -> Z) (cur end_ : Z)
    (t : trace_t) (v : validator_t) : outcome (trace_t * validator_t) :=
  if cur <? end_ then
    match fuel with
    | O => OutOfFuel
    | S fuel' =>
        let sz := rdpq_debug_disasm_size (rdram cur) in
        let t := if 0 <? show_log t then debugf (Disasm cur) t else t in
        match rdpq_validate cur (rdram cur) v with
        | None => Undefined
        | Some (v, _, _) =>
            let t := if BITS (rdram cur) 56 61 =? 0x31
                     then __rdpq_debug_cmd (rdram cur) t else t in
            trace_commands fuel' rdram (cur + 8 * sz) end_ t v
        end
    end
  else Done (t, v).

(** The outer loop of [__rdpq_trace] (rdpq_debug.c:247-272): pop the
    next pending buffer, mark it traced, run its commands. *)
Fixpoint trace_buffers (fuel : nat) (rdram : Z -> Z) (t : trace_t)
    (v : validator_t) : outcome (trace_t * validator_t) :=
  match fuel with
  | O => OutOfFuel
  | S fuel' =>
      if negb (buf_ridx t =? buf_widx t) then
        match index (buffers t) (buf_ridx t) with
        | None => Undefined
        | Some b =>
            match assign (buffers t) (buf_ridx t) (set_buf_traced (buf_end b) b) with
            | None => Undefined
            | Some bs =>
                let t := set_buffers bs t in
                let t := set_buf_ridx (Z.rem (buf_ridx t + 1) MAX_BUFFERS) t in
                if buf_traced b =? 0 then Done (t, v)
                else
                  match trace_commands fuel' rdram (buf_traced b) (buf_end b) t v with
                  | Done (t, v) => trace_buffers fuel' rdram t v
                  | Undefined => Undefined
                  | OutOfFuel => OutOfFuel
                  end
            end
        end
      else Done (t, v)
  end.

(** [__rdpq_trace] (rdpq_debug.c:241) once the engine is started, so that
    [rdpq_trace_fetch] is [__rdpq_trace_fetch]. *)
Definition __rdpq_trace (fuel : nat) (dp_start dp_end : Z) (rdram : Z -> Z)
    (t : trace_t) (v : validator_t) : outcome (trace_t * validator_t) :=
  match __rdpq_trace_fetch dp_start dp_end t with
  | None => Undefined
  | Some t => trace_buffers fuel rdram t v
  end.

(** Slot [i] is between the read and the write index. *)
Definition is_pending (t : trace_t) (i : Z) : Prop :=
  0 <= i < MAX_BUFFERS /\ (i - buf_ridx t) mod MAX_BUFFERS < pending t.

(** A slot that was written holds no NULL pointer. *)
Definition slot_ok (b : rdp_buffer_t) : Prop :=
  buf_start b <> 0 -> buf_traced b <> 0 /\ buf_end b <> 0.

(** The invariant of the ring: indices in range, and the pending slots
    were written by [__rdpq_trace_fetch]. *)
Definition trace_ok (t : trace_t) : Prop :=
  ring_ok t /\ Forall slot_ok (buffers t) /\
  forall i b, is_pending t i -> index (buffers t) i = Some b -> buf_start b <> 0.

(** The slots keep their range while the ring is drained. *)
Definition same_ranges (l l' : list rdp_buffer_t) : Prop :=
  forall i b, index l i = Some b ->
    exists b', index l' i = Some b' /\ buf_start b' = buf_start b /\
               buf_end b' = buf_end b.

(** ** Where the writer puts a command *)

Section DeliveryAux.
Context `{Hdr : Headers}.

(** The words of a command in RDRAM: the overlay and the command id in the
    top byte of the first word, ORed with the first argument; then the
    other arguments. *)
Definition cmd_words (c : rdp_cmd) : list Z :=
  match c.2 with
  | arg0 :: args =>
      uint32_t (Z.lor (RDPQ_OVL_ID + Z.shiftl c.1 24) arg0) :: map uint32_t args
  | [] => []
  end.

(** The words of consecutive commands. *)
Definition queue_words (cmds : list rdp_cmd) : list Z := concat (map cmd_words cmds).

(** RDRAM holds the words [ws] from address [p] on. *)
Definition words_at (p : Z) (ws : list Z) (s : rdpq) : Prop :=
  forall (i : nat) (w : Z), ws !! i = Some w -> load (p + 4 * Z.of_nat i) s = w.

(** The dynamic path: the CP queue has gained the words of [cmds], and
    nothing else, from the old cursor to the new one; the rest of RDRAM is
    as it was. *)
Definition queued (cmds : list rdp_cmd) (s s' : rdpq) : Prop :=
  rspq_cur_pointer s'
  = rspq_cur_pointer s + 4 * Z.of_nat (length (queue_words cmds)) /\
  words_at (rspq_cur_pointer s) (queue_words cmds) s' /\
  forall a, ~ (rspq_cur_pointer s <= a < rspq_cur_pointer s') ->
            load a s' = load a s.

(** RDRAM holds the commands [cmds], in this order and without overlap,
    between [lo] and [hi]; none of them lies on the last submit
    instruction, which a later flush may still rewrite. *)
Fixpoint stored_after (lo : Z) (cmds : list rdp_cmd) (hi : Z) (s : rdpq) : Prop :=
  match cmds with
  | [] => lo <= hi
  | c :: cmds' =>
      exists p, lo <= p /\ words_at p (cmd_words c) s /\
        ~ (p <= last_rdp_cmd s < p + 4 * Z.of_nat (length (cmd_words c))) /\
        stored_after (p + 4 * Z.of_nat (length (cmd_words c))) cmds' hi s
  end.

(** The same with the first command exactly at [lo]. *)
Definition stored_from (lo : Z) (cmds : list rdp_cmd) (hi : Z) (s : rdpq) : Prop :=
  match cmds with
  | [] => lo <= hi
  | c :: cmds' =>
      words_at lo (cmd_words c) s /\
      ~ (lo <= last_rdp_cmd s < lo + 4 * Z.of_nat (length (cmd_words c))) /\
      stored_after (lo + 4 * Z.of_nat (length (cmd_words c))) cmds' hi s
  end.

(** The tail of the block being recorded, where the next command goes: the
    write pointer, or the start of the payload of the buffer that
    [__rdpq_block_check] is about to allocate. *)
Definition write_tail (s : rdpq) : Z :=
  if rdpq_block s =? NULL
  then (heap_top s + 15) / 16 * 16 + sizeof_rdpq_block_t
  else rdpq_block_ptr s.

(** A block is being recorded and the CP queue is apart from the block's
    buffers: the queue lies below address [Q], with [room] bytes to spare
    after the cursor and the last submit instruction before the cursor; the
    heap, and with it the write window of the current buffer, lies at or
    above [Q]. *)
Definition block_apart (Q room : Z) (s : rdpq) : Prop :=
  rdpq_block_active s = true /\
  0 <= sizeof_rdpq_block_t /\ 0 < Q <= heap_top s /\
  last_rdp_cmd s < rspq_cur_pointer s /\ rspq_cur_pointer s + room <= Q /\
  (rdpq_block s <> NULL ->
   Q <= rdpq_block_ptr s <= rdpq_block_end s /\
   rdpq_block_end s + 4 * RDPQ_MAX_COMMAND_SIZE <= heap_top s).

(** The block path: the commands [qcmds] have gone to the CP queue, after
    the old cursor and before the new one, the commands [bcmds] to the
    block, from its old tail on and before its new tail; RDRAM has changed
    only where the queue was written and between the two tails. *)
Definition recorded (qcmds bcmds : list rdp_cmd) (s s' : rdpq) : Prop :=
  stored_after (rspq_cur_pointer s) qcmds (rspq_cur_pointer s') s' /\
  stored_from (write_tail s) bcmds (write_tail s') s' /\
  touches (fun a => write_tail s <= a < write_tail s') s s'.

End DeliveryAux.

Section DeliveryDraw.
Context `{Hdr : Headers} `{DHdr : DrawHeaders}.

(** While a block is recorded, the commands of a pipe change that go to
    the CP queue (the fixup variants) and those that go to the block
    ([__rdpq_set_other_modes] alone writes its command there). *)
Definition pipe_change_fixup (c : pipe_change) : list rdp_cmd :=
  match c with
  | SetOtherModes w0 w1 => [(RDPQ_CMD_SET_OTHER_MODES_FIX, [w0; w1])]
  | _ => pipe_change_cmds c true
  end.

Definition pipe_change_block (c : pipe_change) : list rdp_cmd :=
  match c with
  | SetOtherModes w0 w1 => [(RDPQ_CMD_SET_OTHER_MODES, [w0; w1])]
  | _ => []
  end.

End DeliveryDraw.

(* ================================================================= *)
(** * Part II: properties *)
(* ================================================================= *)

(** ** binary32: rounding, comparison, floor *)

Lemma digits2_bounds m :
  2 ^ Zpos (digits2_pos m) <= 2 * Zpos m < 2 * 2 ^ Zpos (digits2_pos m).
Proof.
  induction m as [m IH|m IH|]; cbn [digits2_pos];
    rewrite ?Pos2Z.inj_succ, ?Z.pow_succ_r by lia; lia.
Qed.

Lemma pshl_digits m k :
  Zpos (digits2_pos (pshl m k)) = Zpos (digits2_pos m) + Z.of_nat k.
Proof.
  induction k as [|k IH]; [cbn; lia|].
  change (pshl m (S k)) with (xO (pshl m k)). cbn [digits2_pos].
  rewrite Pos2Z.inj_succ, IH. lia.
Qed.

Lemma pshl_val m k : Zpos (pshl m k) = Zpos m * 2 ^ Z.of_nat k.
Proof.
  induction k as [|k IH]; [cbn; lia|].
  change (pshl m (S k)) with (xO (pshl m k)).
  rewrite Pos2Z.inj_xO, IH, Nat2Z.inj_succ, Z.pow_succ_r by lia. lia.
Qed.

Lemma iter_pos_nat {A} (f : A -> A) p x :
  iter_pos f p x = Nat.iter (Pos.to_nat p) f x.
Proof.
  revert x. induction p as [p IH|p IH|]; intros x; cbn [iter_pos].
  - rewrite !IH, Pos2Nat.inj_xI, Nat.iter_succ_r.
    replace (2 * Pos.to_nat p)%nat with (Pos.to_nat p + Pos.to_nat p)%nat by lia.
    now rewrite Nat.iter_add.
  - rewrite !IH, Pos2Nat.inj_xO.
    replace (2 * Pos.to_nat p)%nat with (Pos.to_nat p + Pos.to_nat p)%nat by lia.
    now rewrite Nat.iter_add.
  - reflexivity.
Qed.

Lemma shr_1_pshl m k :
  Nat.iter k shr_1 (Build_shr_record (Zpos (pshl m k)) false false)
  = Build_shr_record (Zpos m) false false.
Proof.
  induction k as [|k IH]; [reflexivity|].
  rewrite Nat.iter_succ_r. exact IH.
Qed.

Lemma canonical_iff m e :
  canonical_mantissa 24 128 m e = true <->
  Z.max (Zpos (digits2_pos m) + e - 24) (-149) = e.
Proof. unfold canonical_mantissa, fexp, emin. rewrite Z.eqb_eq. reflexivity. Qed.

Lemma bounded_inv m e :
  bounded 24 128 m e = true ->
  -149 <= e <= 104 /\ Zpos (digits2_pos m) <= 24 /\
  (e = -149 \/ Zpos (digits2_pos m) = 24).
Proof.
  unfold bounded. rewrite andb_true_iff, canonical_iff, Z.leb_le. lia.
Qed.

Lemma bounded_intro m e :
  -149 <= e <= 104 -> Zpos (digits2_pos m) <= 24 ->
  (e = -149 \/ Zpos (digits2_pos m) = 24) ->
  bounded 24 128 m e = true.
Proof.
  unfold bounded. rewrite andb_true_iff, canonical_iff, Z.leb_le. lia.
Qed.

(** Rounding a mantissa that only carries trailing zero bits beyond a
    canonical one is exact. *)
Lemma binary_round_aux_exact s m k E :
  canonical_mantissa 24 128 m (E + Z.of_nat k) = true ->
  binary_round_aux 24 128 s (Zpos (pshl m k)) E loc_Exact
  = if E + Z.of_nat k <=? 104 then S754_finite s m (E + Z.of_nat k)
    else S754_infinity s.
Proof.
  intros Hc. pose proof Hc as Hc'. apply canonical_iff in Hc'.
  unfold binary_round_aux.
  assert (H1 : shr_fexp 24 128 (Zpos (pshl m k)) E loc_Exact
               = (Build_shr_record (Zpos m) false false, E + Z.of_nat k)).
  { unfold shr_fexp, fexp, emin. cbn [Zdigits2 shr_record_of_loc].
    rewrite pshl_digits.
    replace (Z.max (Z.pos (digits2_pos m) + Z.of_nat k + E - 24) (3 - 128 - 24) - E)
      with (Z.of_nat k) by lia.
    destruct k as [|k];
      [change (Z.of_nat 0) with 0; rewrite Z.add_0_r; reflexivity|].
    unfold shr. rewrite Nat2Z.inj_succ, <- Zpos_P_of_succ_nat.
    rewrite iter_pos_nat, SuccNat2Pos.id_succ.
    now rewrite shr_1_pshl. }
  rewrite H1. cbn [shr_m loc_of_shr_record round_nearest_even].
  assert (H2 : shr_fexp 24 128 (Zpos m) (E + Z.of_nat k) loc_Exact
               = (Build_shr_record (Zpos m) false false, E + Z.of_nat k)).
  { unfold shr_fexp, fexp, emin. cbn [Zdigits2 shr_record_of_loc].
    replace (Z.max (Z.pos (digits2_pos m) + (E + Z.of_nat k) - 24) (3 - 128 - 24)
             - (E + Z.of_nat k)) with 0 by lia.
    reflexivity. }
  rewrite H2. reflexivity.
Qed.


Lemma pow_split a b : 0 <= a -> 0 <= b -> 2 ^ (a + b) = 2 ^ a * 2 ^ b.
Proof. intros. now rewrite Z.pow_add_r. Qed.

Lemma pow_pos a : 0 < 2 ^ a \/ a < 0.
Proof. destruct (Z_lt_le_dec a 0); [now right|left; now apply Z.pow_pos_nonneg]. Qed.

(** Multiplication by a power of two is exact as long as it does not
    overflow. *)
Lemma fmul_pow2 s m e k :
  bounded 24 128 m e = true -> 0 <= k ->
  Zpos m * 2 ^ (e + 149 + k) < 2 ^ 277 ->
  exists m' e',
    fmul (S754_finite s m e) (pow2f k) = S754_finite s m' e' /\
    bounded 24 128 m' e' = true /\
    Zpos m' * 2 ^ (e' + 149) = Zpos m * 2 ^ (e + 149) * 2 ^ k.
Proof.
  intros Hb Hk Hov. apply bounded_inv in Hb as (He & Hd & Hcase).
  pose proof (digits2_bounds m) as Hdig.
  set (d := Zpos (digits2_pos m)) in *.
  assert (Hd1 : 1 <= d) by (unfold d; lia).
  unfold fmul, pow2f, SFmul. rewrite xorb_false_r.
  rewrite Pos.mul_comm.
  change (8388608 * m)%positive with (pshl m 23).
  (* the same product, seen as a canonical mantissa [m'] followed by [j]
     zero bits *)
  assert (Hdec : exists m' j,
             pshl m 23 = pshl m' j /\
             Zpos (digits2_pos m') <= 24 /\
             canonical_mantissa 24 128 m' (e + (k - 23) + Z.of_nat j) = true /\
             (e + (k - 23) + Z.of_nat j = -149 \/ Zpos (digits2_pos m') = 24) /\
             Zpos m' * 2 ^ (e + (k - 23) + Z.of_nat j + 149)
             = Zpos m * 2 ^ (e + 149) * 2 ^ k /\
             -149 <= e + (k - 23) + Z.of_nat j /\
             2 ^ (Zpos (digits2_pos m') + (e + (k - 23) + Z.of_nat j) + 149)
               <= 2 * (Zpos m * 2 ^ (e + 149 + k))).
  { destruct (Z.eq_dec d 24) as [E24|N24].
    - exists m, 23%nat. fold d. rewrite canonical_iff. fold d.
      replace (e + (k - 23) + Z.of_nat 23) with (e + k) by lia.
      replace (e + k + 149) with ((e + 149) + k) by lia.
      rewrite (pow_split (e + 149) k) by lia.
      repeat split; try lia.
      replace (d + (e + k) + 149) with (d + (e + 149 + k)) by lia.
      rewrite (pow_split d) by lia.
      rewrite (pow_split (e + 149) k) by lia.
      assert (0 < 2 ^ (e + 149) * 2 ^ k) by (apply Z.mul_pos_pos; apply Z.pow_pos_nonneg; lia).
      nia.
    - assert (Ee : e = -149) by lia. subst e.
      destruct (Z_le_gt_dec 24 (d + k)) as [Hge|Hlt].
      + exists (pshl m (Z.to_nat (24 - d))), (Z.to_nat (d - 1)).
        rewrite canonical_iff, !pshl_digits, !pshl_val, !Z2Nat.id by lia. fold d.
        replace (-149 + (k - 23) + (d - 1) + 149) with (d + k - 24) by lia.
        replace (-149 + 149) with 0 by lia. rewrite Z.pow_0_r.
        repeat split; try lia.
        * unfold pshl. rewrite <- Nat.iter_add. f_equal. lia.
        * rewrite <- Z.mul_assoc, <- pow_split by lia. f_equal; [|f_equal]; lia.
        * replace (d + (24 - d) + (-149 + (k - 23) + (d - 1)) + 149) with (d + k) by lia.
          replace (0 + k) with k by lia.
          rewrite (pow_split d k) by lia.
          assert (0 < 2 ^ k) by (apply Z.pow_pos_nonneg; lia). nia.
      + exists (pshl m (Z.to_nat k)), (Z.to_nat (23 - k)).
        rewrite canonical_iff, !pshl_digits, !pshl_val, !Z2Nat.id by lia. fold d.
        replace (-149 + (k - 23) + (23 - k) + 149) with 0 by lia.
        replace (-149 + 149) with 0 by lia. rewrite Z.pow_0_r.
        repeat split; try lia.
        * unfold pshl. rewrite <- Nat.iter_add. f_equal. lia.
        * replace (d + k + (-149 + (k - 23) + (23 - k)) + 149) with (d + k) by lia.
          replace (0 + k) with k by lia.
          rewrite (pow_split d k) by lia.
          assert (0 < 2 ^ k) by (apply Z.pow_pos_nonneg; lia). nia. }
  destruct Hdec as (m' & j & -> & Hd' & Hc & Hcase' & Hv & Hlo & Hup).
  rewrite binary_round_aux_exact by exact Hc.
  assert (Hle : e + (k - 23) + Z.of_nat j <= 104).
  { assert (Hlt : 2 ^ (Zpos (digits2_pos m') + (e + (k - 23) + Z.of_nat j) + 149) < 2 ^ 278).
    { change (2 ^ 278) with (2 * 2 ^ 277). lia. }
    apply Z.pow_lt_mono_r_iff in Hlt; lia. }
  rewrite (proj2 (Z.leb_le _ _) Hle).
  exists m', (e + (k - 23) + Z.of_nat j). split; [reflexivity|]. split; [|exact Hv].
  apply bounded_intro; lia.
Qed.

Lemma pos_iter_pshl m q : Pos.iter xO m q = pshl m (Pos.to_nat q).
Proof. unfold pshl. now rewrite Pos2Nat.inj_iter. Qed.

(** Converting an integer of at most 24 bits to binary32 is exact. *)
Lemma binary_round_small s p :
  Zpos p < 2 ^ 24 ->
  exists m' e',
    binary_round 24 128 s p 0 = S754_finite s m' e' /\
    bounded 24 128 m' e' = true /\ -24 < e' <= 0 /\
    Zpos m' = Zpos p * 2 ^ (- e').
Proof.
  intros Hp. pose proof (digits2_bounds p) as Hdig.
  set (d := Zpos (digits2_pos p)) in *.
  assert (Hd : 1 <= d <= 24).
  { split; [unfold d; lia|].
    destruct (Z_le_gt_dec d 24); [assumption|exfalso].
    assert (2 ^ 25 <= 2 ^ d) by (apply Z.pow_le_mono_r; lia).
    change (2 ^ 25) with (2 * 2 ^ 24) in *. lia. }
  unfold binary_round, shl_align, fexp, emin. fold d.
  replace (Z.max (d + 0 - 24) (3 - 128 - 24)) with (d - 24) by lia.
  replace (d - 24 - 0) with (d - 24) by lia.
  destruct (d - 24) as [| q | q] eqn:Eq; try lia.
  - pose proof (binary_round_aux_exact s p 0 0) as R.
    change (pshl p 0) with p in R. rewrite R by (apply canonical_iff; fold d; change (Z.of_nat 0) with 0; lia).
    change (0 + Z.of_nat 0 <=? 104) with true. cbv iota. exists p, 0. repeat split; try lia.
    apply bounded_intro; fold d; lia.
  - rewrite pos_iter_pshl.
    pose proof (binary_round_aux_exact s (pshl p (Pos.to_nat q)) 0 (Z.neg q)) as R.
    change (pshl (pshl p (Pos.to_nat q)) 0) with (pshl p (Pos.to_nat q)) in R.
    rewrite R by (apply canonical_iff; rewrite pshl_digits, positive_nat_Z; fold d; change (Z.of_nat 0) with 0; lia).
    replace (Z.neg q + Z.of_nat 0) with (Z.neg q) by (cbn; lia).
    replace (Z.neg q <=? 104) with true by (symmetry; apply Z.leb_le; lia).
    exists (pshl p (Pos.to_nat q)), (Z.neg q). repeat split; try lia.
    + apply bounded_intro; rewrite ?pshl_digits, ?positive_nat_Z; fold d; lia.
    + rewrite pshl_val, positive_nat_Z. reflexivity.
Qed.

Lemma compare_pos_canonical m1 e1 m2 e2 :
  bounded 24 128 m1 e1 = true -> bounded 24 128 m2 e2 = true ->
  (Zpos m1 * 2 ^ (e1 + 149) ?= Zpos m2 * 2 ^ (e2 + 149))
  = match e1 ?= e2 with
    | Lt => Lt | Gt => Gt | Eq => Pos.compare_cont Eq m1 m2
    end.
Proof.
  intros H1 H2. apply bounded_inv in H1 as (He1 & Hd1 & Hc1).
  apply bounded_inv in H2 as (He2 & Hd2 & Hc2).
  pose proof (digits2_bounds m1) as B1. pose proof (digits2_bounds m2) as B2.
  assert (U1 : 2 * Zpos m1 < 2 * 2 ^ 24).
  { assert (2 ^ Zpos (digits2_pos m1) <= 2 ^ 24) by (apply Z.pow_le_mono_r; lia). lia. }
  assert (U2 : 2 * Zpos m2 < 2 * 2 ^ 24).
  { assert (2 ^ Zpos (digits2_pos m2) <= 2 ^ 24) by (apply Z.pow_le_mono_r; lia). lia. }
  destruct (Z.compare_spec e1 e2) as [E|L|G].
  - subst e2. rewrite <- Zmult_compare_compat_r
      by (apply Z.lt_gt, Z.pow_pos_nonneg; lia).
    reflexivity.
  - apply Z.compare_lt_iff.
    assert (D2 : Zpos (digits2_pos m2) = 24) by lia. rewrite D2 in B2.
    assert (P : 2 * 2 ^ (e1 + 149) <= 2 ^ (e2 + 149)).
    { rewrite <- Z.pow_succ_r by lia. apply Z.pow_le_mono_r; lia. }
    assert (0 < 2 ^ (e1 + 149)) by (apply Z.pow_pos_nonneg; lia).
    change (2 ^ 24) with 16777216 in *. nia.
  - apply Z.compare_gt_iff.
    assert (D1 : Zpos (digits2_pos m1) = 24) by lia. rewrite D1 in B1.
    assert (P : 2 * 2 ^ (e2 + 149) <= 2 ^ (e1 + 149)).
    { rewrite <- Z.pow_succ_r by lia. apply Z.pow_le_mono_r; lia. }
    assert (0 < 2 ^ (e2 + 149)) by (apply Z.pow_pos_nonneg; lia).
    change (2 ^ 24) with 16777216 in *. nia.
Qed.

Lemma Zval_sign (s : bool) m e : -149 <= e ->
  if s return Prop then Zval (S754_finite s m e) < 0 else 0 < Zval (S754_finite s m e).
Proof.
  intros He. assert (0 < 2 ^ (e + 149)) by (apply Z.pow_pos_nonneg; lia).
  destruct s; cbn [Zval cond_Zopp]; nia.
Qed.

(** On valid finite numbers the IEEE comparison is the comparison of the
    values. *)
Lemma SFcompare_Zval x y :
  valid x = true -> valid y = true ->
  is_finite x = true -> is_finite y = true ->
  SFcompare x y = Some (Zval x ?= Zval y).
Proof.
  intros Vx Vy Fx Fy.
  destruct x as [sx| | |sx mx ex], y as [sy| | |sy my ey]; try discriminate.
  - reflexivity.
  - cbn [valid valid_binary] in Vy. apply bounded_inv in Vy as (He & _).
    pose proof (Zval_sign sy my ey ltac:(lia)) as S.
    cbn [SFcompare]. cbn [Zval] in *. f_equal. symmetry.
    destruct sy; [apply Z.compare_gt_iff|apply Z.compare_lt_iff]; lia.
  - cbn [valid valid_binary] in Vx. apply bounded_inv in Vx as (He & _).
    pose proof (Zval_sign sx mx ex ltac:(lia)) as S.
    cbn [SFcompare]. cbn [Zval] in *. f_equal. symmetry.
    destruct sx; [apply Z.compare_lt_iff|apply Z.compare_gt_iff]; lia.
  - cbn [valid valid_binary] in Vx, Vy.
    pose proof (compare_pos_canonical _ _ _ _ Vx Vy) as C.
    pose proof (compare_pos_canonical _ _ _ _ Vy Vx) as C'.
    pose proof (bounded_inv _ _ Vx) as (Hex & _).
    pose proof (bounded_inv _ _ Vy) as (Hey & _).
    pose proof (Zval_sign sx mx ex ltac:(lia)) as Sx.
    pose proof (Zval_sign sy my ey ltac:(lia)) as Sy.
    cbn [SFcompare]. f_equal.
    destruct sx, sy.
    + cbn [Zval cond_Zopp]. rewrite !Z.mul_opp_l, Z.compare_opp, C'.
      rewrite (Z.compare_antisym ey ex).
      destruct (ey ?= ex); cbn [CompOpp]; try reflexivity.
      rewrite Pos.compare_cont_antisym. reflexivity.
    + symmetry. apply Z.compare_lt_iff. lia.
    + symmetry. apply Z.compare_gt_iff. lia.
    + cbn [Zval cond_Zopp]. exact (eq_sym C).
Qed.

Lemma Zval_bound x : valid x = true -> - 2 ^ 277 < Zval x < 2 ^ 277.
Proof.
  destruct x as [s| s | |s m e]; cbn [Zval]; try (intros _; split; reflexivity).
  intros V. apply bounded_inv in V as (He & Hd & _).
  pose proof (digits2_bounds m) as B.
  assert (U : Zpos m < 2 ^ 24).
  { assert (2 ^ Zpos (digits2_pos m) <= 2 ^ 24) by (apply Z.pow_le_mono_r; lia). lia. }
  assert (P : 2 ^ (e + 149) <= 2 ^ 253) by (apply Z.pow_le_mono_r; lia).
  assert (0 < 2 ^ (e + 149)) by (apply Z.pow_pos_nonneg; lia).
  change (2 ^ 277) with (2 ^ 24 * 2 ^ 253).
  destruct s; cbn [cond_Zopp]; nia.
Qed.

(** The IEEE comparison of two binary32 numbers other than NaN is the
    comparison of their extended values. *)
Lemma SFcompare_Xval x y :
  valid x = true -> valid y = true -> is_nan x = false -> is_nan y = false ->
  SFcompare x y = Some (Xval x ?= Xval y).
Proof.
  intros Vx Vy Nx Ny.
  pose proof (Zval_bound x Vx) as Bx. pose proof (Zval_bound y Vy) as By.
  assert (T : 2 ^ 277 < 2 ^ 300) by reflexivity.
  destruct x as [sx|sx| |sx mx ex] eqn:Ex; try discriminate;
  destruct y as [sy|sy| |sy my ey] eqn:Ey; try discriminate;
  try (rewrite <- Ex, <- Ey; subst; apply SFcompare_Zval; auto; fail);
  try (apply SFcompare_Zval; auto; fail).
  all: cbn [SFcompare Xval]; f_equal; symmetry.
  all: cbn [Xval] in *.
  all: try (destruct sy; cbn [cond_Zopp];
            [apply Z.compare_gt_iff|apply Z.compare_lt_iff]; lia).
  all: try (destruct sx; cbn [cond_Zopp];
            [apply Z.compare_lt_iff|apply Z.compare_gt_iff]; lia).
  destruct sx, sy; reflexivity.
Qed.

Lemma fle_Xval x y :
  valid x = true -> valid y = true -> is_nan x = false -> is_nan y = false ->
  fle x y = (Xval x <=? Xval y).
Proof.
  intros. unfold fle, SFleb. rewrite SFcompare_Xval by assumption.
  unfold Z.leb. now destruct (Xval x ?= Xval y).
Qed.

Lemma flt_Xval x y :
  valid x = true -> valid y = true -> is_nan x = false -> is_nan y = false ->
  flt x y = (Xval x <? Xval y).
Proof.
  intros. unfold flt, SFltb. rewrite SFcompare_Xval by assumption.
  unfold Z.ltb. now destruct (Xval x ?= Xval y).
Qed.

Lemma fle_not_nan x y : fle x y = true -> is_nan x = false /\ is_nan y = false.
Proof. destruct x, y; cbn; auto; discriminate. Qed.

Lemma flt_not_nan x y : flt x y = true -> is_nan x = false /\ is_nan y = false.
Proof. destruct x, y; cbn; auto; discriminate. Qed.

Lemma Zval_div_finite s m e :
  -149 <= e ->
  Zval (S754_finite s m e) / 2 ^ 149
  = if 0 <=? e then cond_Zopp s (Zpos m) * 2 ^ e
    else cond_Zopp s (Zpos m) / 2 ^ (- e).
Proof.
  intros He. cbn [Zval]. destruct (Z.leb_spec 0 e) as [P|N].
  - rewrite pow_split, Z.mul_assoc by lia.
    apply Z.div_mul. apply Z.pow_nonzero; lia.
  - replace (2 ^ 149) with (2 ^ (- e) * 2 ^ (e + 149))
      by (rewrite <- pow_split by lia; f_equal; lia).
    apply Z.div_mul_cancel_r; apply Z.pow_nonzero; lia.
Qed.

Lemma Ztrunc_binary_round s p :
  Zpos p < 2 ^ 24 ->
  Ztrunc (binary_round 24 128 s p 0) = Some (cond_Zopp s (Zpos p)).
Proof.
  intros Hp. destruct (binary_round_small s p Hp) as (m' & e' & -> & _ & He & Hm).
  cbn [Ztrunc]. f_equal. f_equal.
  destruct (Z.leb_spec 0 e') as [P|N].
  - assert (e' = 0) by lia. subst e'. cbn in *. lia.
  - rewrite Hm. apply Z.div_mul. apply Z.pow_nonzero; lia.
Qed.

(** [floorf] followed by the conversion to [int32_t] is the floor of the
    value, whenever that fits. *)
Lemma int32_of_floorf x :
  valid x = true -> is_finite x = true ->
  - 2 ^ 31 <= Zval x / 2 ^ 149 < 2 ^ 31 ->
  int32_of_float (floorf x) = Some (Zval x / 2 ^ 149).
Proof.
  intros V F R. destruct x as [s| | |s m e]; try discriminate.
  - reflexivity.
  - cbn [valid valid_binary] in V. apply bounded_inv in V as (He & Hd & _).
    rewrite Zval_div_finite in * by lia.
    pose proof (digits2_bounds m) as B.
    assert (U : Zpos m < 2 ^ 24).
    { assert (2 ^ Zpos (digits2_pos m) <= 2 ^ 24) by (apply Z.pow_le_mono_r; lia). lia. }
    unfold floorf, int32_of_float.
    destruct (Z.leb_spec 0 e) as [P|N].
    + cbn [Ztrunc]. rewrite (proj2 (Z.leb_le 0 e) P).
      replace (cond_Zopp s (Z.pos m * 2 ^ e)) with (cond_Zopp s (Z.pos m) * 2 ^ e)
        by (destruct s; cbn [cond_Zopp]; lia).
      cbn [mbind option_bind].
      replace (- 2 ^ 31 <=? cond_Zopp s (Z.pos m) * 2 ^ e) with true
        by (symmetry; apply Z.leb_le; lia).
      replace (cond_Zopp s (Z.pos m) * 2 ^ e <? 2 ^ 31) with true
        by (symmetry; apply Z.ltb_lt; lia).
      reflexivity.
    + set (n := cond_Zopp s (Z.pos m) / 2 ^ (- e)) in *.
      assert (Hn : - 2 ^ 24 < n < 2 ^ 24).
      { assert (P2 : 0 < 2 ^ (- e)) by (apply Z.pow_pos_nonneg; lia).
        assert (P1 : 1 <= 2 ^ (- e)) by lia.
        unfold n. destruct s; cbn [cond_Zopp].
        - split; [|apply Z.le_lt_trans with 0; [|lia]].
          + apply Z.lt_le_trans with (- Z.pos m); [lia|].
            apply Z.div_le_lower_bound; [lia|]. nia.
          + apply Z.div_le_upper_bound; [lia|]. nia.
        - split.
          + apply Z.lt_le_trans with 0; [lia|]. apply Z.div_pos; lia.
          + apply Z.le_lt_trans with (Z.pos m); [|lia].
            apply Z.div_le_upper_bound; [lia|]. nia. }
      assert (T : Ztrunc (binary_normalize 24 128 n 0 s) = Some n).
      { destruct n as [|p|p]; cbn [binary_normalize].
        - reflexivity.
        - apply (Ztrunc_binary_round false p). lia.
        - apply (Ztrunc_binary_round true p). lia. }
      rewrite T. cbn [mbind option_bind].
      replace (- 2 ^ 31 <=? n) with true by (symmetry; apply Z.leb_le; lia).
      replace (n <? 2 ^ 31) with true by (symmetry; apply Z.ltb_lt; lia).
      reflexivity.
Qed.

Lemma Xval_finite x : is_finite x = true -> Xval x = Zval x.
Proof. now destruct x. Qed.

(** A product by [2^k] that stays finite has [2^k] times the value. *)
Lemma fmul_pow2_Zval x k :
  valid x = true -> is_finite x = true -> 0 <= k <= 100 ->
  - 2 ^ 170 <= Zval x <= 2 ^ 170 ->
  valid (x * pow2f k)%F = true /\ is_finite (x * pow2f k)%F = true /\
  Zval (x * pow2f k)%F = Zval x * 2 ^ k.
Proof.
  intros V F Hk R. destruct x as [s| | |s m e]; try discriminate.
  - cbn. auto.
  - cbn [valid valid_binary] in V.
    pose proof (bounded_inv _ _ V) as (He & _).
    assert (P : 0 < 2 ^ (e + 149)) by (apply Z.pow_pos_nonneg; lia).
    assert (M : Zpos m * 2 ^ (e + 149) <= 2 ^ 170)
      by (cbn [Zval] in R; destruct s; cbn [cond_Zopp] in R; lia).
    destruct (fmul_pow2 s m e k V) as (m' & e' & E & B & Hv); [lia| |].
    { replace (e + 149 + k) with ((e + 149) + k) by lia.
      rewrite pow_split, Z.mul_assoc by lia.
      assert (2 ^ k <= 2 ^ 100) by (apply Z.pow_le_mono_r; lia).
      assert (0 < 2 ^ k) by (apply Z.pow_pos_nonneg; lia).
      apply Z.le_lt_trans with (2 ^ 170 * 2 ^ 100); [nia|reflexivity]. }
    rewrite E. repeat split; [exact B|].
    cbn [Zval]. destruct s; cbn [cond_Zopp]; lia.
Qed.

Lemma float_to_s16_16_Xval f :
  valid f = true -> is_nan f = false ->
  float_to_s16_16 f = Some (s16_16_of_Xval (Xval f)).
Proof.
  intros V N. unfold float_to_s16_16, s16_16_of_Xval, fge.
  fold (fle f32768 f).
  rewrite fle_Xval, flt_Xval by (try assumption; reflexivity).
  change (Xval f32768) with (2 ^ 164). change (Xval (- f32768)%F) with (- 2 ^ 164).
  destruct (Z.leb_spec (2 ^ 164) (Xval f)) as [H1|H1]; [reflexivity|].
  destruct (Z.ltb_spec (Xval f) (- 2 ^ 164)) as [H2|H2]; [reflexivity|].
  assert (F : is_finite f = true).
  { destruct f as [s|s| |s m e]; try reflexivity; try discriminate.
    cbn [Xval] in *. assert (2 ^ 164 < 2 ^ 300) by reflexivity.
    destruct s; cbn [cond_Zopp] in *; lia. }
  rewrite Xval_finite in * by assumption.
  change f65536 with (pow2f 16).
  assert (T : 2 ^ 164 < 2 ^ 170) by reflexivity.
  destruct (fmul_pow2_Zval f 16 V F) as (V' & F' & Z'); [lia|lia|].
  rewrite <- Z'. apply int32_of_floorf; try assumption.
  rewrite Z'. change (2 ^ 164) with (2 ^ 15 * 2 ^ 149) in *.
  change (2 ^ 31) with (2 ^ 15 * 2 ^ 16).
  split.
  - apply Z.div_le_lower_bound; [reflexivity|]. lia.
  - apply Z.div_lt_upper_bound; [reflexivity|]. lia.
Qed.

Lemma s16_16_of_Xval_mono v w : v <= w -> s16_16_of_Xval v <= s16_16_of_Xval w.
Proof.
  intros L. unfold s16_16_of_Xval.
  assert (D : forall u, - 2 ^ 164 <= u < 2 ^ 164 ->
                        - 2 ^ 31 <= u * 2 ^ 16 / 2 ^ 149 <= 2 ^ 31 - 1).
  { intros u Hu. change (2 ^ 164) with (2 ^ 15 * 2 ^ 149) in Hu.
    change (2 ^ 31) with (2 ^ 15 * 2 ^ 16). split.
    - apply Z.div_le_lower_bound; [reflexivity|]. lia.
    - apply Z.lt_le_pred, Z.div_lt_upper_bound; [reflexivity|]. lia. }
  destruct (Z.leb_spec (2 ^ 164) v), (Z.leb_spec (2 ^ 164) w); try lia;
  destruct (Z.ltb_spec v (- 2 ^ 164)), (Z.ltb_spec w (- 2 ^ 164)); try lia.
  - specialize (D v ltac:(lia)). lia.
  - specialize (D w ltac:(lia)). lia.
  - apply Z.div_le_mono; [reflexivity|lia].
Qed.

Lemma Qfloor_F2Q_mul x (k : positive) :
  Qfloor (F2Q x * (Zpos k # 1)) = Zval x * Zpos k / 2 ^ 149.
Proof. unfold F2Q. cbn [Qmult Qfloor Qnum Qden]. now rewrite Pos.mul_1_r. Qed.

(** ** Fixed point

    C8: [float_to_s16_16] is monotone non-decreasing over the binary32
    numbers: between -32768 (included) and 32768 (excluded) it returns
    [floor (x * 65536)]; from 32768 up, +infinity included, it returns
    [0x7FFFFFFF]; below -32768, -infinity included, it returns
    [0x80000000] (as an [int32_t]); and [f <= g] gives
    [float_to_s16_16 f <= float_to_s16_16 g], both being defined. *)
Theorem float_to_s16_16_monotone_saturating (f g : float) :
  valid f = true -> valid g = true ->
  (fle (- f32768)%F f = true -> flt f f32768 = true ->
     float_to_s16_16 f = Some (Qfloor (F2Q f * 65536))) /\
  (fge f f32768 = true -> float_to_s16_16 f = Some 0x7FFFFFFF) /\
  (flt f (- f32768)%F = true ->
     float_to_s16_16 f = Some (int32_t 0x80000000)) /\
  (fle f g = true ->
     exists a b, float_to_s16_16 f = Some a /\ float_to_s16_16 g = Some b /\ a <= b).
Proof.
  intros Vf Vg. repeat split.
  - intros L U. destruct (fle_not_nan _ _ L) as [_ N].
    rewrite float_to_s16_16_Xval by assumption.
    rewrite fle_Xval in L by (try assumption; reflexivity).
    rewrite flt_Xval in U by (try assumption; reflexivity).
    apply Z.leb_le in L. apply Z.ltb_lt in U.
    change (Xval f32768) with (2 ^ 164) in U.
    change (Xval (- f32768)%F) with (- 2 ^ 164) in L.
    unfold s16_16_of_Xval.
    destruct (Z.leb_spec (2 ^ 164) (Xval f)); [lia|].
    destruct (Z.ltb_spec (Xval f) (- 2 ^ 164)); [lia|].
    assert (F : is_finite f = true).
    { destruct f as [s|s| |s m e]; try reflexivity; try discriminate.
      cbn [Xval] in *. assert (2 ^ 164 < 2 ^ 300) by reflexivity.
      destruct s; cbn [cond_Zopp] in *; lia. }
    rewrite Xval_finite by assumption.
    rewrite (Qfloor_F2Q_mul f 65536). reflexivity.
  - intros G. unfold float_to_s16_16. rewrite G. reflexivity.
  - intros L. unfold float_to_s16_16. rewrite L.
    replace (fge f f32768) with false; [reflexivity|].
    destruct (flt_not_nan _ _ L) as [N _].
    rewrite flt_Xval in L by (try assumption; reflexivity).
    apply Z.ltb_lt in L. change (Xval (- f32768)%F) with (- 2 ^ 164) in L.
    unfold fge. fold (fle f32768 f).
    rewrite fle_Xval by (try assumption; reflexivity).
    change (Xval f32768) with (2 ^ 164).
    symmetry. apply Z.leb_gt. lia.
  - intros L. destruct (fle_not_nan _ _ L) as [Nf Ng].
    rewrite fle_Xval in L by assumption. apply Z.leb_le in L.
    exists (s16_16_of_Xval (Xval f)), (s16_16_of_Xval (Xval g)).
    rewrite !float_to_s16_16_Xval by assumption.
    repeat split. now apply s16_16_of_Xval_mono.
Qed.

(** ** Triangle coefficient computer: the vertex sort *)

Lemma testbit_sign x n :
  - 2 ^ 13 <= x < 2 ^ 13 -> 13 <= n -> Z.testbit x n = (x <? 0).
Proof.
  intros R Hn. destruct (Z.ltb_spec x 0) as [Neg|Pos].
  - apply Z.bits_above_log2_neg; [assumption|].
    destruct (Z.eq_dec x (-1)) as [->|Hx];
      [change (Z.log2 (Z.pred (- -1))) with 0; lia|].
    apply Z.lt_le_trans with 13; [|assumption].
    apply Z.log2_lt_pow2; lia.
  - destruct (Z.eq_dec x 0) as [->|Hx]; [apply Z.bits_0|].
    apply Z.bits_above_log2; [assumption|].
    apply Z.lt_le_trans with 13; [|assumption].
    apply Z.log2_lt_pow2; lia.
Qed.

(** [TRUNCATE_S11_2] leaves the signed 14-bit values unchanged. *)
Lemma TRUNCATE_S11_2_id x : -8192 <= x < 8192 -> TRUNCATE_S11_2 x = x.
Proof.
  intros R. unfold TRUNCATE_S11_2. apply Z.bits_inj'. intros n Hn.
  rewrite Z.lor_spec, !Z.land_spec, Z.shiftr_spec, Z.lnot_spec by assumption.
  change 8191 with (Z.ones 13). rewrite Z.testbit_ones_nonneg by lia.
  destruct (Z.ltb_spec n 13) as [Lo|Hi].
  - now rewrite andb_true_r, andb_false_r, orb_false_r.
  - rewrite andb_false_r, andb_true_r, orb_false_l.
    change 8192 with (2 ^ 13) in R.
    now rewrite !testbit_sign by lia.
Qed.

Lemma y_in_range_inv y :
  valid y = true -> y_in_range y = true ->
  is_nan y = false /\ is_finite y = true /\ - 2 ^ 160 <= Zval y < 2 ^ 160 /\
  Xval y = Zval y.
Proof.
  intros V R. unfold y_in_range in R. apply andb_true_iff in R as [L U].
  destruct (fle_not_nan _ _ L) as [_ N].
  rewrite fle_Xval in L by (try assumption; reflexivity).
  rewrite flt_Xval in U by (try assumption; reflexivity).
  apply Z.leb_le in L. apply Z.ltb_lt in U.
  change (Xval f2048) with (2 ^ 160) in U.
  change (Xval (- f2048)%F) with (- 2 ^ 160) in L.
  assert (F : is_finite y = true).
  { destruct y as [s|s| |s m e]; try reflexivity; try discriminate.
    cbn [Xval] in *. assert (2 ^ 160 < 2 ^ 300) by reflexivity.
    destruct s; cbn [cond_Zopp] in *; lia. }
  rewrite Xval_finite in * by assumption. auto.
Qed.

(** The fixed-point Y of a coordinate in [-2048, 2048) is [floor (4 y)]. *)
Lemma edge_yf_floor y :
  valid y = true -> y_in_range y = true ->
  edge_yf y = Some (Qfloor (F2Q y * 4)) /\
  Qfloor (F2Q y * 4) = Zval y * 4 / 2 ^ 149.
Proof.
  intros V R. destruct (y_in_range_inv y V R) as (N & F & B & _).
  rewrite (Qfloor_F2Q_mul y 4). split; [|reflexivity].
  unfold edge_yf. change f4 with (pow2f 2).
  assert (T : 2 ^ 160 < 2 ^ 170) by reflexivity.
  destruct (fmul_pow2_Zval y 2 V F) as (V' & F' & Z'); [lia|lia|].
  assert (Rg : -8192 <= Zval y * 4 / 2 ^ 149 < 8192).
  { change (2 ^ 160) with (2048 * 2 ^ 149) in B. split.
    - apply Z.div_le_lower_bound; [reflexivity|]. lia.
    - apply Z.div_lt_upper_bound; [reflexivity|]. lia. }
  rewrite int32_of_floorf; try assumption.
  - rewrite Z'. change (2 ^ 2) with 4. cbn [fmap option_fmap option_map].
    now rewrite TRUNCATE_S11_2_id.
  - rewrite Z'. change (2 ^ 2) with 4. change (2 ^ 31) with 2147483648. lia.
Qed.

Lemma fgt_Xval x y :
  valid x = true -> valid y = true -> is_nan x = false -> is_nan y = false ->
  fgt x y = (Xval y <? Xval x).
Proof. intros. unfold fgt. fold (flt y x). now apply flt_Xval. Qed.

(** The three compare-and-swap steps leave the raw Y values in
    non-decreasing order. *)
Lemma rdpq_triangle_sort_raw k v1 v2 v3 y1 y2 y3 :
  vget v1 (k + 1) = Some y1 -> vget v2 (k + 1) = Some y2 ->
  vget v3 (k + 1) = Some y3 ->
  valid y1 = true -> valid y2 = true -> valid y3 = true ->
  is_nan y1 = false -> is_nan y2 = false -> is_nan y3 = false ->
  exists a b c ya yb yc,
    rdpq_triangle_sort k v1 v2 v3 = Some (a, b, c) /\
    (a, ya, (b, yb), (c, yc)) ∈ orderings (v1, y1) (v2, y2) (v3, y3) /\
    Xval ya <= Xval yb <= Xval yc.
Proof.
  intros G1 G2 G3 V1 V2 V3 N1 N2 N3.
  unfold rdpq_triangle_sort, swap_if_gt.
  rewrite G1, G2. cbn [mbind option_bind].
  rewrite (fgt_Xval y1 y2) by assumption.
  destruct (Z.ltb_spec (Xval y2) (Xval y1)) as [C1|C1];
    cbn [mbind option_bind]; rewrite ?G1, ?G2, ?G3; cbn [mbind option_bind].
  - rewrite (fgt_Xval y1 y3) by assumption.
    destruct (Z.ltb_spec (Xval y3) (Xval y1)) as [C2|C2];
      cbn [mbind option_bind]; rewrite ?G1, ?G2, ?G3; cbn [mbind option_bind].
    + rewrite (fgt_Xval y2 y3) by assumption.
      destruct (Z.ltb_spec (Xval y3) (Xval y2)) as [C3|C3].
      * exists v3, v2, v1, y3, y2, y1. split; [reflexivity|].
        split; [unfold orderings; set_solver|lia].
      * exists v2, v3, v1, y2, y3, y1. split; [reflexivity|].
        split; [unfold orderings; set_solver|lia].
    + rewrite (fgt_Xval y2 y1) by assumption.
      destruct (Z.ltb_spec (Xval y1) (Xval y2)) as [C3|C3]; [lia|].
      exists v2, v1, v3, y2, y1, y3. split; [reflexivity|].
      split; [unfold orderings; set_solver|lia].
  - rewrite (fgt_Xval y2 y3) by assumption.
    destruct (Z.ltb_spec (Xval y3) (Xval y2)) as [C2|C2];
      cbn [mbind option_bind]; rewrite ?G1, ?G2, ?G3; cbn [mbind option_bind].
    + rewrite (fgt_Xval y1 y3) by assumption.
      destruct (Z.ltb_spec (Xval y3) (Xval y1)) as [C3|C3].
      * exists v3, v1, v2, y3, y1, y2. split; [reflexivity|].
        split; [unfold orderings; set_solver|lia].
      * exists v1, v3, v2, y1, y3, y2. split; [reflexivity|].
        split; [unfold orderings; set_solver|lia].
    + rewrite (fgt_Xval y1 y2) by assumption.
      destruct (Z.ltb_spec (Xval y2) (Xval y1)) as [C3|C3]; [lia|].
      exists v1, v2, v3, y1, y2, y3. split; [reflexivity|].
      split; [unfold orderings; set_solver|lia].
Qed.

(** C1, as amended: for three vertices whose Y coordinates are binary32
    numbers in [-2048, 2048), [rdpq_triangle] reorders the vertices by
    comparing the raw float Y values; the result is one of the six orders
    of the input, its raw Y values are in non-decreasing order, and so are
    the quantized ones, which are [floor (4 y)]. *)
Theorem rdpq_triangle_sort_quantized k v1 v2 v3 y1 y2 y3 :
  vget v1 (k + 1) = Some y1 -> vget v2 (k + 1) = Some y2 ->
  vget v3 (k + 1) = Some y3 ->
  valid y1 = true -> valid y2 = true -> valid y3 = true ->
  y_in_range y1 = true -> y_in_range y2 = true -> y_in_range y3 = true ->
  exists a b c ya yb yc,
    rdpq_triangle_sort k v1 v2 v3 = Some (a, b, c) /\
    (a, ya, (b, yb), (c, yc)) ∈ orderings (v1, y1) (v2, y2) (v3, y3) /\
    fle ya yb = true /\ fle yb yc = true /\
    edge_yf ya = Some (Qfloor (F2Q ya * 4)) /\
    edge_yf yb = Some (Qfloor (F2Q yb * 4)) /\
    edge_yf yc = Some (Qfloor (F2Q yc * 4)) /\
    Qfloor (F2Q ya * 4) <= Qfloor (F2Q yb * 4) <= Qfloor (F2Q yc * 4).
Proof.
  intros G1 G2 G3 V1 V2 V3 R1 R2 R3.
  destruct (y_in_range_inv y1 V1 R1) as (N1 & F1 & B1 & X1).
  destruct (y_in_range_inv y2 V2 R2) as (N2 & F2 & B2 & X2).
  destruct (y_in_range_inv y3 V3 R3) as (N3 & F3 & B3 & X3).
  destruct (rdpq_triangle_sort_raw k v1 v2 v3 y1 y2 y3)
    as (a & b & c & ya & yb & yc & S & O & L); try assumption.
  exists a, b, c, ya, yb, yc. split; [exact S|]. split; [exact O|].
  assert (P : (valid ya = true /\ y_in_range ya = true /\ is_nan ya = false) /\
              (valid yb = true /\ y_in_range yb = true /\ is_nan yb = false) /\
              (valid yc = true /\ y_in_range yc = true /\ is_nan yc = false)).
  { unfold orderings in O.
    repeat (apply elem_of_cons in O as [O|O]); try (apply elem_of_nil in O; contradiction);
      inversion O; subst; auto 10. }
  destruct P as ((Va & Ra & Na) & (Vb & Rb & Nb) & (Vc & Rc & Nc)).
  destruct (edge_yf_floor ya Va Ra) as [Ea Qa].
  destruct (edge_yf_floor yb Vb Rb) as [Eb Qb].
  destruct (edge_yf_floor yc Vc Rc) as [Ec Qc].
  destruct (y_in_range_inv ya Va Ra) as (_ & _ & _ & Xa).
  destruct (y_in_range_inv yb Vb Rb) as (_ & _ & _ & Xb).
  destruct (y_in_range_inv yc Vc Rc) as (_ & _ & _ & Xc).
  rewrite !fle_Xval by assumption.
  repeat split; try assumption; try (apply Z.leb_le; lia).
  - rewrite Qa, Qb. apply Z.div_le_mono; [reflexivity|lia].
  - rewrite Qb, Qc. apply Z.div_le_mono; [reflexivity|lia].
Qed.

(** The amended C1 on the vertices [tri_a], [tri_b], [tri_c]. *)
Lemma rdpq_triangle_sort_quantized_witness :
  vget tri_a (0 + 1) = Some f_0_125 /\ valid f_0_125 = true /\
  y_in_range f_0_125 = true /\
  exists a b c ya yb yc,
    rdpq_triangle_sort 0 tri_a tri_b tri_c = Some (a, b, c) /\
    (a, ya, (b, yb), (c, yc)) ∈ orderings (tri_a, f_0_125) (tri_b, f0) (tri_c, f1) /\
    fle ya yb = true /\ fle yb yc = true /\
    edge_yf ya = Some (Qfloor (F2Q ya * 4)) /\
    edge_yf yb = Some (Qfloor (F2Q yb * 4)) /\
    edge_yf yc = Some (Qfloor (F2Q yc * 4)) /\
    Qfloor (F2Q ya * 4) <= Qfloor (F2Q yb * 4) <= Qfloor (F2Q yc * 4).
Proof.
  split; [reflexivity|]. split; [reflexivity|]. split; [reflexivity|].
  apply (rdpq_triangle_sort_quantized 0 tri_a tri_b tri_c f_0_125 f0 f1);
    reflexivity.
Defined.

(** C1 as stated fails on both counts.  The comparisons are not made on
    the quantized Y: on [tri_a], [tri_b], [tri_c] the first two Y are 0.125
    and 0, both quantized to 0; the code compares the floats and swaps the
    two vertices, comparisons on the quantized Y leave them in place.  And
    without a bound on Y the quantized Y are not in order after the sort,
    because the signed 11.2 field wraps around: Y = 1, 2048, 40000 stay in
    this order and are quantized to 4, 0, 4352; Y = -2048.25, -2048, 0 stay
    in this order and are quantized to -1, -8192, 0.  So the range
    [-2048, 2048) of the amended statement is needed at both ends. *)
Lemma rdpq_triangle_sort_not_quantized :
  (rdpq_triangle_sort 0 tri_a tri_b tri_c = Some (tri_b, tri_a, tri_c) /\
   sort_on_quantized_Y 0 tri_a tri_b tri_c = Some (tri_a, tri_b, tri_c) /\
   rdpq_triangle_sort 0 tri_a tri_b tri_c
   <> sort_on_quantized_Y 0 tri_a tri_b tri_c) /\
  (valid f1 = true /\ valid f2048 = true /\ valid f40000 = true /\
   y_in_range f2048 = false /\
   rdpq_triangle_sort 0 tri_c tri_d tri_e = Some (tri_c, tri_d, tri_e) /\
   edge_yf f1 = Some 4 /\ edge_yf f2048 = Some 0 /\ edge_yf f40000 = Some 4352 /\
   ~ quantized_in_order 0 tri_c tri_d tri_e) /\
  (valid f_m2048_25 = true /\ valid (- f2048)%F = true /\ valid f0 = true /\
   y_in_range f_m2048_25 = false /\ y_in_range (- f2048)%F = true /\
   rdpq_triangle_sort 0 tri_f tri_g tri_b = Some (tri_f, tri_g, tri_b) /\
   edge_yf f_m2048_25 = Some (-1) /\ edge_yf (- f2048)%F = Some (-8192) /\
   edge_yf f0 = Some 0 /\
   ~ quantized_in_order 0 tri_f tri_g tri_b).
Proof.
  assert (A : rdpq_triangle_sort 0 tri_a tri_b tri_c = Some (tri_b, tri_a, tri_c))
    by (vm_compute; reflexivity).
  assert (B : sort_on_quantized_Y 0 tri_a tri_b tri_c = Some (tri_a, tri_b, tri_c))
    by (vm_compute; reflexivity).
  assert (C : rdpq_triangle_sort 0 tri_c tri_d tri_e = Some (tri_c, tri_d, tri_e))
    by (vm_compute; reflexivity).
  assert (D : rdpq_triangle_sort 0 tri_f tri_g tri_b = Some (tri_f, tri_g, tri_b))
    by (vm_compute; reflexivity).
  split; [|split].
  - split; [exact A|]. split; [exact B|]. rewrite A, B. discriminate.
  - repeat (split; [vm_compute; reflexivity|]).
    intros (a & b & c & ya & yb & yc & qa & qb & qc
            & S & Va & Vb & Vc & Qa & Qb & Qc & Le).
    rewrite C in S. injection S as <- <- <-.
    vm_compute in Va, Vb, Vc. injection Va as <-. injection Vb as <-.
    injection Vc as <-.
    vm_compute in Qa, Qb, Qc. injection Qa as <-. injection Qb as <-.
    injection Qc as <-. lia.
  - repeat (split; [vm_compute; reflexivity|]).
    intros (a & b & c & ya & yb & yc & qa & qb & qc
            & S & Va & Vb & Vc & Qa & Qb & Qc & Le).
    rewrite D in S. injection S as <- <- <-.
    vm_compute in Va, Vb, Vc. injection Va as <-. injection Vb as <-.
    injection Vc as <-.
    vm_compute in Qa, Qb, Qc. injection Qa as <-. injection Qb as <-.
    injection Qc as <-. lia.
Qed.

(** C8 on 0.1, 40000 and -40000. *)
Lemma float_to_s16_16_monotone_saturating_witness :
  valid f_0_1 = true /\ valid f40000 = true /\
  float_to_s16_16 f_0_1 = Some (Qfloor (F2Q f_0_1 * 65536)) /\
  float_to_s16_16 f40000 = Some 0x7FFFFFFF /\
  float_to_s16_16 (- f40000)%F = Some (int32_t 0x80000000) /\
  exists a b, float_to_s16_16 f_0_1 = Some a /\ float_to_s16_16 f40000 = Some b /\ a <= b.
Proof.
  split; [reflexivity|]. split; [reflexivity|].
  split; [apply (float_to_s16_16_monotone_saturating f_0_1 f40000); reflexivity|].
  split; [apply (float_to_s16_16_monotone_saturating f40000 f40000); reflexivity|].
  split; [apply (float_to_s16_16_monotone_saturating (- f40000)%F f40000); reflexivity|].
  apply (float_to_s16_16_monotone_saturating f_0_1 f40000); reflexivity.
Defined.


(** ** Triangle coefficient computer: the shade words *)

Lemma testbit_uint32 x n :
  0 <= n -> Z.testbit (uint32_t x) n = (n <? 32) && Z.testbit x n.
Proof.
  intros Hn. unfold uint32_t. destruct (Z.ltb_spec n 32).
  - now rewrite Z.mod_pow2_bits_low.
  - now rewrite Z.mod_pow2_bits_high.
Qed.

Lemma testbit_ffff n : 0 <= n -> Z.testbit 0xffff n = (n <? 16).
Proof. intros. change 0xffff with (Z.ones 16). apply Z.testbit_ones_nonneg; lia. Qed.

Lemma testbit_ffff0000 n :
  0 <= n -> Z.testbit 0xffff0000 n = (16 <=? n) && (n <? 32).
Proof.
  intros Hn. change 0xffff0000 with (Z.shiftl (Z.ones 16) 16).
  destruct (Z.leb_spec 16 n).
  - rewrite Z.shiftl_spec, Z.testbit_ones_nonneg by lia. cbn [andb].
    destruct (Z.ltb_spec (n - 16) 16), (Z.ltb_spec n 32); try reflexivity; lia.
  - now rewrite Z.shiftl_spec_low.
Qed.

Lemma testbit_field16 w lo n :
  0 <= lo -> 0 <= n ->
  Z.testbit (field16 w lo) n = (n <? 16) && Z.testbit w (n + lo).
Proof.
  intros Hl Hn. unfold field16.
  now rewrite Z.land_spec, Z.shiftr_spec, testbit_ffff, andb_comm.
Qed.

Lemma testbit_word64 a b m :
  0 <= m ->
  Z.testbit (Z.lor (Z.shiftl (uint32_t a) 32) (uint32_t b)) m
  = if m <? 32 then Z.testbit b m else (m <? 64) && Z.testbit a (m - 32).
Proof.
  intros Hm. rewrite Z.lor_spec, testbit_uint32 by lia.
  destruct (Z.ltb_spec m 32).
  - rewrite Z.shiftl_spec_low by lia. reflexivity.
  - rewrite Z.shiftl_spec, testbit_uint32 by lia. cbn [andb].
    rewrite orb_false_r.
    destruct (Z.ltb_spec (m - 32) 32), (Z.ltb_spec m 64); try reflexivity; lia.
Qed.

Lemma testbit_pack_hi x y n :
  0 <= n ->
  Z.testbit (Z.lor (Z.land x 0xffff0000) (Z.land 0xffff (Z.shiftr y 16))) n
  = if n <? 16 then Z.testbit y (n + 16) else (n <? 32) && Z.testbit x n.
Proof.
  intros Hn.
  rewrite Z.lor_spec, !Z.land_spec, Z.shiftr_spec, testbit_ffff, testbit_ffff0000 by lia.
  destruct (Z.ltb_spec n 16), (Z.leb_spec 16 n), (Z.ltb_spec n 32); try lia;
    cbn [andb orb]; rewrite ?andb_false_r, ?andb_true_r, ?orb_false_r; reflexivity.
Qed.

Lemma testbit_pack_lo x y n :
  0 <= n ->
  Z.testbit (Z.lor (Z.shiftl x 16) (Z.land y 0xffff)) n
  = if n <? 16 then Z.testbit y n else Z.testbit x (n - 16).
Proof.
  intros Hn. rewrite Z.lor_spec, Z.land_spec, testbit_ffff by lia.
  destruct (Z.ltb_spec n 16).
  - rewrite Z.shiftl_spec_low by lia. now rewrite andb_true_r.
  - rewrite Z.shiftl_spec by lia. now rewrite andb_false_r, orb_false_r.
Qed.

Lemma testbit_hi16 x n : 0 <= n -> Z.testbit (hi16 x) n = (n <? 16) && Z.testbit x (n + 16).
Proof. intros. unfold hi16. now rewrite Z.land_spec, Z.shiftr_spec, testbit_ffff, andb_comm. Qed.

Lemma testbit_lo16 x n : 0 <= n -> Z.testbit (lo16 x) n = (n <? 16) && Z.testbit x n.
Proof. intros. unfold lo16. now rewrite Z.land_spec, testbit_ffff, andb_comm. Qed.

Ltac solve_bits :=
  repeat match goal with
         | |- context [?a <? ?b] => destruct (Z.ltb_spec a b); try lia
         end;
  cbn [andb orb]; rewrite ?andb_false_r, ?andb_true_r; try reflexivity;
  try (f_equal; lia).

(** The fields of a word made of an integer pair and of a fraction pair. *)
Lemma fields_hi_hi x1 y1 x2 y2 :
  fields (Z.lor (Z.shiftl (pack_hi x1 y1) 32) (pack_hi x2 y2))
  = [hi16 x1; hi16 y1; hi16 x2; hi16 y2].
Proof.
  unfold fields, pack_hi. repeat f_equal; apply Z.bits_inj'; intros n Hn;
    rewrite testbit_field16, testbit_word64, ?testbit_pack_hi, testbit_hi16 by lia;
    solve_bits.
Qed.

Lemma fields_lo_lo x1 y1 x2 y2 :
  fields (Z.lor (Z.shiftl (pack_lo x1 y1) 32) (pack_lo x2 y2))
  = [lo16 x1; lo16 y1; lo16 x2; lo16 y2].
Proof.
  unfold fields, pack_lo. repeat f_equal; apply Z.bits_inj'; intros n Hn;
    rewrite testbit_field16, testbit_word64, ?testbit_pack_lo, testbit_lo16 by lia;
    solve_bits.
Qed.

Lemma c_and_bit y : c_and y 0xffff = (if y =? 0 then 0 else 1).
Proof. unfold c_and. now destruct (y =? 0). Qed.

Lemma fields_lo_and x1 y1 x2 y2 :
  fields (Z.lor (Z.shiftl (uint32_t (Z.lor (Z.shiftl x1 16) (c_and y1 0xffff))) 32)
                (uint32_t (Z.lor (Z.shiftl x2 16) (c_and y2 0xffff))))
  = [lo16 x1; c_and y1 0xffff; lo16 x2; c_and y2 0xffff].
Proof.
  assert (C : forall y, Z.land (c_and y 0xffff) 0xffff = c_and y 0xffff)
    by (intros y; rewrite c_and_bit; now destruct (y =? 0)).
  pose proof (fields_lo_lo x1 (c_and y1 0xffff) x2 (c_and y2 0xffff)) as H.
  unfold pack_lo, lo16 in *. rewrite !C in H. exact H.
Qed.

(** The layout of the eight shade words. *)
Lemma shade_pack_fields (c : shade_fixed) :
  map fields (words64 (shade_pack c))
  = [ [hi16 (final_r c); hi16 (final_g c); hi16 (final_b c); hi16 (final_a c)];
      [hi16 (DrDx_fixed c); hi16 (DgDx_fixed c); hi16 (DbDx_fixed c); hi16 (DaDx_fixed c)];
      [lo16 (final_r c); lo16 (final_g c); lo16 (final_b c); lo16 (final_a c)];
      [lo16 (DrDx_fixed c); lo16 (DgDx_fixed c); lo16 (DbDx_fixed c); lo16 (DaDx_fixed c)];
      [hi16 (DrDe_fixed c); hi16 (DgDe_fixed c); hi16 (DbDe_fixed c); hi16 (DaDe_fixed c)];
      [hi16 (DrDy_fixed c); hi16 (DgDy_fixed c); hi16 (DbDy_fixed c); hi16 (DaDy_fixed c)];
      [lo16 (DrDe_fixed c); lo16 (DgDe_fixed c); lo16 (DbDe_fixed c); lo16 (DaDe_fixed c)];
      [lo16 (DrDy_fixed c); c_and (DgDy_fixed c) 0xffff;
       lo16 (DbDy_fixed c); c_and (DaDy_fixed c) 0xffff] ].
Proof.
  unfold shade_pack. cbn [words64 map].
  now rewrite !fields_hi_hi, !fields_lo_lo, fields_lo_and.
Qed.

(** C2: the code fails the claim. On the shaded triangle [shaded_a],
    [shaded_b], [shaded_c] the slope DgDy is 0.1, [0x00001999] in 16.16;
    the word that carries the fractional halves of the per-Y slopes
    (word 7 of the shade block, two words after the integer halves) has
    the low 16 bits of DrDy in its first field, but 1 in the field of
    DgDy instead of [0x1999]. *)
Theorem shade_DgDy_fraction_lost :
  exists v1 v2 v3 data edge c w,
    rdpq_triangle_sort 0 shaded_a shaded_b shaded_c = Some (v1, v2, v3) /\
    __rdpq_write_edge_coeffs 0 0 0 v1 v2 v3 = Some (data, edge) /\
    shade_coeffs data 2 v1 v2 v3 = Some c /\
    words64 (shade_pack c) !! 7%nat = Some w /\
    field16 w 48 = Z.land (DrDy_fixed c) 0xffff /\
    Z.land (DgDy_fixed c) 0xffff = 6553 /\
    field16 w 32 = 1.
Proof.
  eexists _, _, _, _, _, _, _.
  split; [vm_compute; reflexivity|].
  split; [vm_compute; reflexivity|].
  split; [vm_compute; reflexivity|].
  split; [vm_compute; reflexivity|].
  split; [vm_compute; reflexivity|].
  split; vm_compute; reflexivity.
Qed.

(** ** Command writer *)

Ltac rdpq_simpl :=
  cbn [rdpq_block_ptr rdpq_block_end rdpq_block_active rdpq_config
       rdpq_autosync_state0 rdpq_autosync_state1 rdpq_block rdpq_block_first
       rdpq_block_size last_rdp_cmd rspq_cur_pointer mem blocks heap heap_top
       emitted
       set_rdpq_block_ptr set_rdpq_block_end set_rdpq_block_active
       set_rdpq_config set_rdpq_autosync_state0 set_rdpq_autosync_state1
       set_rdpq_block set_rdpq_block_first set_rdpq_block_size
       set_last_rdp_cmd set_rspq_cur_pointer set_mem set_blocks set_heap
       set_emitted store log_cmd autosync_use in_block].
Tactic Notation "rdpq_simpl" "in" hyp(H) :=
  cbn [rdpq_block_ptr rdpq_block_end rdpq_block_active rdpq_config
       rdpq_autosync_state0 rdpq_autosync_state1 rdpq_block rdpq_block_first
       rdpq_block_size last_rdp_cmd rspq_cur_pointer mem blocks heap heap_top
       emitted
       set_rdpq_block_ptr set_rdpq_block_end set_rdpq_block_active
       set_rdpq_config set_rdpq_autosync_state0 set_rdpq_autosync_state1
       set_rdpq_block set_rdpq_block_first set_rdpq_block_size
       set_last_rdp_cmd set_rspq_cur_pointer set_mem set_blocks set_heap
       set_emitted store log_cmd autosync_use in_block] in H.

Section WriterFacts.
Context `{Hdr : Headers}.
Hypothesis sizeof_aligned : sizeof_rdpq_block_t mod 8 = 0.

Lemma land7_mod a : Z.land (uint32_t a) 7 = a mod 8.
Proof.
  unfold uint32_t. change 7 with (Z.ones 3). rewrite Z.land_ones by lia.
  apply Z.mod_mod_divide. exists (2 ^ 29). reflexivity.
Qed.

Lemma emits_refl s : emits [] s s.
Proof. unfold emits. now rewrite app_nil_r. Qed.

Lemma emits_trans c1 c2 s1 s2 s3 :
  emits c1 s1 s2 -> emits c2 s2 s3 -> emits (c1 ++ c2) s1 s3.
Proof.
  unfold emits. intros (A1 & A2 & A3 & A4 & A5) (B1 & B2 & B3 & B4 & B5).
  rewrite B1, B2, B3, B4, B5, A1, A2, A3, A4, A5, app_assoc. auto.
Qed.

Lemma store_words_frame a ws s :
  exists m, store_words a ws s = set_mem m s.
Proof.
  revert a s. induction ws as [|w ws IH]; intros a s; cbn [store_words].
  - exists (mem s). now destruct s.
  - destruct (IH (a + 4) (store a w s)) as [m ->]. exists m. reflexivity.
Qed.

Lemma rspq_write_frame ovl c a0 args s :
  exists m p, rspq_write ovl c a0 args s = set_rspq_cur_pointer p (set_mem m s).
Proof.
  unfold rspq_write.
  destruct (store_words_frame (rspq_cur_pointer s)
              (uint32_t (Z.lor (ovl + Z.shiftl c 24) a0) :: map uint32_t args) s)
    as [m ->].
  eexists _, _. reflexivity.
Qed.

Lemma flush_frame a b s :
  a mod 8 = 0 -> b mod 8 = 0 ->
  exists m p l, __rdpq_block_flush a b s
                = Some (set_last_rdp_cmd l (set_rspq_cur_pointer p (set_mem m s))).
Proof.
  intros Ha Hb. unfold __rdpq_block_flush.
  rewrite !land7_mod, Ha, Hb. cbn [Z.eqb negb].
  destruct (_ && _).
  - exists (<[last_rdp_cmd s := uint32_t (Z.lor (Z.shiftl RSPQ_CMD_RDP 24) (PhysicalAddr b))]> (mem s)),
      (rspq_cur_pointer s), (last_rdp_cmd s). now destruct s.
  - unfold rspq_int_write.
    destruct (rspq_write_frame 0 RSPQ_CMD_RDP (PhysicalAddr b) [PhysicalAddr a]
                (set_last_rdp_cmd (rspq_cur_pointer s) s)) as (m & p & ->).
    exists m, p, (rspq_cur_pointer s). reflexivity.
Qed.

Lemma next_buffer_ok s :
  RDPQ_MAX_COMMAND_SIZE <= rdpq_block_size s ->
  exists s', __rdpq_block_next_buffer s = Some s' /\ emits [] s s' /\
             RDPQ_MAX_COMMAND_SIZE <= rdpq_block_size s' /\
             rdpq_block_ptr s' mod 8 = 0.
Proof.
  intros Hs. unfold __rdpq_block_next_buffer, malloc_uncached.
  set (b := (heap_top s + 15) / 16 * 16).
  assert (Hb : (b + sizeof_rdpq_block_t) mod 8 = 0).
  { unfold b. rewrite Z.add_mod, sizeof_aligned, Z.add_0_r, Z.mod_mod by lia.
    replace ((heap_top s + 15) / 16 * 16) with ((heap_top s + 15) / 16 * 2 * 8) by lia.
    apply Z.mod_mul. lia. }
  clearbody b.
  destruct s as [bp be ba cfg st0 st1 blk first sz last cur m0 bl hp top em].
  rdpq_simpl. rdpq_simpl in Hs.
  unfold __rdpq_block_switch_buffer.
  destruct (blk =? NULL); rdpq_simpl; destruct (first =? NULL); rdpq_simpl;
    rewrite (proj2 (Z.leb_le _ _) Hs); cbn [negb];
    match goal with
    | |- context [__rdpq_block_flush ?x ?y ?t] =>
        destruct (flush_frame x y t Hb Hb) as (m & p & l & ->)
    end; cbn [mbind option_bind]; rdpq_simpl;
    (eexists; split; [reflexivity|]);
    unfold emits; destruct (_ <? RDPQ_BLOCK_MAX_SIZE); rdpq_simpl;
    rewrite ?app_nil_r; repeat split; auto;
    unfold RDPQ_MAX_COMMAND_SIZE in *; lia.
Qed.

Lemma static_write_ok cmd a0 args s :
  RDPQ_MAX_COMMAND_SIZE <= rdpq_block_size s ->
  rdpq_block_ptr s mod 8 = 0 ->
  (4 * (1 + Z.of_nat (length args))) mod 8 = 0 ->
  exists s', rdpq_static_write cmd a0 args s = Some s' /\
             emits [(cmd, a0 :: args)] s s' /\
             RDPQ_MAX_COMMAND_SIZE <= rdpq_block_size s' /\
             rdpq_block_ptr s' mod 8 = 0.
Proof.
  intros Hs Hp Hl. unfold rdpq_static_write.
  destruct s as [bp be ba cfg st0 st1 blk first sz last cur m0 bl hp top em].
  rdpq_simpl. rdpq_simpl in Hs. rdpq_simpl in Hp.
  match goal with
  | |- context [store_words ?a ?ws ?t] =>
      destruct (store_words_frame a ws t) as [m1 ->]
  end. rdpq_simpl.
  assert (Hp' : (bp + 4 * (1 + Z.of_nat (length args))) mod 8 = 0)
    by (rewrite Z.add_mod, Hp, Hl by lia; reflexivity).
  match goal with
  | |- context [__rdpq_block_flush ?x ?y ?t] =>
      destruct (flush_frame x y t Hp Hp') as (m & p & l & ->)
  end. cbn [mbind option_bind]. rdpq_simpl.
  destruct (be <? _).
  - match goal with
    | |- context [__rdpq_block_next_buffer ?t] =>
        destruct (next_buffer_ok t Hs) as (s' & -> & E & Hs' & Hp'')
    end.
    exists s'. split; [reflexivity|]. split; [|auto].
    unfold emits in *. rdpq_simpl in E. rdpq_simpl.
    rewrite app_nil_r in E. exact E.
  - eexists. split; [reflexivity|]. unfold emits. rdpq_simpl. auto 10.
Qed.

Lemma rdpq_write_ok cmd a0 args s :
  wf s -> (4 * (1 + Z.of_nat (length args))) mod 8 = 0 ->
  exists s', rdpq_write cmd a0 args s = Some s' /\
             emits [(cmd, a0 :: args)] s s' /\ wf s'.
Proof.
  intros W Hl. unfold rdpq_write, in_block.
  destruct (rdpq_block_active s) eqn:A.
  - destruct (W A) as [Hs Hp].
    assert (C : exists s1, __rdpq_block_check s = Some s1 /\ emits [] s s1 /\
                  RDPQ_MAX_COMMAND_SIZE <= rdpq_block_size s1 /\
                  rdpq_block_ptr s1 mod 8 = 0).
    { unfold __rdpq_block_check. rewrite A. cbn [andb].
      destruct (Z.eqb_spec (rdpq_block s) NULL) as [E|E].
      - apply next_buffer_ok, Hs.
      - exists s. split; [reflexivity|]. split; [apply emits_refl|]. auto. }
    destruct C as (s1 & -> & E1 & Hs1 & Hp1). cbn [mbind option_bind].
    destruct (static_write_ok cmd a0 args s1 Hs1 Hp1 Hl) as (s' & -> & E2 & Hs' & Hp').
    exists s'. split; [reflexivity|]. split.
    + apply (emits_trans [] _ _ _ _ E1 E2).
    + intros _. auto.
  - eexists. split; [reflexivity|]. unfold rdpq_dynamic_write.
    match goal with
    | |- context [rspq_write ?o ?c ?a ?l ?t] =>
        destruct (rspq_write_frame o c a l t) as (m & p & ->)
    end.
    split.
    + unfold emits. destruct s. rdpq_simpl. auto 10.
    + unfold wf. destruct s. rdpq_simpl. rdpq_simpl in A. intros; congruence.
Qed.
End WriterFacts.

(** ** Auto-sync engine *)

Lemma clear_class_self A st : Z.land (clear_class A st) A = 0.
Proof.
  unfold clear_class, uint32_t. apply Z.bits_inj'. intros n Hn.
  rewrite !Z.land_spec, Z.bits_0.
  destruct (Z.ltb_spec n 32) as [Lo|Hi].
  - rewrite Z.mod_pow2_bits_low, Z.lnot_spec by lia.
    destruct (Z.testbit A n), (Z.testbit st n); reflexivity.
  - rewrite Z.mod_pow2_bits_high by lia. now rewrite andb_false_r.
Qed.

Lemma clear_class_other A B st :
  0 <= B < 2 ^ 32 -> Z.land A B = 0 ->
  Z.land (clear_class A st) B = Z.land st B.
Proof.
  intros HB D. unfold clear_class, uint32_t. apply Z.bits_inj'. intros n Hn.
  rewrite !Z.land_spec.
  assert (Dn : Z.testbit A n && Z.testbit B n = false)
    by (rewrite <- Z.land_spec, D; apply Z.bits_0).
  destruct (Z.ltb_spec n 32) as [Lo|Hi].
  - rewrite Z.mod_pow2_bits_low, Z.lnot_spec by lia.
    destruct (Z.testbit A n), (Z.testbit B n), (Z.testbit st n);
      try reflexivity; discriminate.
  - rewrite <- (Z.mod_small B (2 ^ 32)) by lia.
    rewrite !Z.mod_pow2_bits_high by lia. now rewrite !andb_false_r.
Qed.

Section AutosyncFacts.
Context `{Hdr : Headers}.
Hypothesis sizeof_aligned : sizeof_rdpq_block_t mod 8 = 0.

Lemma sync_ok (cmd mask : Z) s :
  wf s ->
  exists s',
    (s1 ← __rdpq_write8 cmd 0 0 s;
     Some (set_rdpq_autosync_state0
             (Z.land (rdpq_autosync_state0 s1) (uint32_t (Z.lnot mask))) s1))
    = Some s' /\
    syncs [(cmd, [0; 0])] (clear_class mask) s s' /\ wf s'.
Proof.
  intros W. unfold __rdpq_write8.
  destruct (rdpq_write_ok sizeof_aligned cmd 0 [0] s W eq_refl)
    as (s1 & -> & (E1 & E2 & E3 & E4 & E5) & W1).
  cbn [mbind option_bind]. eexists. split; [reflexivity|]. split.
  - unfold syncs, clear_class. destruct s1. rdpq_simpl.
    rdpq_simpl in E1. rdpq_simpl in E2. rdpq_simpl in E5.
    now rewrite E1, E2, E5.
  - unfold wf in *. destruct s1. rdpq_simpl. exact W1.
Qed.

Lemma sync_if_ok (c : bool) (sync : rdpq -> option rdpq) (cmd mask : Z) :
  (forall s, wf s -> exists s', sync s = Some s' /\
                       syncs [(cmd, [0; 0])] (clear_class mask) s s' /\ wf s') ->
  forall s, wf s ->
  exists s', (if c then sync s else Some s) = Some s' /\
             syncs (if c then [(cmd, [0; 0])] else []) (clear_if c mask) s s' /\
             wf s'.
Proof.
  intros H s W. destruct c.
  - apply H, W.
  - exists s. split; [reflexivity|]. split; [|exact W].
    unfold syncs, clear_if. now rewrite app_nil_r.
Qed.

Lemma syncs_trans c1 c2 f1 f2 s1 s2 s3 :
  syncs c1 f1 s1 s2 -> syncs c2 f2 s2 s3 ->
  syncs (c1 ++ c2) (fun st => f2 (f1 st)) s1 s3.
Proof.
  unfold syncs. intros (A1 & A2 & A3) (B1 & B2 & B3).
  rewrite B1, B2, B3, A1, A2, A3, app_assoc. auto.
Qed.

(** [autosync_change res] on the log of emitted commands and on the dirty
    mask. With [hit] the dirty bits that [res] touches, SYNC_TILE is emitted when [hit] has a tile bit and the tile
    class is enabled, SYNC_LOAD when it has a TMEM bit and the load class
    is enabled, SYNC_PIPE when it has the pipe bit and the pipe class is
    enabled, in that order and nothing else; the dirty bits of each emitted
    class are cleared, those of a class that was not emitted are
    unchanged; when [hit] is empty the state does not change at all. *)
Lemma autosync_change_dirty (res : Z) (s : rdpq) :
  autosync_classes_ok -> wf s ->
  let hit := Z.land res (rdpq_autosync_state0 s) in
  let tile := negb (Z.land hit AUTOSYNC_TILES =? 0)
              && negb (Z.land (rdpq_config s) RDPQ_CFG_AUTOSYNCTILE =? 0) in
  let load := negb (Z.land hit AUTOSYNC_TMEMS =? 0)
              && negb (Z.land (rdpq_config s) RDPQ_CFG_AUTOSYNCLOAD =? 0) in
  let pipe := negb (Z.land hit AUTOSYNC_PIPE =? 0)
              && negb (Z.land (rdpq_config s) RDPQ_CFG_AUTOSYNCPIPE =? 0) in
  exists s',
    autosync_change res s = Some s' /\
    emitted s' = emitted s
                 ++ (if tile then [(RDPQ_CMD_SYNC_TILE, [0; 0])] else [])
                 ++ (if load then [(RDPQ_CMD_SYNC_LOAD, [0; 0])] else [])
                 ++ (if pipe then [(RDPQ_CMD_SYNC_PIPE, [0; 0])] else []) /\
    rdpq_autosync_state0 s'
    = clear_if pipe AUTOSYNC_PIPE
        (clear_if load AUTOSYNC_TMEMS
           (clear_if tile AUTOSYNC_TILES (rdpq_autosync_state0 s))) /\
    Z.land (rdpq_autosync_state0 s') AUTOSYNC_TILES
    = (if tile then 0 else Z.land (rdpq_autosync_state0 s) AUTOSYNC_TILES) /\
    Z.land (rdpq_autosync_state0 s') AUTOSYNC_TMEMS
    = (if load then 0 else Z.land (rdpq_autosync_state0 s) AUTOSYNC_TMEMS) /\
    Z.land (rdpq_autosync_state0 s') AUTOSYNC_PIPE
    = (if pipe then 0 else Z.land (rdpq_autosync_state0 s) AUTOSYNC_PIPE) /\
    (hit = 0 -> s' = s).
Proof.
  intros (RT & RM & RP & D1 & D2 & D3) W hit tile load pipe.
  assert (D1' : Z.land AUTOSYNC_TMEMS AUTOSYNC_TILES = 0) by now rewrite Z.land_comm.
  assert (D2' : Z.land AUTOSYNC_PIPE AUTOSYNC_TILES = 0) by now rewrite Z.land_comm.
  assert (D3' : Z.land AUTOSYNC_PIPE AUTOSYNC_TMEMS = 0) by now rewrite Z.land_comm.
  assert (Masks : forall st,
    let st' := clear_if pipe AUTOSYNC_PIPE
                 (clear_if load AUTOSYNC_TMEMS (clear_if tile AUTOSYNC_TILES st)) in
    Z.land st' AUTOSYNC_TILES = (if tile then 0 else Z.land st AUTOSYNC_TILES) /\
    Z.land st' AUTOSYNC_TMEMS = (if load then 0 else Z.land st AUTOSYNC_TMEMS) /\
    Z.land st' AUTOSYNC_PIPE = (if pipe then 0 else Z.land st AUTOSYNC_PIPE)).
  { intros st. unfold clear_if.
    destruct tile, load, pipe; cbv zeta;
      rewrite ?clear_class_self, ?clear_class_other, ?clear_class_self,
        ?clear_class_other, ?clear_class_self by assumption; auto. }
  unfold autosync_change. fold hit.
  destruct (Z.eqb_spec hit 0) as [Z0|NZ].
  - assert (tile = false /\ load = false /\ pipe = false) as (-> & -> & ->).
    { unfold tile, load, pipe. rewrite Z0, !Z.land_0_l. auto. }
    exists s. cbn [app clear_if]. rewrite app_nil_r. auto 10.
  - destruct (sync_if_ok tile rdpq_sync_tile RDPQ_CMD_SYNC_TILE AUTOSYNC_TILES
                (sync_ok RDPQ_CMD_SYNC_TILE AUTOSYNC_TILES) s W)
      as (s1 & E1 & S1 & W1).
    fold tile. unfold rdpq_sync_tile in E1 |- *. rewrite E1. cbn [mbind option_bind].
    assert (C1 : rdpq_config s1 = rdpq_config s) by apply S1.
    destruct (sync_if_ok load rdpq_sync_load RDPQ_CMD_SYNC_LOAD AUTOSYNC_TMEMS
                (sync_ok RDPQ_CMD_SYNC_LOAD AUTOSYNC_TMEMS) s1 W1)
      as (s2 & E2 & S2 & W2).
    rewrite C1. fold load. unfold rdpq_sync_load in E2 |- *. rewrite E2.
    cbn [mbind option_bind].
    assert (C2 : rdpq_config s2 = rdpq_config s) by (rewrite <- C1; apply S2).
    destruct (sync_if_ok pipe rdpq_sync_pipe RDPQ_CMD_SYNC_PIPE AUTOSYNC_PIPE
                (sync_ok RDPQ_CMD_SYNC_PIPE AUTOSYNC_PIPE) s2 W2)
      as (s3 & E3 & S3 & W3).
    rewrite C2. fold pipe. unfold rdpq_sync_pipe in E3 |- *. rewrite E3.
    exists s3. split; [reflexivity|].
    pose proof (syncs_trans _ _ _ _ _ _ _ (syncs_trans _ _ _ _ _ _ _ S1 S2) S3)
      as (_ & St & Em).
    rewrite Em, St, <- app_assoc.
    destruct (Masks (rdpq_autosync_state0 s)) as (M1 & M2 & M3).
    repeat split; auto. intros; contradiction.
Qed.
End AutosyncFacts.

(** ** Submission glue and block recorder *)

Lemma load_store_eq a v s : load a (store a v s) = v.
Proof. unfold load, store. destruct s. cbn. now rewrite lookup_insert_eq. Qed.

Lemma load_store_ne a b v s : a <> b -> load a (store b v s) = load a s.
Proof.
  intros N. unfold load, store. destruct s. cbn. now rewrite lookup_insert_ne.
Qed.

Lemma load_set_rspq_cur_pointer a p s : load a (set_rspq_cur_pointer p s) = load a s.
Proof. now destruct s. Qed.

Lemma load_set_last_rdp_cmd a p s : load a (set_last_rdp_cmd p s) = load a s.
Proof. now destruct s. Qed.

Lemma rspq_cur_pointer_store a v s :
  rspq_cur_pointer (store a v s) = rspq_cur_pointer s.
Proof. now destruct s. Qed.

Lemma last_rdp_cmd_store a v s : last_rdp_cmd (store a v s) = last_rdp_cmd s.
Proof. now destruct s. Qed.

Section BlockFacts.
Context `{Hdr : Headers}.

Lemma recorded_end_submit_word e :
  recorded_end (submit_word e) = Z.land e 0xFFFFFF.
Proof.
  unfold recorded_end, submit_word, uint32_t. apply Z.bits_inj'. intros n Hn.
  rewrite !Z.land_spec. change 16777215 with (Z.ones 24).
  rewrite Z.testbit_ones_nonneg by lia.
  destruct (Z.ltb_spec n 24) as [Lo|Hi]; [|now rewrite !andb_false_r].
  rewrite Z.mod_pow2_bits_low, Z.lor_spec, Z.shiftl_spec_low by lia.
  reflexivity.
Qed.

Lemma diff_is_2 cur last :
  cur mod 4 = 0 -> last mod 4 = 0 -> 0 <= cur < 2 ^ 32 -> 0 <= last < 2 ^ 32 ->
  (uint32_t ((cur - last) / 4) =? 2) = (cur =? last + 8).
Proof.
  intros Hc Hl Rc Rl. unfold uint32_t.
  assert (E : cur - last = 4 * ((cur - last) / 4)).
  { apply Z.div_exact; [lia|]. rewrite Zminus_mod, Hc, Hl. reflexivity. }
  set (d := (cur - last) / 4) in *. clearbody d.
  change (2 ^ 32) with 4294967296 in *.
  destruct (Z.eqb_spec cur (last + 8)) as [C|C].
  - assert (d = 2) by lia. subst. reflexivity.
  - apply Z.eqb_neq. intros M.
    destruct (Z_lt_le_dec d 0) as [Neg|Pos].
    + assert (d mod 4294967296 = d + 4294967296).
      { symmetry. apply Z.mod_unique with (-1); lia. }
      lia.
    + rewrite Z.mod_small in M by lia. lia.
Qed.

(** C7: submission coalescing in [__rdpq_block_flush]. When the queue
    cursor is just past the last submit instruction (no other CP command
    since) and the end pointer recorded in that instruction is the physical
    start of the new range, the instruction is patched in place with the
    new end and nothing is added to the queue; in every other case a fresh
    submit instruction [(end, start)] is written at the cursor, which
    advances by its two words, and its location is remembered in
    [last_rdp_cmd]. *)
Theorem block_flush_coalesces (start end_ : Z) (s : rdpq) :
  start mod 8 = 0 -> end_ mod 8 = 0 ->
  rspq_cur_pointer s mod 4 = 0 -> last_rdp_cmd s mod 4 = 0 ->
  0 <= rspq_cur_pointer s < 2 ^ 32 -> 0 <= last_rdp_cmd s < 2 ^ 32 ->
  let contiguous :=
    rspq_cur_pointer s = last_rdp_cmd s + 8 /\
    recorded_end (load (last_rdp_cmd s) s) = PhysicalAddr start in
  (contiguous ->
     __rdpq_block_flush start end_ s
     = Some (store (last_rdp_cmd s) (submit_word (PhysicalAddr end_)) s)) /\
  (~ contiguous ->
     exists s',
       __rdpq_block_flush start end_ s = Some s' /\
       last_rdp_cmd s' = rspq_cur_pointer s /\
       rspq_cur_pointer s' = rspq_cur_pointer s + 8 /\
       load (rspq_cur_pointer s) s' = submit_word (PhysicalAddr end_) /\
       load (rspq_cur_pointer s + 4) s' = uint32_t (PhysicalAddr start) /\
       forall a, a <> rspq_cur_pointer s -> a <> rspq_cur_pointer s + 4 ->
                 load a s' = load a s).
Proof.
  intros Ha Hb Hc Hl Rc Rl contiguous.
  unfold __rdpq_block_flush. rewrite !land7_mod, Ha, Hb. cbn [Z.eqb negb].
  rewrite diff_is_2 by assumption. fold (recorded_end (load (last_rdp_cmd s) s)).
  split.
  - intros [C E]. rewrite (proj2 (Z.eqb_eq _ _) C), (proj2 (Z.eqb_eq _ _) E).
    reflexivity.
  - intros N.
    replace ((rspq_cur_pointer s =? last_rdp_cmd s + 8)
             && (recorded_end (load (last_rdp_cmd s) s) =? PhysicalAddr start))
      with false.
    2:{ symmetry. apply andb_false_iff.
        destruct (Z.eqb_spec (rspq_cur_pointer s) (last_rdp_cmd s + 8)); [|now left].
        right. apply Z.eqb_neq. intros E. apply N. now split. }
    eexists. split; [reflexivity|].
    unfold rspq_int_write, rspq_write, submit_word.
    destruct s as [bp be ba cfg st0 st1 blk first sz last cur m0 bl hp top em].
    cbn [store_words map]. rdpq_simpl. unfold load. rdpq_simpl.
    rewrite Z.add_0_l.
    repeat split.
    + rewrite lookup_insert_ne by lia. now rewrite lookup_insert_eq.
    + now rewrite lookup_insert_eq.
    + intros a N1 N2. now rewrite !lookup_insert_ne by lia.
Qed.

(** C4: the dirty mask across the life of a block. [__rdpq_block_begin]
    saves the working mask and replaces it by all-ones;
    [__rdpq_block_end] stores the working mask of that moment in the block
    it returns and restores the saved mask; [__rdpq_block_run] of that
    block sets the working mask to the one stored in it. *)
Theorem block_autosync_discipline (s : rdpq) (h : rdpq_block_t) :
  rdpq_block_first s <> NULL -> blocks s !! rdpq_block_first s = Some h ->
  (rdpq_autosync_state1 (__rdpq_block_begin s) = rdpq_autosync_state0 s /\
   rdpq_autosync_state0 (__rdpq_block_begin s) = 0xFFFFFFFF) /\
  (let '(block, s') := __rdpq_block_end s in
   block = rdpq_block_first s /\
   blocks s' !! block
   = Some {| next := next h; autosync_state := rdpq_autosync_state0 s |} /\
   rdpq_autosync_state0 s' = rdpq_autosync_state1 s /\
   forall t, blocks t = blocks s' ->
     exists t', __rdpq_block_run block t = Some t' /\
                rdpq_autosync_state0 t' = rdpq_autosync_state0 s).
Proof.
  intros NN Hh. split.
  - destruct s; split; reflexivity.
  - unfold __rdpq_block_end.
    destruct s as [bp be ba cfg st0 st1 blk first sz last cur m0 bl hp top em].
    rdpq_simpl. rdpq_simpl in NN. rdpq_simpl in Hh.
    destruct (Z.eqb_spec first NULL) as [E|_]; [contradiction|]. rdpq_simpl.
    assert (L : alter (set_autosync_state st0) first bl !! first
                = Some {| next := next h; autosync_state := st0 |}).
    { rewrite lookup_alter_eq, Hh. reflexivity. }
    repeat split; try assumption.
    intros t Ht. unfold __rdpq_block_run.
    destruct (Z.eqb_spec first NULL) as [E|_]; [contradiction|].
    rewrite Ht, L. cbn [mbind option_bind autosync_state].
    eexists. split; [reflexivity|]. now destruct t.
Qed.
End BlockFacts.

(** ** Interrupt bridge and the empty block *)

Section InterruptFacts.
Context `{Hdr : Headers}.

(** C9: in an execution of [__rdpq_interrupt] the write that clears the
    RDPSYNCFULL signal comes first, and the call of the callback, if there
    is one, comes after it. *)
Theorem interrupt_clears_before_callback (r : rsp) :
  sig_rdpsyncfull r = true ->
  exists r' calls,
    __rdpq_interrupt r = Some r' /\
    irq_trace r' = irq_trace r ++ ClearSyncFull :: calls /\
    forallb is_callback calls = true /\
    (length calls <= 1)%nat /\
    sig_rdpsyncfull r' = false.
Proof.
  intros S. unfold __rdpq_interrupt. rewrite S. cbn [negb].
  destruct (_ =? 0).
  - eexists _, []. repeat split; cbn; auto.
  - eexists _, [_]. split; [reflexivity|]. cbn [irq_trace sig_rdpsyncfull].
    rewrite <- app_assoc. repeat split; cbn; auto.
Qed.

Lemma callback_field_shadow w0 w1 :
  0 <= w1 < 2 ^ 32 -> callback_field (sync_full_shadow w0 w1) = Z.land w0 0xFFFFFF.
Proof.
  intros R. unfold callback_field, sync_full_shadow.
  rewrite Z.shiftr_lor, Z.shiftr_shiftl_l, Z.sub_diag, Z.shiftl_0_r by lia.
  rewrite (Z.shiftr_div_pow2 w1), Z.div_small, Z.lor_0_r by lia.
  reflexivity.
Qed.

Lemma header_word_low24 ovl cmd :
  ovl mod 2 ^ 24 = 0 ->
  Z.land (uint32_t (Z.lor (ovl + Z.shiftl cmd 24) 0)) 0xFFFFFF = 0.
Proof.
  intros Ho. rewrite Z.lor_0_r. unfold uint32_t.
  change 16777215 with (Z.ones 24). rewrite Z.land_ones by lia.
  rewrite Z.mod_mod_divide by (exists (2 ^ 8); reflexivity).
  rewrite Z.shiftl_mul_pow2, Z.mod_add by lia. exact Ho.
Qed.

(** C10: the empty block and the NULL callback. Ending a recording in
    which no buffer was allocated returns NULL and restores the saved
    mask, without touching headers or heap; so does ending right after
    beginning. Running the NULL block and freeing it change nothing. The
    handler calls back exactly when the callback field of the shadow copy
    is not zero, and the SYNC_FULL that [rdpq_fence] puts in the queue
    carries a zero field. *)
Theorem empty_block_and_null_callback (s : rdpq) (r : rsp) :
  PhysicalAddr NULL = 0 -> sig_rdpsyncfull r = true ->
  (* ending a recording in which nothing was written *)
  (rdpq_block_first s = NULL ->
     fst (__rdpq_block_end s) = NULL /\
     rdpq_autosync_state0 (snd (__rdpq_block_end s)) = rdpq_autosync_state1 s /\
     blocks (snd (__rdpq_block_end s)) = blocks s /\
     heap (snd (__rdpq_block_end s)) = heap s) /\
  (fst (__rdpq_block_end (__rdpq_block_begin s)) = NULL /\
   rdpq_autosync_state0 (snd (__rdpq_block_end (__rdpq_block_begin s)))
   = rdpq_autosync_state0 s) /\
  (* running and freeing the NULL block *)
  __rdpq_block_run NULL s = Some s /\
  __rdpq_block_free NULL s = Some s /\
  (* the handler calls back exactly when the field is not zero *)
  (exists r',
     __rdpq_interrupt r = Some r' /\
     irq_trace r'
     = irq_trace r ++ ClearSyncFull ::
         (if callback_field (sync_full r) =? 0 then []
          else [Callback (CachedAddr (Z.lor (callback_field (sync_full r)) 0x80000000))
                         (Z.land (sync_full r) 0xFFFFFFFF)])) /\
  (* the SYNC_FULL of a fence carries a zero field *)
  (in_block s = false ->
   exists s',
     rdpq_fence s = Some s' /\
     callback_field (sync_full_shadow (load (rspq_cur_pointer s) s')
                                      (load (rspq_cur_pointer s + 4) s')) = 0).
Proof.
  intros P0 S.
  split; [|split; [|split; [|split; [|split]]]].
  - intros E. unfold __rdpq_block_end. cbn [fst snd].
    destruct s as [bp be ba cfg st0 st1 blk first sz last cur m0 bl hp top em].
    rdpq_simpl. rdpq_simpl in E. subst first. cbn [Z.eqb NULL]. rdpq_simpl. auto.
  - now destruct s.
  - reflexivity.
  - reflexivity.
  - unfold __rdpq_interrupt. rewrite S. cbn [negb].
    fold (callback_field (sync_full r)). rewrite Z.shiftr_0_r.
    destruct (_ =? 0); eexists; (split; [reflexivity|]);
      cbn [irq_trace]; now rewrite <- ?app_assoc.
  - intros B. unfold rdpq_fence, rdpq_sync_full. rewrite B.
    cbn [mbind option_bind]. eexists. split; [reflexivity|].
    rewrite P0. unfold rspq_int_write, rdpq_dynamic_write, rspq_write.
    destruct s as [bp be ba cfg st0 st1 blk first sz last cur m0 bl hp top em].
    cbn [store_words map length]. rdpq_simpl. unfold load. rdpq_simpl.
    assert (N1 : cur + 4 * (1 + Z.of_nat 1) <> cur) by lia.
    assert (N2 : cur + 4 * (1 + Z.of_nat 1) <> cur + 4) by lia.
    rewrite !(lookup_insert_ne _ (cur + 4 * (1 + Z.of_nat 1))) by assumption.
    rewrite lookup_insert_eq.
    rewrite (lookup_insert_ne _ (cur + 4)) by lia. rewrite lookup_insert_eq.
    cbn [default].
    rewrite callback_field_shadow
      by (unfold uint32_t; apply Z.mod_pos_bound; reflexivity).
    apply header_word_low24. reflexivity.
Qed.
End InterruptFacts.

(** ** Growth of the recorded buffers *)

Section GrowthFacts.
Context `{Hdr : Headers}.
Hypothesis sizeof_aligned : sizeof_rdpq_block_t mod 8 = 0.

(** Each new buffer is allocated for [rdpq_block_size] words, and the size
    for the next one is [grow] of it. *)
Lemma next_buffer_sizes s :
  RDPQ_MAX_COMMAND_SIZE <= rdpq_block_size s ->
  exists s', __rdpq_block_next_buffer s = Some s' /\
             payload_words s' (rdpq_block s') = rdpq_block_size s /\
             rdpq_block_size s' = grow (rdpq_block_size s).
Proof.
  intros Hs. unfold __rdpq_block_next_buffer, malloc_uncached, payload_words, grow.
  set (b := (heap_top s + 15) / 16 * 16).
  assert (Hb : (b + sizeof_rdpq_block_t) mod 8 = 0).
  { unfold b. rewrite Z.add_mod, sizeof_aligned, Z.add_0_r, Z.mod_mod by lia.
    replace ((heap_top s + 15) / 16 * 16) with ((heap_top s + 15) / 16 * 2 * 8) by lia.
    apply Z.mod_mul. lia. }
  clearbody b.
  destruct s as [bp be ba cfg st0 st1 blk first sz last cur m0 bl hp top em].
  rdpq_simpl. rdpq_simpl in Hs.
  unfold __rdpq_block_switch_buffer.
  destruct (blk =? NULL); rdpq_simpl; destruct (first =? NULL); rdpq_simpl;
    rewrite (proj2 (Z.leb_le _ _) Hs); cbn [negb];
    match goal with
    | |- context [__rdpq_block_flush ?x ?y ?t] =>
        destruct (flush_frame x y t Hb Hb) as (m & p & l & ->)
    end; cbn [mbind option_bind]; rdpq_simpl;
    (eexists; split; [reflexivity|]);
    destruct (_ <? RDPQ_BLOCK_MAX_SIZE); rdpq_simpl;
    rewrite lookup_insert_eq; cbn [default];
    (split; [|reflexivity]); unfold id;
    replace (sizeof_rdpq_block_t + sz * 4 - sizeof_rdpq_block_t) with (sz * 4) by lia;
    apply Z.div_mul; lia.
Qed.
End GrowthFacts.

(** From 64 words the size doubles seven times, to 8192 words, and stays
    there. *)
Lemma grow_from_min (k : nat) :
  Nat.iter k grow RDPQ_BLOCK_MIN_SIZE = 64 * 2 ^ Z.min (Z.of_nat k) 7.
Proof.
  assert (H : forall j, Nat.iter (j + 7) grow RDPQ_BLOCK_MIN_SIZE = 8192).
  { induction j as [|j IH]; [reflexivity|].
    change (S j + 7)%nat with (S (j + 7)). rewrite Nat.iter_succ, IH. reflexivity. }
  destruct (le_lt_dec 7 k) as [L|L].
  - replace k with ((k - 7) + 7)%nat by lia. rewrite H.
    rewrite Z.min_r by lia. reflexivity.
  - do 7 (destruct k as [|k]; [reflexivity|]). lia.
Qed.

(** C3: the code fails the claim. Recording 3917 eight-byte commands
    fills seven buffers of 64, 128, ..., 4096 words and allocates an eighth
    of 8192 words, above [RDPQ_BLOCK_MAX_SIZE]. *)
Theorem block_buffer_sizes_exceed_max :
  block_sizes (Hdr := sample_headers)
    <$> write8_n (Hdr := sample_headers) 3917 0x27 (__rdpq_block_begin sample_init)
  = Some [64; 128; 256; 512; 1024; 2048; 4096; 8192]
  /\ RDPQ_BLOCK_MAX_SIZE < 8192.
Proof. split; [vm_compute; reflexivity|reflexivity]. Qed.

(** ** Validator: tiles in use *)

Lemma same_modes_refl r : same_modes r r.
Proof. now unfold same_modes. Qed.

Lemma same_modes_trans r1 r2 r3 :
  same_modes r1 r2 -> same_modes r2 r3 -> same_modes r1 r3.
Proof.
  unfold same_modes. intros (A & B & C & D) (E & F & G & H).
  split_and!; congruence.
Qed.

Lemma VALIDATE_same flags c r : same_modes r (__VALIDATE flags c r).
Proof.
  unfold __VALIDATE, validate_emit_error.
  destruct c; [apply same_modes_refl|]. now destruct (negb _).
Qed.

Lemma tmem_set_bit_same x r r' : tmem_set_bit x r = Some r' -> same_modes r r'.
Proof.
  unfold tmem_set_bit. intros H.
  destruct (index _ _); [|discriminate]. cbn in H.
  destruct (assign _ _ _); [|discriminate]. now inversion H.
Qed.

Lemma tmem_set_byte_same x r r' : tmem_set_byte x r = Some r' -> same_modes r r'.
Proof.
  unfold tmem_set_byte. intros H.
  destruct (assign _ _ _); [|discriminate]. now inversion H.
Qed.

Lemma mark_head_same fuel x x1 r y r' :
  mark_head fuel x x1 r = Some (y, r') -> same_modes r r'.
Proof.
  revert x r. induction fuel as [|fuel IH]; intros x r H; cbn [mark_head] in H.
  - inversion H. apply same_modes_refl.
  - destruct (_ && _).
    + destruct (tmem_set_bit x r) as [r1|] eqn:E; [|discriminate].
      cbn in H. eapply same_modes_trans; [eapply tmem_set_bit_same, E|eapply IH, H].
    + inversion H. apply same_modes_refl.
Qed.

Lemma mark_bytes_same fuel x x1 r y r' :
  mark_bytes fuel x x1 r = Some (y, r') -> same_modes r r'.
Proof.
  revert x r. induction fuel as [|fuel IH]; intros x r H; cbn [mark_bytes] in H.
  - inversion H. apply same_modes_refl.
  - destruct (_ <? _).
    + destruct (tmem_set_byte x r) as [r1|] eqn:E; [|discriminate].
      cbn in H. eapply same_modes_trans; [eapply tmem_set_byte_same, E|eapply IH, H].
    + inversion H. apply same_modes_refl.
Qed.

Lemma mark_tail_same fuel x x1 r r' :
  mark_tail fuel x x1 r = Some r' -> same_modes r r'.
Proof.
  revert x r. induction fuel as [|fuel IH]; intros x r H; cbn [mark_tail] in H.
  - inversion H. apply same_modes_refl.
  - destruct (_ <? _).
    + destruct (tmem_set_bit x r) as [r1|] eqn:E; [|discriminate].
      cbn in H. eapply same_modes_trans; [eapply tmem_set_bit_same, E|eapply IH, H].
    + inversion H. apply same_modes_refl.
Qed.

Lemma mark_busy_tmem_same addr size r r' :
  mark_busy_tmem addr size r = Some r' -> same_modes r r'.
Proof.
  unfold mark_busy_tmem. intros H.
  destruct (mark_head _ _ _ r) as [[x r1]|] eqn:E1; [|discriminate]. cbn in H.
  destruct (mark_bytes _ _ _ r1) as [[y r2]|] eqn:E2; [|discriminate]. cbn in H.
  eapply same_modes_trans; [eapply mark_head_same, E1|].
  eapply same_modes_trans; [eapply mark_bytes_same, E2|eapply mark_tail_same, H].
Qed.

Lemma use_tile_checks_same t cycle r : same_modes r (use_tile_checks t cycle r).
Proof.
  unfold use_tile_checks, VALIDATE_ERR_SOM.
  repeat match goal with
         | |- same_modes _ (if ?c then _ else _) => destruct c
         | |- same_modes _ (let r := ?x in _) => cbv zeta
         | |- same_modes ?a (__VALIDATE _ _ ?b) =>
             apply (same_modes_trans a b); [|apply VALIDATE_same]
         end; apply same_modes_refl.
Qed.

Lemma mark_twice_same a1 a2 n r r' :
  (r1 ← mark_busy_tmem a1 n r; mark_busy_tmem a2 n r1) = Some r' ->
  same_modes r r'.
Proof.
  intros H. destruct (mark_busy_tmem a1 n r) as [r1|] eqn:E; [|discriminate].
  eapply same_modes_trans; eapply mark_busy_tmem_same; eassumption.
Qed.

Lemma use_tile_mark_same t r r' : use_tile_mark t r = Some r' -> same_modes r r'.
Proof.
  unfold use_tile_mark. intros H.
  destruct (_ || _).
  - destruct (tsize t =? 3).
    + destruct (tile_bytes_half t); [|discriminate]. eapply mark_twice_same, H.
    + destruct (tile_bytes t); [|discriminate]. eapply mark_busy_tmem_same, H.
  - destruct (fmt t =? 1).
    + destruct (tile_bytes_half t); [|discriminate]. eapply mark_twice_same, H.
    + destruct (fmt t =? 2); [|inversion H; apply same_modes_refl].
      destruct (tile_bytes t) as [n|]; [|discriminate]. cbn [mbind option_bind] in H.
      destruct (mark_busy_tmem (tmem_addr t) n r) as [r1|] eqn:E1; [|discriminate].
      cbn [mbind option_bind] in H.
      apply mark_busy_tmem_same in E1. apply (same_modes_trans _ _ _ E1).
      destruct (tsize t =? 0).
      * destruct (mark_busy_tmem _ 64 r1) as [r2|] eqn:E2; [|discriminate].
        cbn [mbind option_bind] in H.
        apply mark_busy_tmem_same in E2. apply (same_modes_trans _ _ _ E2).
        destruct (tsize t =? 1); [eapply mark_busy_tmem_same, H|].
        inversion H. apply same_modes_refl.
      * cbn [mbind option_bind] in H.
        destruct (tsize t =? 1); [eapply mark_busy_tmem_same, H|].
        inversion H. apply same_modes_refl.
Qed.

Lemma use_tile_body_same tidx cycle r r' :
  use_tile_body tidx cycle r = Some r' ->
  tile r' = tile r /\ som r' = som r /\ cc r' = cc r /\
  assign (busy_tile r) tidx true = Some (busy_tile r').
Proof.
  unfold use_tile_body. intros H.
  destruct (index (tile r) tidx) as [t|]; [|discriminate]. cbn [mbind option_bind] in H.
  destruct (assign _ _ _) as [bt|] eqn:A; [|discriminate]. cbn [mbind option_bind] in H.
  apply use_tile_mark_same in H.
  pose proof (same_modes_trans _ _ _ (use_tile_checks_same t cycle _) H)
    as (E1 & E2 & E3 & E4).
  cbn [tile som cc busy_tile set_busy_tile] in *.
  assert (V : forall c, same_modes r (VALIDATE_ERR c r)) by (intros; apply VALIDATE_same).
  destruct (V (has_extents t)) as (V1 & V2 & V3 & V4).
  rewrite V4 in A. rewrite E1, E2, E3, E4, V1, V2, V3, A. auto.
Qed.

Lemma cc_use_tex1_same r r' :
  som r' = som r -> cc r' = cc r -> cc_use_tex1 r' = cc_use_tex1 r.
Proof. intros S C. unfold cc_use_tex1. now rewrite S, C. Qed.

(** C6: the code fails the claim. When the combiner uses TEX1 in 2-cycle
    mode, [use_tile] on tile 7 marks [busy.tile[7]] and then reads
    [rdp.tile[8]] and writes [rdp.busy.tile[8]], outside the 8-entry
    arrays. *)
Theorem use_tile_7_out_of_bounds (r : rdp_t) :
  length (tile r) = 8%nat -> length (busy_tile r) = 8%nat ->
  cc_use_tex1 r = true ->
  use_tile 7 0 r = None /\
  forall r1, use_tile_body 7 0 r = Some r1 ->
    (busy_tile r1 !! 7%nat = Some true) /\
    (index (tile r1) (7 + 1) = None) /\
    (assign (busy_tile r1) (7 + 1) true = None).
Proof.
  intros Lt Lb Tex.
  assert (B : forall r1, use_tile_body 7 0 r = Some r1 ->
            (busy_tile r1 !! 7%nat = Some true) /\
            (index (tile r1) (7 + 1) = None) /\
            (assign (busy_tile r1) (7 + 1) true = None) /\
            (cc_use_tex1 r1 = true)).
  { intros r1 H. destruct (use_tile_body_same _ _ _ _ H) as (St & Ss & Sc & A).
    rewrite (cc_use_tex1_same _ _ Ss Sc), Tex.
    unfold assign in A. rewrite Lb in A. cbn in A. inversion A as [A'].
    unfold index, assign. rewrite St, Lt, length_insert, Lb. cbn.
    split; [|auto]. apply list_lookup_insert_eq. rewrite Lb. lia. }
  split.
  - unfold use_tile. destruct (use_tile_body 7 0 r) as [r1|] eqn:E; [|reflexivity].
    cbn [mbind option_bind]. destruct (B r1 eq_refl) as (_ & I & _ & T).
    rewrite T. cbn [Z.eqb andb]. unfold use_tile_body.
    now rewrite I.
  - intros r1 H. destruct (B r1 H) as (? & ? & ? & _). auto.
Qed.

(** C6 on a texture rectangle that reads tile 7. *)
Lemma use_tile_7_out_of_bounds_witness :
  length (tile sample_rdp) = 8%nat /\ cc_use_tex1 sample_rdp = true /\
  tex_rect_tile tex_rect_7 = 7 /\
  is_Some (use_tile_body 7 0 sample_rdp) /\
  use_tile (tex_rect_tile tex_rect_7) 0 sample_rdp = None.
Proof.
  split; [reflexivity|]. split; [reflexivity|]. split; [reflexivity|].
  split; [vm_compute; eauto|].
  apply (use_tile_7_out_of_bounds sample_rdp); reflexivity.
Defined.

(** On tile 6 the same draw marks tiles 6 and 7. *)
Example use_tile_6_marks_both :
  busy_tile <$> use_tile (tex_rect_tile tex_rect_6) 0 sample_rdp
  = Some [false; false; false; false; false; false; true; true].
Proof. vm_compute. reflexivity. Qed.

(** ** The statements above on the sample states *)

Section Witnesses.
#[local] Existing Instance sample_headers.

Lemma block_flush_coalesces_witness :
  rdpq_block_ptr sample_recording mod 8 = 0 /\
  rspq_cur_pointer sample_recording = last_rdp_cmd sample_recording + 8 /\
  __rdpq_block_flush
    (rdpq_block_ptr sample_recording) (rdpq_block_ptr sample_recording + 8)
    sample_recording
  = Some (store (last_rdp_cmd sample_recording)
            (submit_word
               (PhysicalAddr (rdpq_block_ptr sample_recording + 8)))
            sample_recording).
Proof.
  split; [reflexivity|]. split; [reflexivity|].
  apply (block_flush_coalesces
           (rdpq_block_ptr sample_recording)
           (rdpq_block_ptr sample_recording + 8) sample_recording);
    try reflexivity; try (vm_compute; split; [discriminate|reflexivity]).
  split; reflexivity.
Defined.

Lemma block_autosync_discipline_witness :
  rdpq_block_first sample_recording <> NULL /\
  rdpq_autosync_state0 sample_recording = 0xFFFEFFFF /\
  (let '(block, s') := __rdpq_block_end sample_recording in
   block = rdpq_block_first sample_recording /\
   blocks s' !! block = Some {| next := NULL; autosync_state := 0xFFFEFFFF |} /\
   rdpq_autosync_state0 s' = rdpq_autosync_state1 sample_recording /\
   forall t, blocks t = blocks s' ->
     exists t', __rdpq_block_run block t = Some t' /\
                rdpq_autosync_state0 t' = rdpq_autosync_state0 sample_recording).
Proof.
  split; [vm_compute; discriminate|]. split; [reflexivity|].
  apply (block_autosync_discipline sample_recording
           {| next := NULL; autosync_state := 0 |}).
  - vm_compute. discriminate.
  - vm_compute. reflexivity.
Defined.

Lemma interrupt_clears_before_callback_witness :
  sig_rdpsyncfull sample_rsp = true /\
  exists r' calls,
    __rdpq_interrupt sample_rsp = Some r' /\
    irq_trace r' = irq_trace sample_rsp ++ ClearSyncFull :: calls /\
    forallb is_callback calls = true /\
    (length calls <= 1)%nat /\
    sig_rdpsyncfull r' = false.
Proof.
  split; [reflexivity|].
  apply (interrupt_clears_before_callback sample_rsp).
  reflexivity.
Defined.

Lemma empty_block_and_null_callback_witness :
  PhysicalAddr NULL = 0 /\
  sig_rdpsyncfull sample_rsp = true /\
  __rdpq_block_run NULL sample_init = Some sample_init /\
  __rdpq_block_free NULL sample_init = Some sample_init /\
  fst (__rdpq_block_end (__rdpq_block_begin sample_init)) = NULL.
Proof.
  assert (P : PhysicalAddr NULL = 0) by reflexivity.
  assert (S : sig_rdpsyncfull sample_rsp = true) by reflexivity.
  split; [exact P|]. split; [exact S|].
  destruct (empty_block_and_null_callback sample_init sample_rsp P S)
    as (_ & (E & _) & R & F & _).
  split; [exact R|]. split; [exact F|exact E].
Defined.
End Witnesses.

(** ** Bit fields *)

Lemma BITS_testbit v b e i :
  0 <= b <= e -> e <= 63 -> 0 <= i ->
  Z.testbit (BITS v b e) i = (i <? 32) && (i <=? e - b) && Z.testbit v (b + i).
Proof.
  intros Hb He Hi. unfold BITS.
  rewrite testbit_uint32, Z.shiftr_spec by lia.
  destruct (Z.ltb_spec i 32) as [L|L]; [|reflexivity]. cbn [andb].
  destruct (Z.leb_spec i (e - b)) as [M|M]; cbn [andb].
  - rewrite Z.mod_pow2_bits_low, Z.shiftl_spec by lia. f_equal. lia.
  - rewrite Z.mod_pow2_bits_high by lia. reflexivity.
Qed.

Lemma bitfield_testbit w b e i :
  0 <= b <= e -> 0 <= i ->
  Z.testbit (bitfield w b e) i = (i <=? e - b) && Z.testbit w (b + i).
Proof.
  intros Hb Hi. unfold bitfield.
  rewrite <- Z.shiftr_div_pow2 by lia.
  destruct (Z.leb_spec i (e - b)) as [M|M]; cbn [andb].
  - rewrite Z.mod_pow2_bits_low, Z.shiftr_spec by lia. f_equal. lia.
  - rewrite Z.mod_pow2_bits_high by lia. reflexivity.
Qed.

(** X1: [BITS (v, b, e)] is the field of [v] made of bits [b] to [e], for
    fields of at most 32 bits inside a 64-bit word. *)
Theorem BITS_extracts_field v b e :
  0 <= b <= e -> e <= 63 -> e - b < 32 ->
  BITS v b e = bitfield v b e /\ 0 <= BITS v b e < 2 ^ (e - b + 1).
Proof.
  intros Hb He Hw.
  assert (E : BITS v b e = bitfield v b e).
  { apply Z.bits_inj'. intros i Hi.
    rewrite BITS_testbit, bitfield_testbit by lia.
    destruct (Z.ltb_spec i 32), (Z.leb_spec i (e - b)); try reflexivity; lia. }
  split; [exact E|]. rewrite E. unfold bitfield. apply Z.mod_pos_bound. lia.
Qed.

Lemma BITS_extracts_field_witness :
  BITS 0xC835000000000000 48 50 = bitfield 0xC835000000000000 48 50 /\
  0 <= BITS 0xC835000000000000 48 50 < 2 ^ (50 - 48 + 1).
Proof. apply BITS_extracts_field; lia. Defined.

(** The bits of the two's complement reading of the low [w] bits. *)
Lemma testbit_signed w y i :
  0 < w -> 0 <= i ->
  Z.testbit ((y + 2 ^ (w - 1)) mod 2 ^ w - 2 ^ (w - 1)) i
  = Z.testbit y (Z.min i (w - 1)).
Proof.
  intros Hw Hi.
  set (s := (y + 2 ^ (w - 1)) mod 2 ^ w - 2 ^ (w - 1)).
  assert (P : 0 < 2 ^ (w - 1)) by (apply Z.pow_pos_nonneg; lia).
  assert (D : 2 ^ w = 2 * 2 ^ (w - 1)).
  { replace w with (Z.succ (w - 1)) at 1 by lia. apply Z.pow_succ_r. lia. }
  assert (R : - 2 ^ (w - 1) <= s < 2 ^ (w - 1)).
  { unfold s. pose proof (Z.mod_pos_bound (y + 2 ^ (w - 1)) (2 ^ w) ltac:(lia)). lia. }
  assert (C : s mod 2 ^ w = y mod 2 ^ w).
  { unfold s. rewrite Zminus_mod, Z.mod_mod by lia.
    rewrite <- Zminus_mod. f_equal. lia. }
  assert (Lo : forall j, 0 <= j < w -> Z.testbit s j = Z.testbit y j).
  { intros j Hj.
    rewrite <- (Z.mod_pow2_bits_low s w j), <- (Z.mod_pow2_bits_low y w j) by lia.
    now rewrite C. }
  destruct (Z.le_gt_cases i (w - 1)) as [L|G].
  - rewrite Z.min_l by lia. apply Lo. lia.
  - rewrite Z.min_r by lia. rewrite <- (Lo (w - 1)) by lia.
    destruct (Z.ltb_spec s 0) as [Neg|Pos].
    + assert (B : forall j, w - 1 <= j -> Z.testbit s j = true).
      { intros j Hj. destruct (Z.eq_dec s (-1)) as [E|E].
        - rewrite E. apply Z.bits_m1. lia.
        - apply Z.bits_above_log2_neg; [assumption|].
          apply Z.lt_le_trans with (w - 1); [|assumption].
          apply Z.log2_lt_pow2; lia. }
      rewrite !B by lia. reflexivity.
    + assert (B : forall j, w - 1 <= j -> Z.testbit s j = false).
      { intros j Hj. destruct (Z.eq_dec s 0) as [E|E]; [rewrite E; apply Z.bits_0|].
        apply Z.bits_above_log2; [assumption|].
        apply Z.lt_le_trans with (w - 1); [|assumption].
        apply Z.log2_lt_pow2; lia. }
      rewrite !B by lia. reflexivity.
Qed.

Lemma testbit_int64_t y i : 0 <= i -> Z.testbit (int64_t y) i = Z.testbit y (Z.min i 63).
Proof. intros. unfold int64_t. now rewrite (testbit_signed 64). Qed.

Lemma testbit_int32_t y i : 0 <= i -> Z.testbit (int32_t y) i = Z.testbit y (Z.min i 31).
Proof. intros. unfold int32_t. now rewrite (testbit_signed 32). Qed.

Lemma sbitfield_testbit w b e i :
  0 <= b <= e -> 0 <= i ->
  Z.testbit (sbitfield w b e) i = Z.testbit w (b + Z.min i (e - b)).
Proof.
  intros Hb Hi. unfold sbitfield.
  replace (e - b) with (e - b + 1 - 1) at 1 3 by lia.
  rewrite testbit_signed by lia.
  rewrite <- Z.shiftr_div_pow2, Z.shiftr_spec by lia.
  f_equal. lia.
Qed.

Lemma SBITS_extracts_signed_field_aux v b e :
  0 <= b <= e -> e <= 63 -> e - b < 32 ->
  SBITS v b e = sbitfield v b e /\ - 2 ^ (e - b) <= SBITS v b e < 2 ^ (e - b).
Proof.
  intros Hb He Hw.
  assert (E : SBITS v b e = sbitfield v b e).
  { apply Z.bits_inj'. intros i Hi. unfold SBITS.
    rewrite testbit_int32_t, testbit_uint32, Z.shiftr_spec by lia.
    rewrite testbit_int64_t, Z.shiftl_spec by lia.
    rewrite testbit_int64_t by lia.
    rewrite sbitfield_testbit by lia.
    replace (Z.min i 31 <? 32) with true by (symmetry; apply Z.ltb_lt; lia).
    cbn [andb]. f_equal. lia. }
  split; [exact E|]. rewrite E. unfold sbitfield.
  assert (P : 0 < 2 ^ (e - b)) by (apply Z.pow_pos_nonneg; lia).
  assert (D : 2 ^ (e - b + 1) = 2 * 2 ^ (e - b)) by (apply Z.pow_succ_r; lia).
  pose proof (Z.mod_pos_bound (v / 2 ^ b + 2 ^ (e - b)) (2 ^ (e - b + 1)) ltac:(lia)). lia.
Qed.

(** X2: [SBITS (v, b, e)] is the same field read as a signed number. *)
Theorem SBITS_extracts_signed_field v b e :
  0 <= b <= e -> e <= 63 -> e - b < 32 ->
  SBITS v b e = sbitfield v b e /\ - 2 ^ (e - b) <= SBITS v b e < 2 ^ (e - b).
Proof. apply SBITS_extracts_signed_field_aux. Qed.

Lemma SBITS_extracts_signed_field_witness :
  SBITS 0xC800000000003FFF 0 13 = sbitfield 0xC800000000003FFF 0 13 /\
  - 2 ^ (13 - 0) <= SBITS 0xC800000000003FFF 0 13 < 2 ^ (13 - 0).
Proof. apply SBITS_extracts_signed_field; lia. Defined.

(** ** Triangle command: size and layout *)

Ltac bind_inv H :=
  repeat match type of H with
  | context [mbind _ ?m] =>
      lazymatch m with
      | Some _ => fail
      | None => fail
      | _ => let E := fresh "E" in
             destruct m eqn:E; cbn [mbind option_bind] in H; [|discriminate H];
             repeat match goal with p : (_ * _)%type |- _ => destruct p end
      end
  end.

Lemma edge_coeffs_shape tile level o v1 v2 v3 d l :
  __rdpq_write_edge_coeffs tile level o v1 v2 v3 = Some (d, l) ->
  exists lft y1f y2f y3f y1 y2 y3 rest,
    vget v1 (o + 1) = Some y1 /\ vget v2 (o + 1) = Some y2 /\
    vget v3 (o + 1) = Some y3 /\
    edge_yf y1 = Some y1f /\ edge_yf y2 = Some y2f /\ edge_yf y3 = Some y3f /\
    (lft = 0 \/ lft = 1) /\
    l = Z.lor (Z.lor (Z.lor (_carg lft 0x1 23) (_carg level 0x7 19))
                     (_carg tile 0x7 16)) (_carg y3f 0x3FFF 0)
        :: Z.lor (_carg y2f 0x3FFF 16) (_carg y1f 0x3FFF 0) :: rest /\
    length rest = 6%nat.
Proof.
  unfold __rdpq_write_edge_coeffs. intros H. bind_inv H.
  injection H as _ <-.
  match goal with
  | |- context [_carg (if ?c then 1 else 0) 1 23] => exists (if c then 1 else 0)
  end.
  do 7 eexists.
  do 6 (split; [first [eassumption | reflexivity]|]).
  split; [|split; reflexivity].
  match goal with |- context [if ?c then _ else _] => destruct c end; auto.
Qed.

Lemma shade_coeffs_length d o v1 v2 v3 l :
  __rdpq_write_shade_coeffs d o v1 v2 v3 = Some l -> length l = 16%nat.
Proof.
  unfold __rdpq_write_shade_coeffs. intros H.
  destruct (shade_coeffs d o v1 v2 v3); [|discriminate].
  injection H as <-. reflexivity.
Qed.

Lemma tex_coeffs_length d o v1 v2 v3 l :
  __rdpq_write_tex_coeffs d o v1 v2 v3 = Some l -> length l = 16%nat.
Proof.
  unfold __rdpq_write_tex_coeffs. intros H. bind_inv H.
  injection H as <-. reflexivity.
Qed.

Lemma zbuf_coeffs_length d o v1 v2 v3 l :
  __rdpq_write_zbuf_coeffs d o v1 v2 v3 = Some l -> length l = 4%nat.
Proof.
  unfold __rdpq_write_zbuf_coeffs. intros H. bind_inv H.
  injection H as <-. reflexivity.
Qed.

Lemma lor_disjoint_add a b : Z.land a b = 0 -> Z.lor a b = a + b.
Proof.
  intros D. rewrite Z.add_nocarry_lxor by assumption.
  symmetry. now apply Z.lxor_lor.
Qed.

Lemma testbit_small x k j : 0 <= x < 2 ^ k -> k <= j -> Z.testbit x j = false.
Proof.
  intros R Hj. destruct (Z.eq_dec x 0) as [->|N]; [apply Z.bits_0|].
  apply Z.bits_above_log2; [lia|].
  apply Z.lt_le_trans with k; [|assumption].
  apply Z.log2_lt_pow2; lia.
Qed.

(** The first word of a command, [(RDPQ_OVL_ID + (cmd_id << 24)) | arg0]:
    its top byte is [0xC0 | cmd_id], its low 24 bits are those of [arg0]. *)
Lemma testbit_header_word cmd a0 j :
  0 <= cmd < 64 -> 0 <= a0 < 2 ^ 24 -> 0 <= j ->
  Z.testbit (uint32_t (Z.lor (RDPQ_OVL_ID + Z.shiftl cmd 24) a0)) j
  = if j <? 24 then Z.testbit a0 j
    else if j <? 30 then Z.testbit cmd (j - 24)
    else (j <? 32).
Proof.
  intros Hc Ha Hj.
  assert (E : RDPQ_OVL_ID + Z.shiftl cmd 24 = Z.shiftl (Z.lor 192 cmd) 24).
  { rewrite lor_disjoint_add.
    - rewrite !Z.shiftl_mul_pow2 by lia. change RDPQ_OVL_ID with (192 * 2 ^ 24). lia.
    - apply Z.bits_inj'. intros i Hi. rewrite Z.land_spec, Z.bits_0.
      destruct (Z.ltb_spec i 6) as [L|L].
      + change 192 with (Z.shiftl 3 6). rewrite Z.shiftl_spec_low by lia. reflexivity.
      + rewrite (testbit_small cmd 6 i) by (change (2 ^ 6) with 64; lia).
        apply andb_false_r. }
  rewrite E, testbit_uint32, Z.lor_spec by lia.
  destruct (Z.ltb_spec j 24) as [L|L].
  - rewrite Z.shiftl_spec_low by lia.
    replace (j <? 32) with true by (symmetry; apply Z.ltb_lt; lia). reflexivity.
  - rewrite (testbit_small a0 24 j) by lia. rewrite orb_false_r.
    rewrite Z.shiftl_spec, Z.lor_spec by lia.
    destruct (Z.ltb_spec j 30) as [M|M].
    + replace (j <? 32) with true by (symmetry; apply Z.ltb_lt; lia).
      change 192 with (Z.shiftl 3 6). rewrite Z.shiftl_spec_low by lia. reflexivity.
    + rewrite (testbit_small cmd 6 (j - 24)) by (change (2 ^ 6) with 64; lia).
      rewrite orb_false_r. destruct (Z.ltb_spec j 32) as [N|N]; [|reflexivity].
      assert (C : j = 30 \/ j = 31) by lia. destruct C as [-> | ->]; reflexivity.
Qed.

(** The 64-bit word made of the 32-bit words [w0] (first in memory) and
    [w1]. *)
Lemma testbit_word64_pair w0 w1 j :
  0 <= w1 < 2 ^ 32 -> 0 <= j ->
  Z.testbit (Z.lor (Z.shiftl w0 32) w1) j
  = if j <? 32 then Z.testbit w1 j else Z.testbit w0 (j - 32).
Proof.
  intros R Hj. rewrite Z.lor_spec. destruct (Z.ltb_spec j 32) as [L|L].
  - now rewrite Z.shiftl_spec_low by lia.
  - rewrite Z.shiftl_spec, (testbit_small w1 32 j) by lia. apply orb_false_r.
Qed.

Lemma testbit__carg v m sh j :
  0 <= sh -> 0 <= j ->
  Z.testbit (_carg v m sh) j
  = (j <? 32) && (sh <=? j) && Z.testbit v (j - sh) && Z.testbit m (j - sh).
Proof.
  intros Hs Hj. unfold _carg. rewrite testbit_uint32 by lia.
  destruct (Z.ltb_spec j 32); [|reflexivity]. cbn [andb].
  destruct (Z.leb_spec sh j).
  - rewrite Z.shiftl_spec, Z.land_spec by lia. reflexivity.
  - rewrite Z.shiftl_spec_low by lia. reflexivity.
Qed.

Lemma bits_range x n :
  0 <= n -> (forall j, n <= j -> Z.testbit x j = false) -> 0 <= x < 2 ^ n.
Proof.
  intros Hn H.
  assert (E : x = x mod 2 ^ n).
  { apply Z.bits_inj'. intros i Hi. destruct (Z.lt_ge_cases i n).
    - now rewrite Z.mod_pow2_bits_low.
    - rewrite Z.mod_pow2_bits_high by lia. apply H. lia. }
  rewrite E. apply Z.mod_pos_bound. apply Z.pow_pos_nonneg; lia.
Qed.

Lemma _carg_range v m sh k :
  0 <= sh -> 0 <= m < 2 ^ k -> 0 <= k -> 0 <= _carg v m sh < 2 ^ (k + sh).
Proof.
  intros Hs Hm Hk. apply bits_range; [lia|]. intros j Hj.
  rewrite testbit__carg by lia.
  rewrite (testbit_small m k (j - sh)) by lia. apply andb_false_r.
Qed.

Lemma load_store_words_lt b a ws s :
  b < a -> load b (store_words a ws s) = load b s.
Proof.
  revert a s. induction ws as [|w ws IH]; intros a s L; cbn [store_words]; [reflexivity|].
  rewrite IH by lia. unfold load, store. destruct s. rdpq_simpl.
  now rewrite lookup_insert_ne by lia.
Qed.

Lemma load_store_words a ws s (i : nat) w :
  ws !! i = Some w -> load (a + 4 * Z.of_nat i) (store_words a ws s) = w.
Proof.
  revert a s i. induction ws as [|x ws IH]; intros a s i H; [discriminate|].
  cbn [store_words]. destruct i as [|i].
  - injection H as ->. change (Z.of_nat 0) with 0. rewrite Z.mul_0_r, Z.add_0_r.
    rewrite load_store_words_lt by lia.
    unfold load, store. destruct s. rdpq_simpl. now rewrite lookup_insert_eq.
  - cbn in H. replace (a + 4 * Z.of_nat (S i)) with (a + 4 + 4 * Z.of_nat i) by lia.
    now apply IH.
Qed.

Section TriangleFacts.
Context `{Hdr : Headers}.

(** What [rspq_write] leaves in the queue. *)
Lemma rspq_write_loads ovl cmd a0 a1 more s :
  let s' := rspq_write ovl cmd a0 (a1 :: more) s in
  load (rspq_cur_pointer s) s' = uint32_t (Z.lor (ovl + Z.shiftl cmd 24) a0) /\
  load (rspq_cur_pointer s + 4) s' = uint32_t a1 /\
  rspq_cur_pointer s' = rspq_cur_pointer s + 4 * (2 + Z.of_nat (length more)).
Proof.
  cbn zeta. unfold rspq_write.
  set (ws := uint32_t (Z.lor (ovl + Z.shiftl cmd 24) a0) :: map uint32_t (a1 :: more)).
  assert (A : forall a t, load a (set_rspq_cur_pointer t (store_words (rspq_cur_pointer s) ws s))
                          = load a (store_words (rspq_cur_pointer s) ws s)).
  { intros a t. unfold load. now destruct (store_words _ _ _). }
  rewrite !A. split; [|split].
  - rewrite <- (Z.add_0_r (rspq_cur_pointer s)) at 1.
    change 0 with (4 * Z.of_nat 0). now apply load_store_words.
  - change 4 with (4 * Z.of_nat 1) at 1. now apply load_store_words.
  - destruct (store_words_frame (rspq_cur_pointer s) ws s) as [m ->].
    destruct s. rdpq_simpl. cbn [length]. lia.
Qed.

(** The command that [rdpq_triangle] leaves in the queue. *)
Lemma rdpq_triangle_inv tile level po so to zo v1 v2 v3 s s' :
  RDPQ_CMD_TRI = 0x08 ->
  rdpq_triangle tile level po so to zo v1 v2 v3 s = Some s' ->
  exists (sh tx zb : bool) a b c ya yb yc y1f y2f y3f lft more s0,
    rdpq_triangle_sort po v1 v2 v3 = Some (a, b, c) /\
    vget a (po + 1) = Some ya /\ vget b (po + 1) = Some yb /\
    vget c (po + 1) = Some yc /\
    edge_yf ya = Some y1f /\ edge_yf yb = Some y2f /\ edge_yf yc = Some y3f /\
    (lft = 0 \/ lft = 1) /\
    let cmd_id := 8 + (if sh then 4 else 0) + (if tx then 2 else 0)
                  + (if zb then 1 else 0) in
    let size := 8 + (if sh then 16 else 0) + (if tx then 16 else 0)
                + (if zb then 4 else 0) in
    let e0 := Z.lor (Z.lor (Z.lor (_carg lft 0x1 23) (_carg level 0x7 19))
                           (_carg tile 0x7 16)) (_carg y3f 0x3FFF 0) in
    let e1 := Z.lor (_carg y2f 0x3FFF 16) (_carg y1f 0x3FFF 0) in
    rdpq_triangle_args tile level po so to zo v1 v2 v3
    = Some (cmd_id, size, e0 :: e1 :: more) /\
    Z.of_nat (length more) + 2 = size /\
    rspq_cur_pointer s0 = rspq_cur_pointer s /\
    s' = rspq_write RDPQ_OVL_ID cmd_id e0 (e1 :: more) s0.
Proof.
  intros Tri H. unfold rdpq_triangle in H.
  destruct (rdpq_triangle_args tile level po so to zo v1 v2 v3)
    as [[[cmd_id size] args]|] eqn:A; [|discriminate].
  cbn [mbind option_bind] in H.
  pose proof A as A'. unfold rdpq_triangle_args in A'. rewrite Tri in A'.
  exists (0 <=? so), (0 <=? to), (0 <=? zo).
  destruct (0 <=? so) eqn:Cs, (0 <=? to) eqn:Ct, (0 <=? zo) eqn:Cz;
    cbn [Z.lor Z.add Pos.lor Pos.add Pos.succ] in A'; bind_inv A';
    injection A' as <- <- <-;
    match goal with
    | E : __rdpq_write_edge_coeffs _ _ _ _ _ _ = Some (_, ?l) |- _ =>
        destruct (edge_coeffs_shape _ _ _ _ _ _ _ _ E)
          as (lft & y1f & y2f & y3f & y1 & y2 & y3 & rest & G1 & G2 & G3
              & Y1 & Y2 & Y3 & Lf & -> & Lr)
    end;
    repeat match goal with
    | E : __rdpq_write_shade_coeffs _ _ _ _ _ = Some _ |- _ =>
        apply shade_coeffs_length in E
    | E : __rdpq_write_tex_coeffs _ _ _ _ _ = Some _ |- _ =>
        apply tex_coeffs_length in E
    | E : __rdpq_write_zbuf_coeffs _ _ _ _ _ = Some _ |- _ =>
        apply zbuf_coeffs_length in E
    end;
    cbn [app] in H; injection H as <-;
    do 11 eexists; eexists (autosync_use _ s); cbn zeta;
    (split; [reflexivity|]);
    do 6 (split; [eassumption|]); (split; [exact Lf|]);
    (split; [reflexivity|]);
    (split; [rewrite ?length_app; cbn [length]; lia|]);
    (split; [now destruct s|reflexivity]).
Qed.
End TriangleFacts.

Section TriangleTheorems.
Context `{Hdr : Headers}.

Lemma edge_word0_range lft level tile y3f :
  0 <= Z.lor (Z.lor (Z.lor (_carg lft 0x1 23) (_carg level 0x7 19))
                    (_carg tile 0x7 16)) (_carg y3f 0x3FFF 0) < 2 ^ 24.
Proof.
  apply bits_range; [lia|]. intros j Hj.
  rewrite !Z.lor_spec, !testbit__carg by lia.
  rewrite (testbit_small 1 1 (j - 23)), (testbit_small 7 3 (j - 19)),
    (testbit_small 7 3 (j - 16)), (testbit_small 16383 14 (j - 0)) by lia.
  now rewrite !andb_false_r.
Qed.

(** The opcode that the validator and the disassembler read in the first
    64-bit word of a command whose header was built from [cmd_id]. *)
Lemma opcode_of_header cmd a0 w1 :
  0 <= cmd < 64 -> 0 <= a0 < 2 ^ 24 -> 0 <= w1 < 2 ^ 32 ->
  BITS (Z.lor (Z.shiftl (uint32_t (Z.lor (RDPQ_OVL_ID + Z.shiftl cmd 24) a0)) 32) w1)
       56 61 = cmd.
Proof.
  intros Hc Ha Hw. apply Z.bits_inj'. intros i Hi.
  rewrite BITS_testbit, testbit_word64_pair by lia.
  replace (56 + i <? 32) with false by (symmetry; apply Z.ltb_ge; lia).
  rewrite testbit_header_word by lia.
  replace (56 + i - 32 <? 24) with false by (symmetry; apply Z.ltb_ge; lia).
  destruct (Z.leb_spec i (61 - 56)) as [L|L].
  - replace (i <? 32) with true by (symmetry; apply Z.ltb_lt; lia).
    replace (56 + i - 32 <? 30) with true by (symmetry; apply Z.ltb_lt; lia).
    cbn [andb]. f_equal. lia.
  - rewrite andb_false_r. cbn [andb]. symmetry.
    apply (testbit_small cmd 6); [change (2 ^ 6) with 64|]; lia.
Qed.

(** X3: the triangle command that [rdpq_triangle] puts in the queue has as
    many argument words as the size it reserved, at most
    [RDPQ_MAX_COMMAND_SIZE]; the opcode found in its first 64-bit word is
    the command id, and the size that [rdpq_debug_disasm_size] gives for
    that word, in 64-bit words, is the size written. *)
Theorem rdpq_triangle_size_agrees tile level po so to zo v1 v2 v3 s s' :
  RDPQ_CMD_TRI = 0x08 ->
  rdpq_triangle tile level po so to zo v1 v2 v3 s = Some s' ->
  exists cmd_id size args,
    rdpq_triangle_args tile level po so to zo v1 v2 v3 = Some (cmd_id, size, args) /\
    Z.of_nat (length args) = size /\
    size <= RDPQ_MAX_COMMAND_SIZE /\
    rspq_cur_pointer s' = rspq_cur_pointer s + 4 * size /\
    let w := Z.lor (Z.shiftl (load (rspq_cur_pointer s) s') 32)
                   (load (rspq_cur_pointer s + 4) s') in
    BITS w 56 61 = cmd_id /\
    2 * rdpq_debug_disasm_size w = size.
Proof.
  intros Tri H.
  destruct (rdpq_triangle_inv _ _ _ _ _ _ _ _ _ _ _ Tri H)
    as (sh & tx & zb & a & b & c & ya & yb & yc & y1f & y2f & y3f & lft & more & s0
        & _ & _ & _ & _ & _ & _ & _ & _ & A & L & C & ->).
  cbn zeta in A, L.
  eexists _, _, _. split; [exact A|].
  split; [cbn [length]; lia|].
  split; [unfold RDPQ_MAX_COMMAND_SIZE; destruct sh, tx, zb; cbn; lia|].
  match goal with
  | |- context [rspq_write ?o ?cm ?x ?y ?t] =>
      destruct (rspq_write_loads o cm x (hd 0 y) (tl y) t) as (L0 & L1 & L2)
  end.
  cbn [hd tl] in L0, L1, L2. rewrite <- C, L0, L1, L2.
  split; [lia|]. cbn zeta.
  assert (O : forall cm, 0 <= cm < 64 ->
    BITS (Z.lor (Z.shiftl (uint32_t (Z.lor (RDPQ_OVL_ID + Z.shiftl cm 24)
            (Z.lor (Z.lor (Z.lor (_carg lft 1 23) (_carg level 7 19))
                          (_carg tile 7 16)) (_carg y3f 16383 0)))) 32)
            (uint32_t (Z.lor (_carg y2f 16383 16) (_carg y1f 16383 0)))) 56 61 = cm).
  { intros cm Hc. apply opcode_of_header; [assumption|apply edge_word0_range|].
    unfold uint32_t. apply Z.mod_pos_bound. reflexivity. }
  unfold rdpq_debug_disasm_size.
  rewrite O by (destruct sh, tx, zb; cbn; lia).
  split; [reflexivity|]. destruct sh, tx, zb; reflexivity.
Qed.
End TriangleTheorems.

Section TriangleFields.
Context `{Hdr : Headers}.

Ltac cmp :=
  repeat match goal with
         | |- context [?a <? ?b] => destruct (Z.ltb_spec a b); try lia
         | |- context [?a <=? ?b] => destruct (Z.leb_spec a b); try lia
         end.

Lemma testbit_mask k j : 0 <= k -> Z.testbit (Z.ones k) j = (0 <=? j) && (j <? k).
Proof.
  intros Hk. destruct (Z.leb_spec 0 j) as [P|N].
  - now apply Z.testbit_ones_nonneg.
  - now apply Z.testbit_neg_r.
Qed.

Lemma testbit_min_sign x i :
  - 2 ^ 13 <= x < 2 ^ 13 -> 0 <= i -> Z.testbit x (Z.min i 13) = Z.testbit x i.
Proof.
  intros R Hi. destruct (Z.le_gt_cases i 13).
  - now rewrite Z.min_l.
  - rewrite Z.min_r by lia. now rewrite !testbit_sign by lia.
Qed.

Lemma testbit_edge_word0 lft level tile y3f j :
  0 <= j ->
  Z.testbit (Z.lor (Z.lor (Z.lor (_carg lft 0x1 23) (_carg level 0x7 19))
                          (_carg tile 0x7 16)) (_carg y3f 0x3FFF 0)) j
  = if j <? 14 then Z.testbit y3f j
    else if j <? 16 then false
    else if j <? 19 then Z.testbit tile (j - 16)
    else if j <? 22 then Z.testbit level (j - 19)
    else if j =? 23 then Z.testbit lft 0
    else false.
Proof.
  intros Hj. rewrite !Z.lor_spec, !testbit__carg by lia.
  change (Z.testbit 1) with (Z.testbit (Z.ones 1)).
  change (Z.testbit 7) with (Z.testbit (Z.ones 3)).
  change (Z.testbit 16383) with (Z.testbit (Z.ones 14)).
  rewrite !testbit_mask by lia. rewrite Z.sub_0_r.
  destruct (Z.eqb_spec j 23) as [->|N];
    [cbn; now rewrite ?andb_true_r, ?andb_false_r, ?orb_false_r|].
  cmp; cbn [andb orb]; rewrite ?andb_true_r, ?andb_false_r, ?orb_false_r;
    try reflexivity; try lia.
Qed.

Lemma testbit_edge_word1 y2f y1f j :
  0 <= j ->
  Z.testbit (uint32_t (Z.lor (_carg y2f 0x3FFF 16) (_carg y1f 0x3FFF 0))) j
  = if j <? 14 then Z.testbit y1f j
    else if j <? 16 then false
    else if j <? 30 then Z.testbit y2f (j - 16)
    else false.
Proof.
  intros Hj. rewrite testbit_uint32, !Z.lor_spec, !testbit__carg by lia.
  change (Z.testbit 16383) with (Z.testbit (Z.ones 14)).
  rewrite !testbit_mask by lia. rewrite Z.sub_0_r.
  cmp; cbn [andb orb]; rewrite ?andb_true_r, ?andb_false_r, ?orb_false_r;
    try reflexivity; try lia.
Qed.

(** X4: the fields that the validator and the disassembler read back from
    the triangle command written by [rdpq_triangle]: the tile and the
    mipmap level are those passed (modulo 8), and for vertices with Y in
    [-2048, 2048) the three signed Y fields are the quantized Y of the
    vertices, [floor (4 y)], lowest first. *)
Theorem rdpq_triangle_fields_decode tile level po so to zo v1 v2 v3 y1 y2 y3 s s' :
  RDPQ_CMD_TRI = 0x08 ->
  vget v1 (po + 1) = Some y1 -> vget v2 (po + 1) = Some y2 ->
  vget v3 (po + 1) = Some y3 ->
  valid y1 = true -> valid y2 = true -> valid y3 = true ->
  y_in_range y1 = true -> y_in_range y2 = true -> y_in_range y3 = true ->
  rdpq_triangle tile level po so to zo v1 v2 v3 s = Some s' ->
  let w := Z.lor (Z.shiftl (load (rspq_cur_pointer s) s') 32)
                 (load (rspq_cur_pointer s + 4) s') in
  BITS w 48 50 = Z.land tile 7 /\
  BITS w 51 53 = Z.land level 7 /\
  exists ya yb yc,
    (ya, yb, yc) ∈ orderings y1 y2 y3 /\
    SBITS w 0 13 = Qfloor (F2Q ya * 4) /\
    SBITS w 16 29 = Qfloor (F2Q yb * 4) /\
    SBITS w 32 45 = Qfloor (F2Q yc * 4) /\
    SBITS w 0 13 <= SBITS w 16 29 <= SBITS w 32 45.
Proof.
  intros Tri G1 G2 G3 V1 V2 V3 R1 R2 R3 H.
  destruct (rdpq_triangle_inv _ _ _ _ _ _ _ _ _ _ _ Tri H)
    as (sh & tx & zb & a & b & c & ya & yb & yc & y1f & y2f & y3f & lft & more & s0
        & S & Ga & Gb & Gc & Ea & Eb & Ec & _ & _ & _ & C & ->).
  destruct (y_in_range_inv y1 V1 R1) as (N1 & F1 & B1 & X1).
  destruct (y_in_range_inv y2 V2 R2) as (N2 & F2 & B2 & X2).
  destruct (y_in_range_inv y3 V3 R3) as (N3 & F3 & B3 & X3).
  destruct (rdpq_triangle_sort_raw po v1 v2 v3 y1 y2 y3)
    as (a' & b' & c' & ya' & yb' & yc' & S' & O & L); try assumption.
  rewrite S in S'. injection S' as <- <- <-.
  assert (P : (vget a (po + 1) = Some ya' /\ valid ya' = true /\ y_in_range ya' = true) /\
              (vget b (po + 1) = Some yb' /\ valid yb' = true /\ y_in_range yb' = true) /\
              (vget c (po + 1) = Some yc' /\ valid yc' = true /\ y_in_range yc' = true) /\
              (ya', yb', yc') ∈ orderings y1 y2 y3).
  { unfold orderings in *.
    repeat (apply elem_of_cons in O as [O|O]); try (apply elem_of_nil in O; contradiction);
      injection O as -> -> -> -> -> ->; split_and!; try assumption;
      repeat constructor. }
  destruct P as ((Ga' & Va & Ra) & (Gb' & Vb & Rb) & (Gc' & Vc & Rc) & O').
  rewrite Ga in Ga'. rewrite Gb in Gb'. rewrite Gc in Gc'.
  injection Ga' as <-. injection Gb' as <-. injection Gc' as <-.
  destruct (edge_yf_floor ya Va Ra) as [Ea' Qa].
  destruct (edge_yf_floor yb Vb Rb) as [Eb' Qb].
  destruct (edge_yf_floor yc Vc Rc) as [Ec' Qc].
  assert (Ha : y1f = Qfloor (F2Q ya * 4)) by congruence.
  assert (Hb : y2f = Qfloor (F2Q yb * 4)) by congruence.
  assert (Hc' : y3f = Qfloor (F2Q yc * 4)) by congruence.
  clear Ea Eb Ec Ea' Eb' Ec'.
  destruct (y_in_range_inv ya Va Ra) as (_ & _ & Ba & Xa).
  destruct (y_in_range_inv yb Vb Rb) as (_ & _ & Bb & Xb).
  destruct (y_in_range_inv yc Vc Rc) as (_ & _ & Bc & Xc).
  assert (Rg : forall y, - 2 ^ 160 <= Zval y < 2 ^ 160 ->
                         - 2 ^ 13 <= Zval y * 4 / 2 ^ 149 < 2 ^ 13).
  { intros y B. change (2 ^ 160) with (2048 * 2 ^ 149) in B.
    change (2 ^ 13) with 8192. split.
    - apply Z.div_le_lower_bound; [reflexivity|]. lia.
    - apply Z.div_lt_upper_bound; [reflexivity|]. lia. }
  pose proof (Rg ya Ba) as Ra'. pose proof (Rg yb Bb) as Rb'. pose proof (Rg yc Bc) as Rc'.
  rewrite <- Qa, <- Ha in Ra'. rewrite <- Qb, <- Hb in Rb'. rewrite <- Qc, <- Hc' in Rc'.
  match goal with
  | |- context [rspq_write ?o ?cm ?x ?y ?t] =>
      destruct (rspq_write_loads o cm x (hd 0 y) (tl y) t) as (L0 & L1 & _)
  end.
  cbn [hd tl] in L0, L1. cbn zeta. rewrite <- C, L0, L1.
  set (cm := 8 + (if sh then 4 else 0) + (if tx then 2 else 0) + (if zb then 1 else 0)).
  assert (Hc : 0 <= cm < 64) by (unfold cm; destruct sh, tx, zb; cbn; lia).
  set (e0 := Z.lor (Z.lor (Z.lor (_carg lft 1 23) (_carg level 7 19)) (_carg tile 7 16))
                   (_carg y3f 16383 0)).
  assert (He : 0 <= e0 < 2 ^ 24) by apply edge_word0_range.
  set (w1 := uint32_t (Z.lor (_carg y2f 16383 16) (_carg y1f 16383 0))).
  assert (Hw : 0 <= w1 < 2 ^ 32) by (apply Z.mod_pos_bound; reflexivity).
  assert (T0 : forall j, 0 <= j < 24 ->
             Z.testbit (Z.lor (Z.shiftl (uint32_t (Z.lor (RDPQ_OVL_ID + Z.shiftl cm 24) e0)) 32) w1)
                       (32 + j) = Z.testbit e0 j).
  { intros j Hj. rewrite testbit_word64_pair by lia.
    replace (32 + j <? 32) with false by (symmetry; apply Z.ltb_ge; lia).
    rewrite testbit_header_word by lia.
    replace (32 + j - 32) with j by lia.
    replace (j <? 24) with true by (symmetry; apply Z.ltb_lt; lia). reflexivity. }
  assert (T1 : forall j, 0 <= j < 32 ->
             Z.testbit (Z.lor (Z.shiftl (uint32_t (Z.lor (RDPQ_OVL_ID + Z.shiftl cm 24) e0)) 32) w1)
                       j = Z.testbit w1 j).
  { intros j Hj. rewrite testbit_word64_pair by lia.
    replace (j <? 32) with true by (symmetry; apply Z.ltb_lt; lia). reflexivity. }
  assert (Sa : SBITS (Z.lor (Z.shiftl (uint32_t (Z.lor (RDPQ_OVL_ID + Z.shiftl cm 24) e0)) 32) w1)
                     0 13 = y1f).
  { destruct (SBITS_extracts_signed_field_aux
                (Z.lor (Z.shiftl (uint32_t (Z.lor (RDPQ_OVL_ID + Z.shiftl cm 24) e0)) 32) w1)
                0 13) as [-> _]; try lia.
    apply Z.bits_inj'. intros i Hi. rewrite sbitfield_testbit by lia.
    rewrite T1 by lia. unfold w1. rewrite testbit_edge_word1 by lia.
    replace (0 + Z.min i (13 - 0) <? 14) with true by (symmetry; apply Z.ltb_lt; lia).
    replace (0 + Z.min i (13 - 0)) with (Z.min i 13) by lia.
    now apply testbit_min_sign. }
  assert (Sb : SBITS (Z.lor (Z.shiftl (uint32_t (Z.lor (RDPQ_OVL_ID + Z.shiftl cm 24) e0)) 32) w1)
                     16 29 = y2f).
  { destruct (SBITS_extracts_signed_field_aux
                (Z.lor (Z.shiftl (uint32_t (Z.lor (RDPQ_OVL_ID + Z.shiftl cm 24) e0)) 32) w1)
                16 29) as [-> _]; try lia.
    apply Z.bits_inj'. intros i Hi. rewrite sbitfield_testbit by lia.
    rewrite T1 by lia. unfold w1. rewrite testbit_edge_word1 by lia.
    replace (16 + Z.min i (29 - 16) <? 14) with false by (symmetry; apply Z.ltb_ge; lia).
    replace (16 + Z.min i (29 - 16) <? 16) with false by (symmetry; apply Z.ltb_ge; lia).
    replace (16 + Z.min i (29 - 16) <? 30) with true by (symmetry; apply Z.ltb_lt; lia).
    replace (16 + Z.min i (29 - 16) - 16) with (Z.min i 13) by lia.
    now apply testbit_min_sign. }
  assert (Sc : SBITS (Z.lor (Z.shiftl (uint32_t (Z.lor (RDPQ_OVL_ID + Z.shiftl cm 24) e0)) 32) w1)
                     32 45 = y3f).
  { destruct (SBITS_extracts_signed_field_aux
                (Z.lor (Z.shiftl (uint32_t (Z.lor (RDPQ_OVL_ID + Z.shiftl cm 24) e0)) 32) w1)
                32 45) as [-> _]; try lia.
    apply Z.bits_inj'. intros i Hi. rewrite sbitfield_testbit by lia.
    replace (Z.min i (45 - 32)) with (Z.min i 13) by lia.
    rewrite T0 by lia. unfold e0. rewrite testbit_edge_word0 by lia.
    replace (Z.min i 13 <? 14) with true by (symmetry; apply Z.ltb_lt; lia).
    now apply testbit_min_sign. }
  split; [|split].
  - apply Z.bits_inj'. intros i Hi. rewrite BITS_testbit, Z.land_spec by lia.
    change (Z.testbit 7) with (Z.testbit (Z.ones 3)). rewrite testbit_mask by lia.
    destruct (Z.leb_spec i (50 - 48)) as [M|M].
    + replace (48 + i) with (32 + (16 + i)) by lia. rewrite T0 by lia.
      unfold e0. rewrite testbit_edge_word0 by lia.
      replace (16 + i - 16) with i by lia.
      cmp; cbn [andb]; rewrite ?andb_true_r; try reflexivity.
    + rewrite andb_false_r. cmp; try now rewrite andb_false_r.
  - apply Z.bits_inj'. intros i Hi. rewrite BITS_testbit, Z.land_spec by lia.
    change (Z.testbit 7) with (Z.testbit (Z.ones 3)). rewrite testbit_mask by lia.
    destruct (Z.leb_spec i (53 - 51)) as [M|M].
    + replace (51 + i) with (32 + (19 + i)) by lia. rewrite T0 by lia.
      unfold e0. rewrite testbit_edge_word0 by lia.
      replace (19 + i - 19) with i by lia.
      cmp; cbn [andb]; rewrite ?andb_true_r; try reflexivity.
    + rewrite andb_false_r. cmp; try now rewrite andb_false_r.
  - exists ya, yb, yc. rewrite Sa, Sb, Sc. split; [exact O'|].
    split; [exact Ha|]. split; [exact Hb|]. split; [exact Hc'|].
    rewrite Ha, Hb, Hc', Qa, Qb, Qc. rewrite Xa, Xb, Xc in L.
    split; (apply Z.div_le_mono; [reflexivity|lia]).
Qed.
End TriangleFields.

Section TriangleWitnesses.
#[local] Existing Instance sample_headers.

Lemma sample_triangle_eq :
  rdpq_triangle 3 0 0 2 (-1) (-1) shaded_a shaded_b shaded_c sample_init
  = Some sample_after_triangle.
Proof. vm_compute. reflexivity. Qed.

Lemma rdpq_triangle_size_agrees_witness :
  RDPQ_CMD_TRI = 0x08 /\
  rdpq_triangle 3 0 0 2 (-1) (-1) shaded_a shaded_b shaded_c sample_init
  = Some sample_after_triangle /\
  exists cmd_id size args,
    rdpq_triangle_args 3 0 0 2 (-1) (-1) shaded_a shaded_b shaded_c
    = Some (cmd_id, size, args) /\
    Z.of_nat (length args) = size /\
    size <= RDPQ_MAX_COMMAND_SIZE /\
    rspq_cur_pointer sample_after_triangle = rspq_cur_pointer sample_init + 4 * size /\
    let w := Z.lor (Z.shiftl (load (rspq_cur_pointer sample_init) sample_after_triangle) 32)
                   (load (rspq_cur_pointer sample_init + 4) sample_after_triangle) in
    BITS w 56 61 = cmd_id /\
    2 * rdpq_debug_disasm_size w = size.
Proof.
  assert (T : RDPQ_CMD_TRI = 0x08) by reflexivity.
  split; [exact T|]. split; [exact sample_triangle_eq|].
  exact (rdpq_triangle_size_agrees 3 0 0 2 (-1) (-1) shaded_a shaded_b shaded_c
           sample_init sample_after_triangle T sample_triangle_eq).
Defined.

Lemma rdpq_triangle_fields_decode_witness :
  let w := Z.lor (Z.shiftl (load (rspq_cur_pointer sample_init) sample_after_triangle) 32)
                 (load (rspq_cur_pointer sample_init + 4) sample_after_triangle) in
  BITS w 48 50 = Z.land 3 7 /\
  BITS w 51 53 = Z.land 0 7 /\
  exists ya yb yc,
    (ya, yb, yc) ∈ orderings f0 f0 f10 /\
    SBITS w 0 13 = Qfloor (F2Q ya * 4) /\
    SBITS w 16 29 = Qfloor (F2Q yb * 4) /\
    SBITS w 32 45 = Qfloor (F2Q yc * 4) /\
    SBITS w 0 13 <= SBITS w 16 29 <= SBITS w 32 45.
Proof.
  apply (rdpq_triangle_fields_decode 3 0 0 2 (-1) (-1) shaded_a shaded_b shaded_c
           f0 f0 f10 sample_init sample_after_triangle);
    first [reflexivity | exact sample_triangle_eq].
Defined.
End TriangleWitnesses.

(** ** Validator: TMEM bookkeeping *)

Lemma index_Some {A} (l : list A) i :
  0 <= i < Z.of_nat (length l) -> exists x, index l i = Some x /\ l !! Z.to_nat i = Some x.
Proof.
  intros R. unfold index.
  replace ((0 <=? i) && (i <? Z.of_nat (length l))) with true
    by (symmetry; apply andb_true_iff; split; [apply Z.leb_le|apply Z.ltb_lt]; lia).
  destruct (lookup_lt_is_Some_2 l (Z.to_nat i)) as [x Hx]; [lia|].
  exists x. now rewrite Hx.
Qed.

Lemma index_insert {A} (l : list A) i j (y : A) :
  0 <= i < Z.of_nat (length l) -> 0 <= j ->
  index (<[Z.to_nat i := y]> l) j = if j =? i then Some y else index l j.
Proof.
  intros R Hj. unfold index. rewrite length_insert.
  destruct (Z.eqb_spec j i) as [->|N].
  - replace ((0 <=? i) && (i <? Z.of_nat (length l))) with true
      by (symmetry; apply andb_true_iff; split; [apply Z.leb_le|apply Z.ltb_lt]; lia).
    apply list_lookup_insert_eq. lia.
  - destruct (_ && _); [|reflexivity].
    apply list_lookup_insert_ne. lia.
Qed.

Lemma marked_refl r lo hi : hi <= lo -> marked r r lo hi.
Proof.
  intros H x Hx. destruct (Z.leb_spec lo x), (Z.ltb_spec x hi); try lia;
    now rewrite orb_false_r.
Qed.

Lemma marked_trans r1 r2 r3 a b c :
  a <= b <= c -> marked r1 r2 a b -> marked r2 r3 b c -> marked r1 r3 a c.
Proof.
  intros H M1 M2 x Hx. rewrite M2, M1 by assumption. rewrite <- orb_assoc. f_equal.
  destruct (Z.leb_spec a x), (Z.ltb_spec x b), (Z.leb_spec b x), (Z.ltb_spec x c);
    try reflexivity; lia.
Qed.

Lemma tmem_ok_set l r :
  length l = 64%nat -> Forall (fun b => 0 <= b < 256) l -> tmem_ok (set_busy_tmem l r).
Proof. intros. split; assumption. Qed.

Lemma Forall_insert_byte (l : list Z) i y :
  Forall (fun b => 0 <= b < 256) l -> 0 <= y < 256 ->
  Forall (fun b => 0 <= b < 256) (<[i := y]> l).
Proof. intros. now apply Forall_insert. Qed.

Lemma quot_div8 x : 0 <= x -> Z.quot x 8 = x / 8.
Proof. intros. apply Z.quot_div_nonneg; lia. Qed.

Lemma land7 x : Z.land x 7 = x mod 8.
Proof. change 7 with (Z.ones 3). now rewrite Z.land_ones by lia. Qed.

Lemma tmem_set_bit_spec x r :
  tmem_ok r -> 0 <= x < 512 ->
  exists l, tmem_set_bit x r = Some (set_busy_tmem l r) /\
            tmem_ok (set_busy_tmem l r) /\
            marked r (set_busy_tmem l r) x (x + 1).
Proof.
  intros [Len By] Hx. unfold tmem_set_bit.
  rewrite quot_div8, land7 by lia.
  assert (Hi : 0 <= x / 8 < Z.of_nat (length (busy_tmem r))).
  { rewrite Len. split; [apply Z.div_pos; lia|]. apply Z.div_lt_upper_bound; lia. }
  destruct (index_Some _ _ Hi) as (b & Ib & Lb). rewrite Ib. cbn [mbind option_bind].
  unfold assign.
  replace ((0 <=? x / 8) && (x / 8 <? Z.of_nat (length (busy_tmem r)))) with true
    by (symmetry; apply andb_true_iff; split; [apply Z.leb_le|apply Z.ltb_lt]; lia).
  cbn [mbind option_bind]. eexists. split; [reflexivity|].
  assert (Hb : 0 <= b < 256).
  { rewrite Forall_lookup in By. exact (By _ _ Lb). }
  set (nb := Z.land (Z.lor b (Z.shiftl 1 (x mod 8))) 255).
  assert (Hnb : 0 <= nb < 256).
  { unfold nb. change 255 with (Z.ones 8). rewrite Z.land_ones by lia.
    apply Z.mod_pos_bound. reflexivity. }
  split.
  - apply tmem_ok_set; [now rewrite length_insert|now apply Forall_insert_byte].
  - intros y Hy. unfold tmem_busy. cbn [busy_tmem set_busy_tmem].
    rewrite index_insert by (try assumption; apply Z.div_pos; lia).
    assert (Mx : 0 <= x mod 8 < 8) by (apply Z.mod_pos_bound; lia).
    assert (My : 0 <= y mod 8 < 8) by (apply Z.mod_pos_bound; lia).
    destruct (Z.eqb_spec (y / 8) (x / 8)) as [E|N].
    + rewrite E, Ib. unfold nb. rewrite Z.land_spec, Z.lor_spec.
      change 255 with (Z.ones 8). rewrite Z.testbit_ones_nonneg by lia.
      replace (y mod 8 <? 8) with true by (symmetry; apply Z.ltb_lt; lia).
      rewrite andb_true_r. f_equal.
      rewrite Z.shiftl_spec by lia.
      destruct (Z.eq_dec y x) as [->|Nyx].
      * rewrite Z.sub_diag. cbn [Z.testbit Pos.testbit].
        destruct (Z.leb_spec x x), (Z.ltb_spec x (x + 1)); try lia. reflexivity.
      * assert (y mod 8 <> x mod 8).
        { intros Em. apply Nyx.
          rewrite (Z.div_mod y 8), (Z.div_mod x 8) by lia. rewrite E, Em. reflexivity. }
        replace ((x <=? y) && (y <? x + 1)) with false
          by (symmetry; destruct (Z.leb_spec x y), (Z.ltb_spec y (x + 1)); try reflexivity; lia).
        destruct (Z.lt_ge_cases (y mod 8) (x mod 8)).
        -- apply Z.testbit_neg_r. lia.
        -- apply (testbit_small 1 1); lia.
    + replace ((x <=? y) && (y <? x + 1)) with false.
      * now rewrite orb_false_r.
      * symmetry. destruct (Z.leb_spec x y), (Z.ltb_spec y (x + 1)); try reflexivity.
        exfalso. apply N. f_equal. lia.
Qed.

Lemma tmem_set_byte_spec x r :
  tmem_ok r -> 0 <= x < 512 -> x mod 8 = 0 ->
  exists l, tmem_set_byte x r = Some (set_busy_tmem l r) /\
            tmem_ok (set_busy_tmem l r) /\
            marked r (set_busy_tmem l r) x (x + 8).
Proof.
  intros [Len By] Hx Hm. unfold tmem_set_byte. rewrite quot_div8 by lia.
  assert (Hi : 0 <= x / 8 < Z.of_nat (length (busy_tmem r))).
  { rewrite Len. split; [apply Z.div_pos; lia|]. apply Z.div_lt_upper_bound; lia. }
  unfold assign.
  replace ((0 <=? x / 8) && (x / 8 <? Z.of_nat (length (busy_tmem r)))) with true
    by (symmetry; apply andb_true_iff; split; [apply Z.leb_le|apply Z.ltb_lt]; lia).
  cbn [mbind option_bind]. eexists. split; [reflexivity|]. split.
  - apply tmem_ok_set; [now rewrite length_insert|apply Forall_insert_byte; [assumption|lia]].
  - intros y Hy. unfold tmem_busy. cbn [busy_tmem set_busy_tmem].
    rewrite index_insert by (try assumption; apply Z.div_pos; lia).
    assert (My : 0 <= y mod 8 < 8) by (apply Z.mod_pos_bound; lia).
    pose proof (Z.div_mod y 8 ltac:(lia)) as Dy.
    pose proof (Z.div_mod x 8 ltac:(lia)) as Dx.
    destruct (Z.eqb_spec (y / 8) (x / 8)) as [E|N].
    + change 255 with (Z.ones 8). rewrite Z.testbit_ones_nonneg by lia.
      replace (y mod 8 <? 8) with true by (symmetry; apply Z.ltb_lt; lia).
      replace ((x <=? y) && (y <? x + 8)) with true; [now rewrite orb_true_r|].
      symmetry. apply andb_true_iff. split; [apply Z.leb_le|apply Z.ltb_lt]; lia.
    + replace ((x <=? y) && (y <? x + 8)) with false; [now rewrite orb_false_r|].
      symmetry. destruct (Z.leb_spec x y), (Z.ltb_spec y (x + 8)); try reflexivity.
      exfalso. apply N. apply Z.div_unique with (y - x); lia.
Qed.

Lemma tmem_step_refl r lo hi : tmem_ok r -> hi <= lo -> tmem_step r r lo hi.
Proof.
  intros O H. split; [|split; [assumption|now apply marked_refl]].
  exists (busy_tmem r). now destruct r.
Qed.

Lemma tmem_step_trans r1 r2 r3 a b c :
  a <= b <= c -> tmem_step r1 r2 a b -> tmem_step r2 r3 b c -> tmem_step r1 r3 a c.
Proof.
  intros H ([l1 ->] & O1 & M1) ([l2 ->] & O2 & M2).
  split; [|split; [assumption|exact (marked_trans _ _ _ _ _ _ H M1 M2)]].
  exists l2. reflexivity.
Qed.

Lemma mark_head_spec fuel x x1 r :
  tmem_ok r -> 0 <= x -> x1 <= 512 -> x1 - x <= Z.of_nat fuel ->
  exists x' r', mark_head fuel x x1 r = Some (x', r') /\
    x <= x' /\ (x' <= x1 \/ x' = x) /\
    (x' mod 8 = 0 \/ x1 <= x') /\ tmem_step r r' x x'.
Proof.
  revert x r. induction fuel as [|fuel IH]; intros x r O Hx H1 Hf; cbn [mark_head].
  - exists x, r. split; [reflexivity|]. split; [lia|]. split; [auto|].
    split; [right; lia|]. apply tmem_step_refl; [assumption|lia].
  - rewrite land7.
    destruct (Z.eqb_spec (x mod 8) 0) as [E|N]; cbn [negb andb].
    + exists x, r. split; [reflexivity|]. split; [lia|]. split; [auto|].
      split; [auto|]. apply tmem_step_refl; [assumption|lia].
    + destruct (Z.ltb_spec x x1) as [L|L].
      * destruct (tmem_set_bit_spec x r O ltac:(lia)) as (l & -> & O' & M).
        cbn [mbind option_bind].
        destruct (IH (x + 1) (set_busy_tmem l r) O' ltac:(lia) H1 ltac:(lia))
          as (x' & r' & -> & A & B & C & D).
        exists x', r'. split; [reflexivity|]. split; [lia|]. split; [lia|].
        split; [assumption|].
        apply (tmem_step_trans _ (set_busy_tmem l r) _ x (x + 1) x'); [lia| |assumption].
        split; [now exists l|]. split; assumption.
      * exists x, r. split; [reflexivity|]. split; [lia|]. split; [auto|].
        split; [right; lia|]. apply tmem_step_refl; [assumption|lia].
Qed.

Lemma mark_bytes_spec fuel x x1 r :
  tmem_ok r -> 0 <= x -> x1 <= 512 -> x1 - x <= Z.of_nat fuel ->
  (x mod 8 = 0 \/ x1 <= x) ->
  exists x' r', mark_bytes fuel x x1 r = Some (x', r') /\
    x <= x' /\ (x' <= x1 \/ x' = x) /\ x1 <= x' + 8 /\
    (x' mod 8 = 0 \/ x1 <= x') /\ tmem_step r r' x x'.
Proof.
  revert x r. induction fuel as [|fuel IH]; intros x r O Hx H1 Hf Al; cbn [mark_bytes].
  - exists x, r. split; [reflexivity|]. split; [lia|]. split; [auto|].
    split; [lia|]. split; [assumption|]. apply tmem_step_refl; [assumption|lia].
  - destruct (Z.ltb_spec (x + 8) x1) as [L|L].
    + destruct Al as [Al|Al]; [|lia].
      destruct (tmem_set_byte_spec x r O ltac:(lia) Al) as (l & -> & O' & M).
      cbn [mbind option_bind].
      assert (Al' : (x + 8) mod 8 = 0).
      { rewrite Z.add_mod, Al by lia. reflexivity. }
      destruct (IH (x + 8) (set_busy_tmem l r) O' ltac:(lia) H1 ltac:(lia) (or_introl Al'))
        as (x' & r' & -> & A & B & C & D & E).
      exists x', r'. split; [reflexivity|]. split; [lia|]. split; [lia|].
      split; [assumption|]. split; [assumption|].
      apply (tmem_step_trans _ (set_busy_tmem l r) _ x (x + 8) x'); [lia| |assumption].
      split; [now exists l|]. split; assumption.
    + exists x, r. split; [reflexivity|]. split; [lia|]. split; [auto|].
      split; [lia|]. split; [assumption|]. apply tmem_step_refl; [assumption|lia].
Qed.

Lemma mark_tail_spec fuel x x1 r :
  tmem_ok r -> 0 <= x -> x1 <= 512 -> x1 - x <= Z.of_nat fuel ->
  exists r', mark_tail fuel x x1 r = Some r' /\ tmem_step r r' x (Z.max x x1).
Proof.
  revert x r. induction fuel as [|fuel IH]; intros x r O Hx H1 Hf; cbn [mark_tail].
  - exists r. split; [reflexivity|]. apply tmem_step_refl; [assumption|lia].
  - destruct (Z.ltb_spec x x1) as [L|L].
    + destruct (tmem_set_bit_spec x r O ltac:(lia)) as (l & -> & O' & M).
      cbn [mbind option_bind].
      destruct (IH (x + 1) (set_busy_tmem l r) O' ltac:(lia) H1 ltac:(lia))
        as (r' & -> & D).
      exists r'. split; [reflexivity|].
      replace (Z.max x x1) with (Z.max (x + 1) x1) by lia.
      apply (tmem_step_trans _ (set_busy_tmem l r) _ x (x + 1) _); [lia| |assumption].
      split; [now exists l|]. split; assumption.
    + exists r. split; [reflexivity|]. apply tmem_step_refl; [assumption|lia].
Qed.

Lemma tmem_limit_le addr size : tmem_limit addr size <= 512.
Proof.
  unfold tmem_limit.
  destruct (Z.le_gt_cases 0 (Z.min (addr + size) 4096)).
  - rewrite quot_div8 by assumption. apply Z.div_le_upper_bound; lia.
  - pose proof (Z.quot_lt_upper_bound (Z.min (addr + size) 4096) 8 1). 
    assert (Z.min (addr + size) 4096 ÷ 8 <= 0); [|lia].
    apply Z.quot_le_upper_bound; lia.
Qed.

Lemma tmem_first_nonneg addr : 0 <= addr -> 0 <= tmem_first addr.
Proof.
  intros. unfold tmem_first. rewrite quot_div8 by lia. apply Z.div_pos; lia.
Qed.

(** The words that [mark_busy_tmem] marks. *)
Lemma mark_busy_tmem_marks addr size r :
  tmem_ok r -> 0 <= addr ->
  exists r', mark_busy_tmem addr size r = Some r' /\
             tmem_step r r' (tmem_first addr) (tmem_limit addr size).
Proof.
  intros O Ha. unfold mark_busy_tmem.
  fold (tmem_first addr). fold (tmem_limit addr size).
  pose proof (tmem_limit_le addr size) as H1.
  pose proof (tmem_first_nonneg addr Ha) as H0.
  set (x0 := tmem_first addr) in *. set (x1 := tmem_limit addr size) in *.
  assert (Hf : x1 - x0 <= Z.of_nat (Z.to_nat (x1 - x0))) by lia.
  destruct (mark_head_spec _ x0 x1 r O H0 H1 Hf) as (xa & ra & -> & A1 & A2 & A3 & [La [Oa Ma]]).
  cbn [mbind option_bind].
  destruct (mark_bytes_spec (Z.to_nat (x1 - x0)) xa x1 ra Oa ltac:(lia) H1 ltac:(lia) A3)
    as (xb & rb & -> & B1 & B2 & B3 & B4 & [Lb [Ob Mb]]).
  cbn [mbind option_bind].
  destruct (mark_tail_spec (Z.to_nat (x1 - x0)) xb x1 rb Ob ltac:(lia) H1 ltac:(lia))
    as (rc & -> & [Lc [Oc Mc]]).
  exists rc. split; [reflexivity|].
  destruct La as [la ->], Lb as [lb ->], Lc as [lc ->].
  split; [now exists lc|]. split; [assumption|].
  destruct (Z.le_gt_cases x0 x1) as [Le|Gt].
  - assert (xa <= x1) by lia. assert (xb <= x1) by lia.
    rewrite Z.max_r in Mc by lia.
    apply (marked_trans _ (set_busy_tmem la r) _ x0 xa x1); [lia|assumption|].
    apply (marked_trans _ (set_busy_tmem lb (set_busy_tmem la r)) _ xa xb x1);
      [lia|assumption|assumption].
  - assert (xa = x0) by lia. assert (xb = x0) by lia. subst xa xb.
    rewrite Z.max_l in Mc by lia.
    intros y Hy. rewrite Mc, Mb, Ma by assumption.
    destruct (Z.leb_spec x0 y), (Z.ltb_spec y x0), (Z.ltb_spec y x1); try lia;
      now rewrite ?orb_false_r.
Qed.

Lemma land_bit_eqb b k :
  0 <= k -> (Z.land b (Z.shiftl 1 k) =? 0) = negb (Z.testbit b k).
Proof.
  intros Hk. destruct (Z.testbit b k) eqn:T; cbn [negb].
  - apply Z.eqb_neq. intros E.
    assert (F : Z.testbit (Z.land b (Z.shiftl 1 k)) k = false) by (rewrite E; apply Z.bits_0).
    rewrite Z.land_spec, T, Z.shiftl_spec, Z.sub_diag in F by lia. discriminate.
  - apply Z.eqb_eq. apply Z.bits_inj'. intros i Hi.
    rewrite Z.land_spec, Z.bits_0, Z.shiftl_spec by lia.
    destruct (Z.eq_dec i k) as [->|N]; [now rewrite T|].
    destruct (Z.lt_ge_cases i k).
    + rewrite (Z.testbit_neg_r 1) by lia. apply andb_false_r.
    + rewrite (testbit_small 1 1) by lia. apply andb_false_r.
Qed.

Lemma tmem_test_bit_spec x r :
  tmem_ok r -> 0 <= x < 512 -> tmem_test_bit x r = Some (tmem_busy r x).
Proof.
  intros [Len By] Hx. unfold tmem_test_bit, tmem_busy.
  rewrite quot_div8, land7 by lia.
  assert (Hi : 0 <= x / 8 < Z.of_nat (length (busy_tmem r))).
  { rewrite Len. split; [apply Z.div_pos; lia|]. apply Z.div_lt_upper_bound; lia. }
  destruct (index_Some _ _ Hi) as (b & -> & _). cbn [mbind option_bind].
  rewrite land_bit_eqb by (apply Z.mod_pos_bound; lia).
  now rewrite negb_involutive.
Qed.

Lemma tmem_test_byte_spec x r :
  tmem_ok r -> 0 <= x < 512 -> x mod 8 = 0 ->
  exists b, tmem_test_byte x r = Some b /\ (b = true <-> busy_in r x (x + 8)).
Proof.
  intros [Len By] Hx Hm. unfold tmem_test_byte, busy_in, tmem_busy.
  rewrite quot_div8 by lia.
  assert (Hi : 0 <= x / 8 < Z.of_nat (length (busy_tmem r))).
  { rewrite Len. split; [apply Z.div_pos; lia|]. apply Z.div_lt_upper_bound; lia. }
  destruct (index_Some _ _ Hi) as (b & Ib & Lb). rewrite Ib. cbn [mbind option_bind].
  assert (Hb : 0 <= b < 256) by (rewrite Forall_lookup in By; exact (By _ _ Lb)).
  pose proof (Z.div_mod x 8 ltac:(lia)) as Dx.
  eexists. split; [reflexivity|]. split.
  - intros Nz. apply negb_true_iff, Z.eqb_neq in Nz.
    assert (P : 0 < b) by lia.
    assert (Lg : 0 <= Z.log2 b < 8).
    { split; [apply Z.log2_nonneg|]. apply Z.log2_lt_pow2; [assumption|].
      change (2 ^ 8) with 256. lia. }
    exists (x + Z.log2 b). split; [lia|].
    replace ((x + Z.log2 b) / 8) with (x / 8)
      by (apply Z.div_unique with (Z.log2 b); lia).
    replace ((x + Z.log2 b) mod 8) with (Z.log2 b)
      by (apply Z.mod_unique with (x / 8); lia).
    rewrite Ib. now apply Z.bit_log2.
  - intros (y & Hy & T).
    replace (y / 8) with (x / 8) in T
      by (apply Z.div_unique with (y - x); lia).
    rewrite Ib in T. apply negb_true_iff, Z.eqb_neq. intros ->.
    rewrite Z.bits_0 in T. discriminate.
Qed.

Lemma busy_head_spec fuel x x1 r :
  tmem_ok r -> 0 <= x -> x1 <= 512 -> x1 - x <= Z.of_nat fuel ->
  exists found x', busy_head fuel x x1 r = Some (found, x') /\
    (found = true -> busy_in r x x1) /\
    (found = false ->
       x <= x' /\ (x' <= x1 \/ x' = x) /\ (x' mod 8 = 0 \/ x1 <= x') /\
       ~ busy_in r x x').
Proof.
  revert x. induction fuel as [|fuel IH]; intros x O Hx H1 Hf; cbn [busy_head].
  - exists false, x. split; [reflexivity|]. split; [discriminate|]. intros _.
    split; [lia|]. split; [auto|]. split; [right; lia|]. intros (y & Hy & _). lia.
  - rewrite land7.
    destruct (Z.eqb_spec (x mod 8) 0) as [E|N]; cbn [negb andb].
    + exists false, x. split; [reflexivity|]. split; [discriminate|]. intros _.
      split; [lia|]. split; [auto|]. split; [auto|]. intros (y & Hy & _). lia.
    + destruct (Z.ltb_spec x x1) as [L|L].
      * rewrite tmem_test_bit_spec by (try assumption; lia).
        destruct (tmem_busy r x) eqn:T.
        -- exists true, x. split; [reflexivity|]. split; [|discriminate].
           intros _. exists x. split; [lia|assumption].
        -- destruct (IH (x + 1) O ltac:(lia) H1 ltac:(lia)) as (f & x' & -> & A & B).
           exists f, x'. split; [reflexivity|]. split.
           ++ intros F. destruct (A F) as (y & Hy & Ty). exists y. split; [lia|assumption].
           ++ intros F. destruct (B F) as (B1 & B2 & B3 & B4).
              split; [lia|]. split; [lia|]. split; [assumption|].
              intros (y & Hy & Ty). destruct (Z.eq_dec y x) as [->|Ny]; [congruence|].
              apply B4. exists y. split; [lia|assumption].
      * exists false, x. split; [reflexivity|]. split; [discriminate|]. intros _.
        split; [lia|]. split; [auto|]. split; [right; lia|]. intros (y & Hy & _). lia.
Qed.

Lemma busy_bytes_spec fuel x x1 r :
  tmem_ok r -> 0 <= x -> x1 <= 512 -> x1 - x <= Z.of_nat fuel ->
  (x mod 8 = 0 \/ x1 <= x) ->
  exists found x', busy_bytes fuel x x1 r = Some (found, x') /\
    (found = true -> busy_in r x x1) /\
    (found = false -> x <= x' /\ (x' <= x1 \/ x' = x) /\ ~ busy_in r x x').
Proof.
  revert x. induction fuel as [|fuel IH]; intros x O Hx H1 Hf Al; cbn [busy_bytes].
  - exists false, x. split; [reflexivity|]. split; [discriminate|]. intros _.
    split; [lia|]. split; [auto|]. intros (y & Hy & _). lia.
  - destruct (Z.ltb_spec (x + 8) x1) as [L|L].
    + destruct Al as [Al|Al]; [|lia].
      destruct (tmem_test_byte_spec x r O ltac:(lia) Al) as (b & -> & Hb).
      destruct b.
      * exists true, x. split; [reflexivity|]. split; [|discriminate].
        intros _. destruct (proj1 Hb eq_refl) as (y & Hy & Ty).
        exists y. split; [lia|assumption].
      * assert (Al' : (x + 8) mod 8 = 0) by (rewrite Z.add_mod, Al by lia; reflexivity).
        destruct (IH (x + 8) O ltac:(lia) H1 ltac:(lia) (or_introl Al'))
          as (f & x' & -> & A & B).
        exists f, x'. split; [reflexivity|]. split.
        -- intros F. destruct (A F) as (y & Hy & Ty). exists y. split; [lia|assumption].
        -- intros F. destruct (B F) as (B1 & B2 & B4).
           split; [lia|]. split; [lia|].
           intros (y & Hy & Ty). destruct (Z.lt_ge_cases y (x + 8)).
           ++ assert (C : false = true); [|discriminate]. apply Hb.
              exists y. split; [lia|assumption].
           ++ apply B4. exists y. split; [lia|assumption].
    + exists false, x. split; [reflexivity|]. split; [discriminate|]. intros _.
      split; [lia|]. split; [auto|]. intros (y & Hy & _). lia.
Qed.

Lemma busy_tail_spec fuel x x1 r :
  tmem_ok r -> 0 <= x -> x1 <= 512 -> x1 - x <= Z.of_nat fuel ->
  exists found, busy_tail fuel x x1 r = Some found /\
    (found = true <-> busy_in r x x1).
Proof.
  revert x. induction fuel as [|fuel IH]; intros x O Hx H1 Hf; cbn [busy_tail].
  - exists false. split; [reflexivity|]. split; [discriminate|].
    intros (y & Hy & _). lia.
  - destruct (Z.ltb_spec x x1) as [L|L].
    + rewrite tmem_test_bit_spec by (try assumption; lia).
      destruct (tmem_busy r x) eqn:T.
      * exists true. split; [reflexivity|]. split; [|reflexivity].
        intros _. exists x. split; [lia|assumption].
      * destruct (IH (x + 1) O ltac:(lia) H1 ltac:(lia)) as (f & -> & A).
        exists f. split; [reflexivity|]. rewrite A. split.
        -- intros (y & Hy & Ty). exists y. split; [lia|assumption].
        -- intros (y & Hy & Ty). destruct (Z.eq_dec y x) as [->|Ny]; [congruence|].
           exists y. split; [lia|assumption].
    + exists false. split; [reflexivity|]. split; [discriminate|].
      intros (y & Hy & _). lia.
Qed.

(** What [is_busy_tmem] answers. *)
Lemma is_busy_tmem_answer addr size r :
  tmem_ok r -> 0 <= addr ->
  exists b, is_busy_tmem addr size r = Some b /\
            (b = true <-> busy_in r (tmem_first addr) (tmem_limit addr size)).
Proof.
  intros O Ha. unfold is_busy_tmem.
  fold (tmem_first addr). fold (tmem_limit addr size).
  pose proof (tmem_limit_le addr size) as H1.
  pose proof (tmem_first_nonneg addr Ha) as H0.
  set (x0 := tmem_first addr) in *. set (x1 := tmem_limit addr size) in *.
  assert (Hf : x1 - x0 <= Z.of_nat (Z.to_nat (x1 - x0))) by lia.
  destruct (busy_head_spec _ x0 x1 r O H0 H1 Hf) as (fa & xa & -> & A1 & A2).
  destruct fa.
  { exists true. split; [reflexivity|]. split; auto. }
  destruct (A2 eq_refl) as (P1 & P2 & P3 & P4).
  destruct (busy_bytes_spec (Z.to_nat (x1 - x0)) xa x1 r O ltac:(lia) H1 ltac:(lia) P3)
    as (fb & xb & -> & B1 & B2).
  destruct fb.
  { exists true. split; [reflexivity|]. split; [|auto]. intros _.
    destruct (B1 eq_refl) as (y & Hy & Ty). exists y. split; [lia|assumption]. }
  destruct (B2 eq_refl) as (Q1 & Q2 & Q4).
  destruct (busy_tail_spec (Z.to_nat (x1 - x0)) xb x1 r O ltac:(lia) H1 ltac:(lia))
    as (fc & -> & C).
  exists fc. split; [reflexivity|]. rewrite C. split.
  - intros (y & Hy & Ty). exists y. split; [lia|assumption].
  - intros (y & Hy & Ty).
    destruct (Z.lt_ge_cases y xa); [exfalso; apply P4; exists y; split; [lia|assumption]|].
    destruct (Z.lt_ge_cases y xb); [exfalso; apply Q4; exists y; split; [lia|assumption]|].
    exists y. split; [lia|assumption].
Qed.

(** X5: [mark_busy_tmem (addr, size)], for [addr >= 0], stays inside the
    64-byte bit array and changes nothing else in the mirror; it sets the
    busy bit of exactly the 8-byte words [x] with
    [min (addr, 0x1000) / 8 <= x < min (addr + size, 0x1000) / 8] and
    leaves every other bit as it was. *)
Theorem mark_busy_tmem_marks_words addr size r :
  tmem_ok r -> 0 <= addr ->
  exists r',
    mark_busy_tmem addr size r = Some r' /\
    (exists l, r' = set_busy_tmem l r) /\ tmem_ok r' /\
    forall x, 0 <= x ->
      tmem_busy r' x
      = tmem_busy r x || ((tmem_first addr <=? x) && (x <? tmem_limit addr size)).
Proof.
  intros O Ha. destruct (mark_busy_tmem_marks addr size r O Ha) as (r' & E & L & O' & M).
  exists r'. auto.
Qed.

(** X6: [is_busy_tmem (addr, size)], for [addr >= 0], stays inside the bit
    array and answers true exactly when one of the words
    [min (addr, 0x1000) / 8 <= x < min (addr + size, 0x1000) / 8] is
    busy. *)
Theorem is_busy_tmem_iff addr size r :
  tmem_ok r -> 0 <= addr ->
  exists b, is_busy_tmem addr size r = Some b /\
            (b = true <-> busy_in r (tmem_first addr) (tmem_limit addr size)).
Proof. apply is_busy_tmem_answer. Qed.

(** X7: with no TMEM word busy, marking the range of one tile and then
    checking the range of a load warns exactly when the two ranges have an
    8-byte word in common; the check changes nothing but the warning
    counter. *)
Theorem validate_busy_tmem_after_mark a1 n1 a2 n2 r :
  tmem_ok r -> (forall x, tmem_busy r x = false) -> 0 <= a1 -> 0 <= a2 ->
  exists r1 r2,
    mark_busy_tmem a1 n1 r = Some r1 /\
    validate_busy_tmem a2 n2 r1 = Some r2 /\
    warns r2 = warns r1
               + (if Z.max (tmem_first a1) (tmem_first a2)
                     <? Z.min (tmem_limit a1 n1) (tmem_limit a2 n2) then 1 else 0) /\
    errs r2 = errs r1 /\ busy_tmem r2 = busy_tmem r1 /\ busy_tile r2 = busy_tile r1.
Proof.
  intros O Z0 H1 H2.
  destruct (mark_busy_tmem_marks a1 n1 r O H1) as (r1 & E1 & _ & O1 & M).
  destruct (is_busy_tmem_answer a2 n2 r1 O1 H2) as (b & E2 & B).
  exists r1. unfold validate_busy_tmem. rewrite E2. cbn [mbind option_bind].
  eexists. split; [exact E1|]. split; [reflexivity|].
  pose proof (tmem_first_nonneg a1 H1) as P1.
  pose proof (tmem_first_nonneg a2 H2) as P2.
  assert (C : b = (Z.max (tmem_first a1) (tmem_first a2)
                   <? Z.min (tmem_limit a1 n1) (tmem_limit a2 n2))).
  { destruct (Z.ltb_spec (Z.max (tmem_first a1) (tmem_first a2))
                         (Z.min (tmem_limit a1 n1) (tmem_limit a2 n2))) as [L|L].
    - apply B. exists (Z.max (tmem_first a1) (tmem_first a2)). split; [lia|].
      rewrite M, Z0 by lia. cbn [orb].
      apply andb_true_iff. split; [apply Z.leb_le|apply Z.ltb_lt]; lia.
    - destruct b; [|reflexivity]. destruct (proj1 B eq_refl) as (y & Hy & Ty).
      rewrite M, Z0 in Ty by lia. cbn [orb] in Ty.
      apply andb_true_iff in Ty as [Ty1 Ty2].
      apply Z.leb_le in Ty1. apply Z.ltb_lt in Ty2. lia. }
  rewrite <- C. destruct b; cbn [negb __VALIDATE validate_emit_error]; cbn; auto with zarith.
Qed.

Lemma tmem_ok_sample : tmem_ok sample_rdp.
Proof.
  split; [reflexivity|]. cbn [sample_rdp busy_tmem]. apply Forall_replicate. lia.
Qed.

Lemma tmem_clear_sample x : tmem_busy sample_rdp x = false.
Proof.
  unfold tmem_busy, index. cbn [sample_rdp busy_tmem].
  destruct (_ && _); [|reflexivity].
  destruct (replicate 64 0 !! Z.to_nat (x / 8)) as [b|] eqn:E; [|reflexivity].
  apply lookup_replicate in E as [-> _]. apply Z.bits_0.
Qed.

Lemma mark_busy_tmem_marks_words_witness :
  tmem_ok sample_rdp /\ 0 <= 0x10 /\
  exists r',
    mark_busy_tmem 0x10 0x40 sample_rdp = Some r' /\
    (exists l, r' = set_busy_tmem l sample_rdp) /\ tmem_ok r' /\
    forall x, 0 <= x ->
      tmem_busy r' x
      = tmem_busy sample_rdp x
        || ((tmem_first 0x10 <=? x) && (x <? tmem_limit 0x10 0x40)).
Proof.
  assert (A : 0 <= 0x10) by lia.
  split; [exact tmem_ok_sample|]. split; [exact A|].
  exact (mark_busy_tmem_marks_words 0x10 0x40 sample_rdp tmem_ok_sample A).
Defined.

Lemma is_busy_tmem_iff_witness :
  tmem_ok sample_rdp /\ 0 <= 0x10 /\
  exists b, is_busy_tmem 0x10 0x40 sample_rdp = Some b /\
            (b = true <-> busy_in sample_rdp (tmem_first 0x10) (tmem_limit 0x10 0x40)).
Proof.
  assert (A : 0 <= 0x10) by lia.
  split; [exact tmem_ok_sample|]. split; [exact A|].
  exact (is_busy_tmem_iff 0x10 0x40 sample_rdp tmem_ok_sample A).
Defined.

Lemma validate_busy_tmem_after_mark_witness :
  exists r1 r2,
    mark_busy_tmem 0 0x800 sample_rdp = Some r1 /\
    validate_busy_tmem 0x7F8 0x10 r1 = Some r2 /\
    warns r2 = warns r1
               + (if Z.max (tmem_first 0) (tmem_first 0x7F8)
                     <? Z.min (tmem_limit 0 0x800) (tmem_limit 0x7F8 0x10) then 1 else 0) /\
    errs r2 = errs r1 /\ busy_tmem r2 = busy_tmem r1 /\ busy_tile r2 = busy_tile r1.
Proof.
  assert (A : 0 <= 0) by lia. assert (B : 0 <= 0x7F8) by lia.
  exact (validate_busy_tmem_after_mark 0 0x800 0x7F8 0x10 sample_rdp
           tmem_ok_sample tmem_clear_sample A B).
Defined.

(** ** Validator: commands *)

Lemma counts_le_refl v : counts_le v v.
Proof. unfold counts_le. split_and!; try reflexivity; lia. Qed.

Lemma counts_le_trans v1 v2 v3 : counts_le v1 v2 -> counts_le v2 v3 -> counts_le v1 v3.
Proof.
  unfold counts_le. intros H1 H2. destruct_and!.
  split_and!; try congruence; lia.
Qed.

Lemma counts_le_VALIDATE flags c v : counts_le v (lift (__VALIDATE flags c) v).
Proof.
  unfold counts_le, lift, __VALIDATE, validate_emit_error.
  destruct c, (negb (Z.land flags 1 =? 0)); cbn; split_and!; try reflexivity; lia.
Qed.

Lemma counts_le_mode_changed b v : counts_le v (set_mode_changed b v).
Proof. unfold counts_le. cbn. split_and!; try reflexivity; lia. Qed.

(** The counters after one check. *)
Lemma VALIDATE_counts flags c v :
  errs (rdp (lift (__VALIDATE flags c) v))
  = errs (rdp v) + (if c || negb (Z.land flags 1 =? 0) then 0 else 1) /\
  warns (rdp (lift (__VALIDATE flags c) v))
  = warns (rdp v) + (if c || (Z.land flags 1 =? 0) then 0 else 1).
Proof.
  unfold lift, __VALIDATE, validate_emit_error.
  destruct c, (Z.land flags 1 =? 0); cbn; lia.
Qed.

Ltac counts_le_step :=
  lazymatch goal with
  | |- counts_le ?v ?v => apply counts_le_refl
  | |- counts_le ?v (let x := ?E in @?B x) =>
      apply (counts_le_trans v E);
      [|let y := fresh "v" in
        generalize E; intros y; change (counts_le y (B y)); cbv beta]
  | |- counts_le ?v (if ?c then _ else _) => destruct c
  | |- counts_le ?v (lift (__VALIDATE ?f ?c) ?u) =>
      apply (counts_le_trans v u); [|apply counts_le_VALIDATE]
  | |- counts_le ?v (lift (VALIDATE_ERR ?c) ?u) =>
      apply (counts_le_trans v u); [|apply counts_le_VALIDATE]
  | |- counts_le ?v (lift (VALIDATE_ERR_SOM ?c) ?u) =>
      apply (counts_le_trans v u); [|apply counts_le_VALIDATE]
  | |- counts_le ?v (lift (VALIDATE_ERR_CC ?c) ?u) =>
      apply (counts_le_trans v u); [|apply counts_le_VALIDATE]
  | |- counts_le ?v (lift (VALIDATE_ERR_TEX ?c) ?u) =>
      apply (counts_le_trans v u); [|apply counts_le_VALIDATE]
  | |- counts_le ?v (lift (VALIDATE_WARN ?c) ?u) =>
      apply (counts_le_trans v u); [|apply counts_le_VALIDATE]
  | |- counts_le ?v (lift (VALIDATE_WARN_SOM ?c) ?u) =>
      apply (counts_le_trans v u); [|apply counts_le_VALIDATE]
  | |- counts_le ?v (lift (VALIDATE_WARN_CC ?c) ?u) =>
      apply (counts_le_trans v u); [|apply counts_le_VALIDATE]
  | |- counts_le ?v (set_mode_changed ?b ?u) =>
      apply (counts_le_trans v u); [|apply counts_le_mode_changed]
  end.
Ltac counts_le := repeat counts_le_step.

Lemma lazy_validate_rendermode_counts v :
  counts_le v (lazy_validate_rendermode v).
Proof. unfold lazy_validate_rendermode. counts_le. Qed.

Lemma validate_draw_cycle_counts uc ut bls ccs v :
  counts_le v (validate_draw_cycle uc ut bls ccs v).
Proof. unfold validate_draw_cycle. cbv zeta. counts_le. Qed.

Ltac counts_le_step2 :=
  first
    [ counts_le_step
    | lazymatch goal with
      | |- counts_le ?v (validate_draw_cycle _ _ _ _ ?u) =>
          apply (counts_le_trans v u); [|apply validate_draw_cycle_counts]
      | |- counts_le ?v (lazy_validate_rendermode ?u) =>
          apply (counts_le_trans v u); [|apply lazy_validate_rendermode_counts]
      end ].

Lemma validate_draw_modes_counts uc ut uz uw v :
  counts_le v (validate_draw_modes uc ut uz uw v).
Proof. unfold validate_draw_modes. repeat counts_le_step2. Qed.

Lemma validate_draw_cmd_counts uc ut uz uw v :
  counts_le v (validate_draw_cmd uc ut uz uw v) /\
  errs (rdp v) + (if sent_scissor v then 0 else 1)
               + (if sent_color_image v then 0 else 1)
  <= errs (rdp (validate_draw_cmd uc ut uz uw v)).
Proof.
  unfold validate_draw_cmd.
  set (v1 := lift (VALIDATE_ERR (sent_scissor v)) v).
  set (v2 := lift (VALIDATE_ERR (sent_color_image v1)) v1).
  assert (L1 : counts_le v v1) by apply counts_le_VALIDATE.
  assert (L2 : counts_le v1 v2) by apply counts_le_VALIDATE.
  assert (E1 : errs (rdp v1) = errs (rdp v) + (if sent_scissor v then 0 else 1)).
  { destruct (VALIDATE_counts 0 (sent_scissor v) v) as [A _].
    cbn [Z.land Z.eqb negb] in A. rewrite orb_false_r in A. exact A. }
  assert (E2 : errs (rdp v2) = errs (rdp v1) + (if sent_color_image v then 0 else 1)).
  { destruct (VALIDATE_counts 0 (sent_color_image v1) v1) as [A _].
    cbn [Z.land Z.eqb negb] in A. rewrite orb_false_r in A. exact A. }
  cbv zeta. fold v1. fold v2.
  assert (R : counts_le v2
    (if z_prim (som_checks v2)
     then validate_draw_modes uc ut true uw
            (lift (VALIDATE_ERR_SOM (sent_zprim (lift (VALIDATE_WARN_SOM (negb uz)) v2)))
               (lift (VALIDATE_WARN_SOM (negb uz)) v2))
     else validate_draw_modes uc ut uz uw v2)).
  { destruct (z_prim (som_checks v2)).
    - match goal with
      | |- counts_le ?a (validate_draw_modes _ _ _ _ ?u) =>
          apply (counts_le_trans a u); [|apply validate_draw_modes_counts]
      end. repeat counts_le_step2.
    - apply validate_draw_modes_counts. }
  split.
  - exact (counts_le_trans _ _ _ (counts_le_trans _ _ _ L1 L2) R).
  - destruct R as (_ & _ & _ & _ & _ & _ & _ & _ & _ & _ & _ & _ & _ & _ & _ & Re & _).
    lia.
Qed.

Lemma errs_le_refl r : errs_le r r.
Proof. unfold errs_le. lia. Qed.

Lemma errs_le_trans r1 r2 r3 : errs_le r1 r2 -> errs_le r2 r3 -> errs_le r1 r3.
Proof. unfold errs_le. lia. Qed.

Lemma errs_le_VALIDATE flags c r : errs_le r (__VALIDATE flags c r).
Proof.
  unfold errs_le, __VALIDATE, validate_emit_error.
  destruct c, (negb (Z.land flags 1 =? 0)); cbn; lia.
Qed.

Lemma tmem_set_bit_errs x r r' : tmem_set_bit x r = Some r' -> errs_le r r'.
Proof.
  unfold tmem_set_bit. intros H.
  destruct (index _ _); [|discriminate]. cbn in H.
  destruct (assign _ _ _); [|discriminate]. injection H as <-.
  unfold errs_le. cbn. lia.
Qed.

Lemma tmem_set_byte_errs x r r' : tmem_set_byte x r = Some r' -> errs_le r r'.
Proof.
  unfold tmem_set_byte. intros H.
  destruct (assign _ _ _); [|discriminate]. injection H as <-.
  unfold errs_le. cbn. lia.
Qed.

Lemma mark_head_errs fuel x x1 r y r' :
  mark_head fuel x x1 r = Some (y, r') -> errs_le r r'.
Proof.
  revert x r. induction fuel as [|fuel IH]; intros x r H; cbn [mark_head] in H.
  - injection H as _ <-. apply errs_le_refl.
  - destruct (_ && _).
    + destruct (tmem_set_bit x r) as [r1|] eqn:E; [|discriminate].
      cbn in H. eapply errs_le_trans; [eapply tmem_set_bit_errs, E|eapply IH, H].
    + injection H as _ <-. apply errs_le_refl.
Qed.

Lemma mark_bytes_errs fuel x x1 r y r' :
  mark_bytes fuel x x1 r = Some (y, r') -> errs_le r r'.
Proof.
  revert x r. induction fuel as [|fuel IH]; intros x r H; cbn [mark_bytes] in H.
  - injection H as _ <-. apply errs_le_refl.
  - destruct (_ <? _).
    + destruct (tmem_set_byte x r) as [r1|] eqn:E; [|discriminate].
      cbn in H. eapply errs_le_trans; [eapply tmem_set_byte_errs, E|eapply IH, H].
    + injection H as _ <-. apply errs_le_refl.
Qed.

Lemma mark_tail_errs fuel x x1 r r' :
  mark_tail fuel x x1 r = Some r' -> errs_le r r'.
Proof.
  revert x r. induction fuel as [|fuel IH]; intros x r H; cbn [mark_tail] in H.
  - injection H as <-. apply errs_le_refl.
  - destruct (_ <? _).
    + destruct (tmem_set_bit x r) as [r1|] eqn:E; [|discriminate].
      cbn in H. eapply errs_le_trans; [eapply tmem_set_bit_errs, E|eapply IH, H].
    + injection H as <-. apply errs_le_refl.
Qed.

Lemma mark_busy_tmem_errs addr size r r' :
  mark_busy_tmem addr size r = Some r' -> errs_le r r'.
Proof.
  unfold mark_busy_tmem. intros H.
  destruct (mark_head _ _ _ r) as [[x r1]|] eqn:E1; [|discriminate]. cbn in H.
  destruct (mark_bytes _ _ _ r1) as [[y r2]|] eqn:E2; [|discriminate]. cbn in H.
  eapply errs_le_trans; [eapply mark_head_errs, E1|].
  eapply errs_le_trans; [eapply mark_bytes_errs, E2|eapply mark_tail_errs, H].
Qed.

Lemma use_tile_checks_errs t cycle r : errs_le r (use_tile_checks t cycle r).
Proof.
  unfold use_tile_checks, VALIDATE_ERR_SOM.
  repeat match goal with
         | |- errs_le _ (if ?c then _ else _) => destruct c
         | |- errs_le _ (let r := ?x in _) => cbv zeta
         | |- errs_le ?a (__VALIDATE _ _ ?b) =>
             apply (errs_le_trans a b); [|apply errs_le_VALIDATE]
         end; apply errs_le_refl.
Qed.

Lemma mark_twice_errs a1 a2 n r r' :
  (r1 ← mark_busy_tmem a1 n r; mark_busy_tmem a2 n r1) = Some r' -> errs_le r r'.
Proof.
  intros H. destruct (mark_busy_tmem a1 n r) as [r1|] eqn:E; [|discriminate].
  eapply errs_le_trans; eapply mark_busy_tmem_errs; eassumption.
Qed.

Lemma use_tile_mark_errs t r r' : use_tile_mark t r = Some r' -> errs_le r r'.
Proof.
  unfold use_tile_mark. intros H.
  destruct (_ || _).
  - destruct (tsize t =? 3).
    + destruct (tile_bytes_half t); [|discriminate]. eapply mark_twice_errs, H.
    + destruct (tile_bytes t); [|discriminate]. eapply mark_busy_tmem_errs, H.
  - destruct (fmt t =? 1).
    + destruct (tile_bytes_half t); [|discriminate]. eapply mark_twice_errs, H.
    + destruct (fmt t =? 2); [|injection H as <-; apply errs_le_refl].
      destruct (tile_bytes t) as [n|]; [|discriminate]. cbn [mbind option_bind] in H.
      destruct (mark_busy_tmem (tmem_addr t) n r) as [r1|] eqn:E1; [|discriminate].
      cbn [mbind option_bind] in H.
      apply mark_busy_tmem_errs in E1. apply (errs_le_trans _ _ _ E1).
      destruct (tsize t =? 0).
      * destruct (mark_busy_tmem _ 64 r1) as [r2|] eqn:E2; [|discriminate].
        cbn [mbind option_bind] in H.
        apply mark_busy_tmem_errs in E2. apply (errs_le_trans _ _ _ E2).
        destruct (tsize t =? 1); [eapply mark_busy_tmem_errs, H|].
        injection H as <-. apply errs_le_refl.
      * cbn [mbind option_bind] in H.
        destruct (tsize t =? 1); [eapply mark_busy_tmem_errs, H|].
        injection H as <-. apply errs_le_refl.
Qed.

Lemma use_tile_body_errs tidx cycle r r' :
  use_tile_body tidx cycle r = Some r' -> errs_le r r'.
Proof.
  unfold use_tile_body. intros H.
  destruct (index (tile r) tidx) as [t|]; [|discriminate]. cbn [mbind option_bind] in H.
  destruct (assign _ _ _) as [bt|] eqn:A; [|discriminate]. cbn [mbind option_bind] in H.
  apply use_tile_mark_errs in H.
  eapply errs_le_trans; [|exact H].
  eapply errs_le_trans; [|apply use_tile_checks_errs].
  pose proof (errs_le_VALIDATE 0 (has_extents t) r) as V.
  unfold errs_le in *. cbn [errs warns set_busy_tile]. exact V.
Qed.

Lemma use_tile_errs tidx cycle r r' :
  use_tile tidx cycle r = Some r' -> errs_le r r'.
Proof.
  unfold use_tile. intros H.
  destruct (use_tile_body tidx cycle r) as [r1|] eqn:E; [|discriminate].
  cbn [mbind option_bind] in H. apply use_tile_body_errs in E.
  destruct (_ && _).
  - apply use_tile_body_errs in H. eapply errs_le_trans; eassumption.
  - injection H as <-. exact E.
Qed.

Lemma draw_core a b c d v :
  let v4 := validate_draw_cmd a b c d (lazy_validate_rendermode v) in
  busy_pipe v4 = busy_pipe v /\
  errs (rdp v) + (if sent_scissor v then 0 else 1)
               + (if sent_color_image v then 0 else 1) <= errs (rdp v4) /\
  warns (rdp v) <= warns (rdp v4).
Proof.
  cbv zeta.
  pose proof (lazy_validate_rendermode_counts v) as L.
  destruct (validate_draw_cmd_counts a b c d (lazy_validate_rendermode v)) as [D B].
  unfold counts_le in L, D. destruct_and!.
  split; [congruence|]. split; [|lia].
  replace (sent_scissor v) with (sent_scissor (lazy_validate_rendermode v)) by assumption.
  replace (sent_color_image v) with (sent_color_image (lazy_validate_rendermode v))
    by assumption.
  lia.
Qed.

Lemma validate_fill_rect_drawn v :
  drawn v (validate_draw_cmd false false false false
             (lazy_validate_rendermode (set_busy_pipe true v))).
Proof.
  destruct (draw_core false false false false (set_busy_pipe true v)) as (P & E & W).
  split; [exact P|]. split; [exact E|exact W].
Qed.

Lemma validate_tex_rect_drawn flip w v u :
  validate_tex_rect flip w v = Some u -> drawn v u.
Proof.
  unfold validate_tex_rect. cbv zeta.
  set (v1 := if flip then lift (VALIDATE_ERR (cycle_type (som (rdp v)) <? 2)) v else v).
  assert (L : counts_le v v1).
  { unfold v1. destruct flip; [apply counts_le_VALIDATE|apply counts_le_refl]. }
  clearbody v1.
  destruct (draw_core false true false false (set_busy_pipe true v1)) as (P & E & W).
  set (v4 := validate_draw_cmd false true false false
               (lazy_validate_rendermode (set_busy_pipe true v1))) in *.
  clearbody v4. intros H.
  destruct (use_tile (BITS w 24 26) 0 (rdp v4)) as [r|] eqn:U; [|discriminate].
  cbn [mbind option_bind] in H. apply use_tile_errs in U. destruct U as [U1 U2].
  assert (Hu : u = set_rdp r v4) by congruence. subst u.
  unfold counts_le in L. destruct_and!. unfold drawn.
  cbn [busy_pipe set_rdp rdp set_busy_pipe sent_scissor sent_color_image] in *.
  split; [assumption|].
  replace (sent_scissor v) with (sent_scissor v1) by assumption.
  replace (sent_color_image v) with (sent_color_image v1) by assumption. lia.
Qed.

Lemma validate_triangle_drawn c w v u :
  validate_triangle c w v = Some u -> drawn v u.
Proof.
  unfold validate_triangle. cbv zeta.
  set (v1 := lift (VALIDATE_ERR_SOM (cycle_type (som (rdp (set_busy_pipe true v))) <? 2))
               (set_busy_pipe true v)).
  assert (L : counts_le (set_busy_pipe true v) v1) by apply counts_le_VALIDATE.
  clearbody v1.
  destruct (draw_core (negb (Z.land c 4 =? 0)) (negb (Z.land c 2 =? 0))
              (negb (Z.land c 1 =? 0)) (negb (Z.land c 2 =? 0)) v1) as (P & E & W).
  set (v4 := validate_draw_cmd _ _ _ _ (lazy_validate_rendermode v1)) in *.
  clearbody v4. intros H.
  assert (A : exists u0, busy_pipe u0 = busy_pipe v4 /\ errs (rdp v4) <= errs (rdp u0) /\
                         warns (rdp v4) <= warns (rdp u0) /\
                         u = if negb (BITS w 51 53 =? 0)
                             then lift (VALIDATE_WARN_SOM (tex_lod (som_checks u0))) u0
                             else u0).
  { destruct (negb (Z.land c 2 =? 0)).
    - destruct (use_tile (BITS w 48 50) 0 (rdp v4)) as [r|] eqn:U; [|discriminate].
      cbn [mbind option_bind] in H. apply use_tile_errs in U. destruct U as [U1 U2].
      exists (set_rdp r v4). cbn [busy_pipe set_rdp rdp]. split_and!; try assumption; try reflexivity.
      congruence.
    - cbn [mbind option_bind] in H. exists v4. split_and!; try reflexivity; try lia.
      congruence. }
  destruct A as (u0 & A1 & A2 & A3 & ->).
  assert (B : counts_le u0 (if negb (BITS w 51 53 =? 0)
                            then lift (VALIDATE_WARN_SOM (tex_lod (som_checks u0))) u0
                            else u0)).
  { destruct (negb _); [apply counts_le_VALIDATE|apply counts_le_refl]. }
  set (u := if negb (BITS w 51 53 =? 0) then _ else u0) in *. clearbody u.
  unfold counts_le in L, B. destruct_and!. unfold drawn.
  cbn [busy_pipe set_rdp rdp set_busy_pipe sent_scissor sent_color_image] in *.
  split; [congruence|].
  replace (sent_scissor v) with (sent_scissor v1) by assumption.
  replace (sent_color_image v) with (sent_color_image v1) by assumption. lia.
Qed.

Ltac opcode c :=
  repeat match goal with
         | |- context [c =? ?k] =>
             destruct (Z.eqb_spec c k); [lia|]; cbn [orb andb]
         | H : context [c =? ?k] |- _ =>
             destruct (Z.eqb_spec c k); [lia|]; cbn [orb andb] in H
         end.

Lemma validate_cmd_draw buf w v u :
  is_draw (BITS w 56 61) = true -> validate_cmd buf w v = Some u -> drawn v u.
Proof.
  intros D V. unfold validate_cmd in V. cbv zeta in V.
  set (c := BITS w 56 61) in *. clearbody c. unfold is_draw in D.
  destruct (Z.eqb_spec c 0x24) as [C1|C1];
    [|destruct (Z.eqb_spec c 0x25) as [C2|C2];
      [|destruct (Z.eqb_spec c 0x36) as [C3|C3]]].
  - subst c. cbn [Z.eqb Pos.eqb orb andb] in V. eapply validate_tex_rect_drawn, V.
  - subst c. cbn [Z.eqb Pos.eqb orb andb] in V. eapply validate_tex_rect_drawn, V.
  - subst c. cbn [Z.eqb Pos.eqb orb andb] in V.
    assert (Hu : u = validate_draw_cmd false false false false
                       (lazy_validate_rendermode (set_busy_pipe true v))) by congruence.
    subst u. apply validate_fill_rect_drawn.
  - cbn [orb] in D. apply andb_true_iff in D as [D1 D2].
    apply Z.leb_le in D1. apply Z.leb_le in D2.
    opcode c.
    replace ((8 <=? c) && (c <=? 15)) with true in V
      by (symmetry; apply andb_true_iff; split; apply Z.leb_le; lia).
    eapply validate_triangle_drawn, V.
Qed.

Lemma rdpq_validate_draw_aux buf w v v' e n :
  is_draw (BITS w 56 61) = true ->
  rdpq_validate buf w v = Some (v', e, n) ->
  busy_pipe v' = true /\
  (if sent_scissor v then 0 else 1) + (if sent_color_image v then 0 else 1) <= e /\
  0 <= n.
Proof.
  intros D H. unfold rdpq_validate in H.
  destruct (validate_cmd buf w v) as [u|] eqn:V; [|discriminate].
  cbn [mbind option_bind] in H.
  destruct (validate_cmd_draw buf w v u D V) as (P & E & W).
  assert (H1 : v' = u) by congruence.
  assert (H2 : e = errs (rdp u) - errs (rdp v)) by congruence.
  assert (H3 : n = warns (rdp u) - warns (rdp v)) by congruence.
  subst. split; [assumption|]. lia.
Qed.

(** X8: a drawing command (texture rectangle, fill rectangle, triangle)
    that [rdpq_validate] goes through leaves the pipe marked busy, never
    lowers a counter, and reports at least one error for a missing
    SET_SCISSOR and one for a missing SET_COLOR_IMAGE; on a fill rectangle
    [rdpq_validate] always returns. *)
Theorem rdpq_validate_draw buf w v :
  (forall v' e n,
     is_draw (BITS w 56 61) = true ->
     rdpq_validate buf w v = Some (v', e, n) ->
     busy_pipe v' = true /\
     (if sent_scissor v then 0 else 1) + (if sent_color_image v then 0 else 1) <= e /\
     0 <= n) /\
  (BITS w 56 61 = 0x36 -> exists v' e n, rdpq_validate buf w v = Some (v', e, n)).
Proof.
  split.
  - intros v' e n. apply rdpq_validate_draw_aux.
  - intros C. unfold rdpq_validate, validate_cmd. rewrite C.
    cbn [Z.eqb Pos.eqb orb andb mbind option_bind]. eexists _, _, _. reflexivity.
Qed.

Lemma validate_cmd_color_reg buf c v :
  is_color_reg (BITS c 56 61) = true ->
  validate_cmd buf c v = Some (validate_busy_pipe v).
Proof.
  intros H. unfold validate_cmd. cbv zeta. unfold is_color_reg in H.
  set (k := BITS c 56 61) in *. clearbody k.
  destruct (Z.eqb_spec k 0x37) as [E|N1]; [rewrite E; reflexivity|].
  destruct (Z.eqb_spec k 0x38) as [E|N2]; [rewrite E; reflexivity|].
  destruct (Z.eqb_spec k 0x39) as [E|N3]; [rewrite E; reflexivity|].
  destruct (Z.eqb_spec k 0x3B) as [E|N4]; [rewrite E; reflexivity|].
  discriminate.
Qed.

Lemma validate_busy_pipe_busy v :
  busy_pipe v = true ->
  busy_pipe (validate_busy_pipe v) = false /\
  errs (rdp (validate_busy_pipe v)) = errs (rdp v) /\
  warns (rdp (validate_busy_pipe v)) = warns (rdp v) + 1.
Proof.
  intros B. unfold validate_busy_pipe. rewrite B. cbn. auto.
Qed.

Lemma validate_busy_pipe_idle v :
  busy_pipe v = false -> validate_busy_pipe v = v.
Proof.
  intros B. unfold validate_busy_pipe. rewrite B.
  destruct v as [r bp ss sc sz mc ls lc lt sk tf ts]. cbn in B. subst bp.
  now destruct r.
Qed.

Lemma validate_cmd_sync_pipe buf v :
  validate_cmd buf (rdp_word 0x27) v = Some (set_busy_pipe false v).
Proof.
  unfold validate_cmd. change (BITS (rdp_word 0x27) 56 61) with 0x27. reflexivity.
Qed.

(** X9: after a drawing command, the change of a colour register (fill,
    fog, blend or environment colour) is reported with exactly one warning
    and no error, and the pipe is then taken as idle, so that a second
    change is not reported; with a SYNC_PIPE after the drawing command the
    change is not reported at all. *)
Theorem rdpq_validate_pipe_discipline buf w c v v1 e1 n1 :
  is_draw (BITS w 56 61) = true -> is_color_reg (BITS c 56 61) = true ->
  rdpq_validate buf w v = Some (v1, e1, n1) ->
  exists v2 vs,
    rdpq_validate buf c v1 = Some (v2, 0, 1) /\
    busy_pipe v2 = false /\
    rdpq_validate buf c v2 = Some (v2, 0, 0) /\
    rdpq_validate buf (rdp_word 0x27) v1 = Some (vs, 0, 0) /\
    rdpq_validate buf c vs = Some (vs, 0, 0).
Proof.
  intros D C H.
  destruct (rdpq_validate_draw_aux buf w v v1 e1 n1 D H) as (B & _).
  destruct (validate_busy_pipe_busy v1 B) as (B2 & E2 & W2).
  exists (validate_busy_pipe v1), (set_busy_pipe false v1).
  unfold rdpq_validate.
  rewrite (validate_cmd_color_reg buf c v1 C),
    (validate_cmd_color_reg buf c (validate_busy_pipe v1) C),
    (validate_cmd_color_reg buf c (set_busy_pipe false v1) C),
    validate_cmd_sync_pipe.
  cbn [mbind option_bind].
  rewrite (validate_busy_pipe_idle (validate_busy_pipe v1) B2).
  rewrite (validate_busy_pipe_idle (set_busy_pipe false v1) eq_refl).
  rewrite E2, W2. rewrite !Z.sub_diag.
  replace (warns (rdp v1) + 1 - warns (rdp v1)) with 1 by lia.
  split; [reflexivity|]. split; [assumption|]. split; [reflexivity|].
  split; reflexivity.
Qed.

Lemma index_assign {A} (l : list A) i x y :
  index l i = Some x -> assign l i y = Some (<[Z.to_nat i := y]> l).
Proof.
  unfold index, assign. destruct (_ && _); [reflexivity|discriminate].
Qed.

Lemma assign_index {A} (l l' : list A) i y :
  assign l i y = Some l' -> index l' i = Some y /\ length l' = length l.
Proof.
  unfold index, assign. destruct (_ && _) eqn:G; [|discriminate].
  intros H. injection H as <-. rewrite length_insert, G.
  apply andb_true_iff in G as [G1 G2]. apply Z.leb_le in G1. apply Z.ltb_lt in G2.
  split; [|reflexivity]. apply list_lookup_insert_eq. lia.
Qed.

Lemma assign_index_ne {A} (l l' : list A) i j y :
  assign l i y = Some l' -> i <> j -> index l' j = index l j.
Proof.
  unfold index, assign. intros H N.
  destruct ((0 <=? i) && (i <? Z.of_nat (length l))) eqn:G; [|discriminate].
  injection H as <-. rewrite length_insert.
  destruct ((0 <=? j) && (j <? Z.of_nat (length l))) eqn:G2; [|reflexivity].
  apply andb_true_iff in G as [G1 _]. apply Z.leb_le in G1.
  apply andb_true_iff in G2 as [G3 _]. apply Z.leb_le in G3.
  apply list_lookup_insert_ne. lia.
Qed.

(** SET_TILE: the counters, given the busy flag of the tile. *)
Lemma validate_set_tile_counts s v b t0 :
  index (busy_tile (rdp v)) (BITS s 24 26) = Some b ->
  index (tile (rdp v)) (BITS s 24 26) = Some t0 ->
  exists u,
    validate_set_tile s v = Some u /\
    errs (rdp u)
    = errs (rdp v)
      + (if ((BITS s 53 55 =? 1) || ((BITS s 53 55 =? 0) && (BITS s 51 52 =? 3)))
            && negb (BITS s 32 40 * 8 <? 0x800) then 1 else 0) /\
    warns (rdp u)
    = warns (rdp v) + (if b then 1 else 0)
      + (if ((BITS s 53 55 =? 2) && (BITS s 51 52 =? 1)) && negb (BITS s 20 23 =? 0)
         then 1 else 0).
Proof.
  intros Ib It. unfold validate_set_tile, validate_busy_tile. cbv zeta.
  rewrite Ib. cbn [mbind option_bind].
  replace (busy_tile (rdp (lift (VALIDATE_WARN (negb b)) v))) with (busy_tile (rdp v))
    by (destruct b; reflexivity).
  rewrite (index_assign _ _ _ false Ib). cbn [mbind option_bind].
  replace (tile (rdp (lift (set_busy_tile (<[Z.to_nat (BITS s 24 26) := false]>
                                             (busy_tile (rdp v))))
                        (lift (VALIDATE_WARN (negb b)) v))))
    with (tile (rdp v)) by (destruct b; reflexivity).
  match goal with
  | |- context [assign (tile (rdp v)) ?i ?y] => rewrite (index_assign _ _ _ y It)
  end.
  cbn [mbind option_bind fmt tsize pal tmem_addr].
  eexists. split; [reflexivity|].
  destruct b, ((BITS s 53 55 =? 2) && (BITS s 51 52 =? 1)),
    ((BITS s 53 55 =? 1) || (BITS s 53 55 =? 0) && (BITS s 51 52 =? 3)),
    (BITS s 20 23 =? 0), (BITS s 32 40 * 8 <? 2048); cbn;
    unfold validate_emit_error;
    change (Z.land 1 1 =? 0) with false; change (Z.land 0 1 =? 0) with true;
    cbn; lia.
Qed.

Lemma BITS_range v b e :
  0 <= b <= e -> e <= 63 -> e - b < 32 -> 0 <= BITS v b e < 2 ^ (e - b + 1).
Proof.
  intros Hb He Hw. apply bits_range; [lia|]. intros j Hj.
  rewrite BITS_testbit by lia.
  replace (j <=? e - b) with false by (symmetry; apply Z.leb_gt; lia).
  now rewrite andb_false_r.
Qed.

Lemma validate_cmd_sync_tile buf v :
  validate_cmd buf (rdp_word 0x28) v = Some (lift (set_busy_tile (replicate 8 false)) v).
Proof.
  unfold validate_cmd. change (BITS (rdp_word 0x28) 56 61) with 0x28. reflexivity.
Qed.

Lemma validate_cmd_set_tile buf s v :
  BITS s 56 61 = 0x35 -> validate_cmd buf s v = validate_set_tile s v.
Proof. intros E. unfold validate_cmd. rewrite E. reflexivity. Qed.

Lemma validate_cmd_tex_rect buf w v :
  BITS w 56 61 = 0x24 -> validate_cmd buf w v = validate_tex_rect false w v.
Proof. intros E. unfold validate_cmd. rewrite E. reflexivity. Qed.

(** After [use_tile] the tile is marked busy and its descriptor is where
    it was. *)
Lemma use_tile_marks tidx r r' :
  use_tile tidx 0 r = Some r' ->
  index (busy_tile r') tidx = Some true /\
  exists t0, index (tile r') tidx = Some t0.
Proof.
  unfold use_tile. intros H.
  destruct (use_tile_body tidx 0 r) as [r1|] eqn:E; [|discriminate].
  cbn [mbind option_bind] in H.
  assert (I : exists t0, index (tile r) tidx = Some t0).
  { unfold use_tile_body in E. destruct (index (tile r) tidx) as [t0|]; [|discriminate].
    now exists t0. }
  destruct (use_tile_body_same _ _ _ _ E) as (T1 & _ & _ & A1).
  destruct (assign_index _ _ _ _ A1) as [I1 _].
  destruct (_ && _).
  - destruct (use_tile_body_same _ _ _ _ H) as (T2 & _ & _ & A2).
    split.
    + rewrite (assign_index_ne _ _ _ tidx _ A2) by lia. exact I1.
    + rewrite T2, T1. exact I.
  - injection H as <-. split; [exact I1|]. rewrite T1. exact I.
Qed.

(** X10: a texture rectangle marks its tile busy: a SET_TILE on that tile
    right after it gets one warning more, and no other difference in the
    counts, than the same SET_TILE after a SYNC_TILE, which itself is
    never reported. *)
Theorem rdpq_validate_tile_discipline buf w s v v1 e1 n1 :
  BITS w 56 61 = 0x24 -> BITS s 56 61 = 0x35 -> BITS s 24 26 = BITS w 24 26 ->
  rdpq_validate buf w v = Some (v1, e1, n1) ->
  exists v2 e2 n2 vs v3,
    rdpq_validate buf s v1 = Some (v2, e2, n2 + 1) /\
    rdpq_validate buf (rdp_word 0x28) v1 = Some (vs, 0, 0) /\
    rdpq_validate buf s vs = Some (v3, e2, n2).
Proof.
  intros Ow Os T H. unfold rdpq_validate in H.
  rewrite (validate_cmd_tex_rect buf w v Ow) in H.
  destruct (validate_tex_rect false w v) as [u|] eqn:V; [|discriminate].
  cbn [mbind option_bind] in H. assert (Hu : v1 = u) by congruence. subst u.
  unfold validate_tex_rect in V. cbv zeta in V.
  destruct (use_tile _ _ _) as [r|] eqn:U; [|discriminate].
  cbn [mbind option_bind] in V.
  destruct (use_tile_marks _ _ _ U) as (Ib & t0 & It).
  assert (R : rdp v1 = r) by (injection V as <-; reflexivity).
  rewrite <- R, <- T in Ib, It. clear V U R.
  destruct (validate_set_tile_counts s v1 true t0 Ib It) as (v2 & S2 & E2 & W2).
  set (vs := lift (set_busy_tile (replicate 8 false)) v1).
  assert (Ibs : index (busy_tile (rdp vs)) (BITS s 24 26) = Some false).
  { cbn [vs lift rdp set_rdp busy_tile set_busy_tile].
    pose proof (BITS_range s 24 26 ltac:(lia) ltac:(lia) ltac:(lia)) as Rg.
    change (2 ^ (26 - 24 + 1)) with 8 in Rg.
    destruct (index_Some (replicate 8 false) (BITS s 24 26)) as (x & -> & Lx).
    - rewrite length_replicate. lia.
    - apply lookup_replicate in Lx as [-> _]. reflexivity. }
  assert (Its : index (tile (rdp vs)) (BITS s 24 26) = Some t0) by exact It.
  destruct (validate_set_tile_counts s vs false t0 Ibs Its) as (v3 & S3 & E3 & W3).
  exists v2, (errs (rdp v2) - errs (rdp v1)), (warns (rdp v3) - warns (rdp vs)), vs, v3.
  unfold rdpq_validate.
  rewrite !(validate_cmd_set_tile buf s _ Os), validate_cmd_sync_tile, S2, S3.
  cbn [mbind option_bind]. fold vs.
  replace (errs (rdp vs)) with (errs (rdp v1)) in * by reflexivity.
  replace (warns (rdp vs)) with (warns (rdp v1)) in * by reflexivity.
  rewrite !Z.sub_diag.
  split; [|split; [reflexivity|]].
  - f_equal. f_equal. lia.
  - f_equal. f_equal. f_equal. lia.
Qed.

Lemma lazy_validate_rendermode_clears v :
  mode_changed (lazy_validate_rendermode v) = false.
Proof.
  unfold lazy_validate_rendermode.
  destruct (mode_changed v) eqn:M; cbn [negb]; [|exact M]. cbv zeta.
  repeat match goal with
         | |- context [if ?c then _ else _] => destruct c
         end; reflexivity.
Qed.

(** X11: The render mode is validated once per change: SET_OTHER_MODES and
    SET_COMBINE raise [mode_changed]; [lazy_validate_rendermode] lowers it,
    whatever path its checks take, so that calling it again, as the next
    drawing command does, counts no error or warning a second time. *)
Theorem lazy_validate_rendermode_once buf w v :
  mode_changed (lazy_validate_rendermode v) = false /\
  lazy_validate_rendermode (lazy_validate_rendermode v)
  = lazy_validate_rendermode v /\
  (BITS w 56 61 = 0x2F \/ BITS w 56 61 = 0x3C ->
   exists v' e n, rdpq_validate buf w v = Some (v', e, n) /\
                  mode_changed v' = true /\
                  mode_changed (lazy_validate_rendermode v') = false).
Proof.
  split; [apply lazy_validate_rendermode_clears|]. split.
  - unfold lazy_validate_rendermode at 1.
    now rewrite lazy_validate_rendermode_clears.
  - intros [C|C]; unfold rdpq_validate, validate_cmd; rewrite C;
      cbn [Z.eqb Pos.eqb orb andb mbind option_bind];
      eexists _, _, _; (split; [reflexivity|]);
      (split; [reflexivity|apply lazy_validate_rendermode_clears]).
Qed.

(** ** Configuration *)

Lemma testbit_uint8 x n :
  0 <= n -> Z.testbit (uint8_t x) n = (n <? 8) && Z.testbit x n.
Proof.
  intros Hn. unfold uint8_t. destruct (Z.ltb_spec n 8).
  - now rewrite Z.mod_pow2_bits_low.
  - now rewrite Z.mod_pow2_bits_high.
Qed.

(** X12: [rdpq_change_config (on, off)] returns the previous configuration
    and leaves, in the 8 bits that [rdpq_config] has, the bits that were
    set or are in [on], less those in [off]: a bit in both [on] and [off]
    ends up clear, and a bit of [on] above the eighth is dropped.  Setting
    the returned value again restores the state. *)
Theorem rdpq_change_config_bits on off s :
  0 <= rdpq_config s < 2 ^ 8 ->
  fst (rdpq_change_config on off s) = rdpq_get_config s /\
  (forall i, 0 <= i ->
     Z.testbit (rdpq_get_config (snd (rdpq_change_config on off s))) i
     = (i <? 8) && (Z.testbit (rdpq_config s) i || Z.testbit on i)
       && negb (Z.testbit off i)) /\
  rdpq_set_config (fst (rdpq_change_config on off s))
    (snd (rdpq_change_config on off s)) = s.
Proof.
  intros R. unfold rdpq_change_config, rdpq_get_config, rdpq_set_config. cbn [fst snd].
  split; [reflexivity|]. split.
  - intros i Hi. destruct s. rdpq_simpl.
    rewrite testbit_uint8, Z.land_spec, testbit_uint8, Z.lor_spec, testbit_uint32,
      Z.lnot_spec by lia.
    destruct (Z.ltb_spec i 8) as [L|L]; [|reflexivity].
    replace (i <? 32) with true by lia. reflexivity.
  - destruct s. rdpq_simpl. rdpq_simpl in R. unfold uint8_t.
    now rewrite Z.mod_small by lia.
Qed.

Lemma rdpq_change_config_bits_witness :
  fst (rdpq_change_config 0x104 0x5 sample_init) = 7 /\
  rdpq_get_config (snd (rdpq_change_config 0x104 0x5 sample_init)) = 2.
Proof.
  destruct (rdpq_change_config_bits 0x104 0x5 sample_init) as (A & _ & _).
  - vm_compute. split; [discriminate|reflexivity].
  - split; [exact A|reflexivity].
Defined.

(** ** The auto-sync engine across calls *)

Section AutosyncMore.
Context `{Hdr : Headers}.
Hypothesis sizeof_aligned : sizeof_rdpq_block_t mod 8 = 0.

Lemma sync_active (cmd mask : Z) s s' :
  wf s ->
  (s1 ← __rdpq_write8 cmd 0 0 s;
   Some (set_rdpq_autosync_state0
           (Z.land (rdpq_autosync_state0 s1) (uint32_t (Z.lnot mask))) s1))
  = Some s' ->
  rdpq_block_active s' = rdpq_block_active s.
Proof.
  intros W. unfold __rdpq_write8.
  destruct (rdpq_write_ok sizeof_aligned cmd 0 [0] s W eq_refl)
    as (s1 & -> & (E1 & E2 & E3 & E4 & E5) & W1).
  cbn [mbind option_bind]. intros [= <-]. destruct s1. exact E4.
Qed.

Lemma sync_if_active (c : bool) (cmd mask : Z) s s' :
  wf s ->
  (if c then
     s1 ← __rdpq_write8 cmd 0 0 s;
     Some (set_rdpq_autosync_state0
             (Z.land (rdpq_autosync_state0 s1) (uint32_t (Z.lnot mask))) s1)
   else Some s) = Some s' ->
  rdpq_block_active s' = rdpq_block_active s.
Proof.
  intros W. destruct c.
  - now apply sync_active.
  - now intros [= <-].
Qed.

(** What [autosync_change] does, as a [syncs] step. *)
Lemma autosync_change_ok res s :
  wf s ->
  exists s', autosync_change res s = Some s' /\
             syncs (sync_cmds res s) (sync_mask res s) s s' /\ wf s' /\
             rdpq_block_active s' = rdpq_block_active s.
Proof.
  intros W. unfold autosync_change, sync_cmds, sync_mask.
  set (tile := syncs_tile res s). set (load := syncs_load res s).
  set (pipe := syncs_pipe res s).
  destruct (Z.eqb_spec (Z.land res (rdpq_autosync_state0 s)) 0) as [Z0|NZ].
  - assert (tile = false /\ load = false /\ pipe = false) as (-> & -> & ->).
    { unfold tile, load, pipe, syncs_tile, syncs_load, syncs_pipe.
      rewrite Z0, !Z.land_0_l. auto. }
    exists s. cbn [app clear_if]. unfold syncs. rewrite app_nil_r. auto.
  - destruct (sync_if_ok tile rdpq_sync_tile RDPQ_CMD_SYNC_TILE AUTOSYNC_TILES
                (sync_ok sizeof_aligned RDPQ_CMD_SYNC_TILE AUTOSYNC_TILES) s W)
      as (s1 & E1 & S1 & W1).
    fold (syncs_tile res s). fold tile.
    unfold rdpq_sync_tile in E1 |- *. rewrite E1. cbn [mbind option_bind].
    pose proof (sync_if_active _ _ _ _ _ W E1) as A1.
    assert (C1 : rdpq_config s1 = rdpq_config s) by apply S1.
    destruct (sync_if_ok load rdpq_sync_load RDPQ_CMD_SYNC_LOAD AUTOSYNC_TMEMS
                (sync_ok sizeof_aligned RDPQ_CMD_SYNC_LOAD AUTOSYNC_TMEMS) s1 W1)
      as (s2 & E2 & S2 & W2).
    rewrite C1. fold (syncs_load res s). fold load.
    unfold rdpq_sync_load in E2 |- *. rewrite E2.
    cbn [mbind option_bind].
    pose proof (sync_if_active _ _ _ _ _ W1 E2) as A2.
    assert (C2 : rdpq_config s2 = rdpq_config s) by (rewrite <- C1; apply S2).
    destruct (sync_if_ok pipe rdpq_sync_pipe RDPQ_CMD_SYNC_PIPE AUTOSYNC_PIPE
                (sync_ok sizeof_aligned RDPQ_CMD_SYNC_PIPE AUTOSYNC_PIPE) s2 W2)
      as (s3 & E3 & S3 & W3).
    rewrite C2. fold (syncs_pipe res s). fold pipe.
    unfold rdpq_sync_pipe in E3 |- *. rewrite E3.
    pose proof (sync_if_active _ _ _ _ _ W2 E3) as A3.
    exists s3. split; [reflexivity|].
    pose proof (syncs_trans _ _ _ _ _ _ _ (syncs_trans _ _ _ _ _ _ _ S1 S2) S3)
      as S. rewrite <- app_assoc in S.
    split; [exact S|]. split; [exact W3|]. congruence.
Qed.

(** When no class is both hit and enabled, [autosync_change] does
    nothing. *)
Lemma autosync_change_none res s :
  syncs_tile res s = false -> syncs_load res s = false ->
  syncs_pipe res s = false -> autosync_change res s = Some s.
Proof.
  unfold syncs_tile, syncs_load, syncs_pipe, autosync_change.
  intros T L P. cbv zeta.
  destruct (Z.land res (rdpq_autosync_state0 s) =? 0); [reflexivity|].
  rewrite T. cbn [mbind option_bind]. rewrite L. cbn [mbind option_bind].
  rewrite P. reflexivity.
Qed.

(** The dirty bits of each class after the mask update. *)
Lemma sync_mask_classes (t l p : bool) st :
  autosync_classes_ok ->
  let st' := clear_if p AUTOSYNC_PIPE
               (clear_if l AUTOSYNC_TMEMS (clear_if t AUTOSYNC_TILES st)) in
  Z.land st' AUTOSYNC_TILES = (if t then 0 else Z.land st AUTOSYNC_TILES) /\
  Z.land st' AUTOSYNC_TMEMS = (if l then 0 else Z.land st AUTOSYNC_TMEMS) /\
  Z.land st' AUTOSYNC_PIPE = (if p then 0 else Z.land st AUTOSYNC_PIPE).
Proof.
  intros (RT & RM & RP & D1 & D2 & D3).
  assert (D1' : Z.land AUTOSYNC_TMEMS AUTOSYNC_TILES = 0) by now rewrite Z.land_comm.
  assert (D2' : Z.land AUTOSYNC_PIPE AUTOSYNC_TILES = 0) by now rewrite Z.land_comm.
  assert (D3' : Z.land AUTOSYNC_PIPE AUTOSYNC_TMEMS = 0) by now rewrite Z.land_comm.
  unfold clear_if.
  destruct t, l, p; cbv zeta;
    rewrite ?clear_class_self, ?clear_class_other, ?clear_class_self,
      ?clear_class_other, ?clear_class_self by assumption; auto.
Qed.

Lemma land3 a b c : Z.land (Z.land a b) c = Z.land a (Z.land b c).
Proof. now rewrite Z.land_assoc. Qed.

(** X13: [autosync_change] is idempotent: called again with the same
    resources, with nothing used in between, it emits no sync command and
    leaves the state as it is, whatever classes the configuration
    enables. *)
Theorem autosync_change_idempotent (res : Z) (s : rdpq) :
  autosync_classes_ok -> wf s ->
  exists s', autosync_change res s = Some s' /\
             autosync_change res s' = Some s'.
Proof.
  intros OK W.
  destruct (autosync_change_ok res s W) as (s' & E & (C & St & _) & _ & _).
  exists s'. split; [exact E|].
  unfold sync_mask in St.
  destruct (sync_mask_classes (syncs_tile res s) (syncs_load res s)
              (syncs_pipe res s) (rdpq_autosync_state0 s) OK) as (M1 & M2 & M3).
  rewrite <- St in M1, M2, M3.
  apply autosync_change_none; unfold syncs_tile, syncs_load, syncs_pipe;
    rewrite C, land3.
  - rewrite M1. unfold syncs_tile. rewrite land3.
    destruct (Z.land res (Z.land _ AUTOSYNC_TILES) =? 0) eqn:T; cbn [negb andb].
    + apply Z.eqb_eq in T. rewrite T. reflexivity.
    + destruct (Z.land (rdpq_config s) RDPQ_CFG_AUTOSYNCTILE =? 0); cbn [negb];
        [apply andb_false_r|now rewrite Z.land_0_r].
  - rewrite M2. unfold syncs_load. rewrite land3.
    destruct (Z.land res (Z.land _ AUTOSYNC_TMEMS) =? 0) eqn:T; cbn [negb andb].
    + apply Z.eqb_eq in T. rewrite T. reflexivity.
    + destruct (Z.land (rdpq_config s) RDPQ_CFG_AUTOSYNCLOAD =? 0); cbn [negb];
        [apply andb_false_r|now rewrite Z.land_0_r].
  - rewrite M3. unfold syncs_pipe. rewrite land3.
    destruct (Z.land res (Z.land _ AUTOSYNC_PIPE) =? 0) eqn:T; cbn [negb andb].
    + apply Z.eqb_eq in T. rewrite T. reflexivity.
    + destruct (Z.land (rdpq_config s) RDPQ_CFG_AUTOSYNCPIPE =? 0); cbn [negb];
        [apply andb_false_r|now rewrite Z.land_0_r].
Qed.
End AutosyncMore.

Section FixupFacts.
Context `{Hdr : Headers} `{DHdr : DrawHeaders}.
Hypothesis sizeof_aligned : sizeof_rdpq_block_t mod 8 = 0.

Lemma block_check_ok s :
  wf s -> rdpq_block_active s = true ->
  exists s1, __rdpq_block_check s = Some s1 /\ emits [] s s1 /\
             RDPQ_MAX_COMMAND_SIZE <= rdpq_block_size s1 /\
             rdpq_block_ptr s1 mod 8 = 0.
Proof.
  intros W A. destruct (W A) as [Hs Hp].
  unfold __rdpq_block_check. rewrite A. cbn [andb].
  destruct (Z.eqb_spec (rdpq_block s) NULL) as [E|E].
  - apply (next_buffer_ok sizeof_aligned), Hs.
  - exists s. split; [reflexivity|]. split; [apply emits_refl|]. auto.
Qed.

Lemma dynamic_write_ok cmd a0 args s :
  emits [(cmd, a0 :: args)] s (rdpq_dynamic_write cmd a0 args s) /\
  rdpq_block_size (rdpq_dynamic_write cmd a0 args s) = rdpq_block_size s /\
  rdpq_block_ptr (rdpq_dynamic_write cmd a0 args s) = rdpq_block_ptr s /\
  rdpq_block (rdpq_dynamic_write cmd a0 args s) = rdpq_block s.
Proof.
  unfold rdpq_dynamic_write.
  match goal with
  | |- context [rspq_write ?o ?c ?a ?l ?t] =>
      destruct (rspq_write_frame o c a l t) as (m & p & ->)
  end.
  unfold emits. destruct s. rdpq_simpl. auto 10.
Qed.

Lemma static_skip_ok size s :
  RDPQ_MAX_COMMAND_SIZE <= rdpq_block_size s ->
  rdpq_block_ptr s mod 8 = 0 -> (4 * size) mod 8 = 0 ->
  exists s', rdpq_static_skip size s = Some s' /\ emits [] s s' /\
             RDPQ_MAX_COMMAND_SIZE <= rdpq_block_size s' /\
             rdpq_block_ptr s' mod 8 = 0.
Proof.
  intros Hs Hp Hl. unfold rdpq_static_skip.
  assert (Hp' : (rdpq_block_ptr s + 4 * size) mod 8 = 0)
    by (rewrite Z.add_mod, Hp, Hl by lia; reflexivity).
  destruct s as [bp be ba cfg st0 st1 blk first sz last cur m0 bl hp top em].
  rdpq_simpl. rdpq_simpl in Hs. rdpq_simpl in Hp'.
  destruct (be <? _).
  - match goal with
    | |- context [__rdpq_block_next_buffer ?t] =>
        destruct (next_buffer_ok sizeof_aligned t Hs) as (s' & -> & E & Hs' & Hp'')
    end.
    exists s'. split; [reflexivity|]. split; [|auto].
    unfold emits in *. rdpq_simpl in E. rdpq_simpl. exact E.
  - eexists. split; [reflexivity|]. unfold emits. rdpq_simpl.
    rewrite app_nil_r. auto 10.
Qed.

Lemma wf_intro s :
  RDPQ_MAX_COMMAND_SIZE <= rdpq_block_size s -> rdpq_block_ptr s mod 8 = 0 -> wf s.
Proof. intros A B _. auto. Qed.

(** A command with a fixup: while recording, the fixup variant goes to
    the queue and the block skips [skip_size] words. *)
Lemma fixup_write_ok dyn fx skip a0 args s :
  wf s -> (4 * skip) mod 8 = 0 ->
  exists s', rdpq_fixup_write dyn fx skip a0 args s = Some s' /\
             emits [(if rdpq_block_active s then fx else dyn, a0 :: args)] s s' /\
             wf s'.
Proof.
  intros W Hk. unfold rdpq_fixup_write, in_block.
  destruct (rdpq_block_active s) eqn:A.
  - destruct (block_check_ok s W A) as (s1 & -> & E1 & Hs1 & Hp1).
    cbn [mbind option_bind].
    destruct (dynamic_write_ok fx a0 args s1) as (E2 & Z2 & P2 & _).
    destruct (static_skip_ok skip (rdpq_dynamic_write fx a0 args s1))
      as (s' & -> & E3 & Hs' & Hp'); try congruence.
    exists s'. split; [reflexivity|]. split; [|now apply wf_intro].
    apply (emits_trans [] _ _ _ _ E1).
    rewrite <- (app_nil_r [_]). apply (emits_trans _ _ _ _ _ E2 E3).
  - eexists. split; [reflexivity|].
    destruct (dynamic_write_ok dyn a0 args s) as (E2 & _).
    split; [exact E2|].
    intros B. destruct E2 as (_ & _ & _ & E & _). congruence.
Qed.

Lemma set_other_modes_write_ok w0 w1 s :
  wf s ->
  exists s',
    (if in_block s then
       s ← __rdpq_block_check s;
       s ← rdpq_static_write RDPQ_CMD_SET_OTHER_MODES w0 [w1] s;
       rdpq_static_skip 2 (rdpq_dynamic_write RDPQ_CMD_SET_OTHER_MODES_FIX w0 [w1] s)
     else Some (rdpq_dynamic_write RDPQ_CMD_SET_OTHER_MODES w0 [w1] s)) = Some s' /\
    emits (pipe_change_cmds (SetOtherModes w0 w1) (rdpq_block_active s)) s s' /\
    wf s'.
Proof.
  intros W. unfold in_block. cbn [pipe_change_cmds].
  destruct (rdpq_block_active s) eqn:A.
  - destruct (block_check_ok s W A) as (s1 & -> & E1 & Hs1 & Hp1).
    cbn [mbind option_bind].
    destruct (static_write_ok sizeof_aligned RDPQ_CMD_SET_OTHER_MODES w0 [w1] s1
                Hs1 Hp1 eq_refl) as (s2 & -> & E2 & Hs2 & Hp2).
    cbn [mbind option_bind].
    destruct (dynamic_write_ok RDPQ_CMD_SET_OTHER_MODES_FIX w0 [w1] s2)
      as (E3 & Z3 & P3 & _).
    destruct (static_skip_ok 2 (rdpq_dynamic_write RDPQ_CMD_SET_OTHER_MODES_FIX w0 [w1] s2))
      as (s' & -> & E4 & Hs' & Hp'); try congruence; try reflexivity.
    exists s'. split; [reflexivity|]. split; [|now apply wf_intro].
    apply (emits_trans [] _ _ _ _ E1).
    apply (emits_trans [_] [_] _ _ _ E2).
    rewrite <- (app_nil_r [_]). apply (emits_trans _ _ _ _ _ E3 E4).
  - eexists. split; [reflexivity|].
    destruct (dynamic_write_ok RDPQ_CMD_SET_OTHER_MODES w0 [w1] s) as (E2 & _).
    split; [exact E2|].
    intros B. destruct E2 as (_ & _ & _ & E & _). congruence.
Qed.

(** A pipe change after [autosync_change AUTOSYNC_PIPE] has run. *)
Lemma pipe_change_write_ok c s :
  wf s ->
  exists s',
    (match c with
     | SetFillColor w1 =>
         rdpq_fixup_write8 RDPQ_CMD_SET_FILL_COLOR_32
           RDPQ_CMD_SET_FILL_COLOR_32_FIX 2 0 w1 s
     | SetFixupImage d f w0 w1 => rdpq_fixup_write8 d f 2 w0 w1 s
     | SetColorImage w0 w1 =>
         rdpq_fixup_write8 RDPQ_CMD_SET_COLOR_IMAGE
           RDPQ_CMD_SET_COLOR_IMAGE_FIX 4 w0 w1 s
     | SetOtherModes w0 w1 =>
         if in_block s then
           s ← __rdpq_block_check s;
           s ← rdpq_static_write RDPQ_CMD_SET_OTHER_MODES w0 [w1] s;
           rdpq_static_skip 2
             (rdpq_dynamic_write RDPQ_CMD_SET_OTHER_MODES_FIX w0 [w1] s)
         else Some (rdpq_dynamic_write RDPQ_CMD_SET_OTHER_MODES w0 [w1] s)
     | ModifyOtherModes w0 w1 w2 =>
         rdpq_fixup_write RDPQ_CMD_MODIFY_OTHER_MODES
           RDPQ_CMD_MODIFY_OTHER_MODES_FIX 4 w0 [w1; w2] s
     end) = Some s' /\
    emits (pipe_change_cmds c (rdpq_block_active s)) s s' /\ wf s'.
Proof.
  intros W. destruct c; cbn [pipe_change_cmds]; unfold rdpq_fixup_write8;
    try (apply fixup_write_ok; [exact W|reflexivity]).
  apply set_other_modes_write_ok, W.
Qed.

(** Every pipe change is [autosync_change AUTOSYNC_PIPE] followed by its
    write: the sync commands come first. *)
Lemma run_pipe_change_ok c s :
  wf s ->
  exists s',
    run_pipe_change c s = Some s' /\
    rdpq_config s' = rdpq_config s /\
    rdpq_block_active s' = rdpq_block_active s /\
    rdpq_autosync_state0 s'
    = sync_mask AUTOSYNC_PIPE s (rdpq_autosync_state0 s) /\
    emitted s' = emitted s ++ sync_cmds AUTOSYNC_PIPE s
                   ++ pipe_change_cmds c (rdpq_block_active s) /\
    wf s'.
Proof.
  intros W.
  destruct (autosync_change_ok sizeof_aligned AUTOSYNC_PIPE s W)
    as (s1 & E1 & (C1 & St1 & Em1) & W1 & A1).
  destruct (pipe_change_write_ok c s1 W1) as (s' & E2 & (C & St & _ & A & Em) & W').
  exists s'. split.
  - destruct c; cbn [run_pipe_change];
      unfold __rdpq_set_fill_color, __rdpq_set_fixup_image, __rdpq_set_color_image,
        __rdpq_set_other_modes, __rdpq_modify_other_modes;
      rewrite E1; cbn [mbind option_bind]; exact E2.
  - rewrite C, A, St, Em, C1, A1, St1, Em1, <- app_assoc. auto 10.
Qed.

End FixupFacts.

Section SyncTheorems.
Context `{Hdr : Headers} `{DHdr : DrawHeaders}.
Hypothesis sizeof_aligned : sizeof_rdpq_block_t mod 8 = 0.

(** [rdpq_sync_full] on the log of emitted commands and on the dirty
    mask. *)
Lemma rdpq_sync_full_ok (callback arg : Z) (s : rdpq) :
  wf s ->
  exists s',
    rdpq_sync_full callback arg s = Some s' /\
    emitted s'
    = emitted s
      ++ (if rdpq_block_active s
          then [(RDPQ_CMD_SYNC_FULL_FIX, [PhysicalAddr callback; uint32_t arg]);
                (RDPQ_CMD_SYNC_FULL, [PhysicalAddr callback; uint32_t arg])]
          else [(RDPQ_CMD_SYNC_FULL, [PhysicalAddr callback; uint32_t arg])]) /\
    rdpq_autosync_state0 s' = 0 /\
    forall res, autosync_change res s' = Some s'.
Proof.
  intros W.
  assert (K : forall t, rdpq_autosync_state0 t = 0 ->
                forall res, autosync_change res t = Some t).
  { intros t Z0 res. unfold autosync_change. now rewrite Z0, Z.land_0_r. }
  unfold rdpq_sync_full, in_block.
  destruct (rdpq_block_active s) eqn:A.
  - destruct (block_check_ok sizeof_aligned s W A) as (s1 & -> & E1 & Hs1 & Hp1).
    cbn [mbind option_bind].
    set (w0 := PhysicalAddr callback). set (w1 := uint32_t arg).
    destruct (dynamic_write_ok RDPQ_CMD_SYNC_FULL_FIX w0 [w1] s1)
      as (E2 & Z2 & P2 & _).
    destruct (static_write_ok sizeof_aligned RDPQ_CMD_SYNC_FULL w0 [w1]
                (rdpq_dynamic_write RDPQ_CMD_SYNC_FULL_FIX w0 [w1] s1))
      as (s3 & -> & E3 & _); try congruence; try reflexivity.
    cbn [mbind option_bind]. eexists. split; [reflexivity|].
    pose proof (emits_trans _ _ _ _ _ E1 (emits_trans _ _ _ _ _ E2 E3))
      as (_ & _ & _ & _ & Em).
    destruct s3. rdpq_simpl. rdpq_simpl in Em. split; [exact Em|].
    split; [reflexivity|]. now apply K.
  - cbn [mbind option_bind]. eexists. split; [reflexivity|].
    destruct (dynamic_write_ok RDPQ_CMD_SYNC_FULL (PhysicalAddr callback)
                [uint32_t arg] s) as ((_ & _ & _ & _ & Em) & _).
    destruct (rdpq_dynamic_write _ _ _ s). rdpq_simpl. rdpq_simpl in Em.
    split; [exact Em|]. split; [reflexivity|]. now apply K.
Qed.

(** A textured rectangle and two pipe changes, on the log of emitted
    commands and on the dirty mask. *)
Lemma pipe_change_after_draw_ok (w0 w1 w2 w3 : Z) (c c' : pipe_change) (s : rdpq) :
  autosync_classes_ok -> wf s ->
  AUTOSYNC_PIPE <> 0 ->
  Z.land (rdpq_config s) RDPQ_CFG_AUTOSYNCPIPE <> 0 ->
  exists s1 s2 s3,
    __rdpq_texture_rectangle w0 w1 w2 w3 s = Some s1 /\
    run_pipe_change c s1 = Some s2 /\
    run_pipe_change c' s2 = Some s3 /\
    wf s1 /\
    sync_cmds AUTOSYNC_PIPE s1 = [(RDPQ_CMD_SYNC_PIPE, [0; 0])] /\
    sync_cmds AUTOSYNC_PIPE s2 = [] /\
    emitted s2 = emitted s1 ++ (RDPQ_CMD_SYNC_PIPE, [0; 0])
                   :: pipe_change_cmds c (rdpq_block_active s) /\
    emitted s3 = emitted s2 ++ pipe_change_cmds c' (rdpq_block_active s) /\
    forall x0 x1, exists t,
      __rdpq_set_scissor x0 x1 s1 = Some t /\
      emitted t = emitted s1
                  ++ [(if rdpq_block_active s then RDPQ_CMD_SET_SCISSOR_EX_FIX
                       else RDPQ_CMD_SET_SCISSOR_EX, [x0; x1])] /\
      rdpq_autosync_state0 t = rdpq_autosync_state0 s1.
Proof.
  intros OK W NZ CF.
  pose proof OK as (RT & RM & RP & D1 & D2 & D3).
  unfold __rdpq_texture_rectangle.
  set (u := Z.lor (Z.lor AUTOSYNC_PIPE _) _).
  assert (Wu : wf (autosync_use u s)) by (destruct s; exact W).
  destruct (fixup_write_ok sizeof_aligned RDPQ_CMD_TEXTURE_RECTANGLE_EX
              RDPQ_CMD_TEXTURE_RECTANGLE_EX_FIX 4 w0 [w1; w2; w3]
              (autosync_use u s) Wu eq_refl)
    as (s1 & E1 & (C1 & St1 & _ & A1 & Em1) & W1).
  assert (Au : rdpq_block_active (autosync_use u s) = rdpq_block_active s)
    by now destruct s.
  assert (Cu : rdpq_config (autosync_use u s) = rdpq_config s) by now destruct s.
  assert (Su : rdpq_autosync_state0 (autosync_use u s)
               = Z.lor (rdpq_autosync_state0 s) u) by now destruct s.
  rewrite Au in A1. rewrite Cu in C1. rewrite Su in St1.
  assert (Hit : Z.land AUTOSYNC_PIPE (rdpq_autosync_state0 s1) = AUTOSYNC_PIPE).
  { rewrite St1. unfold u. apply Z.bits_inj'. intros n _.
    rewrite Z.land_spec, !Z.lor_spec. destruct (Z.testbit AUTOSYNC_PIPE n); cbn;
      [|reflexivity]. now rewrite !orb_true_r. }
  assert (P1 : syncs_pipe AUTOSYNC_PIPE s1 = true).
  { unfold syncs_pipe. rewrite Hit, Z.land_diag, C1.
    apply andb_true_iff. split; apply negb_true_iff, Z.eqb_neq; assumption. }
  assert (T1 : syncs_tile AUTOSYNC_PIPE s1 = false).
  { unfold syncs_tile. rewrite Hit, (Z.land_comm AUTOSYNC_PIPE), D2. reflexivity. }
  assert (L1 : syncs_load AUTOSYNC_PIPE s1 = false).
  { unfold syncs_load. rewrite Hit, (Z.land_comm AUTOSYNC_PIPE), D3. reflexivity. }
  destruct (run_pipe_change_ok sizeof_aligned c s1 W1)
    as (s2 & E2 & C2 & A2 & St2 & Em2 & W2).
  assert (SC1 : sync_cmds AUTOSYNC_PIPE s1 = [(RDPQ_CMD_SYNC_PIPE, [0; 0])])
    by (unfold sync_cmds; rewrite P1, T1, L1; reflexivity).
  unfold sync_cmds, sync_mask in St2, Em2. rewrite P1, T1, L1 in St2, Em2.
  cbn [app clear_if] in St2, Em2.
  destruct (run_pipe_change_ok sizeof_aligned c' s2 W2)
    as (s3 & E3 & C3 & A3 & St3 & Em3 & W3).
  assert (Hit2 : Z.land AUTOSYNC_PIPE (rdpq_autosync_state0 s2) = 0).
  { rewrite St2, Z.land_comm. apply clear_class_self. }
  assert (P2 : syncs_pipe AUTOSYNC_PIPE s2 = false)
    by (unfold syncs_pipe; rewrite Hit2; reflexivity).
  assert (T2 : syncs_tile AUTOSYNC_PIPE s2 = false)
    by (unfold syncs_tile; rewrite Hit2; reflexivity).
  assert (L2 : syncs_load AUTOSYNC_PIPE s2 = false)
    by (unfold syncs_load; rewrite Hit2; reflexivity).
  assert (SC2 : sync_cmds AUTOSYNC_PIPE s2 = [])
    by (unfold sync_cmds; rewrite P2, T2, L2; reflexivity).
  unfold sync_cmds in Em3. rewrite P2, T2, L2 in Em3. cbn [app] in Em3.
  exists s1, s2, s3. rewrite <- A1. rewrite A2 in Em3.
  split; [exact E1|]. split; [exact E2|]. split; [exact E3|].
  split; [exact W1|]. split; [exact SC1|]. split; [exact SC2|].
  split; [exact Em2|]. split; [exact Em3|].
  intros x0 x1. unfold __rdpq_set_scissor, rdpq_fixup_write8.
  destruct (fixup_write_ok sizeof_aligned RDPQ_CMD_SET_SCISSOR_EX
              RDPQ_CMD_SET_SCISSOR_EX_FIX 2 x0 [x1] s1 W1 eq_refl)
    as (t & Et & (_ & Stt & _ & _ & Emt) & _).
  exists t. auto.
Qed.

End SyncTheorems.

(** ** Block recorder: chains of buffers *)

Lemma free_all_delete {A} x l (m : gmap Z A) :
  free_all l (delete x m) = delete x (free_all l m).
Proof.
  induction l as [|y l IH]; [reflexivity|].
  unfold free_all in *. cbn [foldr]. rewrite IH. apply delete_delete.
Qed.

Lemma free_all_app {A} l1 l2 (m : gmap Z A) :
  free_all (l1 ++ l2) m = free_all l1 (free_all l2 m).
Proof. unfold free_all. apply foldr_app. Qed.

Lemma free_all_alter {A} (f : A -> A) x l (m : gmap Z A) :
  x ∈ l -> free_all l (alter f x m) = free_all l m.
Proof.
  induction l as [|y l IH]; intros Hx; [now apply elem_of_nil in Hx|].
  change (free_all (y :: l) ?m) with (delete y (free_all l m)).
  destruct (decide (x = y)) as [->|N].
  - rewrite <- !free_all_delete. now rewrite delete_alter_eq.
  - apply elem_of_cons in Hx as [?|Hx]; [contradiction|]. now rewrite IH.
Qed.

Lemma free_all_lookup {A} x l (m : gmap Z A) :
  x ∉ l -> free_all l m !! x = m !! x.
Proof.
  induction l as [|y l IH]; intros Hx; [reflexivity|].
  change (free_all (y :: l) m) with (delete y (free_all l m)).
  apply not_elem_of_cons in Hx as [N Hx].
  rewrite lookup_delete_ne by congruence. now apply IH.
Qed.

Lemma chain_functional bl b l1 l2 : chain bl b l1 -> chain bl b l2 -> l1 = l2.
Proof.
  revert b l2. induction l1 as [|x l1 IH]; intros b [|y l2]; cbn [chain].
  - reflexivity.
  - intros -> (E & N & _). congruence.
  - intros (E & N & _) ->. congruence.
  - intros (-> & _ & h & Hh & C1) (-> & _ & h' & Hh' & C2).
    assert (h' = h) by congruence. subst h'. f_equal. eapply IH; eassumption.
Qed.

Lemma chain_suffix bl b u x t : chain bl b (u ++ x :: t) -> chain bl x (x :: t).
Proof.
  revert b. induction u as [|y u IH]; intros b; cbn [app chain].
  - intros (-> & N & H). auto.
  - intros (_ & _ & h & _ & C). eapply IH, C.
Qed.

Lemma chain_NoDup bl b l : chain bl b l -> NoDup l.
Proof.
  revert b. induction l as [|x l IH]; intros b C; [constructor|].
  pose proof C as (-> & N & h & Hh & C'). constructor; [|eapply IH, C'].
  intros Hx. apply list_elem_of_split in Hx as (u & t & ->).
  pose proof (chain_suffix _ _ _ _ _ C') as C2.
  pose proof (chain_functional _ _ _ _ C C2) as E.
  apply (f_equal length) in E. cbn [length] in E. rewrite length_app in E.
  cbn [length] in E. lia.
Qed.

Lemma chain_live bl b l x : chain bl b l -> x ∈ l -> x <> NULL /\ is_Some (bl !! x).
Proof.
  revert b. induction l as [|y l IH]; intros b C Hx; [now apply elem_of_nil in Hx|].
  destruct C as (-> & N & h & Hh & C').
  apply elem_of_cons in Hx as [->|Hx]; [split; [exact N|eauto]|].
  eapply IH; eassumption.
Qed.

Lemma chain_length bl b l : chain bl b l -> (length l <= size bl)%nat.
Proof.
  revert bl b. induction l as [|x l IH]; intros bl b C; [cbn; lia|].
  pose proof (chain_NoDup _ _ _ C) as ND. apply NoDup_cons in ND as [Nx _].
  destruct C as (-> & N & h & Hh & C').
  assert (C2 : chain (delete x bl) (next h) l).
  { clear IH Hh. revert C' Nx. generalize (next h). induction l as [|y l IH];
      intros b C Nx; [exact C|].
    apply not_elem_of_cons in Nx as [Ny Nx].
    destruct C as (-> & N' & h' & Hh' & C'). split; [reflexivity|].
    split; [exact N'|]. exists h'. rewrite lookup_delete_ne by congruence. auto. }
  apply IH in C2. rewrite map_size_delete_Some in C2 by eauto.
  assert (size bl <> 0%nat).
  { intros Z0. apply map_size_empty_iff in Z0. subst bl.
    now rewrite lookup_empty in Hh. }
  cbn [length]. lia.
Qed.

Lemma chain_delete bl x b l :
  chain bl b l -> x ∉ l -> chain (delete x bl) b l.
Proof.
  revert b. induction l as [|y l IH]; intros b C Nx; [exact C|].
  apply not_elem_of_cons in Nx as [Ny Nx].
  destruct C as (-> & N' & h' & Hh' & C'). split; [reflexivity|].
  split; [exact N'|]. exists h'. rewrite lookup_delete_ne by congruence. auto.
Qed.

(** Changing a header without changing its link keeps the chain. *)
Lemma chain_alter bl (f : rdpq_block_t -> rdpq_block_t) x b l :
  (forall h, next (f h) = next h) ->
  chain bl b l -> chain (alter f x bl) b l.
Proof.
  intros Hf. revert b. induction l as [|y l IH]; intros b C; [exact C|].
  destruct C as (-> & N' & h' & Hh' & C'). split; [reflexivity|].
  split; [exact N'|].
  destruct (decide (x = y)) as [->|Ne].
  - exists (f h'). rewrite lookup_alter_eq, Hh'. split; [reflexivity|].
    rewrite Hf. auto.
  - exists h'. rewrite lookup_alter_ne by congruence. auto.
Qed.

(** Linking a fresh buffer [b] after the last one extends the chain. *)
Lemma chain_snoc bl h0 blk b x l :
  chain bl x l -> last l = Some blk -> b ∉ l -> b <> NULL -> next h0 = NULL ->
  chain (alter (set_next b) blk (<[b := h0]> bl)) x (l ++ [b]).
Proof.
  intros C. pose proof (chain_NoDup _ _ _ C) as ND. revert x C ND.
  induction l as [|y l IH]; intros x C ND L Nb NN H0; [discriminate|].
  apply NoDup_cons in ND as [Ny ND].
  apply not_elem_of_cons in Nb as [Nby Nb].
  destruct C as (-> & N' & h' & Hh' & C'). cbn [app chain].
  split; [reflexivity|]. split; [exact N'|].
  destruct l as [|z l].
  - cbn in L. injection L as <-. cbn [chain] in C'.
    exists (set_next b h'). rewrite lookup_alter_eq, lookup_insert_ne, Hh' by congruence.
    split; [reflexivity|]. cbn [set_next next app chain].
    split; [reflexivity|]. split; [exact NN|]. exists h0.
    rewrite lookup_alter_ne, lookup_insert_eq by congruence. auto.
  - assert (L' : last (z :: l) = Some blk) by exact L.
    assert (y <> blk).
    { intros ->. apply Ny. now apply last_Some_elem_of. }
    exists h'. rewrite lookup_alter_ne, lookup_insert_ne, Hh' by congruence.
    split; [reflexivity|]. apply IH; auto.
Qed.

Lemma free_all_lookup_in {A} x l (m : gmap Z A) :
  x ∈ l -> free_all l m !! x = None.
Proof.
  induction l as [|y l IH]; intros Hx; [now apply elem_of_nil in Hx|].
  change (free_all (y :: l) m) with (delete y (free_all l m)).
  destruct (decide (x = y)) as [->|N]; [apply lookup_delete_eq|].
  rewrite lookup_delete_ne by congruence.
  apply elem_of_cons in Hx as [?|Hx]; [contradiction|]. now apply IH.
Qed.

Lemma block_free_loop_chain fuel b l s :
  chain (blocks s) b l -> (length l <= fuel)%nat ->
  block_free_loop fuel b s
  = Some (set_blocks (free_all l (blocks s))
            (set_heap (free_all l (heap s)) (heap_top s) s)).
Proof.
  revert fuel b s. induction l as [|x l IH]; intros fuel b s C L.
  - cbn [chain] in C. subst b. destruct fuel; cbn; now destruct s.
  - pose proof (chain_NoDup _ _ _ C) as ND. apply NoDup_cons in ND as [Nx _].
    destruct C as (-> & N & h & Hh & C').
    destruct fuel as [|fuel]; [cbn in L; lia|]. cbn [block_free_loop].
    destruct (Z.eqb_spec x NULL) as [?|_]; [contradiction|].
    rewrite Hh. cbn [mbind option_bind].
    rewrite (IH fuel (next h) (free_uncached x s)).
    + unfold free_uncached. destruct s. rdpq_simpl.
      now rewrite !free_all_delete.
    + unfold free_uncached. destruct s. rdpq_simpl. rdpq_simpl in C'.
      now apply chain_delete.
    + cbn in L. lia.
Qed.

(** X16: [__rdpq_block_free] on the head of a chain of buffers releases
    exactly these buffers, header and allocation, and touches nothing
    else; freeing the same block again reads a released header, which is
    undefined. *)
Theorem block_free_releases_chain (b : Z) (l : list Z) (s : rdpq) :
  chain (blocks s) b l ->
  exists s',
    __rdpq_block_free b s = Some s' /\
    s' = set_blocks (free_all l (blocks s))
           (set_heap (free_all l (heap s)) (heap_top s) s) /\
    (forall x, x ∈ l -> heap s' !! x = None /\ blocks s' !! x = None) /\
    (forall x, x ∉ l -> heap s' !! x = heap s !! x /\
                        blocks s' !! x = blocks s !! x) /\
    (b <> NULL -> __rdpq_block_free b s' = None).
Proof.
  intros C. eexists. split; [|split; [reflexivity|]].
  - unfold __rdpq_block_free. apply block_free_loop_chain; [exact C|].
    apply chain_length in C. lia.
  - destruct s as [bp be ba cfg st0 st1 blk first sz last cur m0 bl hp top em].
    rdpq_simpl. rdpq_simpl in C. split; [|split].
    + intros x Hx. split; now apply free_all_lookup_in.
    + intros x Hx. split; now apply free_all_lookup.
    + intros N. destruct l as [|x l]; [contradiction|].
      destruct C as (-> & _ & _). unfold __rdpq_block_free. cbn [block_free_loop].
      destruct (Z.eqb_spec x NULL) as [?|_]; [contradiction|]. rdpq_simpl.
      rewrite free_all_lookup_in by constructor. reflexivity.
Qed.

(** ** Block recorder: memory safety *)

Lemma load_store_words_out a p ws s :
  ~ (p <= a < p + 4 * Z.of_nat (length ws)) ->
  load a (store_words p ws s) = load a s.
Proof.
  revert p s. induction ws as [|w ws IH]; intros p s N; cbn [store_words];
    [reflexivity|].
  cbn [length] in N. rewrite IH by lia. apply load_store_ne. lia.
Qed.

Lemma align16 x : x <= (x + 15) / 16 * 16 < x + 16 /\ ((x + 15) / 16 * 16) mod 16 = 0.
Proof.
  split; [|apply Z.mod_mul; lia].
  pose proof (Z.div_mod (x + 15) 16 ltac:(lia)).
  pose proof (Z.mod_pos_bound (x + 15) 16 ltac:(lia)). lia.
Qed.

Section RecorderFacts.
Context `{Hdr : Headers}.
Hypothesis sizeof_aligned : sizeof_rdpq_block_t mod 8 = 0.
Hypothesis sizeof_nonneg : 0 <= sizeof_rdpq_block_t.

Lemma touches_refl P s : touches P s s.
Proof. unfold touches. split; [lia|]. auto. Qed.

Lemma touches_trans P s1 s2 s3 :
  touches P s1 s2 -> touches P s2 s3 -> touches P s1 s3.
Proof.
  unfold touches, in_queue. intros (A1 & A2 & A3) (B1 & B2 & B3).
  split; [lia|]. split; [lia|].
  intros x Q NP. rewrite B3, A3; auto; lia.
Qed.

Lemma touches_weaken (P P' : Z -> Prop) s s' :
  (forall x, P x -> P' x) -> touches P s s' -> touches P' s s'.
Proof.
  unfold touches. intros H (A1 & A2 & A3). split; [exact A1|]. split; [exact A2|].
  intros x Q NP. apply A3; auto.
Qed.

(** [__rdpq_block_flush] writes the queue only: the last submit
    instruction or two words at the cursor. *)
Lemma flush_touch a b s :
  a mod 8 = 0 -> b mod 8 = 0 ->
  exists m p l,
    __rdpq_block_flush a b s
    = Some (set_last_rdp_cmd l (set_rspq_cur_pointer p (set_mem m s))) /\
    rspq_cur_pointer s <= p /\
    (l = last_rdp_cmd s \/ rspq_cur_pointer s <= l < p) /\
    forall x, x <> last_rdp_cmd s -> ~ (rspq_cur_pointer s <= x < p) ->
              default 0 (m !! x) = load x s.
Proof.
  intros Ha Hb. unfold __rdpq_block_flush.
  rewrite !land7_mod, Ha, Hb. cbn [Z.eqb negb].
  destruct (_ && _).
  - exists (<[last_rdp_cmd s := uint32_t (Z.lor (Z.shiftl RSPQ_CMD_RDP 24) (PhysicalAddr b))]> (mem s)),
      (rspq_cur_pointer s), (last_rdp_cmd s).
    split; [now destruct s|]. split; [lia|]. split; [now left|].
    intros x N _. unfold load. now rewrite lookup_insert_ne.
  - unfold rspq_int_write, rspq_write. cbn [store_words map length].
    destruct s as [bp be ba cfg st0 st1 blk first sz last cur m0 bl hp top em].
    rdpq_simpl. unfold load. rdpq_simpl.
    change (4 * (1 + Z.of_nat 1)) with 8.
    exists (<[cur + 4 := uint32_t (PhysicalAddr a)]>
              (<[cur := uint32_t (Z.lor (0 + Z.shiftl RSPQ_CMD_RDP 24) (PhysicalAddr b))]> m0)),
      (cur + 8), cur.
    split; [reflexivity|]. split; [lia|]. split; [right; lia|].
    intros x _ N. rewrite !lookup_insert_ne by lia. reflexivity.
Qed.

(** What [__rdpq_block_next_buffer] does to the recorder. *)
Lemma next_buffer_spec s :
  RDPQ_MAX_COMMAND_SIZE <= rdpq_block_size s ->
  let b := (heap_top s + 15) / 16 * 16 in
  exists s',
    __rdpq_block_next_buffer s = Some s' /\
    rdpq_block_active s' = rdpq_block_active s /\
    rdpq_block s' = b /\
    rdpq_block_first s'
    = (if rdpq_block_first s =? NULL then b else rdpq_block_first s) /\
    rdpq_block_size s' = grow (rdpq_block_size s) /\
    blocks s' = (if rdpq_block s =? NULL then <[b := hdr0]> (blocks s)
                 else alter (set_next b) (rdpq_block s) (<[b := hdr0]> (blocks s))) /\
    heap s' = <[b := sizeof_rdpq_block_t + rdpq_block_size s * 4]> (heap s) /\
    heap_top s' = b + (sizeof_rdpq_block_t + rdpq_block_size s * 4) /\
    rdpq_block_ptr s' = b + sizeof_rdpq_block_t /\
    rdpq_block_end s'
    = b + sizeof_rdpq_block_t + 4 * (rdpq_block_size s - RDPQ_MAX_COMMAND_SIZE) /\
    touches (fun _ => False) s s'.
Proof.
  intros Hs b. unfold __rdpq_block_next_buffer, malloc_uncached. fold b.
  assert (Hb : (b + sizeof_rdpq_block_t) mod 8 = 0).
  { unfold b. rewrite Z.add_mod, sizeof_aligned, Z.add_0_r, Z.mod_mod by lia.
    replace ((heap_top s + 15) / 16 * 16) with ((heap_top s + 15) / 16 * 2 * 8) by lia.
    apply Z.mod_mul. lia. }
  clearbody b.
  destruct s as [bp be ba cfg st0 st1 blk first sz last cur m0 bl hp top em].
  rdpq_simpl. rdpq_simpl in Hs.
  unfold __rdpq_block_switch_buffer, grow, hdr0.
  destruct (blk =? NULL); rdpq_simpl; destruct (first =? NULL); rdpq_simpl;
    rewrite (proj2 (Z.leb_le _ _) Hs); cbn [negb];
    match goal with
    | |- context [__rdpq_block_flush ?x ?y ?t] =>
        destruct (flush_touch x y t Hb Hb) as (m & p & l & -> & T1 & T2 & T3)
    end; cbn [mbind option_bind]; rdpq_simpl; rdpq_simpl in T1; rdpq_simpl in T2;
    unfold load in T3; rdpq_simpl in T3;
    (eexists; split; [reflexivity|]);
    destruct (_ <? RDPQ_BLOCK_MAX_SIZE); rdpq_simpl;
    (repeat (split; [reflexivity|])); unfold touches, in_queue, load; rdpq_simpl;
    (split; [exact T1|]); (split; [exact T2|]); intros x Q _; apply T3; lia.
Qed.

End RecorderFacts.

Section RecorderSteps.
Context `{Hdr : Headers}.
Hypothesis sizeof_aligned : sizeof_rdpq_block_t mod 8 = 0.
Hypothesis sizeof_nonneg : 0 <= sizeof_rdpq_block_t.

Lemma recording_core_view h0 b0 l s s' :
  recorder_view s' = recorder_view s ->
  recording_core h0 b0 l s -> recording_core h0 b0 l s'.
Proof.
  unfold recorder_view, recording_core, heap_ok. intros [= -> -> -> -> -> -> ->].
  auto.
Qed.

(** A new buffer extends the recording by one buffer, fresh and linked
    last. *)
Lemma next_buffer_recording h0 b0 l s :
  recording_core h0 b0 l s ->
  exists s',
    __rdpq_block_next_buffer s = Some s' /\
    recording h0 b0 (l ++ [rdpq_block s']) s' /\
    rdpq_block s' <> NULL /\
    (forall x sz, heap s !! x = Some sz -> heap s' !! x = Some sz) /\
    touches (fun _ => False) s s'.
Proof.
  intros (A & Hs & (Htop & Hkeys) & C & L & Live & FH & FB).
  destruct (next_buffer_spec sizeof_aligned s Hs)
    as (s' & E & A' & B' & F' & Z' & BL' & HP' & TOP' & P' & E' & T).
  set (b := (heap_top s + 15) / 16 * 16) in *.
  destruct (align16 (heap_top s)) as [[Lo Hi] M16]. fold b in Lo, Hi, M16.
  assert (Nb : b <> NULL) by (unfold NULL; lia).
  assert (Fh : heap s !! b = None).
  { destruct (heap s !! b) eqn:X; [|reflexivity].
    assert (b < heap_top s) by (apply Hkeys; left; eauto). lia. }
  assert (Fb : blocks s !! b = None).
  { destruct (blocks s !! b) eqn:X; [|reflexivity].
    assert (b < heap_top s) by (apply Hkeys; right; eauto). lia. }
  assert (Fl : b ∉ l).
  { intros Hb. apply Live in Hb. rewrite Fh in Hb. now destruct Hb. }
  assert (ZZ : RDPQ_MAX_COMMAND_SIZE <= grow (rdpq_block_size s)).
  { unfold grow, RDPQ_MAX_COMMAND_SIZE in *. destruct (_ <? _); lia. }
  exists s'. split; [exact E|]. rewrite B'.
  split; [|split; [exact Nb|split]].
  - split.
    + split; [congruence|]. split; [lia|]. split; [|split; [|split; [|split; [|split]]]].
      * split; [rewrite TOP'; unfold RDPQ_MAX_COMMAND_SIZE in Hs; lia|].
        intros x Hx. rewrite TOP'.
        assert (x = b \/ x < heap_top s) as [->|?];
          [|unfold RDPQ_MAX_COMMAND_SIZE in Hs; lia..].
        destruct (decide (x = b)) as [->|Ne]; [now left|right].
        apply Hkeys. rewrite HP', BL' in Hx.
        destruct Hx as [Hx|Hx]; [left|right].
        -- now rewrite lookup_insert_ne in Hx by congruence.
        -- destruct (rdpq_block s =? NULL).
           ++ now rewrite lookup_insert_ne in Hx by congruence.
           ++ destruct (decide (x = rdpq_block s)) as [->|Ne'].
              ** rewrite lookup_alter_eq, lookup_insert_ne in Hx by congruence.
                 destruct (blocks s !! rdpq_block s); [eauto|].
                 now destruct Hx.
              ** now rewrite lookup_alter_ne, lookup_insert_ne in Hx by congruence.
      * rewrite BL', F'.
        destruct (Z.eqb_spec (rdpq_block s) NULL) as [EN|NN].
        -- apply last_None in L. subst l.
           cbn [chain] in C. rewrite C. cbn [Z.eqb NULL app chain].
           split; [reflexivity|]. split; [exact Nb|]. exists hdr0.
           rewrite lookup_insert_eq. auto.
        -- pose proof L as L'.
           assert (FN : rdpq_block_first s <> NULL).
           { destruct l as [|y l']; [discriminate|]. now destruct C as (-> & ? & _). }
           destruct (Z.eqb_spec (rdpq_block_first s) NULL) as [?|_]; [contradiction|].
           now apply chain_snoc.
      * rewrite last_snoc, B'. now destruct (Z.eqb_spec b NULL).
      * intros x Hx. rewrite HP'. apply elem_of_app in Hx as [Hx|Hx].
        -- rewrite lookup_insert_ne; [now apply Live|]. intros <-. contradiction.
        -- apply list_elem_of_singleton in Hx as ->. rewrite lookup_insert_eq. eauto.
      * rewrite HP', free_all_app. unfold free_all at 2. cbn [foldr].
        rewrite delete_insert_eq, delete_id by assumption. exact FH.
      * rewrite BL', free_all_app. unfold free_all at 2. cbn [foldr].
        destruct (Z.eqb_spec (rdpq_block s) NULL) as [EN|NN].
        -- rewrite delete_insert_eq, delete_id by assumption. exact FB.
        -- pose proof L as L'.
           assert (In : rdpq_block s ∈ l) by now apply last_Some_elem_of.
           assert (b <> rdpq_block s) by (intros Eb; rewrite <- Eb in In; contradiction).
           rewrite delete_alter_ne, delete_insert_eq, delete_id by assumption.
           rewrite free_all_alter by assumption. exact FB.
    + intros _. split.
      * rewrite P'. rewrite Z.add_mod, sizeof_aligned, Z.add_0_r, Z.mod_mod by lia.
        replace b with (b / 16 * 2 * 8); [apply Z.mod_mul; lia|].
        pose proof (Z.div_mod b 16 ltac:(lia)). lia.
      * exists (sizeof_rdpq_block_t + rdpq_block_size s * 4).
        rewrite B', HP', P', E', lookup_insert_eq.
        unfold RDPQ_MAX_COMMAND_SIZE in *. repeat split; lia.
  - intros x sz Hx. rewrite HP', lookup_insert_ne; [exact Hx|]. congruence.
  - exact T.
Qed.

End RecorderSteps.

Section RecorderWrites.
Context `{Hdr : Headers}.
Hypothesis sizeof_aligned : sizeof_rdpq_block_t mod 8 = 0.
Hypothesis sizeof_nonneg : 0 <= sizeof_rdpq_block_t.

(** [rdpq_static_write] up to its buffer switch: the words go to
    [rdpq_block_ptr], the submit instruction to the queue. *)
Lemma static_write_steps cmd a0 args s :
  rdpq_block_ptr s mod 8 = 0 -> (4 * (1 + Z.of_nat (length args))) mod 8 = 0 ->
  exists s3,
    rdpq_static_write cmd a0 args s
    = (if rdpq_block_end s <? rdpq_block_ptr s + 4 * (1 + Z.of_nat (length args))
       then __rdpq_block_next_buffer s3 else Some s3) /\
    recorder_view s3 = recorder_view s /\
    rdpq_block_ptr s3 = rdpq_block_ptr s + 4 * (1 + Z.of_nat (length args)) /\
    rdpq_block_end s3 = rdpq_block_end s /\
    touches (fun x => rdpq_block_ptr s <= x
                      < rdpq_block_ptr s + 4 * (1 + Z.of_nat (length args))) s s3.
Proof.
  intros Hp Hl. unfold rdpq_static_write.
  destruct s as [bp be ba cfg st0 st1 blk first sz last cur m0 bl hp top em].
  rdpq_simpl. rdpq_simpl in Hp.
  match goal with
  | |- context [store_words ?a ?ws ?t] =>
      destruct (store_words_frame a ws t) as [m1 E1];
      pose proof (fun x => load_store_words_out x a ws t) as O1;
      rewrite E1 in O1 |- *
  end.
  cbn [length] in O1. rewrite length_map in O1. unfold load in O1.
  rdpq_simpl. rdpq_simpl in O1.
  assert (Hp' : (bp + 4 * (1 + Z.of_nat (length args))) mod 8 = 0)
    by (rewrite Z.add_mod, Hp, Hl by lia; reflexivity).
  match goal with
  | |- context [__rdpq_block_flush ?x ?y ?t] =>
      destruct (flush_touch x y t Hp Hp') as (m & p & l & -> & T1 & T2 & T3)
  end. cbn [mbind option_bind]. rdpq_simpl.
  rdpq_simpl in T1. rdpq_simpl in T2. unfold load in T3. rdpq_simpl in T3.
  eexists. split; [reflexivity|]. rdpq_simpl.
  repeat (split; [reflexivity|]).
  unfold touches, in_queue, load. rdpq_simpl.
  split; [exact T1|]. split; [exact T2|].
  intros x Q NP. rewrite T3 by lia. apply O1. lia.
Qed.

Lemma last_in {A} (l : list A) (x : A) (b : bool) :
  last l = (if b then None else Some x) -> b = false -> x ∈ l.
Proof. intros L ->. now apply last_Some_elem_of. Qed.

(** One [rdpq_write] while recording. *)
Lemma rdpq_write_recording h0 b0 l cmd a0 args s :
  recording h0 b0 l s -> cmd_fits (cmd, a0, args) ->
  exists s' l',
    rdpq_write cmd a0 args s = Some s' /\ recording h0 b0 l' s' /\
    rdpq_block s' <> NULL /\ touches (in_buffers l' s') s s'.
Proof.
  intros R [Fit Even]. cbn [snd] in Fit, Even.
  assert (A : rdpq_block_active s = true) by apply R.
  unfold rdpq_write, in_block. rewrite A.
  (* the buffer check *)
  assert (C : exists s1 l1,
             __rdpq_block_check s = Some s1 /\ recording h0 b0 l1 s1 /\
             rdpq_block s1 <> NULL /\ touches (fun _ => False) s s1).
  { unfold __rdpq_block_check. rewrite A. cbn [andb].
    destruct (Z.eqb_spec (rdpq_block s) NULL) as [E|E].
    - destruct (next_buffer_recording sizeof_aligned sizeof_nonneg h0 b0 l s (proj1 R))
        as (s1 & E1 & R1 & N1 & _ & T1).
      exists s1, (l ++ [rdpq_block s1]). auto.
    - exists s, l. split; [reflexivity|]. split; [exact R|]. split; [exact E|].
      apply touches_refl. }
  destruct C as (s1 & l1 & -> & R1 & N1 & T1). cbn [mbind option_bind].
  destruct R1 as [Core1 Win1]. destruct (Win1 N1) as [Al1 (sz & Hsz & Lo & Hi & End)].
  destruct (static_write_steps cmd a0 args s1 Al1 Even)
    as (s3 & -> & V & P3 & E3 & T3).
  pose proof (recording_core_view h0 b0 l1 s1 s3 V Core1) as Core3.
  unfold recorder_view in V. injection V as Va Vb Vf Vz Vbl Vh Vt.
  assert (In1 : rdpq_block s1 ∈ l1).
  { destruct Core1 as (_ & _ & _ & _ & L & _).
    eapply last_in; [exact L|]. now apply Z.eqb_neq. }
  set (n := 1 + Z.of_nat (length args)) in *.
  assert (Range : forall x, rdpq_block_ptr s1 <= x < rdpq_block_ptr s1 + 4 * n ->
                    rdpq_block s1 + sizeof_rdpq_block_t <= x < rdpq_block s1 + sz).
  { intros x Hx. unfold RDPQ_MAX_COMMAND_SIZE in *. lia. }
  destruct (Z.ltb_spec (rdpq_block_end s1) (rdpq_block_ptr s1 + 4 * n)) as [Sw|Ns].
  - destruct (next_buffer_recording sizeof_aligned sizeof_nonneg h0 b0 l1 s3 Core3)
      as (s' & E' & R' & N' & Mono & T').
    exists s', (l1 ++ [rdpq_block s']). split; [exact E'|]. split; [exact R'|].
    split; [exact N'|].
    apply (touches_trans _ s s1); [eapply touches_weaken, T1; now intros|].
    apply (touches_trans _ s1 s3); [|eapply touches_weaken, T'; now intros].
    eapply touches_weaken, T3. intros x Hx.
    exists (rdpq_block s1), sz. split; [apply elem_of_app; now left|].
    split; [apply Mono; congruence|]. now apply Range.
  - exists s3, l1. split; [reflexivity|]. split; [|split; [congruence|]].
    + split; [exact Core3|]. intros _. split.
      * rewrite P3, Z.add_mod, Al1, Even by lia. reflexivity.
      * exists sz. rewrite Vb, Vh, P3, E3. unfold n in *.
        repeat split; try assumption; lia.
    + apply (touches_trans _ s s1); [eapply touches_weaken, T1; now intros|].
      eapply touches_weaken, T3. intros x Hx.
      exists (rdpq_block s1), sz. split; [exact In1|].
      split; [congruence|]. now apply Range.
Qed.

Lemma recording_begin s :
  heap_ok s -> recording (heap s) (blocks s) [] (__rdpq_block_begin s).
Proof.
  intros [H1 H2]. unfold recording, recording_core.
  split; [|intros N; exfalso; apply N; now destruct s].
  split_and!; try (destruct s; reflexivity).
  - destruct s. cbn. unfold RDPQ_MAX_COMMAND_SIZE, RDPQ_BLOCK_MIN_SIZE. lia.
  - destruct s. split; [exact H1|exact H2].
  - intros b Hb. now apply elem_of_nil in Hb.
Qed.

(** X17: While a block is recorded, every [rdpq_write] of a command of at
    most [RDPQ_MAX_COMMAND_SIZE] words, even in number, succeeds and keeps
    the recorder's invariant; the only words of RDRAM it changes are in
    the queue (the last submit instruction or past the cursor) or in the
    payload of a buffer of this block, so no write runs past the end of a
    buffer. *)
Theorem rdpq_write_in_bounds h0 b0 (l : list Z) (c : write_cmd) (s : rdpq) :
  recording h0 b0 l s -> cmd_fits c ->
  exists s' l',
    rdpq_write c.1.1 c.1.2 c.2 s = Some s' /\
    recording h0 b0 l' s' /\
    forall x, ~ in_queue s s' x -> ~ in_buffers l' s' x -> load x s' = load x s.
Proof.
  intros R F. destruct c as [[cmd a0] args].
  destruct (rdpq_write_recording h0 b0 l cmd a0 args s R F)
    as (s' & l' & E & R' & _ & _ & _ & T).
  exists s', l'. auto.
Qed.

Lemma rdpq_write_all_recording h0 b0 cs : forall l s,
  recording h0 b0 l s -> Forall cmd_fits cs ->
  exists s' l', rdpq_write_all cs s = Some s' /\ recording h0 b0 l' s'.
Proof.
  induction cs as [|[[cmd a0] args] cs IH]; intros l s R F.
  - exists s, l. auto.
  - apply Forall_cons in F as [F1 F].
    destruct (rdpq_write_recording h0 b0 l cmd a0 args s R F1)
      as (s1 & l1 & E1 & R1 & _).
    destruct (IH l1 s1 R1 F) as (s' & l' & E' & R').
    exists s', l'. cbn [rdpq_write_all]. rewrite E1. auto.
Qed.

(** X18: Recording a block, whatever fitting commands go into it, and then
    freeing the block that [__rdpq_block_end] returns gives back every
    buffer: the heap and the headers are as before the recording. *)
Theorem record_and_free_restores_heap (cs : list write_cmd) (s : rdpq) :
  heap_ok s -> Forall cmd_fits cs ->
  exists s', record_and_free cs s = Some s' /\
             heap s' = heap s /\ blocks s' = blocks s.
Proof.
  intros H F. unfold record_and_free.
  destruct (rdpq_write_all_recording _ _ cs _ _ (recording_begin s H) F)
    as (s1 & l & -> & (_ & _ & _ & C & L & _ & FH & FB) & _).
  cbn [mbind option_bind]. unfold __rdpq_block_end, __rdpq_block_free.
  destruct s1 as [bp be ba cfg st0 st1 blk first sz last cur m0 bl hp top em].
  rdpq_simpl. rdpq_simpl in C. rdpq_simpl in FH. rdpq_simpl in FB.
  destruct (Z.eqb_spec first NULL) as [E|N]; rdpq_simpl.
  - destruct l as [|y l]; [|destruct C as (<- & ? & _); contradiction].
    subst first. cbn. eexists. split; [reflexivity|]. split; [exact FH|exact FB].
  - assert (In : first ∈ l).
    { destruct l as [|y l]; [contradiction|]. destruct C as (-> & _). constructor. }
    assert (C2 : chain (alter (set_autosync_state st0) first bl) first l)
      by (apply chain_alter; [reflexivity|exact C]).
    rewrite (block_free_loop_chain _ first l); rdpq_simpl.
    + eexists. split; [reflexivity|]. rdpq_simpl.
      rewrite free_all_alter by assumption. auto.
    + exact C2.
    + apply chain_length in C2. lia.
Qed.

End RecorderWrites.

(** ** Block recorder: one submit instruction per buffer *)

Section CoalesceFacts.
Context `{Hdr : Headers}.

Lemma land_low24 e : 0 <= e < 2 ^ 24 -> Z.land e 0xFFFFFF = e.
Proof.
  intros H. change 16777215 with (Z.ones 24). rewrite Z.land_ones by lia.
  apply Z.mod_small. lia.
Qed.

(** X19: When the last submit instruction ends at the write pointer, and the
    queue holds nothing after it, [rdpq_static_write] with room in the
    buffer adds nothing to the queue: it stores the command at the write
    pointer and moves the end recorded in that instruction to the new
    write pointer, so that the same holds for the next write.  The
    physical addresses of a buffer fit the 24 bits of the instruction. *)
Theorem static_writes_coalesce (cmd a0 : Z) (args : list Z) (s : rdpq) :
  let n := 1 + Z.of_nat (length args) in
  rdpq_block_ptr s mod 8 = 0 -> (4 * n) mod 8 = 0 ->
  rspq_cur_pointer s mod 4 = 0 -> last_rdp_cmd s mod 4 = 0 ->
  0 <= rspq_cur_pointer s < 2 ^ 32 -> 0 <= last_rdp_cmd s < 2 ^ 32 ->
  0 <= PhysicalAddr (rdpq_block_ptr s + 4 * n) < 2 ^ 24 ->
  ~ (rdpq_block_ptr s <= last_rdp_cmd s < rdpq_block_ptr s + 4 * n) ->
  rdpq_block_ptr s + 4 * n <= rdpq_block_end s ->
  coalescible s ->
  exists s',
    rdpq_static_write cmd a0 args s = Some s' /\
    rspq_cur_pointer s' = rspq_cur_pointer s /\
    last_rdp_cmd s' = last_rdp_cmd s /\
    load (last_rdp_cmd s) s' = submit_word (PhysicalAddr (rdpq_block_ptr s + 4 * n)) /\
    load (rdpq_block_ptr s) s'
    = uint32_t (Z.lor (RDPQ_OVL_ID + Z.shiftl cmd 24) a0) /\
    rdpq_block_ptr s' = rdpq_block_ptr s + 4 * n /\
    emitted s' = emitted s ++ [(cmd, a0 :: args)] /\
    coalescible s'.
Proof.
  intros n Hp Hl Hc Hlast Rc Rl Ph Out Room [C E].
  unfold rdpq_static_write. fold n.
  set (ws := uint32_t (Z.lor (RDPQ_OVL_ID + Z.shiftl cmd 24) a0) :: map uint32_t args).
  assert (Lw : Z.of_nat (length ws) = n)
    by (unfold ws, n; cbn [length]; rewrite length_map; lia).
  set (s0 := log_cmd cmd (a0 :: args) s).
  assert (P0 : rdpq_block_ptr s0 = rdpq_block_ptr s) by now destruct s.
  rewrite P0.
  set (s1 := store_words (rdpq_block_ptr s) ws s0).
  assert (L1 : load (last_rdp_cmd s) s1 = load (last_rdp_cmd s) s).
  { unfold s1. rewrite load_store_words_out by (rewrite Lw; exact Out).
    now destruct s. }
  assert (W1 : load (rdpq_block_ptr s) s1
               = uint32_t (Z.lor (RDPQ_OVL_ID + Z.shiftl cmd 24) a0)).
  { unfold s1. rewrite <- (Z.add_0_r (rdpq_block_ptr s)) at 1.
    change 0 with (4 * Z.of_nat 0). now apply load_store_words. }
  destruct (store_words_frame (rdpq_block_ptr s) ws s0) as [m1 E1].
  fold s1 in E1.
  assert (F1 : rspq_cur_pointer s1 = rspq_cur_pointer s /\
               last_rdp_cmd s1 = last_rdp_cmd s /\
               rdpq_block_ptr s1 = rdpq_block_ptr s /\
               rdpq_block_end s1 = rdpq_block_end s /\
               emitted s1 = emitted s ++ [(cmd, a0 :: args)]).
  { rewrite E1. unfold s0. now destruct s. }
  destruct F1 as (Fc & Fl & Fp & Fe & Fm). clearbody s1. clear E1 m1 s0 P0.
  assert (Hp' : (rdpq_block_ptr s + 4 * n) mod 8 = 0)
    by (rewrite Z.add_mod, Hp, Hl by lia; reflexivity).
  rewrite ?Fp. unfold __rdpq_block_flush. rewrite !land7_mod, Hp, Hp'.
  cbn [Z.eqb negb].
  rewrite Fc, Fl, diff_is_2 by assumption.
  fold (recorded_end (load (last_rdp_cmd s) s1)). rewrite L1, E, C, !Z.eqb_refl.
  cbn [andb mbind option_bind].
  fold (submit_word (PhysicalAddr (rdpq_block_ptr s + 4 * n))).
  set (w := submit_word _).
  assert (N : last_rdp_cmd s <> rdpq_block_ptr s) by lia.
  destruct s1 as [bp be ba cfg st0 st1 blk first sz last cur m0 bl hp top em].
  cbn in Fc, Fl, Fp, Fe, Fm. subst bp be last cur em. rdpq_simpl.
  replace (rdpq_block_end s <? rdpq_block_ptr s + 4 * n) with false by lia.
  eexists. split; [reflexivity|]. unfold coalescible, load in *. rdpq_simpl.
  rdpq_simpl in W1.
  rewrite lookup_insert_eq, lookup_insert_ne by congruence. cbn [default].
  repeat split; try assumption; try reflexivity.
  unfold id, w. rewrite recorded_end_submit_word. apply land_low24, Ph.
Qed.

End CoalesceFacts.

(** ** Trace engine *)

Lemma index_ok {A} (l : list A) i :
  0 <= i < Z.of_nat (length l) -> exists x, index l i = Some x.
Proof.
  intros H. unfold index.
  replace ((0 <=? i) && (i <? Z.of_nat (length l))) with true by lia.
  apply lookup_lt_is_Some_2. lia.
Qed.

Lemma assign_ok {A} (l : list A) i x :
  0 <= i < Z.of_nat (length l) -> assign l i x = Some (<[Z.to_nat i := x]> l).
Proof.
  intros H. unfold assign.
  now replace ((0 <=? i) && (i <? Z.of_nat (length l))) with true by lia.
Qed.

Lemma index_insert_same {A} (l : list A) i x :
  0 <= i < Z.of_nat (length l) -> index (<[Z.to_nat i := x]> l) i = Some x.
Proof.
  intros H. unfold index. rewrite length_insert.
  replace ((0 <=? i) && (i <? Z.of_nat (length l))) with true by lia.
  apply list_lookup_insert_eq. lia.
Qed.

Lemma prev_slot_range t : ring_ok t -> 0 <= prev_slot t < MAX_BUFFERS.
Proof.
  unfold ring_ok, prev_slot, MAX_BUFFERS. intros (_ & _ & W).
  destruct (Z.eqb_spec (buf_widx t) 0); cbn [negb]; lia.
Qed.

Lemma rem12 x : 0 <= x < 12 ->
  0 <= Z.rem (x + 1) 12 < 12 /\
  (if negb (Z.rem (x + 1) 12 =? 0) then Z.rem (x + 1) 12 - 1 else 11) = x /\
  Z.rem (x + 1) 12 <> x.
Proof.
  intros H. rewrite Z.rem_mod_nonneg by lia.
  destruct (Z.eq_dec x 11) as [->|N];
    [change ((11 + 1) mod 12) with 0; cbn [Z.eqb negb]; lia|].
  rewrite Z.mod_small by lia.
  replace (x + 1 =? 0) with false by lia. cbn [negb]. lia.
Qed.

Lemma trace_fetch_ring_aux (dp_start dp_end : Z) (t : trace_t) :
  ring_ok t ->
  exists t',
    __rdpq_trace_fetch dp_start dp_end t = Some t' /\
    ring_ok t' /\
    (uncached dp_end <= uncached dp_start ->
       buffers t' = buffers t /\ buf_ridx t' = buf_ridx t /\
       buf_widx t' = buf_widx t) /\
    (uncached dp_start < uncached dp_end ->
       (exists b, index (buffers t') (prev_slot t') = Some b /\
                  buf_start b = uncached dp_start /\
                  buf_end b = uncached dp_end) /\
       (t' = t \/ buf_ridx t' <> buf_widx t') /\
       __rdpq_trace_fetch dp_start dp_end t' = Some t').
Proof.
  intros R. pose proof R as (Len & Ri & Wi).
  pose proof (prev_slot_range t R) as Pi.
  unfold __rdpq_trace_fetch.
  set (start := uncached dp_start). set (end_ := uncached dp_end).
  destruct (Z.eqb_spec start end_) as [E|NE].
  { exists t. split; [reflexivity|]. split; [exact R|]. split; [auto|]. lia. }
  destruct (Z.ltb_spec end_ start) as [Lt|Ge].
  { eexists. split; [reflexivity|]. split; [exact R|]. split; [now destruct t|]. lia. }
  destruct (index_ok (buffers t) (prev_slot t)) as [bp Hbp]; [lia|].
  rewrite Hbp. cbn [mbind option_bind].
  destruct (Z.eqb_spec (buf_start bp) start) as [Es|Ns].
  - destruct (Z.eqb_spec (buf_end bp) end_) as [Ee|Ne].
    + exists t. split; [reflexivity|]. split; [exact R|]. split; [lia|]. intros _.
      split; [exists bp; auto|]. split; [now left|].
      fold start end_.
      destruct (Z.eqb_spec start end_) as [?|_]; [contradiction|].
      destruct (Z.ltb_spec end_ start) as [?|_]; [lia|].
      rewrite Hbp. cbn [mbind option_bind].
      destruct (Z.eqb_spec (buf_start bp) start) as [_|?]; [|contradiction].
      destruct (Z.eqb_spec (buf_end bp) end_) as [_|?]; [|contradiction].
      reflexivity.
    + set (t1 := if end_ <? buf_end bp then debugf _ t else t).
      assert (B1 : buffers t1 = buffers t) by (unfold t1; now destruct (_ <? _), t).
      assert (R1 : buf_ridx t1 = buf_ridx t) by (unfold t1; now destruct (_ <? _), t).
      assert (W1 : buf_widx t1 = buf_widx t) by (unfold t1; now destruct (_ <? _), t).
      clearbody t1.
      rewrite B1, assign_ok by lia. cbn [mbind option_bind].
      set (bs := <[Z.to_nat (prev_slot t) := set_buf_end end_ bp]> (buffers t)).
      set (t2 := if buf_ridx (set_buffers bs t1) =? buf_widx (set_buffers bs t1)
                 then set_buf_ridx (prev_slot t) (set_buffers bs t1)
                 else set_buffers bs t1).
      assert (B2 : buffers t2 = bs) by (unfold t2; now destruct (_ =? _), t1).
      assert (W2 : buf_widx t2 = buf_widx t) by (unfold t2; now destruct (_ =? _), t1).
      assert (P2 : prev_slot t2 = prev_slot t) by (unfold prev_slot; now rewrite W2).
      assert (R2 : buf_ridx t2 = prev_slot t \/
                   buf_ridx t2 = buf_ridx t /\ buf_ridx t <> buf_widx t).
      { unfold t2. destruct t1 as [b1 r1 w1 sl1 o1]. cbn in *. subst.
        destruct (Z.eqb_spec (buf_ridx t) (buf_widx t)); cbn; auto. }
      assert (N2 : buf_ridx t2 <> buf_widx t2).
      { rewrite W2. destruct R2 as [->|[-> ?]]; [|assumption].
        unfold prev_slot, MAX_BUFFERS in *.
        destruct (Z.eqb_spec (buf_widx t) 0); cbn [negb]; lia. }
      assert (L2 : length bs = length (buffers t)) by apply length_insert.
      assert (I2 : index bs (prev_slot t) = Some (set_buf_end end_ bp))
        by (apply index_insert_same; lia).
      exists t2. split; [reflexivity|]. split.
      { unfold ring_ok. rewrite B2, L2, W2. split; [assumption|]. split; [|assumption].
        destruct R2 as [->|[-> _]]; assumption. }
      split; [lia|]. intros _. split.
      { exists (set_buf_end end_ bp). rewrite B2, P2. auto. }
      split; [now right|].
      fold start end_.
      destruct (Z.eqb_spec start end_) as [?|_]; [contradiction|].
      destruct (Z.ltb_spec end_ start) as [?|_]; [lia|].
      rewrite B2, P2, I2. cbn [mbind option_bind set_buf_end buf_start buf_end].
      destruct (Z.eqb_spec (buf_start bp) start) as [_|?]; [|contradiction].
      now rewrite Z.eqb_refl.
  - set (t1 := if Z.rem (buf_widx t + 1) MAX_BUFFERS =? buf_ridx t
               then _ else Some t).
    destruct (rem12 (buf_widx t) Wi) as (Wr & Wp & Wn).
    destruct (rem12 (buf_ridx t) Ri) as (Rr & _ & _).
    assert (T1 : exists u, t1 = Some u /\ buffers u = buffers t /\
                   buf_widx u = buf_widx t /\ 0 <= buf_ridx u < MAX_BUFFERS /\
                   Z.rem (buf_widx t + 1) MAX_BUFFERS <> buf_ridx u).
    { unfold t1. destruct (Z.eqb_spec (Z.rem (buf_widx t + 1) MAX_BUFFERS) (buf_ridx t))
        as [Full|NF].
      - destruct (index_ok (buffers t) (buf_ridx t)) as [br ->]; [lia|].
        cbn [mbind option_bind]. eexists. split; [reflexivity|].
        destruct (rem12 (buf_ridx t) Ri) as (_ & _ & X).
        destruct t as [b0 r0 w0 sl0 o0]. cbn in *. repeat split; try apply Rr.
        rewrite Full. unfold MAX_BUFFERS. congruence.
      - exists t. repeat split; try apply Ri. exact NF. }
    destruct T1 as (u & -> & Bu & Wu & Ru & Nu). cbn [mbind option_bind].
    rewrite Bu, Wu, assign_ok by lia. cbn [mbind option_bind].
    set (new := {| buf_start := start; buf_end := end_; buf_traced := start |}).
    set (bs := <[Z.to_nat (buf_widx t) := new]> (buffers t)).
    set (t2 := set_buf_widx _ (set_buffers bs u)).
    assert (B2 : buffers t2 = bs) by now destruct u.
    assert (W2 : buf_widx t2 = Z.rem (buf_widx t + 1) MAX_BUFFERS)
      by (destruct u; cbn in *; now subst).
    assert (R2 : buf_ridx t2 = buf_ridx u) by now destruct u.
    assert (P2 : prev_slot t2 = buf_widx t) by (unfold prev_slot; now rewrite W2).
    assert (L2 : length bs = length (buffers t)) by apply length_insert.
    assert (I2 : index bs (buf_widx t) = Some new) by (apply index_insert_same; lia).
    exists t2. split; [reflexivity|]. split.
    { unfold ring_ok. rewrite B2, L2, W2, R2. auto. }
    split; [lia|]. intros _. split.
    { exists new. rewrite B2, P2. auto. }
    split; [right; rewrite W2, R2; congruence|].
    fold start end_.
    destruct (Z.eqb_spec start end_) as [?|_]; [contradiction|].
    destruct (Z.ltb_spec end_ start) as [?|_]; [lia|].
    rewrite B2, P2, I2. cbn [mbind option_bind new buf_start buf_end].
    now rewrite !Z.eqb_refl.
Qed.

(** X20: What one call of [__rdpq_trace_fetch] does to the ring. The indices
    stay inside the array, so the call reads and writes no slot that does
    not exist. A call with an empty or reversed range changes nothing in
    the ring. After a call with [start < end] the slot written last holds
    that range; either nothing changed (the same range was fetched
    before) or a buffer is pending; and a second call with the same
    registers changes nothing. *)
Theorem trace_fetch_ring (dp_start dp_end : Z) (t : trace_t) :
  ring_ok t ->
  exists t',
    __rdpq_trace_fetch dp_start dp_end t = Some t' /\
    ring_ok t' /\
    (uncached dp_end <= uncached dp_start ->
       buffers t' = buffers t /\ buf_ridx t' = buf_ridx t /\
       buf_widx t' = buf_widx t) /\
    (uncached dp_start < uncached dp_end ->
       (exists b, index (buffers t') (prev_slot t') = Some b /\
                  buf_start b = uncached dp_start /\
                  buf_end b = uncached dp_end) /\
       (t' = t \/ buf_ridx t' <> buf_widx t') /\
       __rdpq_trace_fetch dp_start dp_end t' = Some t').
Proof. apply trace_fetch_ring_aux. Qed.

(** ** Trace engine: draining the ring *)

Lemma uncached_nonzero x : 0 <= x -> uncached x <> 0.
Proof.
  intros H E. apply (f_equal (fun z => Z.testbit z 31)) in E.
  unfold uncached in E. rewrite Z.lor_spec, Z.bits_0 in E.
  change (Z.testbit 2684354560 31) with true in E.
  rewrite orb_true_r in E. discriminate.
Qed.

Lemma index_insert_other {A} (l : list A) i j x :
  0 <= i -> 0 <= j -> i <> j ->
  index (<[Z.to_nat j := x]> l) i = index l i.
Proof.
  intros Hi Hj N. unfold index. rewrite length_insert.
  destruct (_ && _); [|reflexivity]. apply list_lookup_insert_ne. lia.
Qed.

Lemma index_range {A} (l : list A) i x :
  index l i = Some x -> 0 <= i < Z.of_nat (length l).
Proof. unfold index. destruct (_ && _) eqn:E; [lia|discriminate]. Qed.

Lemma index_elem {A} (l : list A) i x : index l i = Some x -> x ∈ l.
Proof.
  unfold index. destruct (_ && _); [|discriminate]. apply list_elem_of_lookup_2.
Qed.

Lemma Forall_insert_nat {A} (P : A -> Prop) (l : list A) n x :
  Forall P l -> P x -> Forall P (<[n := x]> l).
Proof. intros. now apply Forall_insert. Qed.

(** Arithmetic of the two indices. *)
Lemma cyc_pop r w i :
  0 <= r < 12 -> 0 <= w < 12 -> 0 <= i < 12 -> r <> w ->
  ((w - (r + 1) mod 12) mod 12 = (w - r) mod 12 - 1) /\
  ((i - (r + 1) mod 12) mod 12 < (w - (r + 1) mod 12) mod 12 ->
   i <> r /\ (i - r) mod 12 < (w - r) mod 12) /\
  0 < (w - r) mod 12.
Proof. intros. Z.to_euclidean_division_equations. lia. Qed.

Lemma cyc_push r w i :
  0 <= r < 12 -> 0 <= w < 12 -> 0 <= i < 12 ->
  let r' := if (w + 1) mod 12 =? r then (r + 1) mod 12 else r in
  (i - r') mod 12 < ((w + 1) mod 12 - r') mod 12 ->
  i = w \/ (i <> w /\ (i - r) mod 12 < (w - r) mod 12).
Proof.
  intros Hr Hw Hi. cbv zeta.
  destruct (Z.eqb_spec ((w + 1) mod 12) r); Z.to_euclidean_division_equations; lia.
Qed.

Lemma cyc_prev w i :
  0 <= w < 12 -> 0 <= i < 12 ->
  let p := if negb (w =? 0) then w - 1 else 11 in
  (i - p) mod 12 < (w - p) mod 12 -> i = p.
Proof.
  intros Hw Hi. cbv zeta.
  destruct (Z.eqb_spec w 0); cbn [negb]; Z.to_euclidean_division_equations; lia.
Qed.

(** The three ways in which [__rdpq_trace_fetch] returns: the ring as
    it was, the last slot extended, or a new slot. *)
Lemma trace_fetch_cases dp_start dp_end t :
  ring_ok t ->
  exists t', __rdpq_trace_fetch dp_start dp_end t = Some t' /\
    ((buffers t' = buffers t /\ buf_ridx t' = buf_ridx t /\
      buf_widx t' = buf_widx t) \/
     (exists bp, index (buffers t) (prev_slot t) = Some bp /\
        buf_start bp = uncached dp_start /\
        buffers t' = <[Z.to_nat (prev_slot t) := set_buf_end (uncached dp_end) bp]>
                       (buffers t) /\
        buf_widx t' = buf_widx t /\
        buf_ridx t' = (if buf_ridx t =? buf_widx t then prev_slot t
                       else buf_ridx t)) \/
     (buffers t' = <[Z.to_nat (buf_widx t) :=
                       {| buf_start := uncached dp_start;
                          buf_end := uncached dp_end;
                          buf_traced := uncached dp_start |}]> (buffers t) /\
      buf_widx t' = (buf_widx t + 1) mod 12 /\
      buf_ridx t' = (if (buf_widx t + 1) mod 12 =? buf_ridx t
                     then (buf_ridx t + 1) mod 12 else buf_ridx t))).
Proof.
  intros R. pose proof R as (Len & Ri & Wi).
  pose proof (prev_slot_range t R) as Pi.
  unfold MAX_BUFFERS in *.
  unfold __rdpq_trace_fetch.
  set (start := uncached dp_start). set (end_ := uncached dp_end).
  destruct (start =? end_); [exists t; auto|].
  destruct (end_ <? start).
  { eexists. split; [reflexivity|]. left. now destruct t. }
  destruct (index_ok (buffers t) (prev_slot t)) as [bp Hbp]; [lia|].
  rewrite Hbp. cbn [mbind option_bind].
  destruct (Z.eqb_spec (buf_start bp) start) as [Es|Ns].
  - destruct (buf_end bp =? end_); [exists t; auto|].
    set (t1 := if end_ <? buf_end bp then debugf _ t else t).
    assert (B1 : buffers t1 = buffers t) by (unfold t1; now destruct (_ <? _), t).
    assert (R1 : buf_ridx t1 = buf_ridx t) by (unfold t1; now destruct (_ <? _), t).
    assert (W1 : buf_widx t1 = buf_widx t) by (unfold t1; now destruct (_ <? _), t).
    clearbody t1.
    rewrite B1, assign_ok by lia. cbn [mbind option_bind].
    eexists. split; [reflexivity|]. right. left. exists bp.
    split; [reflexivity|]. split; [exact Es|].
    destruct t1 as [b1 r1 w1 sl1 o1]. cbn in *. subst.
    destruct (buf_ridx t =? buf_widx t); cbn; auto.
  - rewrite !Z.rem_mod_nonneg by (unfold MAX_BUFFERS; lia).
    change MAX_BUFFERS with 12.
    destruct (Z.eqb_spec ((buf_widx t + 1) mod 12) (buf_ridx t)) as [Full|NF].
    + destruct (index_ok (buffers t) (buf_ridx t)) as [br ->]; [lia|].
      cbn [mbind option_bind].
      destruct t as [b0 r0 w0 sl0 o0]. cbn in *.
      rewrite assign_ok by lia. cbn [mbind option_bind].
      eexists. split; [reflexivity|]. right. right. cbn.
      rewrite !Z.rem_mod_nonneg by lia. auto.
    + cbn [mbind option_bind]. rewrite assign_ok by lia. cbn [mbind option_bind].
      eexists. split; [reflexivity|]. right. right.
      destruct t as [b0 r0 w0 sl0 o0]. cbn in *.
      rewrite !Z.rem_mod_nonneg by lia. auto.
Qed.

(** [__rdpq_trace_fetch] keeps the invariant of the ring. *)
Lemma trace_fetch_ok dp_start dp_end t t' :
  trace_ok t -> 0 <= dp_start -> 0 <= dp_end ->
  __rdpq_trace_fetch dp_start dp_end t = Some t' -> trace_ok t'.
Proof.
  intros (R & Sl & Pe) Hs He E.
  pose proof R as (Len & Ri & Wi). pose proof (prev_slot_range t R) as Pi.
  destruct (trace_fetch_cases dp_start dp_end t R) as (u & Eu & Cases).
  assert (u = t') by congruence. subst u. clear Eu.
  pose proof (uncached_nonzero _ Hs) as Ns. pose proof (uncached_nonzero _ He) as Ne.
  unfold MAX_BUFFERS in *.
  destruct Cases as [(B & Rr & Ww)|[(bp & Hbp & Es & B & Ww & Rr)|(B & Ww & Rr)]].
  - unfold trace_ok, ring_ok, is_pending, pending. rewrite B, Rr, Ww. auto.
  - assert (Sbp : slot_ok bp).
    { eapply Forall_forall; [exact Sl|]. eapply index_elem, Hbp. }
    split; [|split].
    + unfold ring_ok, MAX_BUFFERS. rewrite B, length_insert, Ww, Rr.
      destruct (_ =? _); auto.
    + rewrite B. apply Forall_insert_nat; [exact Sl|].
      intros N. cbn in *. destruct (Sbp N). auto.
    + intros i b (Ii & Ip) Hb. unfold pending, MAX_BUFFERS in Ip.
      rewrite Ww, Rr in Ip. rewrite B in Hb.
      destruct (Z.eq_dec i (prev_slot t)) as [->|Ni].
      * rewrite index_insert_same in Hb by lia. injection Hb as <-. cbn. congruence.
      * rewrite index_insert_other in Hb by lia.
        destruct (Z.eqb_spec (buf_ridx t) (buf_widx t)) as [Em|Nm].
        -- exfalso. apply Ni. unfold prev_slot, MAX_BUFFERS in *.
           now apply (cyc_prev (buf_widx t) i).
        -- eapply Pe; [|exact Hb]. split; [exact Ii|]. exact Ip.
  - split; [|split].
    + unfold ring_ok, MAX_BUFFERS. rewrite B, length_insert, Ww, Rr.
      split; [exact Len|].
      pose proof (Z.mod_pos_bound (buf_widx t + 1) 12 ltac:(lia)).
      pose proof (Z.mod_pos_bound (buf_ridx t + 1) 12 ltac:(lia)).
      destruct (_ =? _); auto.
    + rewrite B. apply Forall_insert_nat; [exact Sl|]. intros _. cbn. auto.
    + intros i b (Ii & Ip) Hb. unfold pending, MAX_BUFFERS in Ip.
      rewrite Ww, Rr in Ip. rewrite B in Hb.
      destruct (cyc_push (buf_ridx t) (buf_widx t) i Ri Wi Ii Ip) as [->|[Ni Old]].
      * rewrite index_insert_same in Hb by lia. injection Hb as <-. cbn. exact Ns.
      * rewrite index_insert_other in Hb by lia.
        eapply Pe; [|exact Hb]. split; [exact Ii|]. exact Old.
Qed.

Lemma disasm_size_pos w : 1 <= rdpq_debug_disasm_size w.
Proof. unfold rdpq_debug_disasm_size. repeat (destruct (_ =? _); [lia|]). lia. Qed.

(** The commands of a buffer do not change the ring, and the loop over
    them ends. *)
Lemma trace_commands_ring fuel rdram : forall cur end_ t v,
  (Z.to_nat (end_ - cur) <= fuel)%nat ->
  trace_commands fuel rdram cur end_ t v <> OutOfFuel /\
  forall t' v', trace_commands fuel rdram cur end_ t v = Done (t', v') ->
    buffers t' = buffers t /\ buf_ridx t' = buf_ridx t /\ buf_widx t' = buf_widx t.
Proof.
  induction fuel as [|fuel IH]; intros cur end_ t v F; cbn [trace_commands].
  - destruct (Z.ltb_spec cur end_); [lia|]. split; [discriminate|].
    intros t' v' [= <- <-]. auto.
  - destruct (Z.ltb_spec cur end_); [|split; [discriminate|intros t' v' [= <- <-]; auto]].
    destruct (rdpq_validate _ _ _) as [[[v1 e] n]|]; [|split; discriminate].
    pose proof (disasm_size_pos (rdram cur)).
    set (t1 := if BITS _ _ _ =? 49 then _ else _).
    assert (B1 : buffers t1 = buffers t /\ buf_ridx t1 = buf_ridx t /\
                 buf_widx t1 = buf_widx t).
    { unfold t1, __rdpq_debug_cmd.
      destruct (_ =? 49), (0 <? show_log t), t; cbn;
        try destruct (_ =? 1); cbn; auto. }
    destruct (IH (cur + 8 * rdpq_debug_disasm_size (rdram cur)) end_ t1 v1) as [N D];
      [lia|].
    split; [exact N|]. intros t' v' E. destruct (D t' v' E) as (-> & -> & ->).
    exact B1.
Qed.

Lemma same_ranges_refl l : same_ranges l l.
Proof. intros i b H. eauto. Qed.

Lemma same_ranges_trans l1 l2 l3 :
  same_ranges l1 l2 -> same_ranges l2 l3 -> same_ranges l1 l3.
Proof.
  intros A B i b H. destruct (A i b H) as (b2 & H2 & S2 & E2).
  destruct (B i b2 H2) as (b3 & H3 & S3 & E3). exists b3. split; [exact H3|].
  split; congruence.
Qed.

Lemma same_ranges_traced l i b e :
  index l i = Some b -> same_ranges l (<[Z.to_nat i := set_buf_traced e b]> l).
Proof.
  intros Hb j c Hc. pose proof (index_range _ _ _ Hb). pose proof (index_range _ _ _ Hc).
  destruct (Z.eq_dec j i) as [->|N].
  - rewrite index_insert_same by lia. assert (c = b) by congruence. subst c.
    eexists. split; [reflexivity|]. auto.
  - rewrite index_insert_other by lia. eauto.
Qed.

(** The outer loop ends with the ring empty. *)
Lemma trace_buffers_drains rdram (m : nat) fuel : forall t v,
  trace_ok t ->
  Forall (fun b => buf_end b - buf_traced b <= Z.of_nat m) (buffers t) ->
  (Z.to_nat (pending t) + m + 1 <= fuel)%nat ->
  trace_buffers fuel rdram t v <> OutOfFuel /\
  forall t' v', trace_buffers fuel rdram t v = Done (t', v') ->
    trace_ok t' /\ buf_ridx t' = buf_widx t' /\ buf_widx t' = buf_widx t /\
    same_ranges (buffers t) (buffers t').
Proof.
  induction fuel as [|fuel IH]; intros t v OK M F; [lia|].
  pose proof OK as (R & Sl & Pe). pose proof R as (Len & Ri & Wi).
  unfold MAX_BUFFERS in *. cbn [trace_buffers].
  destruct (Z.eqb_spec (buf_ridx t) (buf_widx t)) as [Em|Nm]; cbn [negb].
  { split; [discriminate|]. intros t' v' [= <- <-].
    split; [exact OK|]. split; [exact Em|]. split; [reflexivity|].
    apply same_ranges_refl. }
  destruct (index_ok (buffers t) (buf_ridx t)) as [b Hb]; [lia|].
  rewrite Hb, assign_ok by lia.
  destruct (cyc_pop (buf_ridx t) (buf_widx t) (buf_ridx t) Ri Wi Ri Nm)
    as (Cnt & _ & Pos).
  assert (Sb : slot_ok b).
  { eapply Forall_forall; [exact Sl|]. eapply index_elem, Hb. }
  assert (Nb : buf_start b <> 0).
  { eapply Pe; [|exact Hb]. split; [exact Ri|].
    unfold pending, MAX_BUFFERS. now rewrite Z.sub_diag. }
  destruct (Sb Nb) as [Tb Eb].
  destruct (Z.eqb_spec (buf_traced b) 0) as [?|_]; [contradiction|].
  set (bs := <[Z.to_nat (buf_ridx t) := set_buf_traced (buf_end b) b]> (buffers t)).
  set (t1 := set_buf_ridx _ (set_buffers bs t)).
  assert (B1 : buffers t1 = bs) by now destruct t.
  assert (W1 : buf_widx t1 = buf_widx t) by now destruct t.
  assert (R1 : buf_ridx t1 = (buf_ridx t + 1) mod 12).
  { destruct t as [b0 r0 w0 sl0 o0]. cbn in *. apply Z.rem_mod_nonneg; lia. }
  assert (P1 : pending t1 = pending t - 1).
  { unfold pending, MAX_BUFFERS. rewrite W1, R1. exact Cnt. }
  assert (OK1 : trace_ok t1).
  { split; [|split].
    - unfold ring_ok, MAX_BUFFERS. rewrite B1, W1, R1. unfold bs.
      rewrite length_insert. split; [exact Len|]. split; [|exact Wi].
      apply Z.mod_pos_bound. lia.
    - rewrite B1. apply Forall_insert_nat; [exact Sl|]. intros _. cbn. auto.
    - intros i c (Ii & Ip) Hc. unfold pending, MAX_BUFFERS in Ip.
      rewrite W1, R1 in Ip. rewrite B1 in Hc.
      destruct (cyc_pop (buf_ridx t) (buf_widx t) i Ri Wi Ii Nm) as (_ & St & _).
      destruct (St Ip) as [Ni Old]. unfold bs in Hc.
      rewrite index_insert_other in Hc by lia.
      eapply Pe; [|exact Hc]. split; [exact Ii|exact Old]. }
  assert (M1 : Forall (fun b => buf_end b - buf_traced b <= Z.of_nat m) bs).
  { apply Forall_insert_nat; [exact M|]. cbn. lia. }
  assert (Mb : buf_end b - buf_traced b <= Z.of_nat m).
  { eapply (proj1 (Forall_forall _ _) M). eapply index_elem, Hb. }
  unfold pending, MAX_BUFFERS in F.
  destruct (trace_commands_ring fuel rdram (buf_traced b) (buf_end b) t1 v) as [N D];
    [lia|].
  destruct (trace_commands fuel rdram (buf_traced b) (buf_end b) t1 v)
    as [[t2 v2]| |]; [|split; discriminate|contradiction].
  destruct (D t2 v2 eq_refl) as (B2 & R2 & W2).
  assert (OK2 : trace_ok t2).
  { unfold trace_ok, ring_ok, is_pending, pending. rewrite B2, R2, W2. exact OK1. }
  destruct (IH t2 v2 OK2) as [N' D'].
  { rewrite B2, B1. exact M1. }
  { unfold pending, MAX_BUFFERS in *. rewrite R2, W2. rewrite W1, R1 in P1 |- *. lia. }
  split; [exact N'|]. intros t' v' E.
  destruct (D' t' v' E) as (OK' & Em' & Ww' & Sr').
  split; [exact OK'|]. split; [exact Em'|]. split; [congruence|].
  eapply same_ranges_trans; [|exact Sr']. rewrite B2, B1. unfold bs.
  now apply same_ranges_traced.
Qed.

Lemma work_bound (l : list rdp_buffer_t) :
  exists m : nat, Forall (fun b => buf_end b - buf_traced b <= Z.of_nat m) l.
Proof.
  induction l as [|b l [m IH]]; [exists 0%nat; constructor|].
  exists (Nat.max m (Z.to_nat (buf_end b - buf_traced b))). constructor; [lia|].
  eapply Forall_impl; [exact IH|]. cbn. intros; lia.
Qed.

(** X21: [__rdpq_trace] returns, unless the validator runs into undefined
    behaviour, and then the ring is empty and its invariant holds; a
    second call, with the RDP registers unchanged, finds nothing to do:
    no command is validated twice. *)
Theorem rdpq_trace_drains (dp_start dp_end : Z) (rdram : Z -> Z)
    (t : trace_t) (v : validator_t) :
  trace_ok t -> 0 <= dp_start -> 0 <= dp_end ->
  exists n : nat, forall fuel, (n <= fuel)%nat ->
    __rdpq_trace fuel dp_start dp_end rdram t v <> OutOfFuel /\
    forall t' v',
      __rdpq_trace fuel dp_start dp_end rdram t v = Done (t', v') ->
      trace_ok t' /\ buf_ridx t' = buf_widx t' /\
      (uncached dp_start <= uncached dp_end ->
       __rdpq_trace fuel dp_start dp_end rdram t' v' = Done (t', v')).
Proof.
  intros OK Hs He. pose proof OK as (R & _).
  destruct (trace_fetch_ring_aux dp_start dp_end t R) as (t1 & E1 & R1 & _ & Val).
  pose proof (trace_fetch_ok _ _ _ _ OK Hs He E1) as OK1.
  destruct (work_bound (buffers t1)) as [m Hm].
  exists (Z.to_nat (pending t1) + m + 1)%nat. intros fuel F.
  unfold __rdpq_trace at 1 2. rewrite E1.
  destruct (trace_buffers_drains rdram m fuel t1 v OK1 Hm F) as [N D].
  split; [exact N|]. intros t' v' E.
  destruct (D t' v' E) as (OK' & Em' & Ww' & Sr').
  split; [exact OK'|]. split; [exact Em'|]. intros Le.
  assert (F' : __rdpq_trace_fetch dp_start dp_end t' = Some t').
  { unfold __rdpq_trace_fetch.
    destruct (Z.eqb_spec (uncached dp_start) (uncached dp_end)) as [?|Ne];
      [reflexivity|].
    destruct (Z.ltb_spec (uncached dp_end) (uncached dp_start)) as [?|_]; [lia|].
    destruct Val as ((b & Hb & Sb & Eb) & _); [lia|].
    assert (P' : prev_slot t' = prev_slot t1) by (unfold prev_slot; now rewrite Ww').
    destruct (Sr' _ _ Hb) as (b' & Hb' & Sb' & Eb').
    rewrite P', Hb'. cbn [mbind option_bind]. rewrite Sb', Eb', Sb, Eb.
    now rewrite !Z.eqb_refl. }
  unfold __rdpq_trace. rewrite F'.
  destruct fuel as [|fuel]; [lia|]. cbn [trace_buffers].
  rewrite Em', Z.eqb_refl. reflexivity.
Qed.

(** ** The theorems above at concrete inputs *)

Lemma heap_ok_sample_init : heap_ok sample_init.
Proof.
  split; [reflexivity|].
  intros b [[x H]|[x H]]; exfalso; revert H;
    [change (heap sample_init) with (∅ : gmap Z Z)
    |change (blocks sample_init) with (∅ : gmap Z rdpq_block_t)];
    rewrite lookup_empty; discriminate.
Qed.

Lemma trace_ok_init : trace_ok trace_init.
Proof.
  split; [|split].
  - repeat split; try reflexivity; vm_compute; discriminate.
  - apply Forall_replicate. intros N. now contradiction N.
  - intros i b [_ P]. change (pending trace_init) with 0 in P.
    pose proof (Z.mod_pos_bound (i - buf_ridx trace_init) MAX_BUFFERS eq_refl) as B.
    destruct B as [B _]. exfalso. revert P B.
    generalize ((i - buf_ridx trace_init) mod MAX_BUFFERS). intros; lia.
Qed.

Lemma rdpq_validate_draw_witness :
  exists v' e n, rdpq_validate 0 (rdp_word 0x36) validator_init = Some (v', e, n).
Proof.
  apply (rdpq_validate_draw 0 (rdp_word 0x36) validator_init). reflexivity.
Defined.

Lemma lazy_validate_rendermode_once_witness :
  exists v' e n,
    rdpq_validate 0 (rdp_word 0x2F) validator_init = Some (v', e, n) /\
    mode_changed v' = true /\
    mode_changed (lazy_validate_rendermode v') = false.
Proof.
  apply (proj2 (proj2 (lazy_validate_rendermode_once 0 (rdp_word 0x2F)
                         validator_init))).
  left. reflexivity.
Defined.

Lemma rdpq_validate_pipe_discipline_witness :
  exists v1 e1 n1,
    rdpq_validate 0 (rdp_word 0x36) validator_init = Some (v1, e1, n1) /\
    exists v2 vs,
      rdpq_validate 0 (rdp_word 0x37) v1 = Some (v2, 0, 1) /\
      busy_pipe v2 = false /\
      rdpq_validate 0 (rdp_word 0x37) v2 = Some (v2, 0, 0) /\
      rdpq_validate 0 (rdp_word 0x27) v1 = Some (vs, 0, 0) /\
      rdpq_validate 0 (rdp_word 0x37) vs = Some (vs, 0, 0).
Proof.
  destruct (rdpq_validate 0 (rdp_word 0x36) validator_init)
    as [[[v1 e1] n1]|] eqn:H; [|vm_compute in H; discriminate].
  exists v1, e1, n1. split; [reflexivity|].
  apply (rdpq_validate_pipe_discipline 0 (rdp_word 0x36) (rdp_word 0x37)
           validator_init v1 e1 n1); [reflexivity|reflexivity|exact H].
Defined.

Lemma rdpq_validate_tile_discipline_witness :
  exists v1 e1 n1,
    rdpq_validate 0 (rdp_word 0x24) validator_init = Some (v1, e1, n1) /\
    exists v2 e2 n2 vs v3,
      rdpq_validate 0 (rdp_word 0x35) v1 = Some (v2, e2, n2 + 1) /\
      rdpq_validate 0 (rdp_word 0x28) v1 = Some (vs, 0, 0) /\
      rdpq_validate 0 (rdp_word 0x35) vs = Some (v3, e2, n2).
Proof.
  destruct (rdpq_validate 0 (rdp_word 0x24) validator_init)
    as [[[v1 e1] n1]|] eqn:H; [|vm_compute in H; discriminate].
  exists v1, e1, n1. split; [reflexivity|].
  apply (rdpq_validate_tile_discipline 0 (rdp_word 0x24) (rdp_word 0x35)
           validator_init v1 e1 n1); [reflexivity|reflexivity|reflexivity|exact H].
Defined.

Lemma trace_fetch_ring_witness :
  exists t',
    __rdpq_trace_fetch 0x1000 0x1040 trace_init = Some t' /\ ring_ok t' /\
    __rdpq_trace_fetch 0x1000 0x1040 t' = Some t'.
Proof.
  destruct (trace_fetch_ring 0x1000 0x1040 trace_init) as (t' & E & R & _ & V).
  - repeat split; try reflexivity; vm_compute; discriminate.
  - exists t'. split; [exact E|]. split; [exact R|]. apply V. reflexivity.
Defined.

Lemma rdpq_trace_drains_witness :
  exists n : nat, forall fuel, (n <= fuel)%nat ->
    __rdpq_trace fuel 0x1000 0x1040 (fun _ => 0) trace_init validator_init
    <> OutOfFuel.
Proof.
  destruct (rdpq_trace_drains 0x1000 0x1040 (fun _ => 0) trace_init validator_init)
    as [n H]; [exact trace_ok_init|lia|lia|].
  exists n. intros fuel F. apply (H fuel F).
Defined.

Section MoreWitnesses.
#[local] Existing Instance sample_headers.
#[local] Existing Instance sample_draw_headers.

Lemma wf_sample_recording : wf sample_recording.
Proof. intros _. split; [vm_compute; discriminate|]. intros _. reflexivity. Qed.

Lemma wf_sample_init : wf sample_init.
Proof. intros B. vm_compute in B. discriminate. Qed.

Lemma classes_ok_sample : autosync_classes_ok.
Proof. vm_compute. repeat split; try discriminate; reflexivity. Qed.

Lemma autosync_change_idempotent_witness :
  sizeof_rdpq_block_t mod 8 = 0 /\
  exists s', autosync_change 0x100FF sample_dirty = Some s' /\
             autosync_change 0x100FF s' = Some s'.
Proof.
  assert (A : sizeof_rdpq_block_t mod 8 = 0) by reflexivity.
  split; [exact A|].
  apply (autosync_change_idempotent A 0x100FF sample_dirty).
  - exact classes_ok_sample.
  - intros B. vm_compute in B. discriminate.
Defined.

Lemma block_free_releases_chain_witness :
  exists s',
    __rdpq_block_free (rdpq_block_first sample_recording) sample_recording = Some s' /\
    __rdpq_block_free (rdpq_block_first sample_recording) s' = None.
Proof.
  destruct (block_free_releases_chain (rdpq_block_first sample_recording)
              [rdpq_block_first sample_recording] sample_recording)
    as (s' & E & _ & _ & _ & D).
  - split; [reflexivity|]. split; [vm_compute; discriminate|].
    exists {| next := NULL; autosync_state := 0 |}.
    split; [vm_compute; reflexivity|reflexivity].
  - exists s'. split; [exact E|]. apply D. vm_compute. discriminate.
Defined.

Lemma rdpq_write_in_bounds_witness :
  exists s' l',
    rdpq_write 0x27 0 [0] (__rdpq_block_begin sample_init) = Some s' /\
    recording (heap sample_init) (blocks sample_init) l' s'.
Proof.
  assert (A : sizeof_rdpq_block_t mod 8 = 0) by reflexivity.
  assert (N : 0 <= sizeof_rdpq_block_t) by (vm_compute; discriminate).
  destruct (rdpq_write_in_bounds A N (heap sample_init) (blocks sample_init) []
              (0x27, 0, [0]) (__rdpq_block_begin sample_init))
    as (s' & l' & E & R & _).
  - apply recording_begin, heap_ok_sample_init.
  - split; [vm_compute; discriminate|reflexivity].
  - exists s', l'. split; [exact E|exact R].
Defined.

Lemma record_and_free_restores_heap_witness :
  exists s',
    record_and_free [(0x27, 0, [0]); (0x28, 0, [0; 0; 0])] sample_init = Some s' /\
    heap s' = heap sample_init /\ blocks s' = blocks sample_init.
Proof.
  assert (A : sizeof_rdpq_block_t mod 8 = 0) by reflexivity.
  assert (N : 0 <= sizeof_rdpq_block_t) by (vm_compute; discriminate).
  apply (record_and_free_restores_heap A N
           [(0x27, 0, [0]); (0x28, 0, [0; 0; 0])] sample_init).
  - exact heap_ok_sample_init.
  - repeat constructor; vm_compute; discriminate.
Defined.

End MoreWitnesses.

Section CoalesceWitness.
#[local] Existing Instance sample_headers.

Lemma static_writes_coalesce_witness :
  exists s',
    rdpq_static_write 0x27 0 [0] sample_recording = Some s' /\
    rspq_cur_pointer s' = rspq_cur_pointer sample_recording /\
    coalescible s'.
Proof.
  destruct (static_writes_coalesce 0x27 0 [0] sample_recording)
    as (s' & E & C & _ & _ & _ & _ & _ & K).
  - vm_compute. reflexivity.
  - vm_compute. reflexivity.
  - vm_compute. reflexivity.
  - vm_compute. reflexivity.
  - vm_compute. split; [discriminate|reflexivity].
  - vm_compute. split; [discriminate|reflexivity].
  - vm_compute. split; [discriminate|reflexivity].
  - vm_compute. intros [A B]. now apply A.
  - vm_compute. discriminate.
  - split; vm_compute; reflexivity.
  - exists s'. split; [exact E|]. split; [exact C|exact K].
Defined.

End CoalesceWitness.

(** ** Where the writer puts a command *)

Lemma words_at_app p a b s :
  words_at p a s -> words_at (p + 4 * Z.of_nat (length a)) b s ->
  words_at p (a ++ b) s.
Proof.
  intros A B i w H. apply lookup_app_Some in H as [H|[Hl H]].
  - now apply A.
  - replace (p + 4 * Z.of_nat i)
      with (p + 4 * Z.of_nat (length a) + 4 * Z.of_nat (i - length a)) by lia.
    now apply B.
Qed.

Lemma words_at_keep p ws s s' :
  words_at p ws s ->
  (forall a, p <= a < p + 4 * Z.of_nat (length ws) -> load a s' = load a s) ->
  words_at p ws s'.
Proof.
  intros A F i w H. rewrite F; [now apply A|].
  apply lookup_lt_Some in H. lia.
Qed.

Lemma length_cmd_words cmd a0 args :
  Z.of_nat (length (cmd_words (cmd, a0 :: args))) = 1 + Z.of_nat (length args).
Proof. unfold cmd_words. cbn [snd length]. rewrite length_map. lia. Qed.

Lemma stored_after_le lo cmds hi s : stored_after lo cmds hi s -> lo <= hi.
Proof.
  revert lo. induction cmds as [|c cmds IH]; intros lo; cbn [stored_after];
    [auto|].
  intros (p & Lo & _ & _ & R). apply IH in R. lia.
Qed.

Lemma stored_after_mono lo lo' cmds hi hi' s :
  stored_after lo cmds hi s -> lo' <= lo -> hi <= hi' ->
  stored_after lo' cmds hi' s.
Proof.
  revert lo lo'. induction cmds as [|c cmds IH]; intros lo lo';
    cbn [stored_after]; [lia|].
  intros (p & Lo & Wd & Av & R) L H. exists p. split; [lia|].
  split; [exact Wd|]. split; [exact Av|]. apply (IH _ _ R); lia.
Qed.

Lemma stored_after_keep lo cmds hi s s' :
  stored_after lo cmds hi s ->
  (forall a, lo <= a < hi -> a <> last_rdp_cmd s -> load a s' = load a s) ->
  (last_rdp_cmd s' = last_rdp_cmd s \/ ~ (lo <= last_rdp_cmd s' < hi)) ->
  stored_after lo cmds hi s'.
Proof.
  revert lo. induction cmds as [|c cmds IH]; intros lo; cbn [stored_after];
    [auto|].
  intros (p & Lo & Wd & Av & R) F L. pose proof (stored_after_le _ _ _ _ R) as Le.
  exists p. split; [lia|]. split; [|split].
  - apply (words_at_keep _ _ s); [exact Wd|]. intros a Ha. apply F; lia.
  - destruct L as [->|L]; [exact Av|]. lia.
  - apply IH; [exact R| |].
    + intros a Ha. apply F. lia.
    + destruct L as [L|L]; [now left|right; lia].
Qed.

Lemma stored_after_app lo c1 mid c2 hi s :
  stored_after lo c1 mid s -> stored_after mid c2 hi s ->
  stored_after lo (c1 ++ c2) hi s.
Proof.
  revert lo. induction c1 as [|c c1 IH]; intros lo; cbn [stored_after app].
  - intros L R. apply (stored_after_mono mid _ _ hi); [exact R|lia|lia].
  - intros (p & Lo & Wd & Av & R) R2. exists p. auto.
Qed.

Lemma stored_from_after lo cmds hi s :
  stored_from lo cmds hi s -> stored_after lo cmds hi s.
Proof.
  destruct cmds as [|c cmds]; cbn [stored_from stored_after]; [auto|].
  intros (Wd & Av & R). exists lo. split; [lia|auto].
Qed.

Lemma stored_from_le lo cmds hi s : stored_from lo cmds hi s -> lo <= hi.
Proof. intros H. apply stored_from_after in H. now apply stored_after_le in H. Qed.

Lemma stored_from_keep lo cmds hi s s' :
  stored_from lo cmds hi s ->
  (forall a, lo <= a < hi -> a <> last_rdp_cmd s -> load a s' = load a s) ->
  (last_rdp_cmd s' = last_rdp_cmd s \/ ~ (lo <= last_rdp_cmd s' < hi)) ->
  stored_from lo cmds hi s'.
Proof.
  destruct cmds as [|c cmds]; cbn [stored_from]; [auto|].
  intros (Wd & Av & R) F L. pose proof (stored_after_le _ _ _ _ R) as Le.
  split; [|split].
  - apply (words_at_keep _ _ s); [exact Wd|]. intros a Ha. apply F; lia.
  - destruct L as [->|L]; [exact Av|]. lia.
  - apply (stored_after_keep _ _ _ s); [exact R| |].
    + intros a Ha. apply F. lia.
    + destruct L as [L|L]; [now left|right; lia].
Qed.

Lemma stored_from_app lo c1 mid c2 hi s :
  stored_from lo c1 mid s -> stored_from mid c2 hi s ->
  c1 <> [] \/ c2 = [] \/ mid = lo ->
  stored_from lo (c1 ++ c2) hi s.
Proof.
  intros A B C. pose proof (stored_from_le _ _ _ _ A) as L1.
  pose proof (stored_from_le _ _ _ _ B) as L2.
  destruct c1 as [|c c1]; cbn [app].
  - destruct C as [C|[C|C]]; [contradiction| |].
    + subst c2. cbn [stored_from]. cbn [stored_from] in A, B. lia.
    + subst mid. exact B.
  - cbn [stored_from] in A |- *. destruct A as (Wd & Av & R).
    split; [exact Wd|]. split; [exact Av|].
    apply (stored_after_app _ _ mid); [exact R|]. now apply stored_from_after.
Qed.

Lemma queued_refl s : queued [] s s.
Proof.
  unfold queued, queue_words. cbn. split; [lia|]. split; [|auto].
  intros i w H. discriminate.
Qed.

Lemma queue_words_app a b : queue_words (a ++ b) = queue_words a ++ queue_words b.
Proof. unfold queue_words. now rewrite map_app, concat_app. Qed.

Lemma queued_trans c1 c2 s s1 s2 :
  queued c1 s s1 -> queued c2 s1 s2 -> queued (c1 ++ c2) s s2.
Proof.
  unfold queued. intros (A1 & A2 & A3) (B1 & B2 & B3).
  rewrite queue_words_app, length_app, Nat2Z.inj_add.
  split; [lia|]. split.
  - apply words_at_app.
    + apply (words_at_keep _ _ s1); [exact A2|]. intros a Ha. apply B3. lia.
    + rewrite <- A1. exact B2.
  - intros a Ha. rewrite B3, A3; [reflexivity|lia|lia].
Qed.

Section DeliveryFacts.
Context `{Hdr : Headers}.
Hypothesis sizeof_aligned : sizeof_rdpq_block_t mod 8 = 0.

Lemma block_apart_room Q r r' s : block_apart Q r s -> r' <= r -> block_apart Q r' s.
Proof.
  unfold block_apart. intros (A & Sz & HQ & HL & HC & HB) Le.
  split_and!; try assumption; lia.
Qed.

Lemma tail_apart Q r s : block_apart Q r s -> Q <= write_tail s.
Proof.
  intros (A & Sz & HQ & HL & HC & HB). unfold write_tail.
  destruct (Z.eqb_spec (rdpq_block s) NULL) as [E|E].
  - destruct (align16 (heap_top s)) as [[Lo Hi] _]. lia.
  - apply HB, E.
Qed.

Lemma tail_ptr s : rdpq_block s <> NULL -> write_tail s = rdpq_block_ptr s.
Proof.
  intros N. unfold write_tail. now destruct (Z.eqb_spec (rdpq_block s) NULL).
Qed.

Lemma recorded_refl s : recorded [] [] s s.
Proof.
  unfold recorded. cbn [stored_after stored_from].
  split; [lia|]. split; [lia|]. apply touches_refl.
Qed.

(** Two steps of a recording, one after the other. *)
Lemma recorded_trans Q r r1 r2 q1 b1 q2 b2 s s1 s2 :
  0 <= r -> 0 <= r1 -> 0 <= r2 ->
  block_apart Q r s -> block_apart Q r1 s1 -> block_apart Q r2 s2 ->
  recorded q1 b1 s s1 -> recorded q2 b2 s1 s2 ->
  b1 <> [] \/ b2 = [] \/ write_tail s1 = write_tail s ->
  recorded (q1 ++ q2) (b1 ++ b2) s s2.
Proof.
  intros R0 R1 R2 I0 I1 I2 (QA & BA & TA) (QB & BB & TB) Side.
  pose proof (tail_apart _ _ _ I0) as G0.
  pose proof (tail_apart _ _ _ I1) as G1.
  pose proof (tail_apart _ _ _ I2) as G2.
  destruct I0 as (_ & _ & _ & L0 & C0 & _).
  destruct I1 as (_ & _ & _ & L1 & C1 & _).
  destruct I2 as (_ & _ & _ & L2 & C2 & _).
  pose proof (stored_after_le _ _ _ _ QA) as Q01.
  pose proof (stored_after_le _ _ _ _ QB) as Q12.
  pose proof (stored_from_le _ _ _ _ BA) as T01.
  pose proof (stored_from_le _ _ _ _ BB) as T12.
  pose proof TB as (_ & LB & FB).
  split; [|split].
  - apply (stored_after_app _ _ (rspq_cur_pointer s1)); [|exact QB].
    apply (stored_after_keep _ _ _ s1); [exact QA| |].
    + intros a Ha Na. apply FB; unfold in_queue; lia.
    + destruct LB as [LB|LB]; [now left|right; lia].
  - apply (stored_from_app _ _ (write_tail s1)); [|exact BB|exact Side].
    apply (stored_from_keep _ _ _ s1); [exact BA| |].
    + intros a Ha Na. apply FB; unfold in_queue; lia.
    + right. lia.
  - apply (touches_trans _ s s1).
    + eapply touches_weaken, TA. cbv beta. intros x Hx. lia.
    + eapply touches_weaken, TB. cbv beta. intros x Hx. lia.
Qed.

(** The dirty mask is no part of where the commands are. *)
Lemma recorded_state0 q b v s s' :
  recorded q b s s' -> recorded q b s (set_rdpq_autosync_state0 v s').
Proof.
  intros (QA & BA & TA).
  assert (Ld : forall a, load a (set_rdpq_autosync_state0 v s') = load a s')
    by (intros a; now destruct s').
  assert (Wt : write_tail (set_rdpq_autosync_state0 v s') = write_tail s')
    by now destruct s'.
  assert (Cu : rspq_cur_pointer (set_rdpq_autosync_state0 v s') = rspq_cur_pointer s')
    by now destruct s'.
  assert (La : last_rdp_cmd (set_rdpq_autosync_state0 v s') = last_rdp_cmd s')
    by now destruct s'.
  split; [|split].
  - rewrite Cu. apply (stored_after_keep _ _ _ s'); auto.
  - rewrite Wt. apply (stored_from_keep _ _ _ s'); auto.
  - unfold touches, in_queue in *. rewrite Wt, Cu, La.
    destruct TA as (T1 & T2 & T3). split; [exact T1|]. split; [exact T2|].
    intros x. rewrite Ld. apply T3.
Qed.

Lemma queued_state0 q v s s' :
  queued q s s' -> queued q s (set_rdpq_autosync_state0 v s').
Proof.
  unfold queued. intros (A1 & A2 & A3).
  assert (Ld : forall a, load a (set_rdpq_autosync_state0 v s') = load a s')
    by (intros a; now destruct s').
  assert (Cu : rspq_cur_pointer (set_rdpq_autosync_state0 v s') = rspq_cur_pointer s')
    by now destruct s'.
  rewrite Cu. split; [exact A1|]. split.
  - intros i w H. rewrite Ld. now apply A2.
  - intros a Ha. rewrite Ld. now apply A3.
Qed.

Lemma block_apart_state0 Q r v s :
  block_apart Q r s -> block_apart Q r (set_rdpq_autosync_state0 v s).
Proof. now destruct s. Qed.

Lemma wf_state0 v s : wf s -> wf (set_rdpq_autosync_state0 v s).
Proof. now destruct s. Qed.

(** [rdpq_dynamic_write] stores the command at the cursor of the CP
    queue. *)
Lemma dynamic_write_mem cmd a0 args s :
  let s' := rdpq_dynamic_write cmd a0 args s in
  rspq_cur_pointer s'
  = rspq_cur_pointer s + 4 * Z.of_nat (length (cmd_words (cmd, a0 :: args))) /\
  words_at (rspq_cur_pointer s) (cmd_words (cmd, a0 :: args)) s' /\
  (forall a, ~ (rspq_cur_pointer s <= a < rspq_cur_pointer s') ->
             load a s' = load a s) /\
  last_rdp_cmd s' = last_rdp_cmd s /\
  recorder_view s' = recorder_view s /\
  rdpq_block_ptr s' = rdpq_block_ptr s /\ rdpq_block_end s' = rdpq_block_end s.
Proof.
  cbv zeta. unfold rdpq_dynamic_write, rspq_write.
  change (uint32_t (Z.lor (RDPQ_OVL_ID + Z.shiftl cmd 24) a0) :: map uint32_t args)
    with (cmd_words (cmd, a0 :: args)).
  set (ws := cmd_words (cmd, a0 :: args)).
  set (t := log_cmd cmd (a0 :: args) s).
  assert (Ct : rspq_cur_pointer t = rspq_cur_pointer s) by now destruct s.
  assert (Lt : forall a, load a t = load a s) by (intros a; now destruct s).
  rewrite Ct.
  assert (A : forall a p, load a (set_rspq_cur_pointer p
                                    (store_words (rspq_cur_pointer s) ws t))
                          = load a (store_words (rspq_cur_pointer s) ws t)).
  { intros a p. unfold load. now destruct (store_words _ _ _). }
  pose proof (length_cmd_words cmd a0 args) as Len. fold ws in Len.
  destruct (store_words_frame (rspq_cur_pointer s) ws t) as [m E].
  assert (Cu : rspq_cur_pointer
                 (set_rspq_cur_pointer
                    (rspq_cur_pointer (store_words (rspq_cur_pointer s) ws t)
                     + 4 * (1 + Z.of_nat (length args)))
                    (store_words (rspq_cur_pointer s) ws t))
               = rspq_cur_pointer s + 4 * Z.of_nat (length ws)).
  { rewrite E. unfold t. destruct s. rdpq_simpl. lia. }
  split; [exact Cu|]. split; [|split].
  - intros i w H. rewrite A. now apply load_store_words.
  - intros a Ha. rewrite Cu in Ha. rewrite A, load_store_words_out, Lt by lia.
    reflexivity.
  - rewrite E. unfold t. destruct s. rdpq_simpl. auto.
Qed.

(** Outside a recording [rdpq_dynamic_write] is all there is. *)
Lemma dynamic_write_queued cmd a0 args s :
  queued [(cmd, a0 :: args)] s (rdpq_dynamic_write cmd a0 args s).
Proof.
  destruct (dynamic_write_mem cmd a0 args s) as (C & Wd & F & _).
  unfold queued, queue_words. cbn [map concat]. rewrite app_nil_r. auto.
Qed.

Lemma flush_cursor_le a b s s' :
  __rdpq_block_flush a b s = Some s' ->
  rspq_cur_pointer s' <= rspq_cur_pointer s + 8.
Proof.
  unfold __rdpq_block_flush. destruct (negb _); [discriminate|].
  destruct (negb _); [discriminate|]. destruct (_ && _); intros [= <-].
  - destruct s. rdpq_simpl. lia.
  - unfold rspq_int_write, rspq_write. cbn [store_words map length].
    destruct s. rdpq_simpl. lia.
Qed.

Lemma next_buffer_cursor_le s s' :
  __rdpq_block_next_buffer s = Some s' ->
  rspq_cur_pointer s' <= rspq_cur_pointer s + 8.
Proof.
  unfold __rdpq_block_next_buffer, malloc_uncached.
  destruct s as [bp be ba cfg st0 st1 blk first sz last cur m0 bl hp top em].
  rdpq_simpl. unfold __rdpq_block_switch_buffer.
  destruct (blk =? NULL); rdpq_simpl; destruct (first =? NULL); rdpq_simpl;
    (destruct (negb _); [discriminate|]);
    (destruct (__rdpq_block_flush _ _ _) as [t|] eqn:F; [|discriminate]);
    apply flush_cursor_le in F; rdpq_simpl in F; cbn [mbind option_bind];
    intros [= <-]; destruct (_ <? _); destruct t; rdpq_simpl; rdpq_simpl in F;
    exact F.
Qed.

(** [__rdpq_block_check] while recording: the block has a buffer afterwards
    and the tail is where it was announced. *)
Lemma block_check_recorded Q r s :
  wf s -> 0 <= r -> block_apart Q (r + 8) s ->
  exists s1, __rdpq_block_check s = Some s1 /\ wf s1 /\ block_apart Q r s1 /\
             rdpq_block s1 <> NULL /\ write_tail s1 = write_tail s /\
             recorded [] [] s s1 /\ emits [] s s1.
Proof.
  intros W Hr I. pose proof I as (A & Sz & HQ & HL & HC & HB).
  destruct (W A) as [Hs Hp].
  unfold __rdpq_block_check. rewrite A. cbn [andb].
  destruct (Z.eqb_spec (rdpq_block s) NULL) as [E|E].
  - destruct (next_buffer_spec sizeof_aligned s Hs)
      as (s1 & E1 & A1 & B1 & F1 & Z1 & BL1 & HP1 & TOP1 & P1 & En1 & T1).
    pose proof (next_buffer_cursor_le _ _ E1) as C1.
    destruct (next_buffer_ok sizeof_aligned s Hs) as (s1' & E1' & Em & Hs1 & Hp1).
    rewrite E1 in E1'. injection E1' as <-.
    destruct (align16 (heap_top s)) as [[Lo Hi] _].
    assert (Nb : rdpq_block s1 <> NULL) by (rewrite B1; unfold NULL; lia).
    assert (Wt : write_tail s1 = write_tail s).
    { rewrite (tail_ptr s1 Nb), P1. unfold write_tail. rewrite E.
      reflexivity. }
    pose proof T1 as (T1a & T1b & _).
    exists s1. split; [exact E1|]. split; [intros _; auto|].
    split; [|split; [exact Nb|split; [exact Wt|split; [|exact Em]]]].
    + unfold block_apart. rewrite A1, TOP1, P1, En1.
      unfold RDPQ_MAX_COMMAND_SIZE in *. split_and!; try lia; auto.
    + unfold recorded. cbn [stored_after stored_from]. rewrite Wt.
      split; [exact T1a|]. split; [lia|].
      eapply touches_weaken, T1. now intros.
  - exists s. split; [reflexivity|]. split; [exact W|].
    split; [apply (block_apart_room _ _ _ _ I); lia|].
    split; [exact E|]. split; [reflexivity|].
    split; [apply recorded_refl|apply emits_refl].
Qed.

End DeliveryFacts.

Section DeliveryWrites.
Context `{Hdr : Headers}.
Hypothesis sizeof_aligned : sizeof_rdpq_block_t mod 8 = 0.

(** [rdpq_static_write] up to its buffer switch, with the queue apart from
    the write pointer: the command is at the write pointer afterwards. *)
Lemma static_write_mem cmd a0 args s :
  rdpq_block_ptr s mod 8 = 0 -> (4 * (1 + Z.of_nat (length args))) mod 8 = 0 ->
  last_rdp_cmd s < rspq_cur_pointer s ->
  rspq_cur_pointer s + 8 <= rdpq_block_ptr s ->
  exists s3,
    rdpq_static_write cmd a0 args s
    = (if rdpq_block_end s <? rdpq_block_ptr s + 4 * (1 + Z.of_nat (length args))
       then __rdpq_block_next_buffer s3 else Some s3) /\
    recorder_view s3 = recorder_view s /\
    rdpq_block_ptr s3 = rdpq_block_ptr s + 4 * (1 + Z.of_nat (length args)) /\
    rdpq_block_end s3 = rdpq_block_end s /\
    touches (fun x => rdpq_block_ptr s <= x
                      < rdpq_block_ptr s + 4 * (1 + Z.of_nat (length args))) s s3 /\
    words_at (rdpq_block_ptr s) (cmd_words (cmd, a0 :: args)) s3 /\
    rspq_cur_pointer s3 <= rspq_cur_pointer s + 8.
Proof.
  intros Hp Hl HL HC. unfold rdpq_static_write.
  change (uint32_t (Z.lor (RDPQ_OVL_ID + Z.shiftl cmd 24) a0) :: map uint32_t args)
    with (cmd_words (cmd, a0 :: args)).
  pose proof (length_cmd_words cmd a0 args) as Len.
  set (ws := cmd_words (cmd, a0 :: args)) in *.
  destruct s as [bp be ba cfg st0 st1 blk first sz last cur m0 bl hp top em].
  rdpq_simpl. rdpq_simpl in Hp. rdpq_simpl in HL. rdpq_simpl in HC.
  match goal with
  | |- context [store_words ?a ws ?t] =>
      destruct (store_words_frame a ws t) as [m1 E1];
      pose proof (fun x => load_store_words_out x a ws t) as O1;
      pose proof (fun i w => load_store_words a ws t i w) as I1;
      rewrite E1 in O1, I1 |- *
  end.
  rewrite Len in O1. unfold load in O1, I1.
  rdpq_simpl. rdpq_simpl in O1. rdpq_simpl in I1.
  assert (Hp' : (bp + 4 * (1 + Z.of_nat (length args))) mod 8 = 0)
    by (rewrite Z.add_mod, Hp, Hl by lia; reflexivity).
  match goal with
  | |- context [__rdpq_block_flush ?x ?y ?t] =>
      destruct (flush_touch x y t Hp Hp') as (m & p & l & F & T1 & T2 & T3);
      pose proof (flush_cursor_le _ _ _ _ F) as C; rewrite F
  end. cbn [mbind option_bind]. rdpq_simpl. rdpq_simpl in C.
  rdpq_simpl in T1. rdpq_simpl in T2. unfold load in T3. rdpq_simpl in T3.
  eexists. split; [reflexivity|]. rdpq_simpl.
  repeat (split; [reflexivity|]).
  split; [|split; [|exact C]].
  - unfold touches, in_queue, load. rdpq_simpl.
    split; [exact T1|]. split; [exact T2|].
    intros x Q NP. rewrite T3 by lia. apply O1. lia.
  - intros i w H. unfold load. rdpq_simpl.
    pose proof (lookup_lt_Some _ _ _ H) as Lt.
    rewrite T3 by lia. now apply I1.
Qed.

(** [rdpq_static_write] while recording: the command goes to the tail of
    the block. *)
Lemma static_write_recorded Q r cmd a0 args s :
  wf s -> 0 <= r -> block_apart Q (r + 16) s -> rdpq_block s <> NULL ->
  (4 * (1 + Z.of_nat (length args))) mod 8 = 0 ->
  1 + Z.of_nat (length args) <= RDPQ_MAX_COMMAND_SIZE ->
  exists s', rdpq_static_write cmd a0 args s = Some s' /\ wf s' /\
             block_apart Q r s' /\ rdpq_block s' <> NULL /\
             recorded [] [(cmd, a0 :: args)] s s' /\
             emits [(cmd, a0 :: args)] s s'.
Proof.
  intros W Hr I N Even Fit. pose proof I as (A & Sz & HQ & HL & HC & HB).
  destruct (W A) as [Hs Hp]. specialize (Hp N). destruct (HB N) as [[B1 B2] B3].
  destruct (static_write_ok sizeof_aligned cmd a0 args s Hs Hp Even)
    as (s' & E & Em & Hs' & Hp').
  destruct (static_write_mem cmd a0 args s Hp Even HL ltac:(lia))
    as (s3 & E3 & V & P3 & En3 & T3 & Wd & C3).
  rewrite E in E3. unfold recorder_view in V. injection V as Va Vb Vf Vz Vbl Vh Vt.
  pose proof (length_cmd_words cmd a0 args) as Len.
  pose proof (tail_ptr s N) as Wt.
  pose proof T3 as (T3a & T3b & _).
  set (n := 1 + Z.of_nat (length args)) in *.
  exists s'. split; [exact E|]. split; [intros _; auto|].
  destruct (Z.ltb_spec (rdpq_block_end s) (rdpq_block_ptr s + 4 * n)) as [Sw|Ns].
  - symmetry in E3.
    destruct (next_buffer_spec sizeof_aligned s3 ltac:(lia))
      as (s'' & E'' & A1 & Bk1 & F1 & Z1 & BL1 & HP1 & TOP1 & P1 & En1 & T1).
    rewrite E3 in E''. injection E'' as <-.
    pose proof (next_buffer_cursor_le _ _ E3) as C1.
    destruct (align16 (heap_top s3)) as [[Lo Hi] _].
    assert (Nb : rdpq_block s' <> NULL) by (rewrite Bk1; unfold NULL; lia).
    pose proof (tail_ptr s' Nb) as Wt'.
    pose proof T1 as (T1a & T1b & F1b).
    assert (Ap : block_apart Q r s').
    { unfold block_apart. rewrite A1, TOP1, P1, En1, Va.
      unfold RDPQ_MAX_COMMAND_SIZE in *. split_and!; try lia; auto. }
    split; [exact Ap|]. split; [exact Nb|]. split; [|exact Em].
    unfold recorded. cbn [stored_after stored_from]. rewrite Wt, Wt', Len.
    unfold RDPQ_MAX_COMMAND_SIZE in *.
    split; [lia|]. split; [split; [|split]|].
    + apply (words_at_keep _ _ s3); [exact Wd|]. rewrite Len.
      intros a Ha. apply F1b; [unfold in_queue; lia|auto].
    + lia.
    + lia.
    + apply (touches_trans _ s s3).
      * eapply touches_weaken, T3. cbv beta. intros x Hx. lia.
      * eapply touches_weaken, T1. now intros.
  - injection E3 as ->.
    assert (Nb : rdpq_block s3 <> NULL) by congruence.
    pose proof (tail_ptr s3 Nb) as Wt'.
    assert (Ap : block_apart Q r s3).
    { unfold block_apart. rewrite Va, Vb, Vt, P3, En3.
      split_and!; try lia; auto. }
    split; [exact Ap|]. split; [exact Nb|]. split; [|exact Em].
    unfold recorded. cbn [stored_after stored_from]. rewrite Wt, Wt', Len, P3.
    split; [lia|]. split; [split; [exact Wd|split; lia]|].
    eapply touches_weaken, T3. cbv beta. intros x Hx. lia.
Qed.

(** [rdpq_dynamic_write] while recording: the command goes to the queue,
    the block is left alone. *)
Lemma dynamic_write_recorded Q r cmd a0 args s :
  wf s -> 0 <= r -> block_apart Q (r + 4 * (1 + Z.of_nat (length args))) s ->
  let s' := rdpq_dynamic_write cmd a0 args s in
  wf s' /\ block_apart Q r s' /\ rdpq_block s' = rdpq_block s /\
  write_tail s' = write_tail s /\
  recorded [(cmd, a0 :: args)] [] s s' /\ emits [(cmd, a0 :: args)] s s'.
Proof.
  intros W Hr I s'. pose proof I as (A & Sz & HQ & HL & HC & HB).
  destruct (dynamic_write_mem cmd a0 args s) as (C & Wd & F & L & V & P & En).
  destruct (dynamic_write_ok cmd a0 args s) as (Em & _).
  fold s' in C, Wd, F, L, V, P, En, Em. clearbody s'.
  unfold recorder_view in V. injection V as Va Vb Vf Vz Vbl Vh Vt.
  pose proof (length_cmd_words cmd a0 args) as Len. rewrite Len in C.
  assert (Wt : write_tail s' = write_tail s).
  { unfold write_tail. now rewrite Vb, Vt, P. }
  split; [|split; [|split; [exact Vb|split; [exact Wt|split; [|exact Em]]]]].
  - unfold wf. rewrite Va, Vz, Vb, P. exact W.
  - unfold block_apart. rewrite Va, Vb, Vt, P, En, L, C.
    split_and!; try lia; auto.
  - unfold recorded. cbn [stored_after stored_from]. rewrite Wt, Len, L, C.
    split; [|split; [lia|]].
    + exists (rspq_cur_pointer s). split; [lia|]. split; [exact Wd|].
      split; lia.
    + unfold touches, in_queue. rewrite L, C. split; [lia|]. split; [now left|].
      intros x Hq _. apply F. rewrite C. lia.
Qed.

(** [rdpq_static_skip] while recording: the tail moves on, no word is
    written to the block. *)
Lemma static_skip_recorded Q r size s :
  wf s -> 0 <= r -> block_apart Q (r + 8) s -> rdpq_block s <> NULL ->
  (4 * size) mod 8 = 0 -> 0 <= size <= RDPQ_MAX_COMMAND_SIZE ->
  exists s', rdpq_static_skip size s = Some s' /\ wf s' /\
             block_apart Q r s' /\ rdpq_block s' <> NULL /\
             recorded [] [] s s' /\ emits [] s s'.
Proof.
  intros W Hr I N Even Fit. pose proof I as (A & Sz & HQ & HL & HC & HB).
  destruct (W A) as [Hs Hp]. specialize (Hp N). destruct (HB N) as [[B1 B2] B3].
  destruct (static_skip_ok sizeof_aligned size s Hs Hp Even)
    as (s' & E & Em & Hs' & Hp').
  pose proof (tail_ptr s N) as Wt.
  exists s'. split; [exact E|]. split; [intros _; auto|].
  unfold rdpq_static_skip in E.
  set (t := set_rdpq_block_ptr (rdpq_block_ptr s + 4 * size) s) in E.
  assert (Pt : rdpq_block_ptr t = rdpq_block_ptr s + 4 * size) by now destruct s.
  assert (Et : rdpq_block_end t = rdpq_block_end s) by now destruct s.
  assert (Vt : recorder_view t = recorder_view s) by now destruct s.
  assert (Ct : rspq_cur_pointer t = rspq_cur_pointer s) by now destruct s.
  assert (Lt : last_rdp_cmd t = last_rdp_cmd s) by now destruct s.
  assert (Mt : forall a, load a t = load a s) by (intros a; now destruct s).
  clearbody t. unfold recorder_view in Vt. injection Vt as Va Vb Vf Vz Vbl Vh Vtop.
  rewrite Pt, Et in E.
  destruct (Z.ltb_spec (rdpq_block_end s) (rdpq_block_ptr s + 4 * size)) as [Sw|Ns].
  - destruct (next_buffer_spec sizeof_aligned t ltac:(lia))
      as (s'' & E'' & A1 & Bk1 & F1 & Z1 & BL1 & HP1 & TOP1 & P1 & En1 & T1).
    rewrite E in E''. injection E'' as <-.
    pose proof (next_buffer_cursor_le _ _ E) as C1.
    destruct (align16 (heap_top t)) as [[Lo Hi] _].
    assert (Nb : rdpq_block s' <> NULL) by (rewrite Bk1; unfold NULL; lia).
    pose proof (tail_ptr s' Nb) as Wt'.
    pose proof T1 as (T1a & T1b & F1b).
    split; [|split; [exact Nb|split; [|exact Em]]].
    + unfold block_apart. rewrite A1, TOP1, P1, En1, Va.
      unfold RDPQ_MAX_COMMAND_SIZE in *. split_and!; try lia; auto.
    + unfold recorded. cbn [stored_after stored_from]. rewrite Wt, Wt'.
      unfold RDPQ_MAX_COMMAND_SIZE in *.
      split; [lia|]. split; [lia|].
      unfold touches, in_queue in *. rewrite <- Ct, <- Lt.
      split; [lia|]. split; [lia|]. intros x Hq _. rewrite <- Mt.
      apply F1b; auto.
  - injection E as <-.
    assert (Nb : rdpq_block t <> NULL) by congruence.
    pose proof (tail_ptr t Nb) as Wt'.
    split; [|split; [exact Nb|split; [|exact Em]]].
    + unfold block_apart. rewrite Va, Vb, Vtop, Pt, Et, Ct, Lt.
      split_and!; try lia; auto.
    + unfold recorded. cbn [stored_after stored_from]. rewrite Wt, Wt', Pt, Ct.
      split; [lia|]. split; [lia|].
      unfold touches, in_queue. rewrite Ct, Lt. split; [lia|]. split; [now left|].
      intros x _ _. apply Mt.
Qed.

End DeliveryWrites.

Section DeliveryCalls.
Context `{Hdr : Headers}.
Hypothesis sizeof_aligned : sizeof_rdpq_block_t mod 8 = 0.

(** [rdpq_write] while recording: the command goes to the tail of the
    block, allocated first if need be. *)
Lemma rdpq_write_recorded Q r cmd a0 args s :
  wf s -> 0 <= r -> block_apart Q (r + 24) s ->
  (4 * (1 + Z.of_nat (length args))) mod 8 = 0 ->
  1 + Z.of_nat (length args) <= RDPQ_MAX_COMMAND_SIZE ->
  exists s', rdpq_write cmd a0 args s = Some s' /\ wf s' /\
             block_apart Q r s' /\ rdpq_block s' <> NULL /\
             recorded [] [(cmd, a0 :: args)] s s' /\
             emits [(cmd, a0 :: args)] s s'.
Proof.
  intros W Hr I Even Fit. pose proof I as (A & _).
  unfold rdpq_write, in_block. rewrite A.
  replace (r + 24) with (r + 16 + 8) in I by lia.
  destruct (block_check_recorded sizeof_aligned Q (r + 16) s W ltac:(lia) I)
    as (s1 & -> & W1 & I1 & N1 & Wt1 & R1 & Em1).
  cbn [mbind option_bind].
  destruct (static_write_recorded sizeof_aligned Q r cmd a0 args s1 W1 Hr I1 N1
              Even Fit) as (s' & E & W' & I' & N' & R' & Em').
  exists s'. split; [exact E|]. split; [exact W'|]. split; [exact I'|].
  split; [exact N'|]. split.
  - apply (recorded_trans Q (r + 16 + 8) (r + 16) r [] [] [] [(cmd, a0 :: args)]
             s s1 s'); auto; lia.
  - apply (emits_trans [] _ _ _ _ Em1 Em').
Qed.

(** [rdpq_write] outside a recording: the command goes to the queue. *)
Lemma rdpq_write_queued cmd a0 args s :
  rdpq_block_active s = false ->
  rdpq_write cmd a0 args s = Some (rdpq_dynamic_write cmd a0 args s) /\
  queued [(cmd, a0 :: args)] s (rdpq_dynamic_write cmd a0 args s) /\
  rdpq_block_active (rdpq_dynamic_write cmd a0 args s) = false.
Proof.
  intros A. unfold rdpq_write, in_block. rewrite A.
  split; [reflexivity|]. split; [apply dynamic_write_queued|].
  destruct (dynamic_write_ok cmd a0 args s) as ((_ & _ & _ & E & _) & _).
  congruence.
Qed.

(** [rdpq_fixup_write] while recording: the fixup variant goes to the
    queue, the block only moves its tail. *)
Lemma fixup_write_recorded Q r dyn fx skip a0 args s :
  wf s -> 0 <= r ->
  block_apart Q (r + 16 + 4 * (1 + Z.of_nat (length args))) s ->
  (4 * skip) mod 8 = 0 -> 0 <= skip <= RDPQ_MAX_COMMAND_SIZE ->
  exists s', rdpq_fixup_write dyn fx skip a0 args s = Some s' /\ wf s' /\
             block_apart Q r s' /\ recorded [(fx, a0 :: args)] [] s s'.
Proof.
  intros W Hr I Even Fit. pose proof I as (A & _).
  unfold rdpq_fixup_write, in_block. rewrite A.
  set (n := 1 + Z.of_nat (length args)) in *.
  replace (r + 16 + 4 * n) with (r + 8 + 4 * n + 8) in I by lia.
  destruct (block_check_recorded sizeof_aligned Q (r + 8 + 4 * n) s W ltac:(lia) I)
    as (s1 & -> & W1 & I1 & N1 & Wt1 & R1 & Em1).
  cbn [mbind option_bind].
  destruct (dynamic_write_recorded Q (r + 8) fx a0 args s1 W1 ltac:(lia) I1)
    as (W2 & I2 & B2 & Wt2 & R2 & Em2).
  set (s2 := rdpq_dynamic_write fx a0 args s1) in *. clearbody s2.
  destruct (static_skip_recorded sizeof_aligned Q r skip s2 W2 Hr I2
              ltac:(congruence) Even Fit) as (s' & E & W' & I' & N' & R' & Em').
  exists s'. split; [exact E|]. split; [exact W'|]. split; [exact I'|].
  apply (recorded_trans Q (r + 8 + 4 * n + 8) (r + 8 + 4 * n) r
           [] [] [(fx, a0 :: args)] [] s s1 s'); auto; try lia.
  apply (recorded_trans Q (r + 8 + 4 * n) (r + 8) r
           [(fx, a0 :: args)] [] [] [] s1 s2 s'); auto; lia.
Qed.

(** [rdpq_fixup_write] outside a recording. *)
Lemma fixup_write_queued dyn fx skip a0 args s :
  rdpq_block_active s = false ->
  rdpq_fixup_write dyn fx skip a0 args s
  = Some (rdpq_dynamic_write dyn a0 args s) /\
  queued [(dyn, a0 :: args)] s (rdpq_dynamic_write dyn a0 args s).
Proof.
  intros A. unfold rdpq_fixup_write, in_block. rewrite A.
  split; [reflexivity|apply dynamic_write_queued].
Qed.

(** One sync command of [autosync_change] while recording. *)
Lemma sync_recorded Q r (c : bool) (cmd mask : Z) s :
  wf s -> 0 <= r -> block_apart Q (r + 24) s ->
  exists s',
    (if c then
       s1 ← __rdpq_write8 cmd 0 0 s;
       Some (set_rdpq_autosync_state0
               (Z.land (rdpq_autosync_state0 s1) (uint32_t (Z.lnot mask))) s1)
     else Some s) = Some s' /\
    wf s' /\ block_apart Q r s' /\
    recorded [] (if c then [(cmd, [0; 0])] else []) s s' /\
    (c = true \/ s' = s) /\ rdpq_config s' = rdpq_config s.
Proof.
  intros W Hr I. destruct c.
  - unfold __rdpq_write8.
    destruct (rdpq_write_recorded Q r cmd 0 [0] s W Hr I eq_refl)
      as (s1 & -> & W1 & I1 & N1 & R1 & (Cf & _)).
    { unfold RDPQ_MAX_COMMAND_SIZE. cbn. lia. }
    cbn [mbind option_bind]. eexists. split; [reflexivity|].
    split; [now apply wf_state0|]. split; [now apply block_apart_state0|].
    split; [now apply recorded_state0|]. split; [now left|].
    destruct s1. exact Cf.
  - exists s. split; [reflexivity|]. split; [exact W|].
    split; [apply (block_apart_room _ _ _ _ I); lia|].
    split; [apply recorded_refl|]. auto.
Qed.

(** One sync command of [autosync_change] outside a recording. *)
Lemma sync_queued (c : bool) (cmd mask : Z) s :
  rdpq_block_active s = false ->
  exists s',
    (if c then
       s1 ← __rdpq_write8 cmd 0 0 s;
       Some (set_rdpq_autosync_state0
               (Z.land (rdpq_autosync_state0 s1) (uint32_t (Z.lnot mask))) s1)
     else Some s) = Some s' /\
    rdpq_block_active s' = false /\
    queued (if c then [(cmd, [0; 0])] else []) s s' /\
    rdpq_config s' = rdpq_config s.
Proof.
  intros A. destruct c.
  - unfold __rdpq_write8.
    destruct (rdpq_write_queued cmd 0 [0] s A) as (-> & Qd & A').
    destruct (dynamic_write_ok cmd 0 [0] s) as ((Cf & _) & _).
    cbn [mbind option_bind]. eexists. split; [reflexivity|].
    split; [|split; [now apply queued_state0|]].
    + destruct (rdpq_dynamic_write cmd 0 [0] s). exact A'.
    + destruct (rdpq_dynamic_write cmd 0 [0] s). exact Cf.
  - exists s. split; [reflexivity|]. split; [exact A|].
    split; [apply queued_refl|reflexivity].
Qed.

(** [autosync_change] while recording: the sync commands go to the tail of
    the block. *)
Lemma autosync_change_recorded Q r res s :
  wf s -> 0 <= r -> block_apart Q (r + 72) s ->
  exists s', autosync_change res s = Some s' /\ wf s' /\ block_apart Q r s' /\
             recorded [] (sync_cmds res s) s s' /\
             (sync_cmds res s <> [] \/ s' = s).
Proof.
  intros W Hr I. unfold autosync_change, sync_cmds.
  set (tile := syncs_tile res s). set (load := syncs_load res s).
  set (pipe := syncs_pipe res s).
  destruct (Z.eqb_spec (Z.land res (rdpq_autosync_state0 s)) 0) as [Z0|NZ].
  - assert (tile = false /\ load = false /\ pipe = false) as (-> & -> & ->).
    { unfold tile, load, pipe, syncs_tile, syncs_load, syncs_pipe.
      rewrite Z0, !Z.land_0_l. auto. }
    exists s. cbn [app]. split; [reflexivity|]. split; [exact W|].
    split; [apply (block_apart_room _ _ _ _ I); lia|].
    split; [apply recorded_refl|now right].
  - replace (r + 72) with (r + 48 + 24) in I by lia.
    destruct (sync_recorded Q (r + 48) tile RDPQ_CMD_SYNC_TILE AUTOSYNC_TILES s
                W ltac:(lia) I) as (s1 & E1 & W1 & I1 & R1 & K1 & C1).
    fold (syncs_tile res s). fold tile.
    unfold rdpq_sync_tile. rewrite E1. cbn [mbind option_bind].
    replace (r + 48) with (r + 24 + 24) in I1 by lia.
    destruct (sync_recorded Q (r + 24) load RDPQ_CMD_SYNC_LOAD AUTOSYNC_TMEMS s1
                W1 ltac:(lia) I1) as (s2 & E2 & W2 & I2 & R2 & K2 & C2).
    rewrite C1. fold (syncs_load res s). fold load.
    unfold rdpq_sync_load. rewrite E2. cbn [mbind option_bind].
    destruct (sync_recorded Q r pipe RDPQ_CMD_SYNC_PIPE AUTOSYNC_PIPE s2
                W2 Hr I2) as (s3 & E3 & W3 & I3 & R3 & K3 & C3).
    rewrite C2, C1. fold (syncs_pipe res s). fold pipe.
    unfold rdpq_sync_pipe. rewrite E3. clearbody tile load pipe.
    exists s3. split; [reflexivity|]. split; [exact W3|]. split; [exact I3|].
    split.
    + assert (R12 : recorded [] ((if tile then [(RDPQ_CMD_SYNC_TILE, [0; 0])] else [])
                                 ++ (if load then [(RDPQ_CMD_SYNC_LOAD, [0; 0])] else []))
                      s s2).
      { apply (recorded_trans Q (r + 48 + 24) (r + 24 + 24) (r + 24) [] _ [] _ s s1 s2);
          auto; try lia.
        destruct tile; [left; discriminate|].
        destruct K1 as [K1|K1]; [discriminate|]. subst s1.
        right; right; reflexivity. }
      rewrite app_assoc.
      apply (recorded_trans Q (r + 48 + 24) (r + 24) r [] _ [] _ s s2 s3);
        auto; try lia.
      destruct tile; [left; discriminate|].
      destruct K1 as [K1|K1]; [discriminate|]. subst s1.
      destruct load; [left; discriminate|].
      destruct K2 as [K2|K2]; [discriminate|]. subst s2.
      right; right; reflexivity.
    + destruct tile; [left; discriminate|].
      destruct K1 as [K1|K1]; [discriminate|]. subst s1.
      destruct load; [left; discriminate|].
      destruct K2 as [K2|K2]; [discriminate|]. subst s2.
      destruct pipe; [left; discriminate|].
      destruct K3 as [K3|K3]; [discriminate|]. subst s3.
      now right.
Qed.

(** [autosync_change] outside a recording: the sync commands go to the
    queue. *)
Lemma autosync_change_queued res s :
  rdpq_block_active s = false ->
  exists s', autosync_change res s = Some s' /\ rdpq_block_active s' = false /\
             queued (sync_cmds res s) s s'.
Proof.
  intros A. unfold autosync_change, sync_cmds.
  set (tile := syncs_tile res s). set (load := syncs_load res s).
  set (pipe := syncs_pipe res s).
  destruct (Z.eqb_spec (Z.land res (rdpq_autosync_state0 s)) 0) as [Z0|NZ].
  - assert (tile = false /\ load = false /\ pipe = false) as (-> & -> & ->).
    { unfold tile, load, pipe, syncs_tile, syncs_load, syncs_pipe.
      rewrite Z0, !Z.land_0_l. auto. }
    exists s. cbn [app]. split; [reflexivity|]. split; [exact A|].
    apply queued_refl.
  - destruct (sync_queued tile RDPQ_CMD_SYNC_TILE AUTOSYNC_TILES s A)
      as (s1 & E1 & A1 & R1 & C1).
    fold (syncs_tile res s). fold tile.
    unfold rdpq_sync_tile. rewrite E1. cbn [mbind option_bind].
    destruct (sync_queued load RDPQ_CMD_SYNC_LOAD AUTOSYNC_TMEMS s1 A1)
      as (s2 & E2 & A2 & R2 & C2).
    rewrite C1. fold (syncs_load res s). fold load.
    unfold rdpq_sync_load. rewrite E2. cbn [mbind option_bind].
    destruct (sync_queued pipe RDPQ_CMD_SYNC_PIPE AUTOSYNC_PIPE s2 A2)
      as (s3 & E3 & A3 & R3 & C3).
    rewrite C2, C1. fold (syncs_pipe res s). fold pipe.
    unfold rdpq_sync_pipe. rewrite E3.
    exists s3. split; [reflexivity|]. split; [exact A3|].
    apply (queued_trans _ _ s s1); [exact R1|].
    apply (queued_trans _ _ s1 s2); [exact R2|exact R3].
Qed.

End DeliveryCalls.

Section DeliveryTheorems.
Context `{Hdr : Headers} `{DHdr : DrawHeaders}.
Hypothesis sizeof_aligned : sizeof_rdpq_block_t mod 8 = 0.

Lemma queued_use q u s s' : queued q (autosync_use u s) s' -> queued q s s'.
Proof. now destruct s. Qed.

Lemma recorded_use q b u s s' :
  recorded q b (autosync_use u s) s' -> recorded q b s s'.
Proof. now destruct s. Qed.

Lemma block_apart_use Q r u s :
  block_apart Q r s -> block_apart Q r (autosync_use u s).
Proof. now destruct s. Qed.

Lemma wf_use u s : wf s -> wf (autosync_use u s).
Proof. now destruct s. Qed.

(** The body of [__rdpq_set_other_modes] while recording: the command goes
    to the block, its fixup to the queue. *)
Lemma set_other_modes_recorded Q r w0 w1 s :
  wf s -> 0 <= r -> block_apart Q (r + 40) s ->
  exists s',
    (if in_block s then
       s ← __rdpq_block_check s;
       s ← rdpq_static_write RDPQ_CMD_SET_OTHER_MODES w0 [w1] s;
       rdpq_static_skip 2 (rdpq_dynamic_write RDPQ_CMD_SET_OTHER_MODES_FIX w0 [w1] s)
     else Some (rdpq_dynamic_write RDPQ_CMD_SET_OTHER_MODES w0 [w1] s)) = Some s' /\
    wf s' /\ block_apart Q r s' /\
    recorded [(RDPQ_CMD_SET_OTHER_MODES_FIX, [w0; w1])]
             [(RDPQ_CMD_SET_OTHER_MODES, [w0; w1])] s s'.
Proof.
  intros W Hr I. pose proof I as (A & _). unfold in_block. rewrite A.
  replace (r + 40) with (r + 32 + 8) in I by lia.
  destruct (block_check_recorded sizeof_aligned Q (r + 32) s W ltac:(lia) I)
    as (s1 & -> & W1 & I1 & N1 & Wt1 & R1 & _).
  cbn [mbind option_bind].
  replace (r + 32) with (r + 16 + 16) in I1 by lia.
  destruct (static_write_recorded sizeof_aligned Q (r + 16)
              RDPQ_CMD_SET_OTHER_MODES w0 [w1] s1 W1 ltac:(lia) I1 N1 eq_refl)
    as (s2 & -> & W2 & I2 & N2 & R2 & _).
  { unfold RDPQ_MAX_COMMAND_SIZE. cbn. lia. }
  cbn [mbind option_bind].
  destruct (dynamic_write_recorded Q (r + 8) RDPQ_CMD_SET_OTHER_MODES_FIX w0 [w1]
              s2 W2 ltac:(lia)) as (W3 & I3 & B3 & Wt3 & R3 & _).
  { apply (block_apart_room _ _ _ _ I2). cbn. lia. }
  set (s3 := rdpq_dynamic_write RDPQ_CMD_SET_OTHER_MODES_FIX w0 [w1] s2) in *.
  clearbody s3.
  destruct (static_skip_recorded sizeof_aligned Q r 2 s3 W3 Hr I3
              ltac:(congruence) eq_refl)
    as (s' & E & W' & I' & N' & R' & _).
  { unfold RDPQ_MAX_COMMAND_SIZE. lia. }
  exists s'. split; [exact E|]. split; [exact W'|]. split; [exact I'|].
  apply (recorded_trans Q (r + 32 + 8) (r + 16 + 16) r
           [] [] [(RDPQ_CMD_SET_OTHER_MODES_FIX, [w0; w1])]
           [(RDPQ_CMD_SET_OTHER_MODES, [w0; w1])] s s1 s'); auto; try lia.
  apply (recorded_trans Q (r + 16 + 16) (r + 16) r
           [] [(RDPQ_CMD_SET_OTHER_MODES, [w0; w1])]
           [(RDPQ_CMD_SET_OTHER_MODES_FIX, [w0; w1])] [] s1 s2 s');
    auto; try lia.
  apply (recorded_trans Q (r + 16) (r + 8) r
           [(RDPQ_CMD_SET_OTHER_MODES_FIX, [w0; w1])] [] [] [] s2 s3 s');
    auto; lia.
Qed.

(** A pipe change outside a recording: the sync commands, then its own
    command, go to the queue. *)
Lemma run_pipe_change_queued c s :
  rdpq_block_active s = false ->
  exists s', run_pipe_change c s = Some s' /\
             queued (sync_cmds AUTOSYNC_PIPE s ++ pipe_change_cmds c false) s s'.
Proof.
  intros A.
  destruct (autosync_change_queued AUTOSYNC_PIPE s A) as (s1 & E1 & A1 & Q1).
  destruct c; cbn [run_pipe_change pipe_change_cmds];
    unfold __rdpq_set_fill_color, __rdpq_set_fixup_image, __rdpq_set_color_image,
      __rdpq_set_other_modes, __rdpq_modify_other_modes, rdpq_fixup_write8;
    rewrite E1; cbn [mbind option_bind];
    try (match goal with
         | |- context [rdpq_fixup_write ?d ?f ?k ?a ?l s1] =>
             destruct (fixup_write_queued d f k a l s1 A1) as (-> & Q2)
         end;
         eexists; split; [reflexivity|];
         apply (queued_trans _ _ s s1); assumption).
  unfold in_block. rewrite A1. eexists. split; [reflexivity|].
  apply (queued_trans _ _ s s1); [exact Q1|apply dynamic_write_queued].
Qed.

(** A pipe change while recording: the sync commands go to the block, the
    fixup variant of its own command to the queue. *)
Lemma run_pipe_change_recorded Q r c s :
  wf s -> 0 <= r -> block_apart Q (r + 112) s ->
  exists s', run_pipe_change c s = Some s' /\ wf s' /\ block_apart Q r s' /\
             recorded (pipe_change_fixup c)
                      (sync_cmds AUTOSYNC_PIPE s ++ pipe_change_block c) s s'.
Proof.
  intros W Hr I.
  replace (r + 112) with (r + 40 + 72) in I by lia.
  destruct (autosync_change_recorded sizeof_aligned Q (r + 40) AUTOSYNC_PIPE s
              W ltac:(lia) I) as (s1 & E1 & W1 & I1 & R1 & K1).
  assert (Side : forall b2 : list rdp_cmd,
             sync_cmds AUTOSYNC_PIPE s <> [] \/ b2 = []
             \/ write_tail s1 = write_tail s).
  { intros b2. destruct K1 as [K1|K1]; [now left|right; right; now rewrite K1]. }
  destruct c; cbn [run_pipe_change pipe_change_fixup pipe_change_block
                   pipe_change_cmds];
    unfold __rdpq_set_fill_color, __rdpq_set_fixup_image, __rdpq_set_color_image,
      __rdpq_set_other_modes, __rdpq_modify_other_modes, rdpq_fixup_write8;
    rewrite E1; cbn [mbind option_bind];
    try (match goal with
         | |- context [rdpq_fixup_write ?d ?f ?k ?a ?l s1] =>
             destruct (fixup_write_recorded sizeof_aligned Q r d f k a l s1 W1 Hr)
               as (s' & E & W' & I' & R');
             [apply (block_apart_room _ _ _ _ I1); cbn; lia
             |reflexivity
             |unfold RDPQ_MAX_COMMAND_SIZE; lia
             |]
         end;
         exists s'; split; [exact E|]; split; [exact W'|]; split; [exact I'|];
         apply (recorded_trans Q (r + 40 + 72) (r + 40) r [] _ _ [] s s1 s');
         auto; lia).
  destruct (set_other_modes_recorded Q r w0 w1 s1 W1 Hr I1)
    as (s' & E & W' & I' & R').
  exists s'. split; [exact E|]. split; [exact W'|]. split; [exact I'|].
  apply (recorded_trans Q (r + 40 + 72) (r + 40) r [] _ _ _ s s1 s');
    auto; lia.
Qed.

(** C5: [autosync_change res]. With [hit] the dirty bits that [res]
    touches, SYNC_TILE is emitted when [hit] has a tile bit and the tile
    class is enabled, SYNC_LOAD when it has a TMEM bit and the load class
    is enabled, SYNC_PIPE when it has the pipe bit and the pipe class is
    enabled, in that order and nothing else; the dirty bits of each emitted
    class are cleared, those of a class that was not emitted are
    unchanged; when [hit] is empty the state does not change at all.
    Emitted means written where the writer's destination is.  Outside a
    recording the words of these commands are in the CP queue, from the old
    cursor to the new one, and the rest of RDRAM is as it was.  While a
    block is recorded they are in the block: the first at the tail of the
    block, the others after it in this order, before the new tail, and
    RDRAM changes only in the queue and between the two tails (for a
    queue that lies below the heap, with room for three submit
    instructions per command). *)
Theorem autosync_change_syncs (res : Z) (s : rdpq) :
  autosync_classes_ok -> wf s ->
  let hit := Z.land res (rdpq_autosync_state0 s) in
  let tile := negb (Z.land hit AUTOSYNC_TILES =? 0)
              && negb (Z.land (rdpq_config s) RDPQ_CFG_AUTOSYNCTILE =? 0) in
  let load := negb (Z.land hit AUTOSYNC_TMEMS =? 0)
              && negb (Z.land (rdpq_config s) RDPQ_CFG_AUTOSYNCLOAD =? 0) in
  let pipe := negb (Z.land hit AUTOSYNC_PIPE =? 0)
              && negb (Z.land (rdpq_config s) RDPQ_CFG_AUTOSYNCPIPE =? 0) in
  exists s',
    autosync_change res s = Some s' /\
    emitted s' = emitted s
                 ++ (if tile then [(RDPQ_CMD_SYNC_TILE, [0; 0])] else [])
                 ++ (if load then [(RDPQ_CMD_SYNC_LOAD, [0; 0])] else [])
                 ++ (if pipe then [(RDPQ_CMD_SYNC_PIPE, [0; 0])] else []) /\
    rdpq_autosync_state0 s'
    = clear_if pipe AUTOSYNC_PIPE
        (clear_if load AUTOSYNC_TMEMS
           (clear_if tile AUTOSYNC_TILES (rdpq_autosync_state0 s))) /\
    Z.land (rdpq_autosync_state0 s') AUTOSYNC_TILES
    = (if tile then 0 else Z.land (rdpq_autosync_state0 s) AUTOSYNC_TILES) /\
    Z.land (rdpq_autosync_state0 s') AUTOSYNC_TMEMS
    = (if load then 0 else Z.land (rdpq_autosync_state0 s) AUTOSYNC_TMEMS) /\
    Z.land (rdpq_autosync_state0 s') AUTOSYNC_PIPE
    = (if pipe then 0 else Z.land (rdpq_autosync_state0 s) AUTOSYNC_PIPE) /\
    (hit = 0 -> s' = s) /\
    (rdpq_block_active s = false ->
     queued ((if tile then [(RDPQ_CMD_SYNC_TILE, [0; 0])] else [])
             ++ (if load then [(RDPQ_CMD_SYNC_LOAD, [0; 0])] else [])
             ++ (if pipe then [(RDPQ_CMD_SYNC_PIPE, [0; 0])] else [])) s s') /\
    (forall Q, block_apart Q 72 s ->
     recorded []
       ((if tile then [(RDPQ_CMD_SYNC_TILE, [0; 0])] else [])
        ++ (if load then [(RDPQ_CMD_SYNC_LOAD, [0; 0])] else [])
        ++ (if pipe then [(RDPQ_CMD_SYNC_PIPE, [0; 0])] else [])) s s').
Proof.
  intros OK W hit tile load pipe.
  pose proof (autosync_change_dirty sizeof_aligned res s OK W) as H.
  cbv zeta in H. destruct H as (s' & E & Em & St & M1 & M2 & M3 & Z0).
  exists s'. split; [exact E|]. split; [exact Em|]. split; [exact St|].
  split; [exact M1|]. split; [exact M2|]. split; [exact M3|].
  split; [exact Z0|]. split.
  - intros A. destruct (autosync_change_queued res s A) as (t & Et & _ & Qd).
    rewrite E in Et. injection Et as <-. exact Qd.
  - intros Q I.
    destruct (autosync_change_recorded sizeof_aligned Q 0 res s W ltac:(lia) I)
      as (t & Et & _ & _ & Rd & _).
    rewrite E in Et. injection Et as <-. exact Rd.
Qed.

(** X14: [rdpq_sync_full] hands SYNC_FULL to the writer and marks every
    resource clean: whatever resources the next call changes, its
    [autosync_change] emits nothing.  Outside a recording the words of
    SYNC_FULL are in the CP queue at the old cursor.  While a block is
    recorded the words of the fixup variant are in the CP queue, after
    the old cursor, and the words of SYNC_FULL at the tail of the block;
    RDRAM changes only in the queue and between the old and the new tail
    (for a queue that lies below the heap, with 32 bytes to spare). *)
Theorem rdpq_sync_full_resets (callback arg : Z) (s : rdpq) :
  wf s ->
  exists s',
    rdpq_sync_full callback arg s = Some s' /\
    emitted s'
    = emitted s
      ++ (if rdpq_block_active s
          then [(RDPQ_CMD_SYNC_FULL_FIX, [PhysicalAddr callback; uint32_t arg]);
                (RDPQ_CMD_SYNC_FULL, [PhysicalAddr callback; uint32_t arg])]
          else [(RDPQ_CMD_SYNC_FULL, [PhysicalAddr callback; uint32_t arg])]) /\
    rdpq_autosync_state0 s' = 0 /\
    (forall res, autosync_change res s' = Some s') /\
    (rdpq_block_active s = false ->
     queued [(RDPQ_CMD_SYNC_FULL, [PhysicalAddr callback; uint32_t arg])] s s') /\
    (forall Q, block_apart Q 32 s ->
     recorded [(RDPQ_CMD_SYNC_FULL_FIX, [PhysicalAddr callback; uint32_t arg])]
              [(RDPQ_CMD_SYNC_FULL, [PhysicalAddr callback; uint32_t arg])] s s').
Proof.
  intros W.
  destruct (rdpq_sync_full_ok sizeof_aligned callback arg s W)
    as (s' & E & Em & Z0 & K).
  exists s'. split; [exact E|]. split; [exact Em|]. split; [exact Z0|].
  split; [exact K|]. split.
  - intros A.
    assert (E' : rdpq_sync_full callback arg s
                 = Some (set_rdpq_autosync_state0 0
                           (rdpq_dynamic_write RDPQ_CMD_SYNC_FULL
                              (PhysicalAddr callback) [uint32_t arg] s))).
    { unfold rdpq_sync_full, in_block. rewrite A. reflexivity. }
    rewrite E in E'. injection E' as ->.
    apply queued_state0, dynamic_write_queued.
  - intros Q I. pose proof I as (A & _).
    assert (I0 : block_apart Q (24 + 8) s) by exact I.
    destruct (block_check_recorded sizeof_aligned Q 24 s W ltac:(lia) I0)
      as (s1 & E1 & W1 & I1 & N1 & Wt1 & R1 & _).
    set (w0 := PhysicalAddr callback). set (w1 := uint32_t arg).
    destruct (dynamic_write_recorded Q 16 RDPQ_CMD_SYNC_FULL_FIX w0 [w1] s1 W1
                ltac:(lia)) as (W2 & I2 & B2 & Wt2 & R2 & _).
    { apply (block_apart_room _ _ _ _ I1). cbn. lia. }
    destruct (static_write_recorded sizeof_aligned Q 0 RDPQ_CMD_SYNC_FULL w0 [w1]
                (rdpq_dynamic_write RDPQ_CMD_SYNC_FULL_FIX w0 [w1] s1)
                W2 ltac:(lia)) as (s3 & E3 & W3 & I3 & N3 & R3 & _).
    { apply (block_apart_room _ _ _ _ I2). lia. }
    { congruence. }
    { reflexivity. }
    { unfold RDPQ_MAX_COMMAND_SIZE. cbn. lia. }
    assert (E' : rdpq_sync_full callback arg s
                 = Some (set_rdpq_autosync_state0 0 s3)).
    { unfold rdpq_sync_full, in_block. rewrite A, E1. cbn [mbind option_bind].
      fold w0 w1. rewrite E3. reflexivity. }
    rewrite E in E'. injection E' as ->.
    apply recorded_state0.
    apply (recorded_trans Q 32 24 0 [] []
             [(RDPQ_CMD_SYNC_FULL_FIX, [w0; w1])] [(RDPQ_CMD_SYNC_FULL, [w0; w1])]
             s s1 s3); auto; try lia.
    apply (recorded_trans Q 24 16 0
             [(RDPQ_CMD_SYNC_FULL_FIX, [w0; w1])] []
             [] [(RDPQ_CMD_SYNC_FULL, [w0; w1])] s1
             (rdpq_dynamic_write RDPQ_CMD_SYNC_FULL_FIX w0 [w1] s1) s3);
      auto; lia.
Qed.

(** X15: After a textured rectangle the pipe is in use: the first call that
    changes a pipe register emits SYNC_PIPE, and only that sync, before
    its own commands, and the next such call emits none.
    [__rdpq_set_scissor] in between emits no sync and leaves the pipe
    marked.  Outside a recording the words of each call's commands are in
    the CP queue, in the order of emission, from the cursor before the call
    to the cursor after it.  While a block is recorded the fixup variants
    are in the CP queue and SYNC_PIPE, with SET_OTHER_MODES after it, in
    the block from the tail before the call on (for a queue that lies
    below the heap, with 256 bytes to spare). *)
Theorem pipe_change_after_draw (w0 w1 w2 w3 : Z) (c c' : pipe_change) (s : rdpq) :
  autosync_classes_ok -> wf s ->
  AUTOSYNC_PIPE <> 0 ->
  Z.land (rdpq_config s) RDPQ_CFG_AUTOSYNCPIPE <> 0 ->
  exists s1 s2 s3,
    __rdpq_texture_rectangle w0 w1 w2 w3 s = Some s1 /\
    run_pipe_change c s1 = Some s2 /\
    run_pipe_change c' s2 = Some s3 /\
    emitted s2 = emitted s1 ++ (RDPQ_CMD_SYNC_PIPE, [0; 0])
                   :: pipe_change_cmds c (rdpq_block_active s) /\
    emitted s3 = emitted s2 ++ pipe_change_cmds c' (rdpq_block_active s) /\
    (forall x0 x1, exists t,
      __rdpq_set_scissor x0 x1 s1 = Some t /\
      emitted t = emitted s1
                  ++ [(if rdpq_block_active s then RDPQ_CMD_SET_SCISSOR_EX_FIX
                       else RDPQ_CMD_SET_SCISSOR_EX, [x0; x1])] /\
      rdpq_autosync_state0 t = rdpq_autosync_state0 s1 /\
      (rdpq_block_active s = false ->
       queued [(RDPQ_CMD_SET_SCISSOR_EX, [x0; x1])] s1 t) /\
      (forall Q, block_apart Q 256 s ->
       recorded [(RDPQ_CMD_SET_SCISSOR_EX_FIX, [x0; x1])] [] s1 t)) /\
    (rdpq_block_active s = false ->
     queued [(RDPQ_CMD_TEXTURE_RECTANGLE_EX, [w0; w1; w2; w3])] s s1 /\
     queued ((RDPQ_CMD_SYNC_PIPE, [0; 0]) :: pipe_change_cmds c false) s1 s2 /\
     queued (pipe_change_cmds c' false) s2 s3) /\
    (forall Q, block_apart Q 256 s ->
     recorded [(RDPQ_CMD_TEXTURE_RECTANGLE_EX_FIX, [w0; w1; w2; w3])] [] s s1 /\
     recorded (pipe_change_fixup c)
              ((RDPQ_CMD_SYNC_PIPE, [0; 0]) :: pipe_change_block c) s1 s2 /\
     recorded (pipe_change_fixup c') (pipe_change_block c') s2 s3).
Proof.
  intros OK W NZ CF.
  destruct (pipe_change_after_draw_ok sizeof_aligned w0 w1 w2 w3 c c' s OK W NZ CF)
    as (s1 & s2 & s3 & E1 & E2 & E3 & W1 & SC1 & SC2 & Em2 & Em3 & Sc).
  exists s1, s2, s3. split; [exact E1|]. split; [exact E2|]. split; [exact E3|].
  split; [exact Em2|]. split; [exact Em3|].
  unfold __rdpq_texture_rectangle in E1.
  set (u := Z.lor (Z.lor AUTOSYNC_PIPE _) _) in E1.
  assert (Au : rdpq_block_active (autosync_use u s) = rdpq_block_active s)
    by now destruct s.
  (* outside a recording *)
  assert (Dyn : rdpq_block_active s = false ->
            queued [(RDPQ_CMD_TEXTURE_RECTANGLE_EX, [w0; w1; w2; w3])] s s1 /\
            rdpq_block_active s1 = false).
  { intros A. rewrite <- Au in A.
    destruct (fixup_write_queued RDPQ_CMD_TEXTURE_RECTANGLE_EX
                RDPQ_CMD_TEXTURE_RECTANGLE_EX_FIX 4 w0 [w1; w2; w3]
                (autosync_use u s) A) as (E1' & Q1).
    rewrite E1 in E1'. injection E1' as ->.
    split; [now apply queued_use in Q1|].
    destruct (dynamic_write_ok RDPQ_CMD_TEXTURE_RECTANGLE_EX w0 [w1; w2; w3]
                (autosync_use u s)) as ((_ & _ & _ & A' & _) & _).
    congruence. }
  (* while recording *)
  assert (Rec : forall Q, block_apart Q 256 s ->
            recorded [(RDPQ_CMD_TEXTURE_RECTANGLE_EX_FIX, [w0; w1; w2; w3])] [] s s1
            /\ block_apart Q 224 s1).
  { intros Q I. apply (block_apart_use Q 256 u) in I.
    destruct (fixup_write_recorded sizeof_aligned Q 224
                RDPQ_CMD_TEXTURE_RECTANGLE_EX RDPQ_CMD_TEXTURE_RECTANGLE_EX_FIX 4
                w0 [w1; w2; w3] (autosync_use u s) (wf_use u s W) ltac:(lia) I
                eq_refl) as (t & Et & _ & It & Rt).
    { unfold RDPQ_MAX_COMMAND_SIZE. lia. }
    rewrite E1 in Et. injection Et as <-.
    split; [now apply recorded_use in Rt|exact It]. }
  split; [|split].
  - intros x0 x1. destruct (Sc x0 x1) as (t & Et & Emt & Stt).
    exists t. split; [exact Et|]. split; [exact Emt|]. split; [exact Stt|].
    unfold __rdpq_set_scissor, rdpq_fixup_write8 in Et. split.
    + intros A. destruct (Dyn A) as (_ & A1).
      destruct (fixup_write_queued RDPQ_CMD_SET_SCISSOR_EX
                  RDPQ_CMD_SET_SCISSOR_EX_FIX 2 x0 [x1] s1 A1) as (Et' & Qt).
      rewrite Et in Et'. injection Et' as ->. exact Qt.
    + intros Q I. destruct (Rec Q I) as (_ & I1).
      destruct (fixup_write_recorded sizeof_aligned Q 0 RDPQ_CMD_SET_SCISSOR_EX
                  RDPQ_CMD_SET_SCISSOR_EX_FIX 2 x0 [x1] s1 W1 ltac:(lia))
        as (t' & Et' & _ & _ & Rt).
      { apply (block_apart_room _ _ _ _ I1). cbn. lia. }
      { reflexivity. }
      { unfold RDPQ_MAX_COMMAND_SIZE. lia. }
      rewrite Et in Et'. injection Et' as <-. exact Rt.
  - intros A. destruct (Dyn A) as (Q1 & A1). split; [exact Q1|].
    destruct (run_pipe_change_queued c s1 A1) as (t2 & Et2 & Q2).
    rewrite E2 in Et2. injection Et2 as <-. rewrite SC1 in Q2.
    split; [exact Q2|].
    assert (A2 : rdpq_block_active s2 = false).
    { destruct (run_pipe_change_ok sizeof_aligned c s1 W1)
        as (t & Et & _ & At & _). rewrite E2 in Et. injection Et as <-.
      congruence. }
    destruct (run_pipe_change_queued c' s2 A2) as (t3 & Et3 & Q3).
    rewrite E3 in Et3. injection Et3 as <-. rewrite SC2 in Q3. exact Q3.
  - intros Q I. destruct (Rec Q I) as (R1 & I1). split; [exact R1|].
    destruct (run_pipe_change_recorded Q 112 c s1 W1 ltac:(lia) I1)
      as (t2 & Et2 & W2 & I2 & R2).
    rewrite E2 in Et2. injection Et2 as <-. rewrite SC1 in R2.
    split; [exact R2|].
    destruct (run_pipe_change_recorded Q 0 c' s2 W2 ltac:(lia) I2)
      as (t3 & Et3 & _ & _ & R3).
    rewrite E3 in Et3. injection Et3 as <-. rewrite SC2 in R3. exact R3.
Qed.

End DeliveryTheorems.

(** ** The delivery theorems on the sample states *)

Section DeliveryWitnesses.
#[local] Existing Instance sample_headers.
#[local] Existing Instance sample_draw_headers.

(** In [sample_recording] the queue ends at 0x1008 and the heap starts at
    0x100000. *)
Lemma block_apart_sample_recording : block_apart 0x2000 256 sample_recording.
Proof.
  unfold block_apart. split; [reflexivity|].
  split; [vm_compute; discriminate|].
  split; [vm_compute; split; [reflexivity|discriminate]|].
  split; [vm_compute; reflexivity|].
  split; [vm_compute; discriminate|].
  intros _. vm_compute. repeat split; discriminate.
Qed.

Lemma autosync_change_syncs_witness :
  sizeof_rdpq_block_t mod 8 = 0 /\
  (exists s',
     autosync_change 0x100FF sample_dirty = Some s' /\
     emitted s' = [(0x28, [0; 0]); (0x27, [0; 0])] /\
     rdpq_autosync_state0 s' = 0 /\
     rspq_cur_pointer s' = 0x1010 /\
     load 0x1000 s' = 0xE8000000 /\ load 0x1004 s' = 0 /\
     load 0x1008 s' = 0xE7000000 /\ load 0x100C s' = 0) /\
  (block_apart 0x2000 72 sample_recording /\
   exists s',
     autosync_change 0x1 sample_recording = Some s' /\
     emitted s' = emitted sample_recording ++ [(0x28, [0; 0])] /\
     load (rdpq_block_ptr sample_recording) s' = 0xE8000000 /\
     load (rdpq_block_ptr sample_recording + 4) s' = 0 /\
     rdpq_block_ptr sample_recording + 8 <= write_tail s').
Proof.
  assert (A : sizeof_rdpq_block_t mod 8 = 0) by reflexivity.
  assert (I : block_apart 0x2000 72 sample_recording)
    by (apply (block_apart_room _ _ _ _ block_apart_sample_recording); lia).
  split; [exact A|]. split; [|split; [exact I|]].
  - destruct (autosync_change_syncs A 0x100FF sample_dirty classes_ok_sample)
      as (s' & E & Em & St & _ & _ & _ & _ & Qd & _).
    { intros B. vm_compute in B. discriminate. }
    destruct (Qd eq_refl) as (C & Wd & _).
    exists s'. split; [exact E|]. split; [exact Em|]. split; [exact St|].
    split; [exact C|].
    split; [exact (Wd 0%nat _ eq_refl)|]. split; [exact (Wd 1%nat _ eq_refl)|].
    split; [exact (Wd 2%nat _ eq_refl)|exact (Wd 3%nat _ eq_refl)].
  - destruct (autosync_change_syncs A 0x1 sample_recording classes_ok_sample
                wf_sample_recording)
      as (s' & E & Em & _ & _ & _ & _ & _ & _ & Rd).
    destruct (Rd 0x2000 I) as (_ & Bf & _).
    change (stored_from (rdpq_block_ptr sample_recording) [(0x28, [0; 0])]
              (write_tail s') s') in Bf.
    destruct Bf as (Wd & _ & Le).
    exists s'. split; [exact E|]. split; [exact Em|].
    split; [exact (Wd 0%nat _ eq_refl)|]. split; [exact (Wd 1%nat _ eq_refl)|].
    exact Le.
Defined.

Lemma rdpq_sync_full_resets_witness :
  (exists s',
     rdpq_sync_full 0 0 sample_init = Some s' /\
     rdpq_autosync_state0 s' = 0 /\
     rspq_cur_pointer s' = 0x1008 /\
     load 0x1000 s' = 0xE9000000 /\ load 0x1004 s' = 0) /\
  (block_apart 0x2000 32 sample_recording /\
   exists s',
     rdpq_sync_full 0 0 sample_recording = Some s' /\
     rdpq_autosync_state0 s' = 0 /\
     autosync_change 0xFFFFFFFF s' = Some s' /\
     recorded [(0x2A, [0; 0])] [(0x29, [0; 0])] sample_recording s' /\
     load (rdpq_block_ptr sample_recording) s' = 0xE9000000 /\
     load (rdpq_block_ptr sample_recording + 4) s' = 0).
Proof.
  assert (A : sizeof_rdpq_block_t mod 8 = 0) by reflexivity.
  assert (I : block_apart 0x2000 32 sample_recording)
    by (apply (block_apart_room _ _ _ _ block_apart_sample_recording); lia).
  split; [|split; [exact I|]].
  - destruct (rdpq_sync_full_resets A 0 0 sample_init wf_sample_init)
      as (s' & E & _ & Z0 & _ & Qd & _).
    destruct (Qd eq_refl) as (C & Wd & _).
    exists s'. split; [exact E|]. split; [exact Z0|]. split; [exact C|].
    split; [exact (Wd 0%nat _ eq_refl)|exact (Wd 1%nat _ eq_refl)].
  - destruct (rdpq_sync_full_resets A 0 0 sample_recording wf_sample_recording)
      as (s' & E & _ & Z0 & K & _ & Rd).
    pose proof (Rd 0x2000 I) as R.
    change (recorded [(0x2A, [0; 0])] [(0x29, [0; 0])] sample_recording s') in R.
    pose proof R as (_ & Bf & _).
    change (stored_from (rdpq_block_ptr sample_recording) [(0x29, [0; 0])]
              (write_tail s') s') in Bf.
    destruct Bf as (Wd & _).
    exists s'. split; [exact E|]. split; [exact Z0|]. split; [apply K|].
    split; [exact R|].
    split; [exact (Wd 0%nat _ eq_refl)|exact (Wd 1%nat _ eq_refl)].
Defined.

Lemma pipe_change_after_draw_witness :
  (exists s1 s2 s3,
     __rdpq_texture_rectangle 0 0 0 0 sample_init = Some s1 /\
     run_pipe_change (SetOtherModes 0 0) s1 = Some s2 /\
     run_pipe_change (SetFillColor 0) s2 = Some s3 /\
     emitted s2 = emitted s1 ++ [(0x27, [0; 0]); (0x2F, [0; 0])] /\
     emitted s3 = emitted s2 ++ [(0x16, [0; 0])] /\
     rspq_cur_pointer s1 = 0x1010 /\ load 0x1000 s1 = 0xD0000000 /\
     rspq_cur_pointer s2 = 0x1020 /\
     load 0x1010 s2 = 0xE7000000 /\ load 0x1018 s2 = 0xEF000000 /\
     rspq_cur_pointer s3 = 0x1028 /\ load 0x1020 s3 = 0xD6000000) /\
  (block_apart 0x2000 256 sample_recording /\
   exists s1 s2 s3,
     __rdpq_texture_rectangle 0 0 0 0 sample_recording = Some s1 /\
     run_pipe_change (SetOtherModes 0 0) s1 = Some s2 /\
     run_pipe_change (SetFillColor 0) s2 = Some s3 /\
     recorded [(0x11, [0; 0; 0; 0])] [] sample_recording s1 /\
     recorded [(0x01, [0; 0])] [(0x27, [0; 0]); (0x2F, [0; 0])] s1 s2 /\
     recorded [(0x17, [0; 0])] [] s2 s3 /\
     load (write_tail s1) s2 = 0xE7000000).
Proof.
  assert (A : sizeof_rdpq_block_t mod 8 = 0) by reflexivity.
  split; [|split; [exact block_apart_sample_recording|]].
  - destruct (pipe_change_after_draw A 0 0 0 0 (SetOtherModes 0 0) (SetFillColor 0)
                sample_init classes_ok_sample wf_sample_init)
      as (s1 & s2 & s3 & E1 & E2 & E3 & M2 & M3 & _ & Qd & _).
    { vm_compute. discriminate. }
    { vm_compute. discriminate. }
    destruct (Qd eq_refl) as ((C1 & Wd1 & _) & (C2 & Wd2 & _) & (C3 & Wd3 & _)).
    change (rspq_cur_pointer s1 = 0x1010) in C1.
    rewrite C1 in C2, Wd2. change (rspq_cur_pointer s2 = 0x1020) in C2.
    rewrite C2 in C3, Wd3. change (rspq_cur_pointer s3 = 0x1028) in C3.
    exists s1, s2, s3. split; [exact E1|]. split; [exact E2|]. split; [exact E3|].
    split; [exact M2|]. split; [exact M3|]. split; [exact C1|].
    split; [exact (Wd1 0%nat _ eq_refl)|]. split; [exact C2|].
    split; [exact (Wd2 0%nat _ eq_refl)|]. split; [exact (Wd2 2%nat _ eq_refl)|].
    split; [exact C3|exact (Wd3 0%nat _ eq_refl)].
  - destruct (pipe_change_after_draw A 0 0 0 0 (SetOtherModes 0 0) (SetFillColor 0)
                sample_recording classes_ok_sample wf_sample_recording)
      as (s1 & s2 & s3 & E1 & E2 & E3 & _ & _ & _ & _ & Rd).
    { vm_compute. discriminate. }
    { vm_compute. discriminate. }
    destruct (Rd 0x2000 block_apart_sample_recording) as (R1 & R2 & R3).
    pose proof R2 as (_ & (Wd & _) & _).
    exists s1, s2, s3. split; [exact E1|]. split; [exact E2|]. split; [exact E3|].
    split; [exact R1|]. split; [exact R2|]. split; [exact R3|].
    rewrite <- (Z.add_0_r (write_tail s1)). exact (Wd 0%nat _ eq_refl).
Defined.

End DeliveryWitnesses.
